(* ===== verification/_CoqProject ===== *)
-Q . S2P
Prelude.v
PyDict.v
Json.v
Paths.v
PyInt.v
Models.v
Lifecycle.v
Planes.v
Agents.v
ToolPlane.v
Policy.v
Binding.v
Authority.v
Evidence.v
Capabilities.v
CapabilityModels.v
NetworkGuard.v
FilesystemGuard.v
ResourceControls.v
Descriptor.v
Executor.v
ProcessSandbox.v
Findings.v
Risk.v
Sessions.v
Detection.v
Coordinator.v
ResourceIdentity.v
SandboxRunner.v
AuditTrail.v
Runtime.v
RuntimeSafety.v
RuntimeLiveness.v
AgentRuntime.v
Auth.v
Bootstrap.v
Scenarios.v
ScenarioRunner.v
Telemetry.v
SqlStore.v
SqlSessions.v
SqlPlanes.v
Approvals.v
SqlApprovals.v
Management.v
Containment.v
Platform.v
Composition.v
Version.v
SqlEvidence.v
SqlTools.v
Inventory.v
DevCredentials.v
Schema.v
Migrations.v
GenerationMigration.v
Defaults.v
Probes.v
Providers.v
SqlEngine.v
