(* ===== verification/Prelude.v ===== *)
(** * Verification of the enterprise agent security platform

    The platform (the Python package under [src/app]) runs AI agents whose tool calls pass a
    chain of controls before anything executes: an agent must be registered and active on
    two lifecycle planes, the tool version must be governed and approved, the session must
    be the agent's, detection and risk must not object, and only then is a short-lived
    signed grant issued, which a trust boundary claims once before it runs the tool in a
    confined child process.  This development models that chain as it is written and proves
    what each control promises and what the whole chain guarantees.

    ** Conventions

    A component's state is a record, a public operation one definition, composed the way
    the code calls it.  A call that may raise and write is a [Comp S A := S -> S * result A]:
    raising keeps what was already written, as in Python.  A method that holds its
    component's lock for its whole body is one step; a service that calls several stores is
    the sequence of those steps.  Clock readings, random identifiers and the answers of the
    operating system are arguments.  Timestamps are microseconds in [Z], integers are
    unbounded like Python's, texts are lists of one-byte code points; error messages are
    left out and exception classes are the constructors of [exn].  A [dict] whose order can
    be observed is a [PyDict.pydict], the others are [gmap]s.  Frozen models are values, so
    the defensive copies the repositories make are the identity.

    Code outside the repository is a parameter with its documented laws as named
    hypotheses: HMAC and SHA-256, [uuid5], the text of a float, JSON parsing, UTF-8
    decoding, name resolution, the filesystem, [setrlimit], the HTTP and model clients, the
    database engine, which may refuse any transaction or schema change.  [hashlib] collisions
    are only excluded where a theorem says so.

    ** Files and the code they model

    Shared: [Prelude] (exceptions, results, computations, sorting, strings), [PyDict]
    (ordered dictionaries), [Json] ([json.dumps], canonical form), [Paths] (lexical
    [pathlib]), [PyInt] ([int(text)]), [Models] (enumerations and records of [models/]).

    Lifecycle.  [Lifecycle] is [models/agent_administrative.py],
    [models/agent_enforcement.py] and [policy/lifecycle_authorization.py]; [Planes] the
    repository protocols as classes with their contracts as laws, and the in-memory
    adapters as instances; [Agents] is [services/agent_service.py] over any repositories
    that satisfy the contracts; [Coordinator] is [services/enforcement_coordinator.py].

    Governance.  [ToolPlane] is the tool repository, [services/tool_service.py] and
    [registry/tool_registry.py]; [Policy] is [policy/policy_engine.py] and
    [auth/authorization_service.py].

    Authority and execution.  [Binding] is [models/execution_binding.py]; [Authority] is
    [runtime/execution_authority.py]; [Capabilities] and [CapabilityModels] are
    [models/execution_capability.py] and [runtime/capability_registry.py]; [Evidence] is
    the execution evidence store and its reconciler; [Executor] is
    [runtime/tool_executor.py]; [ResourceIdentity] is
    [runtime/filesystem_resource_identity.py].

    Sandbox ([runtime/sandbox]).  [NetworkGuard], [FilesystemGuard], [ResourceControls],
    [Descriptor], [ProcessSandbox] (the parent) and [SandboxRunner] (the child, with the
    packaged tools of [tools/]) are the modules of the same names.

    Evidence and posture.  [Findings], [Risk] ([risk_service.py],
    [agent_risk_aggregate.py], [risk_aggregator.py]), [Sessions] (session repository and
    service), [Detection] ([detection/] and its service), [AuditTrail] (audit and response
    services).

    The pipeline.  [Runtime] is [RuntimeService.execute] over one state of each component
    above; [RuntimeSafety] and [RuntimeLiveness] hold its theorems.  [Bootstrap] is
    [services/runtime_bootstrap.py] and the constructor of [RuntimeService]; [Defaults] is
    [RuntimeService.create_default] and its registration helpers.

    Agents.  [AgentRuntime] is [services/agent_runtime_service.py] and [agents/], from a
    query to a governed execution; [Providers] is the language model services and adapters
    ([providers/], [services/ollama_service.py], [services/gemini_service.py]); [Scenarios]
    and [ScenarioRunner] are the attack scenarios, their sandbox and their runner;
    [Approvals] is the approval continuation state machine and its in-memory store.

    The boundary.  [Auth] is [auth/] (tokens, principals, dependencies); [Management],
    [Containment] and [Platform] are [api/] and [main.py]: views, containment, the routes
    with their dependencies; [Inventory] is the agent locks, the model registry, capability
    discovery and the provider factory; [Telemetry] is the dispatcher with its threads;
    [Composition] is [config/settings.py], [repositories/factory.py] and
    [repositories/composition_validation.py]; [Version] is [version.py]; [DevCredentials] is
    [scripts/dev_credentials.py].

    Durable storage ([repositories/sql], [alembic]).  [SqlStore] is the transactional
    boundary and the theory of histories with an engine that may refuse any transaction;
    [SqlSessions], [SqlPlanes], [SqlApprovals], [SqlEvidence] and [SqlTools] are the
    adapters; [SqlEngine] the options an engine is created with.  [Schema] is tables,
    constraints and schema changes as data, over a class [Engine] of what an engine refuses;
    [Migrations] the ten revisions and the schema of [repositories/sql/models];
    [GenerationMigration] relates revision 0008 to the agent service.

    Probes.  [Probes] is [runtime/sandbox/testing_registry.py], the handlers the isolation
    tests run in the child.

    ** What is shown

    - The pipeline ([RuntimeSafety], [RuntimeLiveness]): a grant implies every control held
      and a quiet request gets one; a critical posture suspends the agent and leaves it no
      usable grant before the request returns; refusals are denials; every outcome is
      audited.
    - Authority: over any history a grant is claimed at most once, within its lifetime, for
      exactly the signed operation, and not after its agent's issuance was suspended.
    - The executor: what reaches the sandbox was claimed in that call under the grant's
      capabilities, once; an output is only returned when its evidence was recorded.
    - The sandbox: egress stays on the allowlist whatever the spelling of an address,
      a read-only workspace is not written, required controls are in force when the child
      starts, an execution terminates, leaves no process behind and answers within bounds,
      and the child's answers come from the workspace.
    - Lifecycle: compare-and-set serialises transitions, ledgers replay to the states,
      DISABLED is terminal, recovery does exactly what it documents.
    - Evidence and posture: evidence sequences and baselines split the history correctly,
      the incremental posture equals a rebuild, sessions never change hands, pruning is
      invisible to detection, a crossing is recorded once.
    - Durable adapters refine the in-memory ones over any history of calls and engine
      refusals.
    - Composition: nothing an agent asks for runs except what the pipeline granted in that
      call; a route is reached only with the role and identity it requires, and containment
      is lifted by an administrator only; bootstrapping never loosens a control; the process
      starts only with an acceptable configuration; a scenario's verdict is earned by what
      the platform recorded; the dispatcher neither loses nor invents an event.
    - Migrations: no upgrade loses or rewrites a stored row, the chain reaches the schema of
      the models on SQLite and every downgrade leads back, the recovery generation of 0008
      is the service's own; on PostgreSQL the chain stops at the second revision.
    - Probes: under a read-only, offline capability no probe changes, reads or reaches
      anything the capability excludes.

    ** Bounds

    Fuel that a result could depend on is only the number of rounds of
    [ProcessSandbox.collect]: a round is one pass of the output collection loop, and
    [execution_terminates] shows that the rounds up to the first one whose clock reads the
    deadline are enough, so the result does not depend on the fuel beyond that.  The message
    redaction of [SandboxRunner] and the hexadecimal text of [PyInt] step through a text or a
    number with its own length as fuel, which each step shortens.  Every other recursion is
    structural (ancestors of a path, segments, rows, calls of a history).  Python integers do
    not overflow; bounds the code imposes (grant lifetime, output size, ports, retention, evidence capacity) are part of
    the statements.

    ** Not modelled

    FastAPI's request parsing and response serialisation, argument parsing and printing of
    the scripts ([scripts/runtime_demo.py] is only that), and [alembic/env.py], which opens
    the connection the revisions run over.  The signatures of [runtime/contracts.py] and
    [repositories/interfaces], which have no bodies: those with more than one implementation
    are the classes of [Planes], the others are met by the one model of their
    implementation.  The classes of [runtime/exceptions.py] carry a message and identifiers,
    and messages are left out everywhere.  [models/scenario_result.py] is not used by the
    program, and the console under [frontend/] is another one.  Threads are modelled where
    the code interleaves without a lock (the dispatcher, the process sandbox); elsewhere a
    method under its lock is one step.  *)

From stdpp Require Export base tactics option list gmap strings sorting.
From Stdlib Require Export ZArith Lia Ascii.
From Stdlib Require String.

#[global] Set Default Goal Selector "!".

(** ** Exceptions

    Every exception class the modelled code raises, one constructor each.  Message texts
    are left out; the fields the handlers read are kept. *)

Inductive ExecutionRefusalReason :=
| NO_AUTHORITY | MISSING_GRANT | MALFORMED_GRANT | FOREIGN_AUTHORITY | INVALID_SIGNATURE
| EXPIRED | CONSUMED | REVOKED | TOOL_MISMATCH | RESOURCE_MISMATCH | PARAMETER_MISMATCH
| IDENTITY_MISMATCH | INVALID_REQUEST.

#[global] Instance ExecutionRefusalReason_eq_dec : EqDecision ExecutionRefusalReason.
Proof. solve_decision. Defined.

Inductive exn :=
| ValueError | KeyError | TypeError | PermissionError
| AgentAlreadyRegisteredError | AgentAlreadyExistsError
| AgentNotFoundError | AgentNotSuspendedError
| EnforcementConcurrencyError | AdministrativeConcurrencyError
| IllegalAdministrativeTransitionError
| EnforcementStateUnavailableError | AdministrativeStateUnavailableError
| AdministrativeTransitionInvariantError
| ReinstatementIncompleteError
| SessionAlreadyExistsError | SessionNotFoundError
| SessionBindingError (session_id owner_agent_id requested_agent_id : string)
| SessionTerminalError (session_id owner_agent_id requested_agent_id : string)
| SessionRepositoryError | HorizonUnavailableError
| ToolAlreadyExistsError | ToolNotFoundError
| DuplicateToolRegistrationError | ToolNotRegisteredError
| ToolVersionMismatchError | AmbiguousToolVersionError | ToolMetadataValidationError
| ToolDisabledError
| ExecutionBindingError (reason : ExecutionRefusalReason)
| ExecutionBindingValidationError
| CapabilityProfileNotFoundError | CapabilityDigestMismatchError
| SandboxUnavailableError | SandboxTimeoutError | SandboxResourceExhaustedError
| SandboxIsolationError | TimeoutError | InterruptedError
| ToolExecutionError (evidence_failure : option string)
| ExecutionEvidenceIntegrityError | ExecutionEvidenceUnavailableError
| ExecutionReceiptNotFoundError | ExecutionReceiptDuplicateError
| ExecutionReceiptTransitionError
| ProjectionInvariantError | PostureReconciliationError
| OSError | FileNotFoundError | RuntimeError | GaiError
| AmbiguousAssessmentScopeError
| FilesystemResourceIdentityError
| OtherException (class : string).

#[global] Instance exn_eq_dec : EqDecision exn.
Proof. solve_decision. Defined.

(** [isinstance(exc, OSError)]: the errors of the filesystem, of name resolution and of
    timeouts are all [OSError]s. *)
Definition is_os_error (e : exn) : bool :=
  match e with
  | OSError | FileNotFoundError | PermissionError | TimeoutError | InterruptedError
  | GaiError => true
  | _ => false
  end.

(** ** Results and stateful computations

    A Python call returns a value or raises.  Raising does not roll back what the call
    already wrote, so a computation returns the state reached in both cases. *)

Inductive result (A : Type) :=
| Ok (a : A)
| Err (e : exn).
Arguments Ok {A} a.
Arguments Err {A} e.

#[global] Instance result_eq_dec `{EqDecision A} : EqDecision (result A).
Proof. solve_decision. Defined.

#[global] Instance result_ret : MRet result := @Ok.
#[global] Instance result_bind : MBind result := fun A B f m =>
  match m with Ok a => f a | Err e => Err e end.

Definition is_ok {A} (r : result A) : bool :=
  match r with Ok _ => true | Err _ => false end.

Definition of_option {A} (e : exn) (o : option A) : result A :=
  match o with Some a => Ok a | None => Err e end.

Definition Comp (S A : Type) : Type := S -> S * result A.

#[global] Instance comp_ret {S} : MRet (Comp S) := fun A a s => (s, Ok a).
#[global] Instance comp_bind {S} : MBind (Comp S) := fun A B f m s =>
  match m s with
  | (s', Ok a) => f a s'
  | (s', Err e) => (s', Err e)
  end.

Section comp.
Context {S : Type}.

Definition raise {A} (e : exn) : Comp S A := fun s => (s, Err e).
Definition get_state : Comp S S := fun s => (s, Ok s).
Definition modify (f : S -> S) : Comp S unit := fun s => (f s, Ok tt).
Definition liftR {A} (r : result A) : Comp S A := fun s => (s, r).
(** [try: m except Exception as e: h e] *)
Definition try_except {A} (m : Comp S A) (h : exn -> Comp S A) : Comp S A := fun s =>
  match m s with
  | (s', Ok a) => (s', Ok a)
  | (s', Err e) => h e s'
  end.
End comp.

(** Run a component's computation inside a larger state that holds the component. *)
Definition zoom {W S A} (get : W -> S) (set : S -> W -> W) (m : Comp S A) : Comp W A :=
  fun w => let '(s', r) := m (get w) in (set s' w, r).

(** ** Automation *)

(** Case analysis on every [match] of the goal and hypotheses, then clean up. *)
Ltac crush_match := repeat (case_match; simplify_eq/=); try done; eauto.

(** Split a hypothesis [m s = (s', r)] about a sequence of calls. *)
Ltac comp_step H :=
  cbv [mbind comp_bind mret comp_ret result_bind result_ret raise liftR get_state modify
       try_except zoom] in H;
  repeat case_match; simplify_eq/=.

(** [[f(x) for x in l]], the first exception raised *)
Fixpoint mapR {A B} (f : A -> result B) (l : list A) : result (list B) :=
  match l with
  | [] => Ok []
  | x :: l' => y ← f x; ys ← mapR f l'; Ok (y :: ys)
  end.

Lemma mapR_Ok {A B} (f : A -> result B) l ys :
  mapR f l = Ok ys <-> Forall2 (fun x y => f x = Ok y) l ys.
Proof.
  revert ys. induction l as [|x l IH]; intros ys; simpl.
  - split; [intros [= <-]; constructor|intros H; inversion H; done].
  - destruct (f x) as [y|] eqn:Hf; simpl; [|split; [done|intros H; inversion H; congruence]].
    destruct (mapR f l) as [zs|] eqn:Hl; simpl.
    + split; [intros [= <-]; constructor; [done|by apply IH]|].
      intros H; inversion H as [|? y' ? ys' Hy Hys]; subst. apply IH in Hys. congruence.
    + split; [done|]. intros H; inversion H as [|? y' ? ys' Hy Hys]; subst.
      apply IH in Hys. congruence.
Qed.

(** ** Lists *)

Section lists.
Context {A : Type}.

(** [sum(1 for x in l if p(x))] *)
Definition count (p : A -> bool) (l : list A) : Z :=
  Z.of_nat (length (List.filter p l)).

Lemma count_nil p : count p [] = 0%Z.
Proof. done. Qed.

Lemma count_cons p x l : count p (x :: l) = ((if p x then 1 else 0) + count p l)%Z.
Proof. unfold count; simpl; destruct (p x); simpl; lia. Qed.

Lemma count_app p l1 l2 : count p (l1 ++ l2) = (count p l1 + count p l2)%Z.
Proof. unfold count. rewrite List.filter_app, length_app. lia. Qed.

Lemma count_nonneg p l : (0 <= count p l)%Z.
Proof. unfold count; lia. Qed.

Lemma count_ext p q l : (forall x, x ∈ l -> p x = q x) -> count p l = count q l.
Proof.
  induction l as [|x l IH]; intros H; [done|].
  rewrite !count_cons, H by set_solver.
  rewrite IH; [done|]. intros y Hy. apply H. set_solver.
Qed.

Lemma filter_elem (p : A -> bool) x l : x ∈ List.filter p l <-> x ∈ l /\ p x = true.
Proof. rewrite !list_elem_of_In. apply List.filter_In. Qed.

Lemma count_filter_le p q l : (count p (List.filter q l) <= count p l)%Z.
Proof.
  induction l as [|x l IH]; simpl; [lia|].
  destruct (q x); rewrite !count_cons; destruct (p x); lia.
Qed.

Lemma count_le p q l :
  (forall x, x ∈ l -> p x = true -> q x = true) -> (count p l <= count q l)%Z.
Proof.
  induction l as [|x l IH]; intros H; [done|].
  assert (count p l <= count q l)%Z by (apply IH; set_solver).
  rewrite !count_cons. destruct (p x) eqn:Hp; [rewrite (H x) by set_solver; lia|].
  destruct (q x); lia.
Qed.

Lemma filter_comm (p q : A -> bool) l :
  List.filter p (List.filter q l) = List.filter q (List.filter p l).
Proof.
  induction l as [|x l IH]; [done|]; simpl.
  destruct (q x) eqn:Hq, (p x) eqn:Hp; simpl; rewrite ?Hq, ?Hp, IH; done.
Qed.

Lemma filter_none (p : A -> bool) l :
  (forall x, x ∈ l -> p x = false) -> List.filter p l = [].
Proof.
  induction l as [|x l IH]; intros H; [done|]; simpl.
  rewrite (H x) by set_solver. apply IH. set_solver.
Qed.

Lemma filter_all (p : A -> bool) l :
  (forall x, x ∈ l -> p x = true) -> List.filter p l = l.
Proof.
  induction l as [|x l IH]; intros H; [done|]; simpl.
  rewrite (H x) by set_solver. f_equal. apply IH. set_solver.
Qed.

(** Sum of a weight over a list. *)
Definition sum_of (w : A -> Z) (l : list A) : Z := foldr (fun x acc => w x + acc)%Z 0%Z l.

Lemma sum_of_app w l1 l2 : sum_of w (l1 ++ l2) = (sum_of w l1 + sum_of w l2)%Z.
Proof. induction l1 as [|x l1 IH]; simpl; [done|]. lia. Qed.

Lemma sum_of_nonneg w l : (forall x, 0 <= w x)%Z -> (0 <= sum_of w l)%Z.
Proof. intros Hw. induction l as [|x l IH]; simpl; [lia|]. specialize (Hw x). lia. Qed.

Lemma sum_of_perm w l1 l2 : l1 ≡ₚ l2 -> sum_of w l1 = sum_of w l2.
Proof. induction 1; simpl; lia. Qed.
End lists.

(** Python's [max(xs)] over integers, with a default for the empty sequence. *)
Definition max_default (d : Z) (l : list Z) : Z :=
  match l with [] => d | x :: l => foldr Z.max x l end.

Lemma foldr_max_ge (x : Z) l : (x <= foldr Z.max x l)%Z.
Proof. induction l as [|y l IH]; simpl; lia. Qed.

Lemma foldr_max_elem x y (l : list Z) : y ∈ l -> (y <= foldr Z.max x l)%Z.
Proof.
  induction l as [|z l IH]; intros H; [set_solver|]; simpl.
  apply elem_of_cons in H as [->|H]; [lia|]. specialize (IH H). lia.
Qed.

Lemma foldr_max_in x (l : list Z) : foldr Z.max x l = x \/ foldr Z.max x l ∈ l.
Proof.
  induction l as [|y l IH]; simpl; [by left|].
  destruct (Z.max_spec y (foldr Z.max x l)) as [[_ ->]|[_ ->]]; [|set_solver].
  destruct IH as [->|IH]; [by left|set_solver].
Qed.

Lemma max_default_ge d l x : x ∈ l -> (x <= max_default d l)%Z.
Proof.
  destruct l as [|y l]; [set_solver|]; simpl. rewrite elem_of_cons.
  intros [->|H]; [apply foldr_max_ge|by apply foldr_max_elem].
Qed.

Lemma max_default_in d l : max_default d l = d /\ l = [] \/ max_default d l ∈ l.
Proof.
  destruct l as [|y l]; [by left|right]; simpl.
  destruct (foldr_max_in y l) as [->|H]; set_solver.
Qed.

(** More on filtering, and on lists sorted by an arbitrary relation. *)

Lemma NoDup_fmap_filter {A B} (g : A -> B) (p : A -> bool) l :
  NoDup (g <$> l) -> NoDup (g <$> List.filter p l).
Proof.
  intros H. eapply sublist_NoDup; [exact H|]. clear H.
  induction l as [|x l IH]; csimpl; [constructor|]. destruct (p x); csimpl; by constructor.
Qed.

Lemma filter_partition {A} (p : A -> bool) l :
  l ≡ₚ List.filter p l ++ List.filter (fun x => negb (p x)) l.
Proof.
  induction l as [|x l IH]; simpl; [done|]. destruct (p x); simpl; [by constructor|].
  rewrite <- Permutation_middle. by constructor.
Qed.

Lemma fmap_id_on {A} (f : A -> A) (l : list A) : (forall x, x ∈ l -> f x = x) -> f <$> l = l.
Proof.
  induction l as [|x l IH]; intros H; [done|]. rewrite fmap_cons, H, IH; [done| |]; set_solver.
Qed.

Lemma filter_fmap {A B} (g : A -> B) (p : B -> bool) l :
  List.filter p (g <$> l) = g <$> List.filter (fun x => p (g x)) l.
Proof. induction l as [|x l IH]; csimpl; [done|]. rewrite IH. by destruct (p (g x)). Qed.

Lemma List_filter_perm {A} (p : A -> bool) l1 l2 :
  l1 ≡ₚ l2 -> List.filter p l1 ≡ₚ List.filter p l2.
Proof. induction 1; simpl; repeat case_match; eauto using perm_swap, perm_trans. Qed.

Lemma filter_andb {A} (p q : A -> bool) l :
  List.filter (fun x => p x && q x) l = List.filter q (List.filter p l).
Proof.
  induction l as [|x l IH]; simpl; [done|]. destruct (p x); simpl; [|done]. by rewrite IH.
Qed.

Lemma max_default_perm d l1 l2 : l1 ≡ₚ l2 -> max_default d l1 = max_default d l2.
Proof.
  intros Hp. destruct (max_default_in d l1) as [[E1 ->]|H1].
  - apply Permutation_nil_l in Hp. by subst.
  - destruct (max_default_in d l2) as [[E2 ->]|H2].
    + symmetry in Hp. apply Permutation_nil_l in Hp. by subst.
    + apply Z.le_antisymm; apply max_default_ge; by rewrite Hp || by rewrite <- Hp.
Qed.

Lemma StronglySorted_lookup {A} (R : A -> A -> Prop) l (i j : nat) x y :
  StronglySorted R l -> l !! i = Some x -> l !! j = Some y -> (i < j)%nat -> R x y.
Proof.
  intros Hs. revert i j. induction Hs as [|z l Hs IH Hall]; intros i j Hi Hj Hij; [done|].
  destruct j as [|j]; [lia|]. destruct i as [|i]; simpl in *; simplify_eq.
  - rewrite Forall_forall in Hall. apply Hall. by eapply list_elem_of_lookup_2.
  - apply (IH i j); [done..|lia].
Qed.

Lemma StronglySorted_snoc {A} (R : A -> A -> Prop) l x :
  StronglySorted R l -> (forall y, y ∈ l -> R y x) -> StronglySorted R (l ++ [x]).
Proof.
  induction 1 as [|y l Hs IH Hall]; intros Hx; simpl; [by repeat constructor|].
  constructor; [apply IH; set_solver|]. rewrite Forall_app. split; [done|].
  constructor; [apply Hx; set_solver|constructor].
Qed.

Lemma StronglySorted_ext {A} (R R' : A -> A -> Prop) l :
  (forall x y, x ∈ l -> y ∈ l -> R x y -> R' x y) ->
  StronglySorted R l -> StronglySorted R' l.
Proof.
  intros H Hs. revert H. induction Hs as [|y l Hs IH Hall]; intros H; constructor.
  - apply IH. set_solver.
  - rewrite Forall_forall in Hall |- *. intros x Hx. apply H; [set_solver..|by apply Hall].
Qed.

Lemma StronglySorted_NoDup {A} (R : A -> A -> Prop) l :
  StronglySorted R l -> NoDup l -> StronglySorted (fun x y => R x y /\ x <> y) l.
Proof.
  induction 1 as [|x l Hs IH Hall]; intros Hnd; [constructor|].
  apply NoDup_cons in Hnd as [Hx Hnd]. constructor; [auto|].
  rewrite Forall_forall in Hall |- *. intros y Hy. split; [auto|]. by intros ->.
Qed.

Lemma StronglySorted_filter {A} (R : A -> A -> Prop) (p : A -> bool) l :
  StronglySorted R l -> StronglySorted R (List.filter p l).
Proof.
  induction 1 as [|e l Hs IH Hall]; simpl; [constructor|].
  destruct (p e); [|done]. constructor; [done|]. rewrite Forall_forall in Hall |- *.
  intros f [Hf _]%filter_elem. auto.
Qed.

(** ** Sorting

    Python's [sorted(l, key=...)] is stable; so is this insertion sort, which inserts from
    the right and stops at the first element that is not smaller. *)

Section sort.
Context {A : Type} (leb : A -> A -> bool).

Fixpoint insert_by (x : A) (l : list A) : list A :=
  match l with
  | [] => [x]
  | y :: l' => if leb x y then x :: l else y :: insert_by x l'
  end.

Definition sort_by (l : list A) : list A := foldr insert_by [] l.

Lemma insert_by_perm x l : insert_by x l ≡ₚ x :: l.
Proof.
  induction l as [|y l IH]; simpl; [done|].
  destruct (leb x y); [done|]. rewrite IH. constructor.
Qed.

Lemma sort_by_perm l : sort_by l ≡ₚ l.
Proof. induction l as [|x l IH]; simpl; [done|]. by rewrite insert_by_perm, IH. Qed.

Lemma sort_by_elem x l : x ∈ sort_by l <-> x ∈ l.
Proof. by rewrite sort_by_perm. Qed.

Context (leb_total : forall x y, leb x y = true \/ leb y x = true)
        (leb_trans : forall x y z, leb x y = true -> leb y z = true -> leb x z = true).

Lemma insert_by_sorted x l :
  StronglySorted (fun a b => leb a b = true) l ->
  StronglySorted (fun a b => leb a b = true) (insert_by x l).
Proof.
  induction l as [|y l IH]; intros Hs; simpl; [by repeat constructor|].
  apply StronglySorted_inv in Hs as [Hs Hall].
  destruct (leb x y) eqn:Hxy.
  - constructor; [by constructor|]. constructor; [done|].
    eapply Forall_impl; [exact Hall|]. intros z Hz. by eapply leb_trans.
  - constructor; [by apply IH|]. apply Forall_forall. intros z Hz.
    rewrite insert_by_perm in Hz. apply elem_of_cons in Hz as [->|Hz].
    + destruct (leb_total x y); congruence.
    + rewrite Forall_forall in Hall. by apply Hall.
Qed.

Lemma sort_by_sorted l : StronglySorted (fun a b => leb a b = true) (sort_by l).
Proof. induction l; simpl; [constructor|]. by apply insert_by_sorted. Qed.
End sort.

Lemma sort_by_id {A} (leb : A -> A -> bool) l :
  StronglySorted (fun a b => leb a b = true) l -> sort_by leb l = l.
Proof.
  induction 1 as [|x l Hs IH Hall]; simpl; [done|]. rewrite IH.
  destruct l as [|y l]; [done|]; simpl. by apply Forall_cons in Hall as [-> _].
Qed.

(** Python compares strings by code point; tuples compare lexicographically. *)
Definition str_leb (s t : string) : bool := String.leb s t.

Lemma ascii_compare_N a b : Ascii.compare a b = N.compare (N_of_ascii a) (N_of_ascii b).
Proof. done. Qed.

Lemma str_leb_cons a s b t :
  str_leb (String a s) (String b t) = true <->
  (N_of_ascii a < N_of_ascii b)%N \/ a = b /\ str_leb s t = true.
Proof.
  unfold str_leb, String.leb; simpl. rewrite ascii_compare_N.
  destruct (N.compare_spec (N_of_ascii a) (N_of_ascii b)) as [He|Hl|Hl].
  - assert (a = b) as ->.
    { rewrite <- (ascii_N_embedding a), <- (ascii_N_embedding b). by rewrite He. }
    split; [by right|intros [?|[_ ?]]; [lia|done]].
  - split; [by left|done].
  - split; [done|]. intros [?|[-> _]]; lia.
Qed.

Lemma str_leb_nil_r s : str_leb s EmptyString = true -> s = EmptyString.
Proof. by destruct s. Qed.

Lemma str_leb_trans s t u : str_leb s t = true -> str_leb t u = true -> str_leb s u = true.
Proof.
  revert t u. induction s as [|a s IH]; intros [|b t] [|c u] H1 H2; try done.
  apply str_leb_cons. apply str_leb_cons in H1, H2.
  destruct H1 as [?|[-> ?]], H2 as [?|[-> ?]]; [left; lia|by left|by left|].
  right. split; [done|]. by eapply IH.
Qed.

Lemma str_leb_total s t : str_leb s t = true \/ str_leb t s = true.
Proof. apply String.leb_total. Qed.

Lemma str_leb_antisym s t : str_leb s t = true -> str_leb t s = true -> s = t.
Proof. apply String.leb_antisym. Qed.

(** Tuples of strings compare by the first component that differs. *)
Definition str_pair_leb (p q : string * string) : bool :=
  if decide (p.1 = q.1) then str_leb p.2 q.2 else str_leb p.1 q.1.

Lemma str_pair_leb_total p q : str_pair_leb p q = true \/ str_pair_leb q p = true.
Proof. unfold str_pair_leb. repeat case_decide; try congruence; apply str_leb_total. Qed.

Lemma str_pair_leb_trans p q r :
  str_pair_leb p q = true -> str_pair_leb q r = true -> str_pair_leb p r = true.
Proof.
  destruct p as [p1 p2], q as [q1 q2], r as [r1 r2]. unfold str_pair_leb; simpl.
  intros H1 H2. repeat case_decide; simplify_eq; try (by eapply str_leb_trans); try done.
  exfalso. eauto using str_leb_antisym.
Qed.

Lemma str_pair_leb_antisym p q :
  str_pair_leb p q = true -> str_pair_leb q p = true -> p = q.
Proof.
  destruct p as [p1 p2], q as [q1 q2]. unfold str_pair_leb; simpl.
  intros H1 H2. repeat case_decide; simplify_eq.
  - f_equal. by apply str_leb_antisym.
  - exfalso. eauto using str_leb_antisym.
Qed.

(** Sorting by an antisymmetric order forgets the order of its input. *)
Lemma sort_by_perm_eq {A} (leb : A -> A -> bool) l1 l2 :
  (forall x y, leb x y = true \/ leb y x = true) ->
  (forall x y z, leb x y = true -> leb y z = true -> leb x z = true) ->
  (forall x y, leb x y = true -> leb y x = true -> x = y) ->
  l1 ≡ₚ l2 -> sort_by leb l1 = sort_by leb l2.
Proof.
  intros Htot Htr Hanti Hp.
  apply (StronglySorted_unique_strong (fun a b => leb a b = true));
    [eauto|by apply sort_by_sorted..|]. by rewrite !sort_by_perm.
Qed.

Definition pair_leb (p q : Z * string) : bool :=
  if (p.1 <? q.1)%Z then true
  else if (q.1 <? p.1)%Z then false
  else str_leb p.2 q.2.

(** ** Strings *)

(** [x in s] for strings. *)
Fixpoint str_contains (sub s : string) : bool :=
  String.prefix sub s ||
  match s with
  | EmptyString => false
  | String _ s' => str_contains sub s'
  end.

Definition ascii_lower (c : ascii) : ascii :=
  let n := N_of_ascii c in
  if ((65 <=? n) && (n <=? 90))%N then ascii_of_N (n + 32)%N else c.

Fixpoint str_map (f : ascii -> ascii) (s : string) : string :=
  match s with
  | EmptyString => EmptyString
  | String c s' => String (f c) (str_map f s')
  end.

(** [str.lower] and [str.casefold] agree on ASCII. *)
Definition str_lower : string -> string := str_map ascii_lower.

(** ASCII whitespace as [str.strip] sees it: tab, LF, VT, FF, CR, FS, GS, RS, US, space. *)
Definition is_space (c : ascii) : bool :=
  let n := N_of_ascii c in
  ((9 <=? n) && (n <=? 13))%N || ((28 <=? n) && (n <=? 32))%N.

Fixpoint str_lstrip (s : string) : string :=
  match s with
  | EmptyString => EmptyString
  | String c s' => if is_space c then str_lstrip s' else s
  end.

Fixpoint str_rev_onto (s acc : string) : string :=
  match s with
  | EmptyString => acc
  | String c s' => str_rev_onto s' (String c acc)
  end.

Definition str_rev (s : string) : string := str_rev_onto s EmptyString.
Definition str_strip (s : string) : string := str_rev (str_lstrip (str_rev (str_lstrip s))).

(** Truthiness of a string. *)
Definition str_nonempty (s : string) : bool :=
  match s with EmptyString => false | _ => true end.
