(* ===== verification/PyDict.v ===== *)
(** * Insertion-ordered dictionaries

    A Python [dict] iterates in insertion order; assigning to an existing key keeps its
    position.  The components whose observable results depend on that order hold their
    state in this type; the others use [gmap]. *)

From S2P Require Import Prelude.

Section pydict.
Context {K V : Type} `{EqDecision K}.

Definition pydict := list (K * V).

Fixpoint dget (k : K) (d : pydict) : option V :=
  match d with
  | [] => None
  | (k', v) :: d' => if decide (k = k') then Some v else dget k d'
  end.

(** [d[k] = v] *)
Fixpoint dset (k : K) (v : V) (d : pydict) : pydict :=
  match d with
  | [] => [(k, v)]
  | (k', v') :: d' => if decide (k = k') then (k, v) :: d' else (k', v') :: dset k v d'
  end.

(** [d.pop(k, None)] *)
Fixpoint ddel (k : K) (d : pydict) : pydict :=
  match d with
  | [] => []
  | (k', v') :: d' => if decide (k = k') then ddel k d' else (k', v') :: ddel k d'
  end.

Definition dhas (k : K) (d : pydict) : bool :=
  match dget k d with Some _ => true | None => false end.
Definition dkeys (d : pydict) : list K := d.*1.
Definition dvalues (d : pydict) : list V := d.*2.

(** [d.setdefault(k, v)] as a statement: only the effect. *)
Definition dsetdefault (k : K) (v : V) (d : pydict) : pydict :=
  if dhas k d then d else dset k v d.

Definition dwf (d : pydict) : Prop := NoDup (dkeys d).

Lemma dget_dset_eq k v d : dget k (dset k v d) = Some v.
Proof.
  induction d as [|[k' v'] d IH]; csimpl; [by rewrite decide_True|].
  case_decide; csimpl; [by rewrite decide_True|]. by rewrite decide_False.
Qed.

Lemma dget_dset_ne k k' v d : k <> k' -> dget k (dset k' v d) = dget k d.
Proof.
  intros Hne. induction d as [|[k2 v2] d IH]; csimpl; [by rewrite decide_False|].
  case_decide; csimpl; subst.
  - by rewrite !decide_False by done.
  - case_decide; [done|]. apply IH.
Qed.

Lemma dget_dset k k' v d :
  dget k (dset k' v d) = if decide (k = k') then Some v else dget k d.
Proof. case_decide; subst; [apply dget_dset_eq|by apply dget_dset_ne]. Qed.

Lemma dget_ddel k k' d : dget k (ddel k' d) = if decide (k = k') then None else dget k d.
Proof.
  induction d as [|[k2 v2] d IH]; csimpl; [by case_decide|].
  repeat (case_decide; csimpl; subst); try done; rewrite IH; by case_decide.
Qed.

Lemma dget_elem k v d : dget k d = Some v -> (k, v) ∈ d.
Proof.
  induction d as [|[k' v'] d IH]; csimpl; [done|].
  case_decide; intros ?; simplify_eq; [set_solver|]. apply elem_of_cons; eauto.
Qed.

Lemma elem_dget k v d : dwf d -> (k, v) ∈ d -> dget k d = Some v.
Proof.
  unfold dwf, dkeys. induction d as [|[k' v'] d IH]; csimpl; [set_solver|].
  rewrite NoDup_cons. intros [Hn Hd] [?|Hin]%elem_of_cons; simplify_eq.
  - by rewrite decide_True.
  - rewrite decide_False; [auto|]. intros ->. apply Hn. apply list_elem_of_fmap.
    by exists (k', v).
Qed.

Lemma dget_values k v d : dget k d = Some v -> v ∈ dvalues d.
Proof. intros H%dget_elem. apply list_elem_of_fmap. by exists (k, v). Qed.

Lemma elem_dkeys k v d : (k, v) ∈ d -> k ∈ dkeys d.
Proof. intros H. apply list_elem_of_fmap. by exists (k, v). Qed.

Lemma values_dget v d : dwf d -> v ∈ dvalues d -> exists k, dget k d = Some v.
Proof.
  intros Hwf [[k v'] [-> Hin]]%list_elem_of_fmap. exists k. by apply elem_dget.
Qed.

Lemma dget_None k d : dget k d = None <-> k ∉ dkeys d.
Proof.
  unfold dkeys. induction d as [|[k' v'] d IH]; csimpl; [set_solver|].
  rewrite not_elem_of_cons. case_decide; naive_solver.
Qed.

Lemma dset_keys k v d :
  dkeys (dset k v d) = if dhas k d then dkeys d else dkeys d ++ [k].
Proof.
  unfold dhas, dkeys. induction d as [|[k' v'] d IH]; csimpl; [done|].
  case_decide; csimpl; subst; [done|]. rewrite IH. by case_match.
Qed.

Lemma dset_fresh k v d : dget k d = None -> dset k v d = d ++ [(k, v)].
Proof.
  induction d as [|[k' v'] d IH]; csimpl; [done|].
  case_decide; [done|]. intros Hk. by rewrite IH.
Qed.

Lemma dvalues_dset_new k v d : dget k d = None -> dvalues (dset k v d) = dvalues d ++ [v].
Proof. intros Hk. rewrite dset_fresh by done. unfold dvalues. by rewrite fmap_app. Qed.

Lemma dvalues_dset_over k v v0 d :
  dget k d = Some v0 ->
  exists l1 l2, dvalues d = l1 ++ v0 :: l2 /\ dvalues (dset k v d) = l1 ++ v :: l2.
Proof.
  unfold dvalues. induction d as [|[k' v'] d IH]; csimpl; [done|].
  case_decide; csimpl.
  - intros ?; simplify_eq. by exists [], (d.*2).
  - intros Hk. destruct (IH Hk) as (l1 & l2 & -> & ->). by exists (v' :: l1), l2.
Qed.

Lemma dset_wf k v d : dwf d -> dwf (dset k v d).
Proof.
  unfold dwf. rewrite dset_keys. unfold dhas. destruct (dget k d) eqn:Hk; [done|].
  apply dget_None in Hk. intros Hd. apply NoDup_app. split_and!; [done|set_solver|].
  by apply NoDup_singleton.
Qed.

Lemma ddel_subseq k d : dkeys (ddel k d) `sublist_of` dkeys d.
Proof.
  unfold dkeys. induction d as [|[k' v'] d IH]; csimpl; [done|].
  case_decide; csimpl; by constructor.
Qed.

Lemma ddel_wf k d : dwf d -> dwf (ddel k d).
Proof. unfold dwf. intros H. eapply sublist_NoDup; [exact H|apply ddel_subseq]. Qed.

Lemma ddel_fresh k d : dget k d = None -> ddel k d = d.
Proof.
  induction d as [|[k' v'] d IH]; csimpl; [done|].
  case_decide; [done|]. intros Hk. by rewrite IH.
Qed.

Lemma dhas_true k d : dhas k d = true <-> is_Some (dget k d).
Proof. unfold dhas. destruct (dget k d); split; intros H; try done; by destruct H. Qed.

Lemma dhas_false k d : dhas k d = false <-> dget k d = None.
Proof. unfold dhas. by destruct (dget k d). Qed.

Lemma dget_dsetdefault k v d : dget k (dsetdefault k v d) = Some (default v (dget k d)).
Proof.
  unfold dsetdefault, dhas. destruct (dget k d) as [u|] eqn:Hk; [done|]. by rewrite dget_dset_eq.
Qed.

Lemma dget_dsetdefault_ne k k' v d : k <> k' -> dget k (dsetdefault k' v d) = dget k d.
Proof. intros Hk. unfold dsetdefault. destruct (dhas k' d); [done|]. by apply dget_dset_ne. Qed.

Lemma dwf_nil : dwf [].
Proof. constructor. Qed.

Lemma dwf_cons k v d : dwf ((k, v) :: d) <-> k ∉ dkeys d /\ dwf d.
Proof. unfold dwf, dkeys; simpl. apply NoDup_cons. Qed.

(** Counting the values that satisfy a predicate, through updates. *)
Lemma count_dset p k v d :
  dwf d ->
  count p (dvalues (dset k v d)) =
  (count p (dvalues d) + (if p v then 1 else 0) -
   match dget k d with Some v0 => if p v0 then 1 else 0 | None => 0 end)%Z.
Proof.
  unfold dvalues. induction d as [|[k' v'] d IH]; intros Hwf; csimpl.
  - rewrite count_cons, count_nil. lia.
  - apply dwf_cons in Hwf as [Hn Hwf]. case_decide; csimpl; rewrite !count_cons; [lia|].
    rewrite IH by done. lia.
Qed.

Lemma count_ddel p k d :
  dwf d ->
  count p (dvalues (ddel k d)) =
  (count p (dvalues d) -
   match dget k d with Some v0 => if p v0 then 1 else 0 | None => 0 end)%Z.
Proof.
  unfold dvalues. induction d as [|[k' v'] d IH]; intros Hwf; csimpl; [done|].
  apply dwf_cons in Hwf as [Hn Hwf]. case_decide; csimpl; subst.
  - apply dget_None in Hn. rewrite ddel_fresh, count_cons by done. lia.
  - rewrite !count_cons, IH by done. lia.
Qed.
End pydict.
Arguments pydict K V : clear implicits.

(** ** Grouping: [d.setdefault(key(v), []).append(v)] over a list *)

(** [by_agent.setdefault(k, []).append(v)] *)
Definition dappend {K V} `{EqDecision K} (k : K) (v : V) (d : pydict K (list V))
  : pydict K (list V) := dset k (default [] (dget k d) ++ [v]) d.

Definition group_by {K V} `{EqDecision K} (key : V -> K) (l : list V) : pydict K (list V) :=
  foldl (fun d v => dappend (key v) v d) [] l.

Section group.
Context {K V : Type} `{EqDecision K} (key : V -> K).

Definition in_group (k : K) (l : list V) : list V :=
  List.filter (fun v => bool_decide (key v = k)) l.

Lemma in_group_app k l1 l2 : in_group k (l1 ++ l2) = in_group k l1 ++ in_group k l2.
Proof. apply List.filter_app. Qed.

Lemma group_by_snoc l v : group_by key (l ++ [v]) = dappend (key v) v (group_by key l).
Proof. unfold group_by. by rewrite foldl_app. Qed.

Lemma group_by_wf l : dwf (group_by key l).
Proof.
  induction l as [|v l IH] using rev_ind; [apply dwf_nil|].
  rewrite group_by_snoc. by apply dset_wf.
Qed.

(** The group of a key holds the elements with that key, in order; a key with none has no
    group. *)
Lemma group_by_get k l :
  dget k (group_by key l) =
  match in_group k l with [] => None | g => Some g end.
Proof.
  induction l as [|v l IH] using rev_ind; [done|].
  rewrite group_by_snoc, in_group_app. unfold dappend.
  rewrite dget_dset. case_decide as Hk; subst.
  - rewrite IH. simpl. rewrite bool_decide_true by done.
    by destruct (in_group (key v) l).
  - rewrite IH. simpl. rewrite bool_decide_false by congruence. by rewrite app_nil_r.
Qed.

Lemma group_by_elem k g l : (k, g) ∈ group_by key l <-> g = in_group k l /\ g <> [].
Proof.
  split.
  - intros Hin. apply elem_dget in Hin; [|apply group_by_wf].
    rewrite group_by_get in Hin. by destruct (in_group k l); simplify_eq.
  - intros [-> Hne]. apply dget_elem. rewrite group_by_get. by destruct (in_group k l).
Qed.

Lemma group_by_keys k l : k ∈ dkeys (group_by key l) <-> exists v, v ∈ l /\ key v = k.
Proof.
  transitivity (in_group k l <> []).
  - split.
    + intros [[k' g] [-> Hin]]%list_elem_of_fmap. apply group_by_elem in Hin as [-> ?]. done.
    + intros Hne. apply (elem_dkeys k (in_group k l)). by apply group_by_elem.
  - split.
    + intros Hne. destruct (in_group k l) as [|v g] eqn:Hg; [done|]. exists v.
      assert (v ∈ in_group k l) as Hv by (rewrite Hg; set_solver).
      apply filter_elem in Hv as [? Hv]. by apply bool_decide_eq_true in Hv.
    + intros (v & Hv & Hk) Hn.
      assert (v ∈ in_group k l) as Hin; [|rewrite Hn in Hin; set_solver].
      apply filter_elem. split; [done|]. by apply bool_decide_eq_true.
Qed.
End group.

Lemma in_group_elem {K V} `{EqDecision K} (key : V -> K) k v l :
  v ∈ in_group key k l <-> v ∈ l /\ key v = k.
Proof. unfold in_group. by rewrite filter_elem, bool_decide_eq_true. Qed.

Lemma in_group_cons {K V} `{EqDecision K} (key : V -> K) k v l :
  in_group key k (v :: l) = if decide (key v = k) then v :: in_group key k l else in_group key k l.
Proof.
  unfold in_group; simpl. case_decide; [by rewrite bool_decide_true|by rewrite bool_decide_false].
Qed.

Create HintDb pydict discriminated.
#[export] Hint Resolve dset_wf ddel_wf dwf_nil : pydict.
Create Rewrite HintDb pydict_rw.
#[export] Hint Rewrite @dget_dset_eq @dget_dset @dget_ddel : pydict_rw.
