(* ===== verification/Json.v ===== *)
(** * Canonical JSON

    What the platform uses of [json.dumps(value, sort_keys=True, separators=(",", ":"),
    ensure_ascii=False)]: the printer, and the lemmas that let a reader of the text recover
    the value (each printed piece is a prefix code). *)

From S2P Require Import Prelude PyDict.
Local Open Scope string_scope.

(** ** Values and printer *)

(** A number is kept as the text [repr] gives it. *)
Inductive json :=
| JNull
| JBool (b : bool)
| JStr (s : string)
| JNum (repr : string)
| JArr (items : list json)
| JObj (members : list (string * json)).

Definition QUOTE : string := String "034"%char EmptyString.
Definition BACKSLASH : string := String "092"%char EmptyString.

Definition hex_digit (n : N) : ascii :=
  if (n <? 10)%N then ascii_of_N (48 + n) else ascii_of_N (87 + n).

(** The escapes of the encoder: the quote, the backslash, and control characters. *)
Definition esc_char (c : ascii) : string :=
  let n := N_of_ascii c in
  if (n =? 34)%N then BACKSLASH +:+ QUOTE
  else if (n =? 92)%N then BACKSLASH +:+ BACKSLASH
  else if (n =? 8)%N then BACKSLASH +:+ "b"
  else if (n =? 9)%N then BACKSLASH +:+ "t"
  else if (n =? 10)%N then BACKSLASH +:+ "n"
  else if (n =? 12)%N then BACKSLASH +:+ "f"
  else if (n =? 13)%N then BACKSLASH +:+ "r"
  else if (n <? 32)%N
  then BACKSLASH +:+ "u00" +:+
       String (hex_digit (n / 16)) (String (hex_digit (n mod 16)) EmptyString)
  else String c EmptyString.

Fixpoint esc (s : string) : string :=
  match s with
  | EmptyString => EmptyString
  | String c s' => esc_char c +:+ esc s'
  end.

Definition json_str (s : string) : string := QUOTE +:+ esc s +:+ QUOTE.

Fixpoint join (sep : string) (l : list string) : string :=
  match l with
  | [] => EmptyString
  | [x] => x
  | x :: l' => x +:+ sep +:+ join sep l'
  end.

Definition key_leb {A} (p q : string * A) : bool := str_leb p.1 q.1.

(** The printer, over the encoding of strings. *)
Section printer.
Context (str : string -> string).

Fixpoint dumps_with (v : json) : string :=
  match v with
  | JNull => "null"
  | JBool b => if b then "true" else "false"
  | JStr s => str s
  | JNum n => n
  | JArr items => "[" +:+ join "," (List.map dumps_with items) +:+ "]"
  | JObj members =>
      "{" +:+ join "," (List.map (fun '(k, t) => str k +:+ ":" +:+ t)
        (sort_by key_leb (List.map (fun '(k, m) => (k, dumps_with m)) members))) +:+ "}"
  end.
End printer.

Definition dumps : json -> string := dumps_with json_str.

(** With [ensure_ascii=True], the default, everything outside the printable ASCII range is
    escaped too. *)
Definition esc_char_ascii (c : ascii) : string :=
  let n := N_of_ascii c in
  if (n <? 127)%N then esc_char c
  else BACKSLASH +:+ "u00" +:+
       String (hex_digit (n / 16)) (String (hex_digit (n mod 16)) EmptyString).

Fixpoint esc_ascii (s : string) : string :=
  match s with
  | EmptyString => EmptyString
  | String c s' => esc_char_ascii c +:+ esc_ascii s'
  end.

Definition json_str_ascii (s : string) : string := QUOTE +:+ esc_ascii s +:+ QUOTE.
Definition dumps_ascii : json -> string := dumps_with json_str_ascii.

(** ** Prefix codes *)

Lemma append_assoc (s t u : string) : (s +:+ t) +:+ u = s +:+ t +:+ u.
Proof.
  induction s as [|c s IH]; [done|].
  change (String c ((s +:+ t) +:+ u) = String c (s +:+ t +:+ u)). by rewrite IH.
Qed.

Lemma append_cons c (s t : string) : String c s +:+ t = String c (s +:+ t).
Proof. done. Qed.

Lemma append_nil_r (s : string) : s +:+ EmptyString = s.
Proof. induction s as [|c s IH]; [done|]. by rewrite append_cons, IH. Qed.

Lemma append_inj_l (s t u : string) : s +:+ t = s +:+ u -> t = u.
Proof. induction s as [|c s IH]; [done|]. rewrite !append_cons. intros [= ?]. auto. Qed.

(** [enc] is a prefix code: the text that follows does not affect what is read back. *)
Definition prefix_code {A} (enc : A -> string) : Prop :=
  forall x y r1 r2, enc x +:+ r1 = enc y +:+ r2 -> x = y /\ r1 = r2.

Lemma prefix_code_inj {A} (enc : A -> string) x y :
  prefix_code enc -> enc x = enc y -> x = y.
Proof.
  intros Hp He. eapply (Hp x y EmptyString EmptyString). by rewrite He.
Qed.

Definition hex_value (c : ascii) : N :=
  let n := N_of_ascii c in if (n <? 58)%N then n - 48 else n - 87.

(** Reads one escaped character back. *)
Definition unesc_char (s : string) : option (ascii * string) :=
  match s with
  | String "092" (String "u" (String _ (String _ (String h (String l r))))) =>
      Some (ascii_of_N (16 * hex_value h + hex_value l), r)
  | String "092" (String "b" r) => Some ("008"%char, r)
  | String "092" (String "t" r) => Some ("009"%char, r)
  | String "092" (String "n" r) => Some ("010"%char, r)
  | String "092" (String "f" r) => Some ("012"%char, r)
  | String "092" (String "r" r) => Some ("013"%char, r)
  | String "092" (String c r) => Some (c, r)
  | String c r => Some (c, r)
  | EmptyString => None
  end.

Lemma unesc_esc_char c r : unesc_char (esc_char c +:+ r) = Some (c, r).
Proof. destruct c as [[] [] [] [] [] [] [] []]; reflexivity. Qed.

Lemma esc_char_not_quote c r r' : esc_char c +:+ r <> QUOTE +:+ r'.
Proof. destruct c as [[] [] [] [] [] [] [] []]; discriminate. Qed.

Lemma esc_char_code : prefix_code esc_char.
Proof.
  intros c d r1 r2 He. pose proof (unesc_esc_char c r1) as H1.
  rewrite He, unesc_esc_char in H1. by simplify_eq.
Qed.

Lemma esc_quote_code s t r1 r2 :
  esc s +:+ QUOTE +:+ r1 = esc t +:+ QUOTE +:+ r2 -> s = t /\ r1 = r2.
Proof.
  revert t. induction s as [|c s IH]; intros [|d t]; cbn [esc]; rewrite ?append_assoc; intros H.
  - change (QUOTE +:+ r1 = QUOTE +:+ r2) in H. by apply append_inj_l in H.
  - symmetry in H. by apply esc_char_not_quote in H.
  - by apply esc_char_not_quote in H.
  - apply esc_char_code in H as [-> H]. apply IH in H as [-> ->]. done.
Qed.

Lemma json_str_code : prefix_code json_str.
Proof.
  intros s t r1 r2. unfold json_str. rewrite !append_assoc. intros H.
  apply append_inj_l in H. by apply esc_quote_code in H.
Qed.

(** [null] or a string. *)
Definition json_opt (s : option string) : string := dumps (from_option JStr JNull s).

Lemma json_opt_code : prefix_code json_opt.
Proof.
  intros [s|] [t|] r1 r2 H; unfold json_opt in H; simpl in H.
  - apply json_str_code in H as [-> ->]. done.
  - discriminate.
  - discriminate.
  - by simplify_eq.
Qed.

(** [[["n","v"],...]]: the list of parameter pairs. *)
Definition json_pair (p : string * string) : string := dumps (JArr [JStr p.1; JStr p.2]).
Definition json_pairs (l : list (string * string)) : string :=
  dumps (JArr (List.map (fun p => JArr [JStr p.1; JStr p.2]) l)).

Lemma json_pair_eq p : json_pair p = "[" +:+ json_str p.1 +:+ "," +:+ json_str p.2 +:+ "]".
Proof. unfold json_pair; simpl. by rewrite !append_assoc. Qed.

Lemma json_pair_code : prefix_code json_pair.
Proof.
  intros [s1 s2] [t1 t2] r1 r2. rewrite !json_pair_eq. cbn [fst snd].
  rewrite !append_assoc. intros H. apply append_inj_l in H.
  apply json_str_code in H as [-> H]. apply append_inj_l in H.
  apply json_str_code in H as [-> H]. by apply append_inj_l in H.
Qed.

(** The members after the first, and the closing bracket. *)
Fixpoint pairs_tail (l : list (string * string)) : string :=
  match l with
  | [] => "]"
  | p :: l' => "," +:+ json_pair p +:+ pairs_tail l'
  end.

Lemma pairs_tail_code : prefix_code pairs_tail.
Proof.
  intros l. induction l as [|p l IH]; intros [|q l'] r1 r2; cbn [pairs_tail];
    rewrite ?append_assoc; intros H.
  - by apply append_inj_l in H.
  - discriminate.
  - discriminate.
  - apply append_inj_l in H. apply json_pair_code in H as [-> H]. apply IH in H as [-> ->].
    done.
Qed.

Lemma join_cons sep x l :
  join sep (x :: l) = x +:+ foldr (fun y acc => sep +:+ y +:+ acc) EmptyString l.
Proof.
  revert x. induction l as [|y l IH]; intros x; [by rewrite append_nil_r|].
  change (join sep (x :: y :: l)) with (x +:+ sep +:+ join sep (y :: l)). by rewrite IH.
Qed.

Lemma json_pairs_eq l :
  json_pairs l =
  match l with [] => "[]" | p :: l' => "[" +:+ json_pair p +:+ pairs_tail l' end.
Proof.
  unfold json_pairs. destruct l as [|p l]; [done|].
  change (dumps (JArr (List.map (fun p => JArr [JStr p.1; JStr p.2]) (p :: l))))
    with ("[" +:+ join "," (json_pair p ::
            List.map dumps (List.map (fun p => JArr [JStr p.1; JStr p.2]) l)) +:+ "]").
  rewrite join_cons, !append_assoc. f_equal. f_equal.
  induction l as [|q l IH]; [done|].
  cbn [List.map foldr pairs_tail]. rewrite !append_assoc. by rewrite IH.
Qed.

Lemma json_pairs_code : prefix_code json_pairs.
Proof.
  intros [|p l] [|q l'] r1 r2; rewrite !json_pairs_eq, ?append_assoc; intros H.
  - by apply append_inj_l in H.
  - rewrite json_pair_eq in H. discriminate.
  - rewrite json_pair_eq in H. discriminate.
  - apply append_inj_l in H. apply json_pair_code in H as [-> H].
    apply pairs_tail_code in H as [-> ->]. done.
Qed.

Lemma contains_head c s : str_contains (String c EmptyString) (String c s) = true.
Proof. cbn [str_contains]. simpl. destruct (ascii_dec c c); [by destruct s|done]. Qed.

(** A text without a delimiter, followed by that delimiter. *)
Lemma delimited_code (c : ascii) s t r1 r2 :
  str_contains (String c EmptyString) s = false ->
  str_contains (String c EmptyString) t = false ->
  s +:+ String c r1 = t +:+ String c r2 -> s = t /\ r1 = r2.
Proof.
  revert t. induction s as [|a s IH]; intros [|b t] Hs Ht H.
  - by injection H.
  - change (String c r1 = String b (t +:+ String c r2)) in H. injection H as -> _.
    by rewrite contains_head in Ht.
  - change (String a (s +:+ String c r1) = String c r2) in H. injection H as -> _.
    by rewrite contains_head in Hs.
  - rewrite !append_cons in H. injection H as -> H. cbn [str_contains] in Hs, Ht.
    apply orb_false_iff in Hs as [_ Hs], Ht as [_ Ht].
    by apply IH in H as [-> ->].
Qed.
