(* ===== verification/Paths.v ===== *)
(** * POSIX paths

    What the platform uses of [pathlib] on POSIX without touching a filesystem: a path is
    its root and its components, as [Path._parse_path] leaves them ("." and empty components
    dropped, ".." kept), with [parent], [name], [joinpath], [relative_to] and [as_posix].
    Operations that read the filesystem are parameters of the components that use them. *)

From S2P Require Import Prelude PyDict Json.
Local Open Scope string_scope.

(** [s.split(sep)] for a one-character separator. *)
Fixpoint str_split (sep : ascii) (s : string) : list string :=
  match s with
  | EmptyString => [EmptyString]
  | String c s' =>
      if bool_decide (c = sep) then EmptyString :: str_split sep s'
      else match str_split sep s' with
           | [] => [String c EmptyString]
           | w :: ws => String c w :: ws
           end
  end.

Fixpoint has_char (c : ascii) (s : string) : bool :=
  match s with
  | EmptyString => false
  | String d s' => bool_decide (d = c) || has_char c s'
  end.

Definition SLASH : ascii := "/"%char.

(** [root] is "", "/" or "//". *)
Record Path := mkPath { p_root : string; p_parts : list string }.

#[global] Instance Path_eq_dec : EqDecision Path.
Proof. solve_decision. Defined.

(** [posixpath.splitroot]: exactly two leading slashes are a root of their own. *)
Definition split_root (s : string) : string * string :=
  match s with
  | String "/" (String "/" (String "/" _ as rest)) => ("/", String "/" rest)
  | String "/" (String "/" rest) => ("//", rest)
  | String "/" rest => ("/", rest)
  | _ => ("", s)
  end.

Definition kept_component (x : string) : bool :=
  str_nonempty x && negb (bool_decide (x = ".")).

Definition parse_path (s : string) : Path :=
  let '(root, rel) := split_root s in
  mkPath root (List.filter kept_component (str_split SLASH rel)).

Definition is_absolute (p : Path) : bool := str_nonempty (p_root p).
(** [path.parts]: the root is a part of its own. *)
Definition path_parts (p : Path) : list string :=
  if is_absolute p then p_root p :: p_parts p else p_parts p.
Definition path_parent (p : Path) : Path := mkPath (p_root p) (removelast (p_parts p)).
Definition path_name (p : Path) : string := List.last (p_parts p) EmptyString.
(** [self / name] for a single relative component, [self.joinpath] of several. *)
Definition joinpath (p : Path) (names : list string) : Path :=
  mkPath (p_root p) (app (p_parts p) names).
(** [self / other]: an absolute right operand replaces the left one. *)
Definition path_div (p other : Path) : Path :=
  if is_absolute other then other else joinpath p (p_parts other).

Fixpoint strip_prefix (l1 l2 : list string) : option (list string) :=
  match l1, l2 with
  | [], _ => Some l2
  | x :: l1', y :: l2' => if bool_decide (x = y) then strip_prefix l1' l2' else None
  | _, _ => None
  end.

(** [path.relative_to(other)]: the remaining parts, or the ValueError. *)
Definition relative_to (p other : Path) : result (list string) :=
  if bool_decide (p_root p = p_root other)
  then of_option ValueError (strip_prefix (p_parts other) (p_parts p))
  else Err ValueError.

Definition is_relative_to (p other : Path) : bool := is_ok (relative_to p other).

(** [str(path)] of a path with components. *)
Definition path_str (p : Path) : string :=
  match p_root p, p_parts p with
  | EmptyString, [] => "."
  | root, parts => root +:+ join "/" parts
  end.

Local Close Scope string_scope.

(** ** Lemmas *)

Lemma strip_prefix_Some l1 l2 r : strip_prefix l1 l2 = Some r <-> l2 = l1 ++ r.
Proof.
  revert l2. induction l1 as [|x l1 IH]; intros l2; simpl.
  - naive_solver.
  - destruct l2 as [|y l2]; [naive_solver|]. case_bool_decide as Hx.
    + subst. rewrite IH. naive_solver.
    + naive_solver.
Qed.

Lemma relative_to_Ok p other r :
  relative_to p other = Ok r <-> p_root p = p_root other /\ p_parts p = p_parts other ++ r.
Proof.
  unfold relative_to, of_option. case_bool_decide as Hr; [|naive_solver].
  destruct (strip_prefix _ _) as [q|] eqn:Hs.
  - apply strip_prefix_Some in Hs. rewrite Hs. naive_solver.
  - split; [done|]. intros [_ Hp]. apply strip_prefix_Some in Hp. congruence.
Qed.

Lemma relative_to_error p other e : relative_to p other = Err e -> e = ValueError.
Proof. unfold relative_to, of_option. by repeat case_match; intros; simplify_eq. Qed.

Lemma is_relative_to_iff p other :
  is_relative_to p other = true <->
  p_root p = p_root other /\ exists r, p_parts p = p_parts other ++ r.
Proof.
  unfold is_relative_to. destruct (relative_to p other) as [r|e] eqn:Hr; simpl.
  - apply relative_to_Ok in Hr. naive_solver.
  - split; [done|]. intros (H1 & r & H2).
    assert (relative_to p other = Ok r) by (by apply relative_to_Ok). congruence.
Qed.

Lemma is_relative_to_refl p : is_relative_to p p = true.
Proof. apply is_relative_to_iff. split; [done|]. exists []. by rewrite app_nil_r. Qed.

Lemma is_relative_to_trans p q r :
  is_relative_to p q = true -> is_relative_to q r = true -> is_relative_to p r = true.
Proof.
  rewrite !is_relative_to_iff. intros (? & x & Hx) (? & y & Hy). split; [congruence|].
  exists (y ++ x). by rewrite Hx, Hy, app_assoc.
Qed.

Lemma is_relative_to_join p names : is_relative_to (joinpath p names) p = true.
Proof. apply is_relative_to_iff. simpl. eauto. Qed.

Lemma str_split_no_sep sep s w : w ∈ str_split sep s -> has_char sep w = false.
Proof.
  revert w. induction s as [|c s IH]; intros w; simpl.
  - intros ->%list_elem_of_singleton. done.
  - case_bool_decide as Hc.
    + intros [->|Hw]%elem_of_cons; [done|auto].
    + destruct (str_split sep s) as [|v vs]; simpl in *.
      * intros ->%list_elem_of_singleton. simpl. by rewrite bool_decide_false.
      * intros [->|Hw]%elem_of_cons; [|apply IH; set_solver].
        simpl. rewrite bool_decide_false by done. apply IH. set_solver.
Qed.

Lemma str_split_not_nil sep s : str_split sep s <> [].
Proof. destruct s; simpl; [done|]. repeat case_match; done. Qed.

(** Splitting at a separator inverts joining pieces that do not contain it. *)
Lemma str_split_app sep w s :
  has_char sep w = false -> str_split sep (w +:+ String sep s) = w :: str_split sep s.
Proof.
  induction w as [|c w IH]; intros Hw.
  - simpl. by rewrite bool_decide_true.
  - simpl in Hw. apply orb_false_iff in Hw as [Hc Hw]. rewrite append_cons. simpl.
    rewrite Hc, IH by done. done.
Qed.

Lemma str_split_single sep w : has_char sep w = false -> str_split sep w = [w].
Proof.
  induction w as [|c w IH]; intros Hw; [done|]. simpl in *.
  apply orb_false_iff in Hw as [Hc Hw]. by rewrite Hc, IH.
Qed.

Lemma str_split_join l :
  l <> [] -> Forall (fun w => has_char SLASH w = false) l -> str_split SLASH (join "/"%string l) = l.
Proof.
  induction l as [|w l IH]; intros Hn Hl; [done|]. apply Forall_cons in Hl as [Hw Hl].
  destruct l as [|v l]; [by apply str_split_single|].
  change (join "/"%string (w :: v :: l)) with (w +:+ String SLASH (join "/"%string (v :: l))).
  rewrite str_split_app by done. f_equal. by apply IH.
Qed.

(** A component an operating system can name: no separator, not empty, not a dot entry. *)
Definition proper_name (x : string) : Prop :=
  x <> EmptyString /\ x <> "."%string /\ x <> ".."%string /\ has_char SLASH x = false.

Lemma proper_kept l : Forall proper_name l -> List.filter kept_component l = l.
Proof.
  intros Hl. apply filter_all. rewrite Forall_forall in Hl. intros x Hx.
  destruct (Hl x Hx) as (H1 & H2 & _). unfold kept_component.
  rewrite bool_decide_false by done. by destruct x.
Qed.

Lemma split_root_relative s : match s with String "/"%char _ => False | _ => True end -> split_root s = (EmptyString, s).
Proof. destruct s as [|[[] [] [] [] [] [] [] []] s]; simpl; try done. Qed.

Lemma proper_name_head x : proper_name x -> exists c s, x = String c s /\ c <> SLASH.
Proof.
  destruct x as [|c s]; intros (H1 & _ & _ & H4); [done|]. exists c, s. split; [done|].
  by intros ->.
Qed.

(** Printing a non-empty list of proper components and parsing it back. *)
Lemma parse_join l : l <> [] -> Forall proper_name l -> parse_path (join "/"%string l) = mkPath EmptyString l.
Proof.
  intros Hn Hl. unfold parse_path. rewrite split_root_relative.
  - rewrite str_split_join; [by rewrite proper_kept|done|].
    eapply Forall_impl; [exact Hl|]. by intros x (_ & _ & _ & ?).
  - destruct l as [|x l]; [done|]. apply Forall_cons in Hl as [Hx _].
    apply proper_name_head in Hx as (c & s & -> & Hc).
    assert (exists t, join "/"%string (String c s :: l) = String c t) as [t ->].
    { destruct l as [|y l]; simpl; eauto. }
    destruct c as [[] [] [] [] [] [] [] []]; try done.
Qed.
