(* ===== verification/PyInt.v ===== *)
(** * Python integer literals

    [int(text)] and [int(text, 16)] as the platform uses them on configuration and address
    text, with the printers they invert.  A text is a string of code points below 256. *)

From S2P Require Import Prelude PyDict Json Paths.
From stdpp Require Import pretty.
Local Open Scope string_scope.

(** ** Digits *)

Definition in_range (lo hi c : ascii) : bool :=
  ((N_of_ascii lo <=? N_of_ascii c) && (N_of_ascii c <=? N_of_ascii hi))%N.

Definition dec_digit (c : ascii) : option N :=
  if in_range "0" "9" c then Some (N_of_ascii c - 48)%N else None.

Definition hex_value (c : ascii) : option N :=
  if in_range "0" "9" c then Some (N_of_ascii c - 48)%N
  else if in_range "a" "f" c then Some (N_of_ascii c - 87)%N
  else if in_range "A" "F" c then Some (N_of_ascii c - 55)%N
  else None.

Fixpoint str_forall (p : ascii -> bool) (s : string) : bool :=
  match s with
  | EmptyString => true
  | String c s' => p c && str_forall p s'
  end.

(** [s.isdigit()] on ASCII text. *)
Definition isdigit (s : string) : bool :=
  str_nonempty s && str_forall (fun c => bool_decide (is_Some (dec_digit c))) s.

(** The value of a run of digits. *)
Fixpoint digits_value (digit : ascii -> option N) (base acc : N) (s : string) : option N :=
  match s with
  | EmptyString => Some acc
  | String c s' => d ← digit c; digits_value digit base (acc * base + d)%N s'
  end.

(** Single underscores may separate digits; [sep] tells whether one may come next. *)
Fixpoint drop_underscores (sep : bool) (s : string) : option string :=
  match s with
  | EmptyString => if sep then Some EmptyString else None
  | String c s' =>
      if bool_decide (c = "_"%char) then if sep then drop_underscores false s' else None
      else String c <$> drop_underscores true s'
  end.

Definition MAX_STR_DIGITS : nat := 4300.

Definition take_sign (s : string) : bool * string :=
  match s with
  | String c s' =>
      if bool_decide (c = "-"%char) then (true, s')
      else if bool_decide (c = "+"%char) then (false, s') else (false, s)
  | EmptyString => (false, s)
  end.

(** [int(s)]; the ValueError of a text that is not a literal, or is too long, is [None]. *)
Definition py_int (s : string) : option Z :=
  let '(neg, body) := take_sign (str_strip s) in
  ds ← drop_underscores false body;
  if Nat.ltb MAX_STR_DIGITS (String.length ds) then None
  else n ← digits_value dec_digit 10 0 ds;
       Some (if neg then - Z.of_N n else Z.of_N n)%Z.

(** [int(s, 16)] of a text that starts with [0x] or [0X]: one underscore may follow the
    prefix, and there must be a digit. *)
Definition py_int_hex (s : string) : option N :=
  match str_strip s with
  | String _ (String _ body) =>
      if str_nonempty body then
        ds ← drop_underscores true body; digits_value hex_value 16 0 ds
      else None
  | _ => None
  end.

(** ** Printers

    [str(n)] is [pretty n]; ['%x' % n] is [hex_text n]. *)

Fixpoint hex_loop (fuel : nat) (n : N) (acc : string) : string :=
  match fuel with
  | O => acc
  | S fuel' =>
      let acc' := String (hex_digit (n mod 16)) acc in
      if (n <? 16)%N then acc' else hex_loop fuel' (n / 16) acc'
  end.

Definition hex_text (n : N) : string := hex_loop (S (N.to_nat (N.log2 n))) n EmptyString.

Local Close Scope string_scope.

(** ** Lemmas *)

Lemma str_forall_app p s t : str_forall p (s +:+ t) = str_forall p s && str_forall p t.
Proof.
  induction s as [|c s IH]; [done|]. rewrite append_cons. simpl. by rewrite IH, andb_assoc.
Qed.

Lemma digits_value_app digit base acc s t :
  digits_value digit base acc (s +:+ t) =
  (digits_value digit base acc s ≫= fun acc' => digits_value digit base acc' t).
Proof.
  revert acc. induction s as [|c s IH]; intros acc; [done|]. rewrite append_cons. simpl.
  destruct (digit c); simpl; [apply IH|done].
Qed.

(** A predicate on characters that holds of every decimal digit. *)
Definition digit_closed (p : ascii -> bool) : Prop :=
  forall k, (k < 10)%N -> p (pretty_N_char k) = true.

Lemma digit_cases (P : N -> Prop) :
  P 0%N -> P 1%N -> P 2%N -> P 3%N -> P 4%N -> P 5%N -> P 6%N -> P 7%N -> P 8%N -> P 9%N ->
  forall k, (k < 10)%N -> P k.
Proof.
  intros. assert (k = 0 \/ k = 1 \/ k = 2 \/ k = 3 \/ k = 4 \/ k = 5 \/ k = 6 \/ k = 7
                  \/ k = 8 \/ k = 9)%N as Hk by lia.
  by destruct Hk as [->|[->|[->|[->|[->|[->|[->|[->|[->| ->]]]]]]]]].
Qed.

Ltac by_digit := let k := fresh "k" in let Hk := fresh "Hk" in
  intros k Hk; pattern k; revert k Hk; apply digit_cases; reflexivity.

Lemma dec_digit_char : forall k, (k < 10)%N -> dec_digit (pretty_N_char k) = Some k.
Proof. by_digit. Qed.

Lemma pretty_go_ind (P : N -> string -> string -> Prop) :
  (forall s, P 0%N s s) ->
  (forall x s r, (0 < x)%N -> P (x / 10)%N (String (pretty_N_char (x mod 10)) s) r -> P x s r) ->
  forall x s, P x s (pretty_N_go x s).
Proof.
  intros H0 HS x. induction (N.lt_wf_0 x) as [x _ IH]; intros s.
  destruct (decide (x = 0)%N) as [->|Hx]; [apply H0|].
  rewrite pretty_N_go_step by lia. apply HS; [lia|]. apply IH. apply N.div_lt; lia.
Qed.

Lemma pretty_go_forall p x s :
  digit_closed p -> str_forall p s = true -> str_forall p (pretty_N_go x s) = true.
Proof.
  intros Hp. revert x s. apply (pretty_go_ind (fun _ s r => str_forall p s = true -> str_forall p r = true)).
  - done.
  - intros x s r _ IH Hs. apply IH. simpl. rewrite Hs, Hp; [done|]. by apply N.mod_lt.
Qed.

Lemma pretty_forall p (x : N) : digit_closed p -> str_forall p (pretty x) = true.
Proof.
  intros Hp. unfold pretty, pretty_N. case_decide.
  - simpl. rewrite andb_true_r. by apply (Hp 0%N).
  - by apply pretty_go_forall.
Qed.

Lemma pretty_go_value x s :
  digits_value dec_digit 10 0 (pretty_N_go x s) = digits_value dec_digit 10 x s.
Proof.
  revert x s. apply (pretty_go_ind (fun x s r =>
    digits_value dec_digit 10 0 r = digits_value dec_digit 10 x s)); [done|].
  intros x s r _ ->. simpl. rewrite dec_digit_char by (by apply N.mod_lt). simpl.
  f_equal. pose proof (N.div_mod x 10 ltac:(done)). lia.
Qed.

(** [int(str(n))] on the digits alone. *)
Lemma pretty_value (n : N) : digits_value dec_digit 10 0 (pretty n) = Some n.
Proof.
  unfold pretty, pretty_N. case_decide; [by subst|]. by rewrite pretty_go_value.
Qed.

Lemma pretty_go_length k x s :
  (x < 10 ^ N.of_nat k)%N -> String.length (pretty_N_go x s) <= k + String.length s.
Proof.
  revert x s. induction k as [|k IH]; intros x s Hx.
  - change (10 ^ N.of_nat 0)%N with 1%N in Hx. assert (x = 0%N) as -> by lia. done.
  - destruct (decide (x = 0)%N) as [->|Hn]; [rewrite pretty_N_go_0; lia|].
    rewrite pretty_N_go_step by lia. specialize (IH (x / 10)%N (String (pretty_N_char (x mod 10)) s)).
    rewrite Nat2N.inj_succ, N.pow_succ_r' in Hx.
    assert (x / 10 < 10 ^ N.of_nat k)%N by (apply N.Div0.div_lt_upper_bound; lia).
    simpl in IH. specialize (IH ltac:(done)). lia.
Qed.

Lemma pretty_length (n : N) k : (n < 10 ^ N.of_nat (S k))%N -> String.length (pretty n) <= S k.
Proof.
  intros Hn. unfold pretty, pretty_N. case_decide; [simpl; lia|].
  etrans; [by apply pretty_go_length|]. simpl. lia.
Qed.

Lemma pretty_go_cons x c s : exists d r, pretty_N_go x (String c s) = String d r.
Proof.
  revert s c. induction (N.lt_wf_0 x) as [x _ IH]; intros s c.
  destruct (decide (x = 0)%N) as [->|Hx]; [by exists c, s|].
  rewrite pretty_N_go_step by lia. apply IH. apply N.div_lt; lia.
Qed.

Lemma pretty_cons (n : N) : exists c s, pretty n = String c s.
Proof.
  unfold pretty, pretty_N. case_decide; [by exists "0"%char, EmptyString|].
  rewrite pretty_N_go_step by lia. apply pretty_go_cons.
Qed.

Lemma pretty_isdigit (n : N) : isdigit (pretty n) = true.
Proof.
  unfold isdigit. rewrite pretty_forall.
  - by destruct (pretty_cons n) as (c & s & ->).
  - by_digit.
Qed.

(** *** Stripping *)

Lemma str_rev_onto_app s acc : str_rev_onto s acc = str_rev s +:+ acc.
Proof.
  revert acc. induction s as [|c s IH]; intros acc; [done|]. unfold str_rev; simpl.
  rewrite IH, (IH (String c EmptyString)). by rewrite append_assoc.
Qed.

Lemma str_rev_cons c s : str_rev (String c s) = str_rev s +:+ String c EmptyString.
Proof. unfold str_rev at 1; simpl. apply str_rev_onto_app. Qed.

Lemma str_rev_app s t : str_rev (s +:+ t) = str_rev t +:+ str_rev s.
Proof.
  induction s as [|c s IH]; [by rewrite append_nil_r|].
  by rewrite append_cons, !str_rev_cons, IH, append_assoc.
Qed.

Lemma str_rev_involutive s : str_rev (str_rev s) = s.
Proof. induction s as [|c s IH]; [done|]. by rewrite str_rev_cons, str_rev_app, IH. Qed.

Lemma str_forall_rev p s : str_forall p (str_rev s) = str_forall p s.
Proof.
  induction s as [|c s IH]; [done|]. rewrite str_rev_cons, str_forall_app, IH. simpl.
  by rewrite andb_true_r, andb_comm.
Qed.

(** [s.strip(chars)] *)
Fixpoint str_lstrip_chars (p : ascii -> bool) (s : string) : string :=
  match s with
  | EmptyString => EmptyString
  | String c s' => if p c then str_lstrip_chars p s' else s
  end.
Definition str_strip_chars (p : ascii -> bool) (s : string) : string :=
  str_rev (str_lstrip_chars p (str_rev (str_lstrip_chars p s))).

Lemma str_lstrip_chars_none p s :
  str_forall (fun c => negb (p c)) s = true -> str_lstrip_chars p s = s.
Proof. destruct s as [|c s]; [done|]; simpl. by destruct (p c). Qed.

Lemma str_strip_chars_none p s :
  str_forall (fun c => negb (p c)) s = true -> str_strip_chars p s = s.
Proof.
  intros H. unfold str_strip_chars. rewrite (str_lstrip_chars_none p s) by done.
  rewrite str_lstrip_chars_none by (by rewrite str_forall_rev). apply str_rev_involutive.
Qed.

Lemma str_lstrip_is s : str_lstrip s = str_lstrip_chars is_space s.
Proof. induction s as [|c s IH]; simpl; [done|]. by rewrite IH. Qed.

Lemma str_strip_is s : str_strip s = str_strip_chars is_space s.
Proof. unfold str_strip, str_strip_chars. by rewrite !str_lstrip_is. Qed.

Lemma str_strip_none s : str_forall (fun c => negb (is_space c)) s = true -> str_strip s = s.
Proof. rewrite str_strip_is. apply str_strip_chars_none. Qed.

(** *** Round trips *)

Lemma drop_underscores_none sep s :
  str_forall (fun c => negb (bool_decide (c = "_"%char))) s = true ->
  sep = true \/ str_nonempty s = true -> drop_underscores sep s = Some s.
Proof.
  revert sep. induction s as [|c s IH]; intros sep Hs Hn; simpl in *.
  - by destruct sep, Hn.
  - apply andb_true_iff in Hs as [Hc Hs]. apply negb_true_iff in Hc. rewrite Hc.
    rewrite IH by auto. done.
Qed.

Lemma take_sign_digit (n : N) : take_sign (pretty n) = (false, pretty n).
Proof.
  pose proof (pretty_forall (fun c => negb (bool_decide (c = "-"%char) || bool_decide (c = "+"%char))) n
    ltac:(by_digit)) as H.
  destruct (pretty_cons n) as (c & s & Hc). rewrite Hc in H |- *. simpl in H |- *.
  apply andb_true_iff in H as [H _]. apply negb_true_iff, orb_false_iff in H as [-> ->]. done.
Qed.

(** [int(str(n)) == n] for the numbers Python agrees to read back. *)
Lemma py_int_pretty (n : N) :
  (String.length (pretty n) <= MAX_STR_DIGITS) -> py_int (pretty n) = Some (Z.of_N n).
Proof.
  intros Hl. unfold py_int. rewrite str_strip_none, take_sign_digit.
  - rewrite drop_underscores_none.
    + simpl. destruct (Nat.ltb_spec MAX_STR_DIGITS (String.length (pretty n))); [lia|].
      by rewrite pretty_value.
    + apply pretty_forall. by_digit.
    + right. by destruct (pretty_cons n) as (c & s & ->).
  - apply pretty_forall. by_digit.
Qed.

Lemma hex_loop_spec fuel n acc :
  (n < 2 ^ N.of_nat fuel)%N -> (0 < fuel) ->
  exists r, hex_loop fuel n acc = r +:+ acc /\ str_nonempty r = true
    /\ digits_value hex_value 16 0 r = Some n
    /\ str_forall (fun c => bool_decide (is_Some (hex_value c)) && negb (in_range "A" "Z" c)) r = true.
Proof.
  revert n acc. induction fuel as [|fuel IH]; intros n acc Hn Hf; [lia|]. simpl.
  assert (forall d, (d < 16)%N -> hex_value (hex_digit d) = Some d
    /\ bool_decide (is_Some (hex_value (hex_digit d))) && negb (in_range "A" "Z" (hex_digit d)) = true) as Hd.
  { intros d Hd. assert (d < 10 \/ d = 10 \/ d = 11 \/ d = 12 \/ d = 13 \/ d = 14 \/ d = 15)%N as Hc by lia.
    destruct Hc as [Hc|[->|[->|[->|[->|[->| ->]]]]]]; try done.
    revert d Hc Hd. intros d Hc _. pattern d. revert d Hc. by apply digit_cases. }
  destruct (N.ltb_spec n 16) as [Hs|Hs].
  - exists (String (hex_digit n) EmptyString). rewrite N.mod_small by done.
    destruct (Hd n Hs) as [H1 H2]. repeat split; simpl; [|by rewrite H2]. by rewrite H1.
  - destruct (IH (n / 16)%N (String (hex_digit (n mod 16)) acc)) as (r & Hr & Hne & Hv & Hp).
    + apply N.Div0.div_lt_upper_bound. rewrite Nat2N.inj_succ, N.pow_succ_r' in Hn. lia.
    + destruct fuel; [|lia]. change (2 ^ N.of_nat 1)%N with 2%N in Hn. lia.
    + exists (r +:+ String (hex_digit (n mod 16)) EmptyString).
      destruct (Hd (n mod 16)%N) as [H1 H2]; [by apply N.mod_lt|].
      split; [rewrite Hr, append_assoc; done|]. split; [by destruct r|]. split.
      * rewrite digits_value_app, Hv. simpl. rewrite H1. simpl. f_equal.
        pose proof (N.div_mod n 16 ltac:(done)). lia.
      * rewrite str_forall_app, Hp. simpl. by rewrite H2.
Qed.

Lemma hex_text_spec n :
  str_nonempty (hex_text n) = true /\ digits_value hex_value 16 0 (hex_text n) = Some n
  /\ str_forall (fun c => bool_decide (is_Some (hex_value c)) && negb (in_range "A" "Z" c)) (hex_text n) = true.
Proof.
  unfold hex_text. destruct (hex_loop_spec (S (N.to_nat (N.log2 n))) n EmptyString) as (r & Hr & H).
  - rewrite Nat2N.inj_succ, N2Nat.id. destruct (decide (n = 0)%N) as [->|Hn]; [done|].
    apply N.log2_spec. lia.
  - lia.
  - by rewrite Hr, append_nil_r.
Qed.

Lemma str_forall_impl p q s :
  (forall c, p c = true -> q c = true) -> str_forall p s = true -> str_forall q s = true.
Proof.
  intros H. induction s as [|c s IH]; simpl; [done|]. intros [Hc Hs]%andb_true_iff.
  by rewrite H, IH.
Qed.

(** Every fact about all characters is checked on the 256 of them. *)
Lemma ascii_forall (p : ascii -> bool) :
  forallb (fun n => p (ascii_of_nat n)) (seq 0 256) = true -> forall c, p c = true.
Proof.
  intros H c. rewrite forallb_forall in H. specialize (H (nat_of_ascii c)).
  rewrite ascii_nat_embedding in H. apply H. apply in_seq.
  pose proof (nat_ascii_bounded c). lia.
Qed.

Lemma ascii_impl (p q : ascii -> bool) :
  forallb (fun n => implb (p (ascii_of_nat n)) (q (ascii_of_nat n))) (seq 0 256) = true ->
  forall c, p c = true -> q c = true.
Proof.
  intros H c Hp. pose proof (ascii_forall (fun c => implb (p c) (q c)) H c) as Hc. simpl in Hc.
  by rewrite Hp in Hc.
Qed.

Lemma hex_text_forall (q : ascii -> bool) n :
  forallb (fun n => implb (let c := ascii_of_nat n in
    bool_decide (is_Some (hex_value c)) && negb (in_range "A" "Z" c)) (q (ascii_of_nat n))) (seq 0 256) = true ->
  str_forall q (hex_text n) = true.
Proof.
  intros H. eapply str_forall_impl; [|apply hex_text_spec]. by apply ascii_impl.
Qed.

(** *** Stripping and lowering *)

Lemma str_map_app f s t : str_map f (s +:+ t) = str_map f s +:+ str_map f t.
Proof. induction s as [|c s IH]; [done|]. rewrite !append_cons. simpl. by rewrite IH. Qed.

Lemma str_rev_map f s : str_rev (str_map f s) = str_map f (str_rev s).
Proof.
  induction s as [|c s IH]; [done|]. simpl. by rewrite !str_rev_cons, str_map_app, IH.
Qed.

Lemma is_space_lower c : is_space (ascii_lower c) = is_space c.
Proof. apply eqb_prop. revert c. by apply ascii_forall. Qed.

Lemma ascii_lower_idem c : ascii_lower (ascii_lower c) = ascii_lower c.
Proof. apply Ascii.eqb_eq. revert c. by apply ascii_forall. Qed.

Lemma str_lower_idem s : str_lower (str_lower s) = str_lower s.
Proof.
  unfold str_lower. induction s as [|c s IH]; simpl; [done|]. by rewrite IH, ascii_lower_idem.
Qed.

Lemma str_lstrip_lower s : str_lstrip (str_lower s) = str_lower (str_lstrip s).
Proof.
  unfold str_lower. induction s as [|c s IH]; simpl; [done|]. rewrite is_space_lower.
  by destruct (is_space c).
Qed.

Lemma str_strip_lower s : str_strip (str_lower s) = str_lower (str_strip s).
Proof.
  unfold str_strip. rewrite str_lstrip_lower. unfold str_lower at 1. rewrite str_rev_map.
  fold (str_lower (str_rev (str_lstrip s))). rewrite str_lstrip_lower. unfold str_lower.
  by rewrite str_rev_map.
Qed.

Lemma str_lstrip_idem s : str_lstrip (str_lstrip s) = str_lstrip s.
Proof.
  induction s as [|c s IH]; simpl; [done|]. destruct (is_space c) eqn:Hc; [done|].
  simpl. by rewrite Hc.
Qed.

Lemma str_lstrip_split s : exists t, s = t +:+ str_lstrip s.
Proof.
  induction s as [|c s [t IH]]; simpl; [by exists EmptyString|]. destruct (is_space c).
  - exists (String c t). rewrite append_cons. by f_equal.
  - by exists EmptyString.
Qed.

Lemma str_strip_idem s : str_strip (str_strip s) = str_strip s.
Proof.
  unfold str_strip. set (u := str_lstrip s).
  assert (str_lstrip u = u) as Hu by apply str_lstrip_idem.
  destruct (str_lstrip_split (str_rev u)) as [t Ht].
  set (r := str_lstrip (str_rev u)) in *.
  assert (str_lstrip (str_rev r) = str_rev r) as ->.
  { apply (f_equal str_rev) in Ht. rewrite str_rev_involutive, str_rev_app in Ht.
    destruct (str_rev r) as [|c w]; [done|]. rewrite append_cons in Ht. rewrite Ht in Hu.
    simpl in Hu |- *. destruct (is_space c) eqn:Hc; [|done]. exfalso.
    assert (String.length (str_lstrip (w +:+ str_rev t)) <= String.length (w +:+ str_rev t)) as Hl.
    { destruct (str_lstrip_split (w +:+ str_rev t)) as [v Hv]. rewrite Hv at 2.
      clear. induction v as [|c v IH]; [done|]. rewrite append_cons. simpl. lia. }
    rewrite Hu in Hl. simpl in Hl. lia. }
  rewrite str_rev_involutive. unfold r. by rewrite str_lstrip_idem.
Qed.

Lemma has_char_app c s t : has_char c (s +:+ t) = has_char c s || has_char c t.
Proof.
  induction s as [|d s IH]; [done|]. rewrite append_cons. simpl. by rewrite IH, orb_assoc.
Qed.

Lemma has_char_forall c s :
  has_char c s = false <-> str_forall (fun d => negb (bool_decide (d = c))) s = true.
Proof.
  induction s as [|d s IH]; simpl; [done|].
  rewrite orb_false_iff, andb_true_iff, negb_true_iff, IH. done.
Qed.

Lemma hex_loop_length fuel n acc k :
  (n < 16 ^ N.of_nat (S k))%N -> String.length (hex_loop fuel n acc) <= S k + String.length acc.
Proof.
  revert n acc k. induction fuel as [|fuel IH]; intros n acc k Hn; simpl; [lia|].
  destruct (N.ltb_spec n 16) as [Hs|Hs]; [simpl; lia|].
  destruct k as [|k]; [change (16 ^ N.of_nat 1)%N with 16%N in Hn; lia|].
  etrans; [apply (IH _ _ k)|simpl; lia].
  rewrite (Nat2N.inj_succ (S k)), N.pow_succ_r' in Hn. apply N.Div0.div_lt_upper_bound. lia.
Qed.

Lemma hex_text_length n k :
  (n < 16 ^ N.of_nat (S k))%N -> String.length (hex_text n) <= S k.
Proof. intros Hn. unfold hex_text. pose proof (hex_loop_length (S (N.to_nat (N.log2 n))) n EmptyString k Hn). simpl in *. lia. Qed.

Lemma str_prefix_cons a p b s :
  String.prefix (String a p) (String b s) = bool_decide (a = b) && String.prefix p s.
Proof.
  cbn [String.prefix]. destruct (ascii_dec a b) as [Hab|Hab].
  - by rewrite bool_decide_true.
  - by rewrite bool_decide_false.
Qed.
