(* ===== verification/Models.v ===== *)
(** * Shared data of the platform (app/models)

    Enumerations and frozen records that several components exchange.  Timestamps are
    microseconds ([datetime] has that resolution); integers are Python's unbounded ones;
    strings are ASCII.  Pydantic's frozen models are Rocq values, so the defensive copies
    the repositories make are the identity here. *)

From S2P Require Import Prelude.

(** [Decision] (audit_event.py). *)
Inductive Decision := ALLOW | DENY | APPROVAL_REQUIRED.

(** [RiskTier] (agent.py). *)
Inductive RiskTier := TIER_LOW | TIER_MEDIUM | TIER_HIGH | TIER_CRITICAL.

(** [AgentStatus] (agent.py): the projected lifecycle status. *)
Inductive AgentStatus := STATUS_REGISTERED | STATUS_ACTIVE | STATUS_SUSPENDED | STATUS_DISABLED.

(** [Agent] (agent.py). *)
Record Agent := mkAgent {
  agent_id : string;
  agent_name : string;
  agent_owner : string;
  risk_tier : RiskTier;
  approved_tools : list string;
  agent_status : AgentStatus;
}.

(** [agent.model_copy(update={"status": s})] *)
Definition with_status (s : AgentStatus) (a : Agent) : Agent :=
  mkAgent (agent_id a) (agent_name a) (agent_owner a) (risk_tier a) (approved_tools a) s.

(** [ToolRiskLevel] and its [severity] rank (tool_risk_level.py). *)
Inductive ToolRiskLevel := TOOL_LOW | TOOL_MEDIUM | TOOL_HIGH | TOOL_CRITICAL.

Definition tool_severity (l : ToolRiskLevel) : Z :=
  match l with TOOL_LOW => 0 | TOOL_MEDIUM => 1 | TOOL_HIGH => 2 | TOOL_CRITICAL => 3 end.

(** [Severity], [FindingCategory], [FindingStatus] (finding.py). *)
Inductive Severity := SEV_LOW | SEV_MEDIUM | SEV_HIGH | SEV_CRITICAL.

Inductive FindingCategory :=
| CAT_PROMPT_INJECTION | CAT_DATA_EXFILTRATION | CAT_PRIVILEGE_ESCALATION
| CAT_UNAUTHORIZED_TOOL | CAT_SENSITIVE_FILE_ACCESS | CAT_BROWSER_ABUSE
| CAT_SECRET_LEAKAGE | CAT_MULTI_STEP_ATTACK | CAT_UNKNOWN.

Inductive FindingStatus := OPEN | ACKNOWLEDGED | RESOLVED | FALSE_POSITIVE.

Definition UNASSIGNED_SEQUENCE : Z := 0.

(** [Finding] (finding.py). *)
Record Finding := mkFinding {
  finding_id : string;
  f_session_id : string;
  f_agent_id : string;
  f_rule_id : string;
  f_rule_name : string;
  f_severity : Severity;
  f_category : FindingCategory;
  f_status : FindingStatus;
  f_description : string;
  f_created_at : Z;
  f_recorded_at : option Z;
  f_evidence_event_sequences : list Z;
  f_recovery_generation : Z;
  f_evidence_sequence : Z;
}.

(** [finding.model_copy(update={"evidence_sequence": s, "recorded_at": r})] *)
Definition with_sequence (s : Z) (r : Z) (f : Finding) : Finding :=
  mkFinding (finding_id f) (f_session_id f) (f_agent_id f) (f_rule_id f) (f_rule_name f)
    (f_severity f) (f_category f) (f_status f) (f_description f) (f_created_at f)
    (Some r) (f_evidence_event_sequences f) (f_recovery_generation f) s.

(** [_default_rule_id_to_rule_name]: an absent or empty [rule_id] becomes [rule_name]. *)
Definition default_rule_id (rule_id rule_name : string) : string :=
  if str_nonempty rule_id then rule_id else rule_name.

(** [RiskLevel] (risk_assessment.py). *)
Inductive RiskLevel := RISK_LOW | RISK_MEDIUM | RISK_HIGH | RISK_CRITICAL.

Definition risk_rank (l : RiskLevel) : Z :=
  match l with RISK_LOW => 0 | RISK_MEDIUM => 1 | RISK_HIGH => 2 | RISK_CRITICAL => 3 end.

(** [BaselineWatermark] (watermark.py). *)
Record BaselineWatermark := mkWatermark {
  wm_agent_id : string;
  wm_baseline_at : option Z;
  wm_baseline_evidence_sequence : Z;
  wm_baseline_agent_sequence : Z;
}.

(** [IssuancePlane] (execution_authority.py). *)
Inductive IssuancePlane := ADMINISTRATIVE | ENFORCEMENT.

(** ** Decidable equality and finite sets of enumeration members *)

#[global] Instance Decision_eq_dec : EqDecision Decision.
Proof. solve_decision. Defined.
#[global] Instance RiskTier_eq_dec : EqDecision RiskTier.
Proof. solve_decision. Defined.
#[global] Instance AgentStatus_eq_dec : EqDecision AgentStatus.
Proof. solve_decision. Defined.
#[global] Instance Agent_eq_dec : EqDecision Agent.
Proof. solve_decision. Defined.
#[global] Instance ToolRiskLevel_eq_dec : EqDecision ToolRiskLevel.
Proof. solve_decision. Defined.
#[global] Instance Severity_eq_dec : EqDecision Severity.
Proof. solve_decision. Defined.
#[global] Instance FindingCategory_eq_dec : EqDecision FindingCategory.
Proof. solve_decision. Defined.
#[global] Instance FindingStatus_eq_dec : EqDecision FindingStatus.
Proof. solve_decision. Defined.
#[global] Instance Finding_eq_dec : EqDecision Finding.
Proof. solve_decision. Defined.
#[global] Instance RiskLevel_eq_dec : EqDecision RiskLevel.
Proof. solve_decision. Defined.
#[global] Instance BaselineWatermark_eq_dec : EqDecision BaselineWatermark.
Proof. solve_decision. Defined.
#[global] Instance IssuancePlane_eq_dec : EqDecision IssuancePlane.
Proof. solve_decision. Defined.

Definition plane_is_admin (p : IssuancePlane) : bool :=
  match p with ADMINISTRATIVE => true | ENFORCEMENT => false end.
Definition plane_of_bool (b : bool) : IssuancePlane :=
  if b then ADMINISTRATIVE else ENFORCEMENT.

Lemma plane_of_bool_is_admin p : plane_of_bool (plane_is_admin p) = p.
Proof. by destruct p. Qed.

#[global] Instance IssuancePlane_countable : Countable IssuancePlane :=
  inj_countable' plane_is_admin plane_of_bool plane_of_bool_is_admin.

(** A placeholder for finding records in examples. *)
Definition sample_finding (id session agent rule : string) (sev : Severity) (at_ : Z) : Finding :=
  mkFinding id session agent rule rule sev CAT_UNKNOWN OPEN EmptyString at_ None [] 0 0.
