(* ===== verification/Lifecycle.v ===== *)
(** * The two lifecycle planes and execution authorization

    [models/agent_administrative.py], [models/agent_enforcement.py] and
    [policy/lifecycle_authorization.py]: the administrative transition graph, the state and
    ledger records of both planes, and the pure function that decides whether the two plane
    readings permit an agent to execute. *)

From S2P Require Import Prelude Models.
Local Open Scope Z_scope.

(** ** Administrative plane *)

Inductive AdministrativeLifecycleState := ADM_REGISTERED | ADM_ACTIVE | ADM_DISABLED.
Inductive AdministrativeAction := REGISTER | ACTIVATE | DISABLE.
Inductive ActorType := HUMAN | SYSTEM | RUNTIME.

Record Actor := mkActor { actor_type : ActorType; actor_id : string }.

#[global] Instance AdministrativeLifecycleState_eq_dec : EqDecision AdministrativeLifecycleState.
Proof. solve_decision. Defined.
#[global] Instance AdministrativeAction_eq_dec : EqDecision AdministrativeAction.
Proof. solve_decision. Defined.
#[global] Instance ActorType_eq_dec : EqDecision ActorType.
Proof. solve_decision. Defined.
#[global] Instance Actor_eq_dec : EqDecision Actor.
Proof. solve_decision. Defined.

(** The legal transition graph; [None] is the state before registration. *)
Definition LEGAL_ADMINISTRATIVE_TRANSITIONS
  (previous : option AdministrativeLifecycleState) : list AdministrativeLifecycleState :=
  match previous with
  | None => [ADM_REGISTERED]
  | Some ADM_REGISTERED => [ADM_ACTIVE; ADM_DISABLED]
  | Some ADM_ACTIVE => [ADM_DISABLED]
  | Some ADM_DISABLED => []
  end.

(** The action of each legal pair; [None] is the dictionary's [KeyError]. *)
Definition ADMINISTRATIVE_TRANSITION_ACTIONS
  (previous : option AdministrativeLifecycleState) (new : AdministrativeLifecycleState)
  : option AdministrativeAction :=
  match previous, new with
  | None, ADM_REGISTERED => Some REGISTER
  | Some ADM_REGISTERED, ADM_ACTIVE => Some ACTIVATE
  | Some ADM_REGISTERED, ADM_DISABLED => Some DISABLE
  | Some ADM_ACTIVE, ADM_DISABLED => Some DISABLE
  | _, _ => None
  end.

Definition is_legal_administrative_transition
  (previous : option AdministrativeLifecycleState) (new : AdministrativeLifecycleState) : bool :=
  bool_decide (new ∈ LEGAL_ADMINISTRATIVE_TRANSITIONS previous).

Record AdministrativeTransition := mkAdmTransition {
  at_transition_id : string;
  at_agent_id : string;
  at_action : AdministrativeAction;
  at_actor : Actor;
  at_reason : string;
  at_previous_state : option AdministrativeLifecycleState;
  at_new_state : AdministrativeLifecycleState;
  at_version_before : Z;
  at_version_after : Z;
  at_correlation_id : string;
  at_occurred_at : Z;
}.

Record AgentAdministrativeState := mkAdmState {
  as_agent_id : string;
  as_state : AdministrativeLifecycleState;
  as_version : Z;
  as_last_transition_at : option Z;
}.

#[global] Instance AdministrativeTransition_eq_dec : EqDecision AdministrativeTransition.
Proof. solve_decision. Defined.
#[global] Instance AgentAdministrativeState_eq_dec : EqDecision AgentAdministrativeState.
Proof. solve_decision. Defined.

(** Every legal pair has exactly one action, and only legal pairs do: the subscript
    [ADMINISTRATIVE_TRANSITION_ACTIONS[(p, n)]] raises exactly on illegal transitions. *)
Lemma legal_has_action p n :
  is_legal_administrative_transition p n = true <->
  is_Some (ADMINISTRATIVE_TRANSITION_ACTIONS p n).
Proof.
  unfold is_legal_administrative_transition.
  destruct p as [[]|], n; vm_compute; split; intros H;
    first [done | by eexists | by destruct H].
Qed.

(** ** Enforcement plane *)

Inductive EnforcementAction := SUSPEND | REINSTATE.

Record EnforcementTrigger := mkTrigger {
  tr_session_id : option string;
  tr_risk_level : option RiskLevel;
  tr_risk_score : option Z;
  tr_finding_ids : list string;
}.

Record EnforcementTransition := mkEnfTransition {
  et_transition_id : string;
  et_agent_id : string;
  et_action : EnforcementAction;
  et_actor : string;
  et_reason : string;
  et_previous_status : AgentStatus;
  et_new_status : AgentStatus;
  et_trigger : option EnforcementTrigger;
  et_occurred_at : Z;
}.

Record AgentEnforcementState := mkEnfState {
  es_agent_id : string;
  es_epoch : Z;
  es_suspended_at : option Z;
  es_suspension_reason : option string;
  es_baseline_at : option Z;
  es_baseline_evidence_sequence : Z;
  es_baseline_agent_sequence : Z;
  es_recovery_generation : Z;
  es_last_transition_at : option Z;
}.

(** [AgentEnforcementState(agent_id=a)] *)
Definition initial_enforcement_state (a : string) : AgentEnforcementState :=
  mkEnfState a 0 None None None 0 0 0 None.

#[global] Instance EnforcementAction_eq_dec : EqDecision EnforcementAction.
Proof. solve_decision. Defined.
#[global] Instance EnforcementTrigger_eq_dec : EqDecision EnforcementTrigger.
Proof. solve_decision. Defined.
#[global] Instance EnforcementTransition_eq_dec : EqDecision EnforcementTransition.
Proof. solve_decision. Defined.
#[global] Instance AgentEnforcementState_eq_dec : EqDecision AgentEnforcementState.
Proof. solve_decision. Defined.

(** ** Lifecycle authorization *)

Inductive LifecycleRefusalCode :=
| ADMINISTRATIVE_STATE_UNAVAILABLE | ENFORCEMENT_STATE_UNAVAILABLE
| AGENT_DISABLED | AGENT_NOT_ACTIVE | AGENT_SUSPENDED.

#[global] Instance LifecycleRefusalCode_eq_dec : EqDecision LifecycleRefusalCode.
Proof. solve_decision. Defined.

Definition refusal_rank (c : LifecycleRefusalCode) : nat :=
  match c with
  | ADMINISTRATIVE_STATE_UNAVAILABLE => 0 | ENFORCEMENT_STATE_UNAVAILABLE => 1
  | AGENT_DISABLED => 2 | AGENT_NOT_ACTIVE => 3 | AGENT_SUSPENDED => 4
  end%nat.

Definition refusal_of_rank (n : nat) : LifecycleRefusalCode :=
  match n with
  | 0 => ADMINISTRATIVE_STATE_UNAVAILABLE | 1 => ENFORCEMENT_STATE_UNAVAILABLE
  | 2 => AGENT_DISABLED | 3 => AGENT_NOT_ACTIVE | _ => AGENT_SUSPENDED
  end%nat.

Lemma refusal_of_rank_rank c : refusal_of_rank (refusal_rank c) = c.
Proof. by destruct c. Qed.

#[global] Instance LifecycleRefusalCode_countable : Countable LifecycleRefusalCode :=
  inj_countable' refusal_rank refusal_of_rank refusal_of_rank_rank.

Definition REFUSAL_PRECEDENCE : list LifecycleRefusalCode :=
  [ADMINISTRATIVE_STATE_UNAVAILABLE; ENFORCEMENT_STATE_UNAVAILABLE; AGENT_DISABLED;
   AGENT_NOT_ACTIVE; AGENT_SUSPENDED].

Definition ADMINISTRATIVE_REFUSALS (s : AdministrativeLifecycleState)
  : option LifecycleRefusalCode :=
  match s with
  | ADM_REGISTERED => Some AGENT_NOT_ACTIVE
  | ADM_DISABLED => Some AGENT_DISABLED
  | ADM_ACTIVE => None
  end.

(** [enforcement is not None and enforcement.suspended_at is not None] *)
Definition is_suspended (enforcement : option AgentEnforcementState) : bool :=
  match enforcement with
  | Some e => match es_suspended_at e with Some _ => true | None => false end
  | None => false
  end.

Definition failing_lifecycle_conditions
  (administrative : option AgentAdministrativeState) (administrative_available : bool)
  (enforcement : option AgentEnforcementState) (enforcement_available : bool)
  : gset LifecycleRefusalCode :=
  let administrative_part : gset LifecycleRefusalCode :=
   match administrative_available, administrative with
   | true, Some a =>
       match ADMINISTRATIVE_REFUSALS (as_state a) with
       | Some refusal => {[refusal]}
       | None => if bool_decide (as_state a = ADM_ACTIVE) then ∅ else {[AGENT_NOT_ACTIVE]}
       end
   | _, _ => {[ADMINISTRATIVE_STATE_UNAVAILABLE]}
   end in
  let enforcement_part : gset LifecycleRefusalCode :=
   if enforcement_available
   then (if is_suspended enforcement then {[AGENT_SUSPENDED]} else ∅)
   else {[ENFORCEMENT_STATE_UNAVAILABLE]} in
  administrative_part ∪ enforcement_part.

(** [for code in REFUSAL_PRECEDENCE: if code in failing: return code] *)
Fixpoint first_in (order : list LifecycleRefusalCode) (failing : gset LifecycleRefusalCode)
  : option LifecycleRefusalCode :=
  match order with
  | [] => None
  | c :: order' => if bool_decide (c ∈ failing) then Some c else first_in order' failing
  end.

Definition evaluate_lifecycle_authorization
  (administrative : option AgentAdministrativeState) (administrative_available : bool)
  (enforcement : option AgentEnforcementState) (enforcement_available : bool)
  : option LifecycleRefusalCode :=
  let failing := failing_lifecycle_conditions administrative administrative_available
                   enforcement enforcement_available in
  if bool_decide (failing = ∅) then None
  else match first_in REFUSAL_PRECEDENCE failing with
       | Some code => Some code
       | None => Some AGENT_NOT_ACTIVE
       end.

(** ** Lemmas *)

Lemma precedence_total c : c ∈ REFUSAL_PRECEDENCE.
Proof. destruct c; vm_compute; set_solver. Qed.

Lemma first_in_None order failing :
  first_in order failing = None <-> forall c, c ∈ order -> c ∉ failing.
Proof.
  induction order as [|c order IH]; simpl; [set_solver|].
  case_bool_decide; [split; [done|]; intros H'; exfalso; apply (H' c); set_solver|].
  rewrite IH. set_solver.
Qed.

Lemma first_in_Some order failing c :
  first_in order failing = Some c <->
  exists before after, order = before ++ c :: after /\ c ∈ failing /\
    forall c', c' ∈ before -> c' ∉ failing.
Proof.
  induction order as [|c0 order IH]; simpl.
  - split; [done|]. by intros ([] & ? & ? & _).
  - case_bool_decide as Hin.
    + split.
      * intros [= ->]. exists [], order. set_solver.
      * intros ([|c1 before] & after & Heq & Hc & Hb); simplify_eq/=; [done|].
        exfalso. apply (Hb c1); set_solver.
    + rewrite IH. split.
      * intros (before & after & -> & Hc & Hb). exists (c0 :: before), after.
        set_solver.
      * intros ([|c1 before] & after & Heq & Hc & Hb); simplify_eq/=; [done|].
        exists before, after. set_solver.
Qed.

Lemma evaluate_None_failing adm oka enf oke :
  evaluate_lifecycle_authorization adm oka enf oke = None <->
  failing_lifecycle_conditions adm oka enf oke = ∅.
Proof.
  unfold evaluate_lifecycle_authorization. case_bool_decide; [done|].
  split; [|done]. by destruct (first_in _ _).
Qed.

Lemma failing_empty adm oka enf oke :
  failing_lifecycle_conditions adm oka enf oke = ∅ <->
  oka = true /\ (exists a, adm = Some a /\ as_state a = ADM_ACTIVE) /\
  oke = true /\ is_suspended enf = false.
Proof.
  unfold failing_lifecycle_conditions.
  destruct oka, adm as [[ag st ? ?]|], oke, (is_suspended enf); try destruct st;
    csimpl; try (split; [intros H; exfalso; set_solver|naive_solver]); naive_solver.
Qed.

(** ** Properties *)

(** Execution is permitted exactly when both planes were read, the administrative
    record exists and is ACTIVE, and the agent is not suspended (ADR-024 A.4). *)
Theorem lifecycle_permits_iff adm oka enf oke :
  evaluate_lifecycle_authorization adm oka enf oke = None <->
  oka = true /\ (exists a, adm = Some a /\ as_state a = ADM_ACTIVE) /\
  oke = true /\ is_suspended enf = false.
Proof. rewrite evaluate_None_failing. apply failing_empty. Qed.

(** When execution is refused, the code returned is a failing condition and no failing
    condition precedes it in the L.10 order: the result is the precedence-least element of
    the failing set, whatever order the conditions were computed in. *)
Theorem lifecycle_refusal_precedence adm oka enf oke code :
  evaluate_lifecycle_authorization adm oka enf oke = Some code <->
  exists before after, REFUSAL_PRECEDENCE = before ++ code :: after /\
    code ∈ failing_lifecycle_conditions adm oka enf oke /\
    forall c, c ∈ before -> c ∉ failing_lifecycle_conditions adm oka enf oke.
Proof.
  rewrite <- first_in_Some. unfold evaluate_lifecycle_authorization.
  set (failing := failing_lifecycle_conditions _ _ _ _).
  case_bool_decide as Hemp.
  - split; [done|]. rewrite first_in_Some. rewrite Hemp. set_solver.
  - destruct (first_in REFUSAL_PRECEDENCE failing) eqn:Hf; [done|].
    exfalso. apply Hemp. apply set_eq. intros c.
    apply first_in_None with (c := c) in Hf; [set_solver|apply precedence_total].
Qed.
