(* ===== verification/Planes.v ===== *)
(** * Repositories of agents and of the two lifecycle planes

    The repository protocols ([repositories/interfaces]) as type classes of operations with
    the laws their contract states, and the in-memory adapters ([repositories/in_memory])
    as instances.  [AgentService] is verified against the classes. *)

From S2P Require Import Prelude PyDict Models Lifecycle.
Local Open Scope Z_scope.

(** ** Agent repository *)

Abbreviation AgentRepo := (pydict string Agent).

Definition agent_get (a : string) (r : AgentRepo) : option Agent := dget a r.

(** [save] discards [status]: lifecycle state is never persisted (AP.1). *)
Definition agent_save (ag : Agent) (r : AgentRepo) : AgentRepo :=
  dset (agent_id ag) (with_status STATUS_REGISTERED ag) r.

Definition agent_list (r : AgentRepo) : list Agent := dvalues r.

(** ** Enforcement plane: protocol *)

Definition epoch_of (s : option AgentEnforcementState) : Z :=
  match s with Some e => es_epoch e | None => 0 end.
Definition generation_of (s : option AgentEnforcementState) : Z :=
  match s with Some e => es_recovery_generation e | None => 0 end.

Class EnforcementStateRepository (R : Type) := {
  enf_get_state : string -> R -> result (option AgentEnforcementState);
  enf_record_transition :
    EnforcementTransition -> AgentEnforcementState -> Z -> Comp R bool;
  enf_list_transitions : option string -> R -> list EnforcementTransition;
  enf_get_epoch : string -> Z -> R -> Z;
}.

(** What the protocol promises: an abstract state per agent and a ledger; a commit is a
    compare-and-set that appends exactly one ledger entry; everything else changes nothing. *)
Class EnforcementContract (R : Type) `{EnforcementStateRepository R} := {
  enf_ok : R -> Prop;
  enf_view : R -> string -> option AgentEnforcementState;
  enf_ledger : R -> list EnforcementTransition;
  enf_get_sound : forall a r s, enf_ok r -> enf_get_state a r = Ok s -> s = enf_view r a;
  enf_committed : forall t s e r r',
    enf_ok r -> enf_record_transition t s e r = (r', Ok true) ->
    enf_ok r' /\ epoch_of (enf_view r (et_agent_id t)) = e /\ es_epoch s = e + 1 /\
    (es_recovery_generation s = generation_of (enf_view r (et_agent_id t)) \/
     es_recovery_generation s = generation_of (enf_view r (et_agent_id t)) + 1) /\
    (forall a, enf_view r' a = if decide (a = et_agent_id t) then Some s else enf_view r a) /\
    enf_ledger r' = enf_ledger r ++ [t];
  enf_refused : forall t s e r r' x,
    enf_ok r -> enf_record_transition t s e r = (r', x) -> x <> Ok true ->
    enf_ok r' /\ enf_view r' = enf_view r /\ enf_ledger r' = enf_ledger r;
  enf_epoch_counts : forall a as_of r, enf_ok r ->
    enf_get_epoch a as_of r =
    count (fun t => bool_decide (et_agent_id t = a) && bool_decide (et_action t = REINSTATE)
                    && (et_occurred_at t <=? as_of)) (enf_ledger r);
}.

(** ** Enforcement plane: in-memory adapter *)

Record InMemoryEnforcementStateRepository := mkEnfRepo {
  er_states : gmap string AgentEnforcementState;
  er_transitions : list EnforcementTransition;
  er_epochs : gmap string Z;
}.

Definition empty_enf_repo : InMemoryEnforcementStateRepository := mkEnfRepo ∅ [] ∅.

Definition mem_enf_get_state (a : string) (r : InMemoryEnforcementStateRepository)
  : result (option AgentEnforcementState) := Ok (er_states r !! a).

Definition mem_enf_record_transition
  (t : EnforcementTransition) (new_state : AgentEnforcementState) (expected_epoch : Z)
  : Comp InMemoryEnforcementStateRepository bool := fun r =>
  let a := et_agent_id t in
  let current_epoch :=
    match er_states r !! a with
    | Some s => es_epoch s
    | None => default 0 (er_epochs r !! a)
    end in
  if negb (current_epoch =? expected_epoch) || negb (es_epoch new_state =? expected_epoch + 1)
  then (r, Ok false)
  else
    let current_generation := generation_of (er_states r !! a) in
    if (es_recovery_generation new_state =? current_generation)
       || (es_recovery_generation new_state =? current_generation + 1)
    then (mkEnfRepo (<[a := new_state]> (er_states r)) (er_transitions r ++ [t])
            (<[a := expected_epoch + 1]> (er_epochs r)), Ok true)
    else (r, Err EnforcementStateUnavailableError).

(** [sorted(matching, key=lambda t: (t.occurred_at, t.transition_id))] *)
Definition mem_enf_list_transitions (a : option string) (r : InMemoryEnforcementStateRepository)
  : list EnforcementTransition :=
  sort_by (fun t u => pair_leb (et_occurred_at t, et_transition_id t)
                               (et_occurred_at u, et_transition_id u))
    (List.filter (fun t => match a with None => true
                           | Some a => bool_decide (et_agent_id t = a) end)
       (er_transitions r)).

Definition mem_enf_get_epoch (a : string) (as_of : Z) (r : InMemoryEnforcementStateRepository) : Z :=
  count (fun t => bool_decide (et_agent_id t = a) && bool_decide (et_action t = REINSTATE)
                  && (et_occurred_at t <=? as_of)) (er_transitions r).

#[export] Instance mem_enforcement : EnforcementStateRepository InMemoryEnforcementStateRepository := {|
  enf_get_state := mem_enf_get_state;
  enf_record_transition := mem_enf_record_transition;
  enf_list_transitions := mem_enf_list_transitions;
  enf_get_epoch := mem_enf_get_epoch;
|}.

(** The adapter keeps its epoch index in step with the states it stores. *)
Definition enf_repo_ok (r : InMemoryEnforcementStateRepository) : Prop :=
  forall a, er_epochs r !! a = es_epoch <$> er_states r !! a.

Lemma mem_enf_current_epoch r a :
  enf_repo_ok r ->
  match er_states r !! a with
  | Some s => es_epoch s | None => default 0 (er_epochs r !! a)
  end = epoch_of (er_states r !! a).
Proof. intros Hok. specialize (Hok a). by destruct (er_states r !! a); simplify_eq/=; rewrite ?Hok. Qed.

Lemma mem_enf_committed t s e r r' :
  enf_repo_ok r -> mem_enf_record_transition t s e r = (r', Ok true) ->
  enf_repo_ok r' /\ epoch_of (er_states r !! et_agent_id t) = e /\ es_epoch s = e + 1 /\
  (es_recovery_generation s = generation_of (er_states r !! et_agent_id t) \/
   es_recovery_generation s = generation_of (er_states r !! et_agent_id t) + 1) /\
  (forall a, er_states r' !! a = if decide (a = et_agent_id t) then Some s else er_states r !! a) /\
  er_transitions r' = er_transitions r ++ [t].
Proof.
  intros Hok. unfold mem_enf_record_transition. rewrite mem_enf_current_epoch by done.
  destruct (_ || _) eqn:Hcas; [done|]. apply orb_false_iff in Hcas as [He1 He2].
  destruct (_ || _) eqn:Hgen; [|done]. apply orb_true_iff in Hgen.
  intros [= <-]; simpl. split_and!; try lia; try done.
  - intros a; simpl. rewrite !lookup_insert. case_decide; subst; simpl; [f_equal; lia|].
    apply Hok.
  - intros a. rewrite lookup_insert. repeat case_decide; congruence.
Qed.

Lemma mem_enf_refused t s e r r' x :
  mem_enf_record_transition t s e r = (r', x) -> x <> Ok true -> r' = r.
Proof. unfold mem_enf_record_transition. intros H Hx. repeat case_match; simplify_eq; done. Qed.

#[export] Program Instance mem_enforcement_contract :
  EnforcementContract InMemoryEnforcementStateRepository := {|
  enf_ok := enf_repo_ok;
  enf_view := fun r a => er_states r !! a;
  enf_ledger := er_transitions;
|}.
Next Obligation. by intros a r s _ [= <-]. Qed.
Next Obligation. apply mem_enf_committed. Qed.
Next Obligation. intros t s e r r' x Hok H Hx. by apply mem_enf_refused in H as ->. Qed.
Next Obligation. done. Qed.

(** ** Administrative plane: protocol *)

Definition admin_state_of (s : option AgentAdministrativeState)
  : option AdministrativeLifecycleState := as_state <$> s.
Definition admin_version_of (s : option AgentAdministrativeState) : Z :=
  match s with Some a => as_version a | None => 0 end.

Class AdministrativeStateRepository (R : Type) := {
  adm_get_state : string -> R -> result (option AgentAdministrativeState);
  adm_record_transition :
    AdministrativeTransition -> AgentAdministrativeState -> Z -> Comp R bool;
  adm_commit_registration :
    Agent -> AdministrativeTransition -> AgentAdministrativeState -> Comp (AgentRepo * R) unit;
  adm_list_transitions : option string -> R -> list AdministrativeTransition;
}.

Class AdministrativeContract (R : Type) `{AdministrativeStateRepository R} := {
  adm_view : R -> string -> option AgentAdministrativeState;
  adm_ledger : R -> list AdministrativeTransition;
  adm_get_sound : forall a r s, adm_get_state a r = Ok s -> s = adm_view r a;
  adm_committed : forall t s v r r',
    adm_record_transition t s v r = (r', Ok true) ->
    let old := adm_view r (at_agent_id t) in
    admin_version_of old = v /\ as_version s = v + 1 /\
    is_legal_administrative_transition (admin_state_of old) (as_state s) = true /\
    at_previous_state t = admin_state_of old /\ at_new_state t = as_state s /\
    at_version_before t = v /\ at_version_after t = as_version s /\
    (forall a, adm_view r' a = if decide (a = at_agent_id t) then Some s else adm_view r a) /\
    adm_ledger r' = adm_ledger r ++ [t];
  adm_refused : forall t s v r r' x,
    adm_record_transition t s v r = (r', x) -> x <> Ok true ->
    adm_view r' = adm_view r /\ adm_ledger r' = adm_ledger r;
  (** Registration writes identity and lifecycle together or writes neither. *)
  adm_registered : forall ag t s agents r agents' r',
    adm_commit_registration ag t s (agents, r) = ((agents', r'), Ok tt) ->
    agent_get (agent_id ag) agents = None /\ as_version s = 1 /\
    as_state s = ADM_REGISTERED /\
    (forall a, agent_get a agents' = if decide (a = agent_id ag)
                                     then Some (with_status STATUS_REGISTERED ag)
                                     else agent_get a agents) /\
    (forall a, adm_view r' a = if decide (a = agent_id ag) then Some s else adm_view r a) /\
    adm_ledger r' = adm_ledger r ++ [t];
  adm_registration_refused : forall ag t s agents r agents' r' e,
    adm_commit_registration ag t s (agents, r) = ((agents', r'), Err e) ->
    agents' = agents /\ adm_view r' = adm_view r /\ adm_ledger r' = adm_ledger r;
}.

(** ** Administrative plane: in-memory adapter *)

Record InMemoryAdministrativeStateRepository := mkAdmRepo {
  ar_states : gmap string AgentAdministrativeState;
  ar_transitions : list AdministrativeTransition;
  ar_composes : bool;   (** constructed with an agent repository *)
}.

Definition empty_adm_repo : InMemoryAdministrativeStateRepository := mkAdmRepo ∅ [] true.

Definition mem_adm_get_state (a : string) (r : InMemoryAdministrativeStateRepository)
  : result (option AgentAdministrativeState) := Ok (ar_states r !! a).

Definition mem_adm_record_transition
  (t : AdministrativeTransition) (new_state : AgentAdministrativeState) (expected_version : Z)
  : Comp InMemoryAdministrativeStateRepository bool := fun r =>
  let a := at_agent_id t in
  let persisted := ar_states r !! a in
  let current_version := admin_version_of persisted in
  if negb (current_version =? expected_version) then (r, Ok false)
  else if negb (as_version new_state =? expected_version + 1)
  then (r, Err AdministrativeTransitionInvariantError)
  else
    let previous_state := admin_state_of persisted in
    if negb (is_legal_administrative_transition previous_state (as_state new_state))
    then (r, Err AdministrativeTransitionInvariantError)
    else if negb (bool_decide (at_previous_state t = previous_state))
         || negb (bool_decide (at_new_state t = as_state new_state))
         || negb (at_version_before t =? current_version)
         || negb (at_version_after t =? as_version new_state)
    then (r, Err AdministrativeTransitionInvariantError)
    else (mkAdmRepo (<[a := new_state]> (ar_states r)) (ar_transitions r ++ [t])
            (ar_composes r), Ok true).

Definition mem_adm_commit_registration
  (ag : Agent) (t : AdministrativeTransition) (new_state : AgentAdministrativeState)
  : Comp (AgentRepo * InMemoryAdministrativeStateRepository) unit := fun '(agents, r) =>
  if negb (ar_composes r) then ((agents, r), Err AdministrativeStateUnavailableError)
  else match agent_get (agent_id ag) agents with
  | Some _ => ((agents, r), Err AgentAlreadyRegisteredError)
  | None =>
      if negb (is_legal_administrative_transition None (as_state new_state))
      then ((agents, r), Err AdministrativeTransitionInvariantError)
      else if negb (as_version new_state =? 1)
      then ((agents, r), Err AdministrativeTransitionInvariantError)
      else ((agent_save ag agents,
             mkAdmRepo (<[agent_id ag := new_state]> (ar_states r))
               (ar_transitions r ++ [t]) (ar_composes r)), Ok tt)
  end.

Definition mem_adm_list_transitions (a : option string) (r : InMemoryAdministrativeStateRepository)
  : list AdministrativeTransition :=
  sort_by (fun t u => pair_leb (at_occurred_at t, at_transition_id t)
                               (at_occurred_at u, at_transition_id u))
    (List.filter (fun t => match a with None => true
                           | Some a => bool_decide (at_agent_id t = a) end)
       (ar_transitions r)).

#[export] Instance mem_administrative :
  AdministrativeStateRepository InMemoryAdministrativeStateRepository := {|
  adm_get_state := mem_adm_get_state;
  adm_record_transition := mem_adm_record_transition;
  adm_commit_registration := mem_adm_commit_registration;
  adm_list_transitions := mem_adm_list_transitions;
|}.

Lemma mem_adm_committed t s v r r' :
  mem_adm_record_transition t s v r = (r', Ok true) ->
  let old := ar_states r !! at_agent_id t in
  admin_version_of old = v /\ as_version s = v + 1 /\
  is_legal_administrative_transition (admin_state_of old) (as_state s) = true /\
  at_previous_state t = admin_state_of old /\ at_new_state t = as_state s /\
  at_version_before t = v /\ at_version_after t = as_version s /\
  (forall a, ar_states r' !! a = if decide (a = at_agent_id t) then Some s else ar_states r !! a) /\
  ar_transitions r' = ar_transitions r ++ [t].
Proof.
  unfold mem_adm_record_transition. cbv zeta.
  destruct (negb (_ =? v)) eqn:H1; [done|]. destruct (negb (_ =? v + 1)) eqn:H2; [done|].
  destruct (negb (is_legal_administrative_transition _ _)) eqn:H3; [done|].
  destruct (_ || _) eqn:H4; [done|]. intros [= <-]; simpl.
  rewrite !orb_false_iff, !negb_false_iff, !bool_decide_eq_true, !Z.eqb_eq in H4.
  destruct H4 as [[[? ?] ?] ?]. rewrite negb_false_iff in H1, H2, H3.
  apply Z.eqb_eq in H1. apply Z.eqb_eq in H2.
  split_and!; try done; [congruence|]. intros a. rewrite lookup_insert.
  repeat case_decide; congruence.
Qed.

Lemma legal_from_none n :
  is_legal_administrative_transition None n = true -> n = ADM_REGISTERED.
Proof. by destruct n. Qed.

Lemma agent_get_save ag a r :
  agent_get a (agent_save ag r) =
  if decide (a = agent_id ag) then Some (with_status STATUS_REGISTERED ag) else agent_get a r.
Proof. apply dget_dset. Qed.

Lemma mem_adm_registered ag t s agents r agents' r' :
  mem_adm_commit_registration ag t s (agents, r) = ((agents', r'), Ok tt) ->
  agent_get (agent_id ag) agents = None /\ as_version s = 1 /\ as_state s = ADM_REGISTERED /\
  (forall a, agent_get a agents' = if decide (a = agent_id ag)
                                   then Some (with_status STATUS_REGISTERED ag)
                                   else agent_get a agents) /\
  (forall a, ar_states r' !! a = if decide (a = agent_id ag) then Some s else ar_states r !! a) /\
  ar_transitions r' = ar_transitions r ++ [t].
Proof.
  unfold mem_adm_commit_registration. destruct (negb (ar_composes r)); [done|].
  destruct (agent_get _ agents) eqn:Hag; [done|].
  destruct (negb (is_legal_administrative_transition _ _)) eqn:H3; [done|].
  destruct (negb (_ =? 1)) eqn:H2; [done|]. intros [= <- <-]; simpl.
  rewrite negb_false_iff in H2, H3. apply legal_from_none in H3. apply Z.eqb_eq in H2.
  split_and!; try done; [intros a; apply agent_get_save|]. intros a. rewrite lookup_insert.
  repeat case_decide; congruence.
Qed.

#[export] Program Instance mem_administrative_contract :
  AdministrativeContract InMemoryAdministrativeStateRepository := {|
  adm_view := fun r a => ar_states r !! a;
  adm_ledger := ar_transitions;
|}.
Next Obligation. by intros a r s [= <-]. Qed.
Next Obligation. apply mem_adm_committed. Qed.
Next Obligation.
  intros t s v r r' x. simpl. unfold mem_adm_record_transition. intros H Hx.
  by repeat case_match; simplify_eq.
Qed.
Next Obligation. apply mem_adm_registered. Qed.
Next Obligation.
  intros ag t s agents r agents' r' e. simpl. unfold mem_adm_commit_registration.
  intros H. by repeat case_match; simplify_eq.
Qed.

(** ** Compare-and-set

    A caller reads an agent's state, and later commits against the epoch it read, with any
    other commits in between. *)

Section cas.
Context {R : Type} `{EnforcementContract R}.

Definition enf_commit : Type := EnforcementTransition * AgentEnforcementState * Z.

Definition run_commits (cs : list enf_commit) (r : R) : R :=
  fold_left (fun r '(t, s, e) => (enf_record_transition t s e r).1) cs r.

Definition ledger_of (a : string) (r : R) : list EnforcementTransition :=
  List.filter (fun t => bool_decide (et_agent_id t = a)) (enf_ledger r).

Lemma commit_epoch_grows t s e r :
  enf_ok r ->
  let r' := (enf_record_transition t s e r).1 in
  enf_ok r' /\ forall a,
    (enf_view r' a = enf_view r a /\ ledger_of a r' = ledger_of a r) \/
    epoch_of (enf_view r a) < epoch_of (enf_view r' a).
Proof.
  intros Hok. destruct (enf_record_transition t s e r) as [r' x] eqn:Hr; simpl.
  destruct (decide (x = Ok true)) as [->|Hx].
  - apply enf_committed in Hr as (Hok' & He & Hs & _ & Hv & Hl); [|done].
    split; [done|]. intros a. unfold ledger_of. rewrite Hv, Hl. case_decide as Ha.
    + right. subst a. simpl. lia.
    + left. split; [done|]. rewrite List.filter_app; simpl.
      rewrite bool_decide_eq_false_2 by congruence. apply app_nil_r.
  - apply enf_refused in Hr as (Hok' & Hv & Hl); [|done..].
    split; [done|]. intros a. left. unfold ledger_of. by rewrite Hv, Hl.
Qed.

Lemma commits_epoch_grow cs r :
  enf_ok r ->
  enf_ok (run_commits cs r) /\ forall a,
    (enf_view (run_commits cs r) a = enf_view r a /\
     ledger_of a (run_commits cs r) = ledger_of a r) \/
    epoch_of (enf_view r a) < epoch_of (enf_view (run_commits cs r) a).
Proof.
  revert r. induction cs as [|[[t s] e] cs IH]; intros r Hok; [by auto|].
  change (run_commits ((t, s, e) :: cs) r) with (run_commits cs (enf_record_transition t s e r).1).
  destruct (commit_epoch_grows t s e r Hok) as [Hok' Hstep].
  destruct (IH _ Hok') as [Hok'' Hrest]. split; [done|]. intros a.
  destruct (Hstep a) as [[E1 E2]|?], (Hrest a) as [[E3 E4]|?].
  1: left; split; congruence.
  all: right; rewrite ?E3, <- ?E1; lia.
Qed.
End cas.

(** A transition commits only against the state it was computed from: if a caller read
    agent [a]'s enforcement state in [r], and its compare-and-set on the epoch it read
    succeeds after any commits by other callers, then none of those commits touched [a] —
    neither its state nor its ledger — so a stale reading never overwrites a newer one. *)
Theorem enforcement_cas_serializes `{EnforcementContract R} (r : R) cs t s r' :
  enf_ok r ->
  enf_record_transition t s (epoch_of (enf_view r (et_agent_id t))) (run_commits cs r)
    = (r', Ok true) ->
  enf_view (run_commits cs r) (et_agent_id t) = enf_view r (et_agent_id t) /\
  ledger_of (et_agent_id t) (run_commits cs r) = ledger_of (et_agent_id t) r.
Proof.
  intros Hok Hc. destruct (commits_epoch_grow cs r Hok) as [Hok' Hgrow].
  apply enf_committed in Hc as (_ & He & _); [|done].
  destruct (Hgrow (et_agent_id t)) as [?|?]; [done|]. lia.
Qed.

Definition sample_suspend (a id : string) (now : Z) : EnforcementTransition :=
  mkEnfTransition id a SUSPEND "runtime" "risk" STATUS_ACTIVE STATUS_SUSPENDED None now.

Definition sample_suspended (a : string) (epoch now : Z) : AgentEnforcementState :=
  mkEnfState a epoch (Some now) (Some "risk"%string) None 0 0 0 (Some now).

Lemma enf_repo_empty_ok : enf_repo_ok empty_enf_repo.
Proof. intros a. unfold empty_enf_repo; simpl. by rewrite !lookup_empty. Qed.

Lemma enforcement_cas_serializes_witness :
  let others : list enf_commit := [(sample_suspend "b" "t0" 5, sample_suspended "b" 1 5, 0)] in
  enf_view (run_commits others empty_enf_repo) "a" = enf_view empty_enf_repo "a" /\
  ledger_of "a" (run_commits others empty_enf_repo) = ledger_of "a" empty_enf_repo.
Proof.
  exact (enforcement_cas_serializes empty_enf_repo
    [(sample_suspend "b" "t0" 5, sample_suspended "b" 1 5, 0)]
    (sample_suspend "a" "t1" 7) (sample_suspended "a" 1 7)
    (run_commits [(sample_suspend "b" "t0" 5, sample_suspended "b" 1 5, 0);
                  (sample_suspend "a" "t1" 7, sample_suspended "a" 1 7, 0)] empty_enf_repo)
    enf_repo_empty_ok eq_refl).
Defined.
