(* ===== verification/Agents.v ===== *)
(** * AgentService (services/agent_service.py)

    The registry of agents and the authority for both lifecycle planes, over any
    repositories that satisfy the contracts of [Planes]. *)

From S2P Require Import Prelude PyDict Models Lifecycle Planes.
From stdpp Require Import relations.
Local Open Scope Z_scope.

(** The three repositories the service holds. *)
Record AgentWorld (RA RE : Type) := mkAgentWorld {
  aw_agents : AgentRepo;
  aw_adm : RA;
  aw_enf : RE;
}.
Arguments mkAgentWorld {RA RE}.
Arguments aw_agents {RA RE}.
Arguments aw_adm {RA RE}.
Arguments aw_enf {RA RE}.

(** What one call reads from its environment: the wall clock and the random identifiers. *)
Record CallEnv := mkEnv {
  env_now : Z;
  env_uuid : string;
  env_corr : string;
}.

Definition RUNTIME_ACTOR : string := "runtime".
Definition SYSTEM_REGISTRATION_ACTOR : Actor := mkActor SYSTEM "system".
Definition BOOTSTRAP_ACTOR : Actor := mkActor SYSTEM "bootstrap".

(** [correlation_id or f"corr-{uuid4()}"] *)
Definition correlation (c : option string) (env : CallEnv) : string :=
  match c with
  | Some s => if str_nonempty s then s else "corr-" +:+ env_corr env
  | None => "corr-" +:+ env_corr env
  end.

(** ** Operations *)

Section operations.
Context {RA RE : Type}.
Context `{AdministrativeStateRepository RA} `{EnforcementStateRepository RE}.
Local Abbreviation W := (AgentWorld RA RE).

Definition reads {A} (f : W -> result A) : Comp W A := fun w => (w, f w).

Definition on_adm {A} (m : Comp RA A) : Comp W A :=
  zoom aw_adm (fun r w => mkAgentWorld (aw_agents w) r (aw_enf w)) m.
Definition on_enf {A} (m : Comp RE A) : Comp W A :=
  zoom aw_enf (fun r w => mkAgentWorld (aw_agents w) (aw_adm w) r) m.
Definition on_registration {A} (m : Comp (AgentRepo * RA) A) : Comp W A :=
  zoom (fun w => (aw_agents w, aw_adm w))
       (fun p w => mkAgentWorld p.1 p.2 (aw_enf w)) m.

Definition register_agent (ag : Agent) (actor : Actor) (correlation_id : option string)
  (env : CallEnv) : Comp W Agent :=
  let transition :=
    mkAdmTransition ("admin-transition-" +:+ env_uuid env) (agent_id ag) REGISTER actor
      "Agent registered" None ADM_REGISTERED 0 1 (correlation correlation_id env)
      (env_now env) in
  let state := mkAdmState (agent_id ag) ADM_REGISTERED 1 (Some (env_now env)) in
  _ ← try_except (on_registration (adm_commit_registration ag transition state))
        (fun e => if decide (e = AgentAlreadyRegisteredError)
                  then raise AgentAlreadyExistsError else raise e);
  mret ag.

Definition administrative_transition (a : string) (new_state : AdministrativeLifecycleState)
  (actor : Actor) (reason : string) (correlation_id : option string) (env : CallEnv)
  : Comp W AgentAdministrativeState :=
  current ← reads (fun w => adm_get_state a (aw_adm w));
  let previous_state := admin_state_of current in
  let expected_version := admin_version_of current in
  if negb (is_legal_administrative_transition previous_state new_state)
  then raise IllegalAdministrativeTransitionError
  else
    let next_version := expected_version + 1 in
    action ← liftR (of_option KeyError
                      (ADMINISTRATIVE_TRANSITION_ACTIONS previous_state new_state));
    let transition :=
      mkAdmTransition ("admin-transition-" +:+ env_uuid env) a action actor reason
        previous_state new_state expected_version next_version
        (correlation correlation_id env) (env_now env) in
    let updated := mkAdmState a new_state next_version (Some (env_now env)) in
    committed ← on_adm (adm_record_transition transition updated expected_version);
    if committed : bool then mret updated else raise AdministrativeConcurrencyError.

Definition administrative_state (a : string) : Comp W (option AgentAdministrativeState) :=
  reads (fun w => adm_get_state a (aw_adm w)).

Definition list_administrative_transitions (a : option string) : Comp W (list AdministrativeTransition) :=
  reads (fun w => Ok (adm_list_transitions a (aw_adm w))).

Definition list_transitions (a : option string) : Comp W (list EnforcementTransition) :=
  reads (fun w => Ok (enf_list_transitions a (aw_enf w))).

(** [_project_status] *)
Definition project_status (administrative : option AgentAdministrativeState)
  (enforcement : option AgentEnforcementState) : AgentStatus :=
  match administrative with
  | None => STATUS_REGISTERED
  | Some adm =>
      if bool_decide (as_state adm = ADM_DISABLED) then STATUS_DISABLED
      else if is_suspended enforcement then STATUS_SUSPENDED
      else if bool_decide (as_state adm = ADM_ACTIVE) then STATUS_ACTIVE
      else STATUS_REGISTERED
  end.

Definition get_agent (a : string) : Comp W Agent :=
  agent ← reads (fun w => of_option AgentNotFoundError (agent_get a (aw_agents w)));
  enf_state ← try_except (reads (fun w => enf_get_state a (aw_enf w)))
                (fun _ => raise EnforcementStateUnavailableError);
  administrative ← reads (fun w => adm_get_state a (aw_adm w));
  mret (with_status (project_status administrative enf_state) agent).

Definition activate_agent (a : string) (actor : Actor) (reason : string)
  (correlation_id : option string) (env : CallEnv) : Comp W AgentAdministrativeState :=
  _ ← get_agent a;
  administrative_transition a ADM_ACTIVE actor reason correlation_id env.

Definition disable_agent (a : string) (actor : Actor) (reason : string)
  (correlation_id : option string) (env : CallEnv) : Comp W AgentAdministrativeState :=
  _ ← get_agent a;
  administrative_transition a ADM_DISABLED actor reason correlation_id env.

Definition register_and_activate_agent (ag : Agent) (actor : Actor)
  (correlation_id : option string) (env1 env2 : CallEnv) : Comp W Agent :=
  registered ← register_agent ag actor correlation_id env1;
  _ ← activate_agent (agent_id ag) actor "Activated on registration by a system actor"
        correlation_id env2;
  mret registered.

(** [_read_planes]: each plane's reading and whether it could be established. *)
Definition read_planes (a : string) (w : W)
  : option AgentAdministrativeState * bool * (option AgentEnforcementState * bool) :=
  (match adm_get_state a (aw_adm w) with Ok s => (s, true) | Err _ => (None, false) end,
   match enf_get_state a (aw_enf w) with Ok s => (s, true) | Err _ => (None, false) end).

Definition lifecycle_refusal (a : string) (w : W) : option LifecycleRefusalCode :=
  let '(administrative, admin_ok, (enforcement, enf_ok)) := read_planes a w in
  evaluate_lifecycle_authorization administrative admin_ok enforcement enf_ok.

(** The state [_transition] commits for each action. *)
Definition enforcement_successor (action : EnforcementAction) (reason : string)
  (watermark : option BaselineWatermark) (now : Z) (s : AgentEnforcementState)
  : AgentEnforcementState :=
  match action with
  | SUSPEND =>
      mkEnfState (es_agent_id s) (es_epoch s + 1) (Some now) (Some reason)
        (es_baseline_at s) (es_baseline_evidence_sequence s) (es_baseline_agent_sequence s)
        (es_recovery_generation s) (Some now)
  | REINSTATE =>
      let baseline_at :=
        match watermark with
        | Some wm => match wm_baseline_at wm with Some t => t | None => now end
        | None => now
        end in
      mkEnfState (es_agent_id s) (es_epoch s + 1) None None (Some baseline_at)
        (match watermark with Some wm => wm_baseline_evidence_sequence wm | None => 0 end)
        (match watermark with Some wm => wm_baseline_agent_sequence wm | None => 0 end)
        (es_recovery_generation s + 1) (Some now)
  end.

Definition enforcement_transition (ag : Agent) (new_status : AgentStatus)
  (action : EnforcementAction) (actor reason : string) (trigger : option EnforcementTrigger)
  (watermark : option BaselineWatermark) (env : CallEnv) : Comp W Agent :=
  administrative ← reads (fun w => adm_get_state (agent_id ag) (aw_adm w));
  if bool_decide (action = SUSPEND)
     && bool_decide (admin_state_of administrative = Some ADM_DISABLED)
  then mret ag
  else
    stored ← reads (fun w => enf_get_state (agent_id ag) (aw_enf w));
    let state := default (initial_enforcement_state (agent_id ag)) stored in
    let expected_epoch := es_epoch state in
    let new_state := enforcement_successor action reason watermark (env_now env) state in
    let transition :=
      mkEnfTransition ("transition-" +:+ env_uuid env) (agent_id ag) action actor reason
        (agent_status ag) new_status trigger (env_now env) in
    committed ← on_enf (enf_record_transition transition new_state expected_epoch);
    if committed : bool then
      administrative ← reads (fun w => adm_get_state (agent_id ag) (aw_adm w));
      mret (with_status (project_status administrative (Some new_state)) ag)
    else raise EnforcementConcurrencyError.

Definition suspend_agent (a reason : string) (trigger : option EnforcementTrigger)
  (env : CallEnv) : Comp W Agent :=
  ag ← get_agent a;
  administrative ← reads (fun w => adm_get_state a (aw_adm w));
  enforcement ← reads (fun w => enf_get_state a (aw_enf w));
  if is_suspended enforcement
     || bool_decide (admin_state_of administrative = Some ADM_DISABLED)
  then mret ag
  else enforcement_transition ag STATUS_SUSPENDED SUSPEND RUNTIME_ACTOR reason trigger
         None env.

Definition reinstate_agent (a actor reason : string) (watermark : option BaselineWatermark)
  (env : CallEnv) : Comp W Agent :=
  ag ← get_agent a;
  if negb (str_nonempty (str_strip actor)) then raise ValueError
  else if negb (str_nonempty (str_strip reason)) then raise ValueError
  else
    enforcement ← reads (fun w => enf_get_state a (aw_enf w));
    if negb (is_suspended enforcement) then raise AgentNotSuspendedError
    else enforcement_transition ag STATUS_ACTIVE REINSTATE actor reason None watermark env.

Definition get_enforcement_state (a : string) : Comp W AgentEnforcementState :=
  _ ← get_agent a;
  state ← reads (fun w => enf_get_state a (aw_enf w));
  mret (default (initial_enforcement_state a) state).

Definition get_current_baseline (a : string) : Comp W BaselineWatermark :=
  state ← get_enforcement_state a;
  mret (mkWatermark a (es_baseline_at state) (es_baseline_evidence_sequence state)
          (es_baseline_agent_sequence state)).

Definition enforcement_epoch (a : string) (as_of : Z) (w : W) : Z :=
  enf_get_epoch a as_of (aw_enf w).
End operations.

(** ** Calls

    The operations that change state, as data: a history of the service is a list of calls,
    each with the arguments and environment it ran with. *)

Inductive AgentCall :=
| CRegister (ag : Agent) (actor : Actor) (c : option string) (env : CallEnv)
| CActivate (a : string) (actor : Actor) (reason : string) (c : option string) (env : CallEnv)
| CDisable (a : string) (actor : Actor) (reason : string) (c : option string) (env : CallEnv)
| CSuspend (a reason : string) (trigger : option EnforcementTrigger) (env : CallEnv)
| CReinstate (a actor reason : string) (wm : option BaselineWatermark) (env : CallEnv).

(** ** Ledger replay

    What a reader of the append-only ledgers reconstructs for one agent.  [None] is a
    ledger no service history explains. *)

Definition adm_entries (a : string) (l : list AdministrativeTransition) :=
  List.filter (fun t => bool_decide (at_agent_id t = a)) l.
Definition enf_entries (a : string) (l : list EnforcementTransition) :=
  List.filter (fun t => bool_decide (et_agent_id t = a)) l.

Definition adm_replay_step
  (acc : option (option AdministrativeLifecycleState * Z)) (t : AdministrativeTransition)
  : option (option AdministrativeLifecycleState * Z) :=
  '(previous, version) ← acc;
  if bool_decide (at_previous_state t = previous)
     && is_legal_administrative_transition previous (at_new_state t)
     && bool_decide (ADMINISTRATIVE_TRANSITION_ACTIONS previous (at_new_state t)
                     = Some (at_action t))
     && (at_version_before t =? version) && (at_version_after t =? version + 1)
  then Some (Some (at_new_state t), version + 1) else None.

Definition adm_replay (a : string) (l : list AdministrativeTransition) :=
  fold_left adm_replay_step (adm_entries a l) (Some (None, 0)).

(** Suspended, epoch, recovery generation. *)
Definition enf_replay_step (acc : option (bool * Z * Z)) (t : EnforcementTransition)
  : option (bool * Z * Z) :=
  '(suspended, epoch, generation) ← acc;
  match et_action t, suspended with
  | SUSPEND, false => Some (true, epoch + 1, generation)
  | REINSTATE, true => Some (false, epoch + 1, generation + 1)
  | _, _ => None
  end.

Definition enf_replay (a : string) (l : list EnforcementTransition) :=
  fold_left enf_replay_step (enf_entries a l) (Some (false, 0, 0)).

Lemma adm_replay_snoc a l t :
  adm_replay a (l ++ [t]) =
  if decide (at_agent_id t = a) then adm_replay_step (adm_replay a l) t else adm_replay a l.
Proof.
  unfold adm_replay, adm_entries. rewrite List.filter_app; simpl.
  repeat case_decide; try case_bool_decide; try done; by rewrite ?fold_left_app, ?app_nil_r.
Qed.

Lemma enf_replay_snoc a l t :
  enf_replay a (l ++ [t]) =
  if decide (et_agent_id t = a) then enf_replay_step (enf_replay a l) t else enf_replay a l.
Proof.
  unfold enf_replay, enf_entries. rewrite List.filter_app; simpl.
  repeat case_decide; try case_bool_decide; try done; by rewrite ?fold_left_app, ?app_nil_r.
Qed.

(** ** Histories and their invariant *)

Section histories.
Context {RA RE : Type} `{AdministrativeContract RA} `{EnforcementContract RE}.
Local Abbreviation W := (AgentWorld RA RE).

Definition forget {A} (m : Comp W A) : Comp W unit := _ ← m; mret tt.

Definition run_call (c : AgentCall) : Comp W unit :=
  match c with
  | CRegister ag actor c env => forget (register_agent ag actor c env)
  | CActivate a actor reason c env => forget (activate_agent a actor reason c env)
  | CDisable a actor reason c env => forget (disable_agent a actor reason c env)
  | CSuspend a reason trigger env => forget (suspend_agent a reason trigger env)
  | CReinstate a actor reason wm env => forget (reinstate_agent a actor reason wm env)
  end.

(** A call that raises leaves what it wrote; the history goes on. *)
Definition run_calls (cs : list AgentCall) (w : W) : W :=
  fold_left (fun w c => (run_call c w).1) cs w.

Record aw_inv (w : W) : Prop := mkAwInv {
  inv_enf_ok : enf_ok (aw_enf w);
  inv_keyed : forall a ag, agent_get a (aw_agents w) = Some ag -> agent_id ag = a;
  inv_enf_keyed : forall a s, enf_view (aw_enf w) a = Some s -> es_agent_id s = a;
  inv_known : forall a, agent_get a (aw_agents w) = None <-> adm_view (aw_adm w) a = None;
  inv_adm : forall a, adm_replay a (adm_ledger (aw_adm w)) =
    Some (admin_state_of (adm_view (aw_adm w) a), admin_version_of (adm_view (aw_adm w) a));
  inv_enf : forall a, enf_replay a (enf_ledger (aw_enf w)) =
    Some (is_suspended (enf_view (aw_enf w) a), epoch_of (enf_view (aw_enf w) a),
          generation_of (enf_view (aw_enf w) a));
}.

(** Two worlds whose repositories show the same states and ledgers. *)
Record aw_same (w w' : W) : Prop := mkAwSame {
  same_agents : aw_agents w' = aw_agents w;
  same_adm : adm_view (aw_adm w') = adm_view (aw_adm w);
  same_adm_ledger : adm_ledger (aw_adm w') = adm_ledger (aw_adm w);
  same_enf : enf_view (aw_enf w') = enf_view (aw_enf w);
  same_enf_ledger : enf_ledger (aw_enf w') = enf_ledger (aw_enf w);
  same_ok : enf_ok (aw_enf w) -> enf_ok (aw_enf w');
}.

Lemma aw_same_refl w : aw_same w w.
Proof. by split. Qed.
Hint Resolve aw_same_refl : core.

Lemma aw_same_inv w w' : aw_same w w' -> aw_inv w -> aw_inv w'.
Proof.
  intros [E1 E2 E3 E4 E5 E6] [I1 I2 I3 I4 I5 I6]. split; rewrite ?E1, ?E2, ?E3, ?E4, ?E5; auto.
Qed.

(** The effect of each operation on what the repositories show. *)

Definition adm_step_to (w w' : W) (a : string) (s : AgentAdministrativeState)
  (t : AdministrativeTransition) : Prop :=
  aw_enf w' = aw_enf w /\
  (forall b, adm_view (aw_adm w') b = if decide (b = a) then Some s else adm_view (aw_adm w) b)
  /\ adm_ledger (aw_adm w') = adm_ledger (aw_adm w) ++ [t] /\ at_agent_id t = a /\
  at_new_state t = as_state s /\ at_previous_state t = admin_state_of (adm_view (aw_adm w) a) /\
  ADMINISTRATIVE_TRANSITION_ACTIONS (at_previous_state t) (at_new_state t) = Some (at_action t) /\
  at_version_before t = admin_version_of (adm_view (aw_adm w) a) /\
  at_version_after t = at_version_before t + 1 /\ as_version s = at_version_after t.

Definition enf_step_to (w w' : W) (a : string) (s : AgentEnforcementState)
  (t : EnforcementTransition) : Prop :=
  aw_agents w' = aw_agents w /\ aw_adm w' = aw_adm w /\
  (enf_ok (aw_enf w')) /\
  (forall b, enf_view (aw_enf w') b = if decide (b = a) then Some s else enf_view (aw_enf w) b)
  /\ enf_ledger (aw_enf w') = enf_ledger (aw_enf w) ++ [t] /\ et_agent_id t = a.

Lemma register_agent_cases ag actor c env w w' x :
  register_agent ag actor c env w = (w', x) ->
  aw_same w w' /\ is_ok x = false \/
  x = Ok ag /\ agent_get (agent_id ag) (aw_agents w) = None /\
  aw_enf w' = aw_enf w /\
  (forall b, agent_get b (aw_agents w') = if decide (b = agent_id ag)
       then Some (with_status STATUS_REGISTERED ag) else agent_get b (aw_agents w)) /\
  exists s t, as_state s = ADM_REGISTERED /\ as_version s = 1 /\ at_agent_id t = agent_id ag /\
    at_previous_state t = None /\ at_new_state t = ADM_REGISTERED /\ at_action t = REGISTER /\
    at_version_before t = 0 /\ at_version_after t = 1 /\
    (forall b, adm_view (aw_adm w') b =
       if decide (b = agent_id ag) then Some s else adm_view (aw_adm w) b) /\
    adm_ledger (aw_adm w') = adm_ledger (aw_adm w) ++ [t].
Proof.
  intros Hr. unfold register_agent, on_registration in Hr. comp_step Hr.
  all: match goal with Hc : adm_commit_registration _ _ _ _ = (?p, _) |- _ =>
         destruct p as [ags r']; simpl in * end.
  - match goal with u : () |- _ => destruct u end.
    match goal with Hc : adm_commit_registration _ _ _ _ = _ |- _ =>
      apply adm_registered in Hc as (? & ? & ? & ? & ? & ?) end. right.
    split_and!; try done. eexists _, _. by split_and!; [..|done|done].
  - match goal with Hc : adm_commit_registration _ _ _ _ = _ |- _ =>
      apply adm_registration_refused in Hc as (-> & ? & ?) end. by left.
  - match goal with Hc : adm_commit_registration _ _ _ _ = _ |- _ =>
      apply adm_registration_refused in Hc as (-> & ? & ?) end. by left.
Qed.

Lemma get_agent_cases a w w' x :
  get_agent a w = (w', x) ->
  w' = w /\ forall ag, x = Ok ag -> exists ag0 adm enf,
    agent_get a (aw_agents w) = Some ag0 /\ adm_get_state a (aw_adm w) = Ok adm /\
    enf_get_state a (aw_enf w) = Ok enf /\ ag = with_status (project_status adm enf) ag0.
Proof.
  intros Hg. unfold get_agent, reads, of_option in Hg. comp_step Hg.
  all: split; [done|]. all: intros ? [= <-]; eauto 10.
Qed.

Lemma administrative_transition_cases a n actor reason c env w w' x :
  administrative_transition a n actor reason c env w = (w', x) ->
  aw_same w w' /\ is_ok x = false \/
  exists s t, x = Ok s /\ as_state s = n /\ aw_agents w' = aw_agents w /\
    is_legal_administrative_transition (admin_state_of (adm_view (aw_adm w) a)) n = true /\
    adm_step_to w w' a s t.
Proof.
  intros Hr. unfold administrative_transition, reads, on_adm, of_option in Hr. comp_step Hr.
  all: try (by left). all: try (left; split; [|done]).
  - right. match goal with Hc : adm_record_transition _ _ _ _ = _ |- _ =>
      apply adm_committed in Hc as (? & ? & Hleg & ? & ? & ? & ? & ? & ?) end.
    match goal with Hc : adm_get_state _ _ = _ |- _ => apply adm_get_sound in Hc as -> end.
    simpl in *. eexists _, _. unfold adm_step_to; simpl. by split_and!.
  - match goal with Hc : adm_record_transition _ _ _ _ = _ |- _ =>
      apply adm_refused in Hc as [? ?]; [by split|done] end.
  - match goal with Hc : adm_record_transition _ _ _ _ = _ |- _ =>
      apply adm_refused in Hc as [? ?]; [by split|done] end.
Qed.

Lemma enforcement_transition_cases ag ns act actor reason trig wm env w w' x :
  enf_ok (aw_enf w) ->
  enforcement_transition ag ns act actor reason trig wm env w = (w', x) ->
  aw_same w w' \/
  exists t,
    let old := enf_view (aw_enf w) (agent_id ag) in
    let s := enforcement_successor act reason wm (env_now env)
               (default (initial_enforcement_state (agent_id ag)) old) in
    et_action t = act /\ enf_step_to w w' (agent_id ag) s t /\
    (forall adm, adm_get_state (agent_id ag) (aw_adm w) = Ok adm ->
       x = Ok (with_status (project_status adm (Some s)) ag)).
Proof.
  intros Hok Hr. unfold enforcement_transition, reads, on_enf in Hr. comp_step Hr.
  all: try (by left).
  all: match goal with Hc : enf_record_transition _ _ _ _ = _ |- _ => rename Hc into Hrec end.
  all: match goal with Hc : enf_get_state _ _ = _ |- _ => apply enf_get_sound in Hc as ->; [|done] end.
  all: try (left; apply enf_refused in Hrec as (? & ? & ?); [by split|done..]).
  all: right; apply enf_committed in Hrec as (? & ? & ? & ? & ? & ?); [|done]; simpl in *.
  all: match goal with Hc : enf_ledger _ = _ ++ [?t] |- _ => exists t end.
  all: cbv zeta; split; [done|split; [|intros adm Hadm; congruence]].
  all: unfold enf_step_to; simpl; by split_and!.
Qed.

Lemma with_status_agent_id st ag : agent_id (with_status st ag) = agent_id ag.
Proof. done. Qed.

Lemma suspend_agent_cases a reason trig env w w' x :
  aw_inv w -> suspend_agent a reason trig env w = (w', x) ->
  aw_same w w' \/
  is_suspended (enf_view (aw_enf w) a) = false /\ agent_get a (aw_agents w) <> None /\
  (exists t, et_action t = SUSPEND /\
    enf_step_to w w' a
      (enforcement_successor SUSPEND reason None (env_now env)
         (default (initial_enforcement_state a) (enf_view (aw_enf w) a))) t).
Proof.
  intros [Hok Hkey _ _ _ _] Hr. unfold suspend_agent, reads in Hr.
  cbv [mbind comp_bind mret comp_ret] in Hr. destruct (get_agent a w) as [w1 [ag|e]] eqn:Hg;
    apply get_agent_cases in Hg as [-> Hag]; [|simplify_eq/=; by left].
  destruct (Hag ag eq_refl) as (ag0 & adm & enf & Hlk & Ha & Hes & ->).
  rewrite Ha, Hes in Hr. apply enf_get_sound in Hes as ->; [|done].
  destruct (_ || _) eqn:Hc in Hr; [simplify_eq/=; by left|].
  apply orb_false_iff in Hc as [Hns _].
  apply enforcement_transition_cases in Hr as [?|(t & Ht & Hs & _)]; [by left| |done].
  rewrite with_status_agent_id, (Hkey _ _ Hlk) in Hs.
  right. split; [done|]. split; [congruence|]. by exists t.
Qed.

(** A suspension that returns leaves the agent suspended or finds it disabled. *)
Lemma suspend_agent_Ok a reason trig env w w' ag :
  aw_inv w -> suspend_agent a reason trig env w = (w', Ok ag) ->
  is_suspended (enf_view (aw_enf w') a) = true \/
  admin_state_of (adm_view (aw_adm w) a) = Some ADM_DISABLED.
Proof.
  intros [Hok Hkey _ _ _ _] Hr. unfold suspend_agent, reads in Hr.
  cbv [mbind comp_bind mret comp_ret] in Hr. destruct (get_agent a w) as [w1 [ag1|e]] eqn:Hg;
    apply get_agent_cases in Hg as [-> Hag]; [|done].
  destruct (Hag ag1 eq_refl) as (ag0 & adm & enf & Hlk & Ha & Hes & ->).
  rewrite Ha, Hes in Hr. pose proof (enf_get_sound _ _ _ Hok Hes) as ->.
  pose proof (adm_get_sound _ _ _ Ha) as ->.
  destruct (_ || _) eqn:Hc in Hr.
  { simplify_eq. apply orb_true_iff in Hc as [?|Hd%bool_decide_eq_true]; auto. }
  apply orb_false_iff in Hc as [_ Hnd%bool_decide_eq_false].
  unfold enforcement_transition, reads, on_enf, zoom in Hr.
  cbv [mbind comp_bind mret comp_ret raise] in Hr. rewrite with_status_agent_id, (Hkey _ _ Hlk), Ha in Hr.
  rewrite bool_decide_true, bool_decide_false in Hr by done. simpl in Hr. rewrite Hes in Hr.
  destruct (enf_record_transition _ _ _ _) as [r' [[]|e]] eqn:Hc; simplify_eq/=; [|done..].
  apply enf_committed in Hc as (_ & _ & _ & _ & Hv & _); [|done]. simpl in *.
  destruct (adm_get_state a (aw_adm w)); simplify_eq/=. left. by rewrite Hv, decide_True.
Qed.

Lemma suspend_agent_not_found a reason trig env w w' :
  (forall b, adm_get_state b (aw_adm w) <> Err AgentNotFoundError) ->
  (forall b, enf_get_state b (aw_enf w) <> Err AgentNotFoundError) ->
  (forall t s e, (enf_record_transition t s e (aw_enf w)).2 <> Err AgentNotFoundError) ->
  suspend_agent a reason trig env w = (w', Err AgentNotFoundError) ->
  agent_get a (aw_agents w) = None.
Proof.
  intros Hadm Henf Hrec Hr. destruct (agent_get a (aw_agents w)) as [ag|] eqn:Hlk; [|done].
  exfalso. unfold suspend_agent, get_agent, enforcement_transition, reads, on_enf, zoom, of_option,
    try_except in Hr.
  cbv [mbind comp_bind mret comp_ret raise] in Hr. rewrite Hlk in Hr.
  pose proof (Hadm a). pose proof (Henf a).
  pose proof (Hadm (agent_id ag)). pose proof (Henf (agent_id ag)).
  repeat (case_match; simplify_eq/=; try done); try congruence.
  match goal with E : enf_record_transition ?t ?s ?e _ = _ |- _ =>
    pose proof (Hrec t s e) as Hx; by rewrite E in Hx end.
Qed.

Lemma reinstate_agent_cases a actor reason wm env w w' x :
  aw_inv w -> reinstate_agent a actor reason wm env w = (w', x) ->
  aw_same w w' \/
  is_suspended (enf_view (aw_enf w) a) = true /\ agent_get a (aw_agents w) <> None /\
  (exists t, et_action t = REINSTATE /\
    enf_step_to w w' a
      (enforcement_successor REINSTATE reason wm (env_now env)
         (default (initial_enforcement_state a) (enf_view (aw_enf w) a))) t).
Proof.
  intros [Hok Hkey _ _ _ _] Hr. unfold reinstate_agent, reads in Hr.
  cbv [mbind comp_bind mret comp_ret] in Hr. destruct (get_agent a w) as [w1 [ag|e]] eqn:Hg;
    apply get_agent_cases in Hg as [-> Hag]; [|simplify_eq/=; by left].
  destruct (Hag ag eq_refl) as (ag0 & adm & enf & Hlk & Ha & Hes & ->).
  destruct (negb (str_nonempty (str_strip actor))) in Hr; [unfold raise in Hr; simplify_eq/=; by left|].
  destruct (negb (str_nonempty (str_strip reason))) in Hr; [unfold raise in Hr; simplify_eq/=; by left|].
  rewrite Hes in Hr. apply enf_get_sound in Hes as ->; [|done].
  destruct (negb (is_suspended _)) eqn:Hc in Hr; [unfold raise in Hr; simplify_eq/=; by left|].
  apply negb_false_iff in Hc.
  apply enforcement_transition_cases in Hr as [?|(t & Ht & Hs & _)]; [by left| |done].
  rewrite with_status_agent_id, (Hkey _ _ Hlk) in Hs.
  right. split; [done|]. split; [congruence|]. by exists t.
Qed.

Lemma activate_agent_cases a actor reason c env w w' x :
  activate_agent a actor reason c env w = (w', x) ->
  aw_same w w' /\ is_ok x = false \/
  exists s t, x = Ok s /\ as_state s = ADM_ACTIVE /\ aw_agents w' = aw_agents w /\
    agent_get a (aw_agents w) <> None /\
    admin_state_of (adm_view (aw_adm w) a) = Some ADM_REGISTERED /\
    adm_step_to w w' a s t.
Proof.
  intros Hr. unfold activate_agent in Hr. cbv [mbind comp_bind mret comp_ret] in Hr.
  destruct (get_agent a w) as [w1 [ag|e]] eqn:Hg;
    apply get_agent_cases in Hg as [-> Hag]; [|simplify_eq/=; by left].
  destruct (Hag ag eq_refl) as (ag0 & adm & enf & Hlk & _).
  apply administrative_transition_cases in Hr as [?|(s & t & ? & ? & ? & Hleg & ?)]; [by left|].
  right. exists s, t. split_and!; try done; [congruence|].
  by destruct (admin_state_of _) as [[]|].
Qed.

Lemma disable_agent_cases a actor reason c env w w' x :
  disable_agent a actor reason c env w = (w', x) ->
  aw_same w w' /\ is_ok x = false \/
  exists s t, x = Ok s /\ as_state s = ADM_DISABLED /\ aw_agents w' = aw_agents w /\
    agent_get a (aw_agents w) <> None /\
    is_legal_administrative_transition (admin_state_of (adm_view (aw_adm w) a)) ADM_DISABLED
      = true /\ adm_step_to w w' a s t.
Proof.
  intros Hr. unfold disable_agent in Hr. cbv [mbind comp_bind mret comp_ret] in Hr.
  destruct (get_agent a w) as [w1 [ag|e]] eqn:Hg;
    apply get_agent_cases in Hg as [-> Hag]; [|simplify_eq/=; by left].
  destruct (Hag ag eq_refl) as (ag0 & adm & enf & Hlk & _).
  apply administrative_transition_cases in Hr as [?|(s & t & ? & ? & ? & Hleg & ?)]; [by left|].
  right. exists s, t. split_and!; try done. congruence.
Qed.

(** The shapes a call's effect can have. *)
Inductive call_effect (w w' : W) : Prop :=
| eff_none (Hsame : aw_same w w')
| eff_register ag s t
    (Hnew : agent_get (agent_id ag) (aw_agents w) = None)
    (Henf : aw_enf w' = aw_enf w)
    (Hags : forall b, agent_get b (aw_agents w') = if decide (b = agent_id ag)
       then Some (with_status STATUS_REGISTERED ag) else agent_get b (aw_agents w))
    (Hst : as_state s = ADM_REGISTERED) (Hv : as_version s = 1)
    (Hview : forall b, adm_view (aw_adm w') b =
       if decide (b = agent_id ag) then Some s else adm_view (aw_adm w) b)
    (Hled : adm_ledger (aw_adm w') = adm_ledger (aw_adm w) ++ [t])
    (Ht : at_agent_id t = agent_id ag /\ at_previous_state t = None /\
          at_new_state t = ADM_REGISTERED /\ at_action t = REGISTER /\
          at_version_before t = 0 /\ at_version_after t = 1)
| eff_adm a s t
    (Hags : aw_agents w' = aw_agents w)
    (Hold : agent_get a (aw_agents w) <> None)
    (Hleg : is_legal_administrative_transition
              (admin_state_of (adm_view (aw_adm w) a)) (as_state s) = true)
    (Hstep : adm_step_to w w' a s t)
| eff_enf a act reason wm now t
    (Hold : agent_get a (aw_agents w) <> None)
    (Hsusp : is_suspended (enf_view (aw_enf w) a) = bool_decide (act = REINSTATE))
    (Hact : et_action t = act)
    (Hstep : enf_step_to w w' a (enforcement_successor act reason wm now
         (default (initial_enforcement_state a) (enf_view (aw_enf w) a))) t).

Lemma forget_state {A} (m : Comp W A) w : (forget m w).1 = (m w).1.
Proof. unfold forget. cbv [mbind comp_bind mret comp_ret]. by destruct (m w) as [? []]. Qed.

Lemma run_call_cases c w : aw_inv w -> call_effect w (run_call c w).1.
Proof.
  intros Hinv. destruct c; simpl; rewrite forget_state;
    match goal with |- call_effect _ (?m w).1 => destruct (m w) as [w' x] eqn:Hr; simpl end.
  - apply register_agent_cases in Hr as [[? _]|(? & ? & ? & ? & s & t & ?)];
      [by apply eff_none|]. destruct_and!. eapply eff_register; eauto 10.
  - apply activate_agent_cases in Hr as [[? _]|(s & t & ? & Hs & ? & ? & Hl & ?)];
      [by apply eff_none|]. eapply eff_adm; eauto. by rewrite Hl, Hs.
  - apply disable_agent_cases in Hr as [[? _]|(s & t & ? & Hs & ? & ? & Hl & ?)];
      [by apply eff_none|]. eapply eff_adm; eauto. by rewrite Hs.
  - apply suspend_agent_cases in Hr as [?|(? & ? & t & ? & ?)]; [by apply eff_none| |done].
    by eapply eff_enf with (act := SUSPEND).
  - apply reinstate_agent_cases in Hr as [?|(? & ? & t & ? & ?)]; [by apply eff_none| |done].
    by eapply eff_enf with (act := REINSTATE).
Qed.

Lemma adm_step_replays w w' a s t :
  aw_inv w -> adm_step_to w w' a s t ->
  is_legal_administrative_transition (admin_state_of (adm_view (aw_adm w) a)) (as_state s) = true ->
  forall b, adm_replay b (adm_ledger (aw_adm w')) =
    Some (admin_state_of (adm_view (aw_adm w') b), admin_version_of (adm_view (aw_adm w') b)).
Proof.
  intros Hinv (_ & Hview & -> & Ha & Hn & Hp & Hact & Hb & Haf & Hv) Hleg b.
  rewrite adm_replay_snoc, Hview, (inv_adm _ Hinv), Ha.
  destruct (decide (a = b)) as [->|]; [|by rewrite decide_False by done].
  rewrite decide_True by done. unfold adm_replay_step; csimpl.
  rewrite Hp in Hact. rewrite !bool_decide_eq_true_2 by congruence.
  rewrite Hn, Hleg. simpl. rewrite Hv, Haf, Hb, !Z.eqb_refl. done.
Qed.

Lemma successor_suspended act reason wm now s :
  is_suspended (Some (enforcement_successor act reason wm now s)) = bool_decide (act = SUSPEND).
Proof. by destruct act. Qed.

Lemma successor_epoch act reason wm now s :
  es_epoch (enforcement_successor act reason wm now s) = es_epoch s + 1.
Proof. by destruct act. Qed.

Lemma successor_generation act reason wm now s :
  es_recovery_generation (enforcement_successor act reason wm now s) =
  es_recovery_generation s + (if bool_decide (act = REINSTATE) then 1 else 0).
Proof. destruct act; simpl; lia. Qed.

Lemma enf_step_replays w w' a act reason wm now t :
  aw_inv w -> is_suspended (enf_view (aw_enf w) a) = bool_decide (act = REINSTATE) ->
  et_action t = act ->
  enf_step_to w w' a (enforcement_successor act reason wm now
    (default (initial_enforcement_state a) (enf_view (aw_enf w) a))) t ->
  forall b, enf_replay b (enf_ledger (aw_enf w')) =
    Some (is_suspended (enf_view (aw_enf w') b), epoch_of (enf_view (aw_enf w') b),
          generation_of (enf_view (aw_enf w') b)).
Proof.
  intros Hinv Hsusp Hact (_ & _ & _ & Hview & -> & Ha) b.
  rewrite enf_replay_snoc, Hview, (inv_enf _ Hinv), Ha.
  destruct (decide (a = b)) as [->|]; [|by rewrite decide_False by done].
  rewrite decide_True by done. unfold enf_replay_step; csimpl.
  rewrite Hsusp, Hact, successor_epoch, successor_generation.
  destruct (enf_view (aw_enf w) b) as [s|]; destruct act; simpl; repeat f_equal; lia.
Qed.

Lemma call_effect_inv w w' : aw_inv w -> call_effect w w' -> aw_inv w'.
Proof.
  intros Hinv [Hsame|ag s t Hnew Henf Hags Hst Hv Hview Hled Ht
    |a s t Hags Hold Hleg Hstep|a act reason wm now t Hold Hsusp Hact Hstep].
  - by eapply aw_same_inv.
  - pose proof (proj1 (inv_known _ Hinv _) Hnew) as Hnone. split.
    + rewrite Henf. apply Hinv.
    + intros b ag'. rewrite Hags. case_decide; [intros [= <-]; by subst|apply Hinv].
    + rewrite Henf. apply Hinv.
    + intros b. rewrite Hags, Hview. case_decide; [done|apply Hinv].
    + apply (adm_step_replays w w' (agent_id ag) s t); [done| |by rewrite Hnone, Hst].
      destruct Ht as (? & Hp & Hn & Hac & ? & ?). unfold adm_step_to. rewrite Hnone, Hp, Hn.
      simpl. rewrite Hac. split_and!; solve [done|congruence|lia].
    + rewrite Henf. apply Hinv.
  - destruct Hstep as (Henf & Hview & Hrest). split.
    + rewrite Henf. apply Hinv.
    + intros b ag. rewrite Hags. apply Hinv.
    + rewrite Henf. apply Hinv.
    + intros b. rewrite Hags, Hview. case_decide; [subst; done|apply Hinv].
    + by apply (adm_step_replays w w' a s t).
    + rewrite Henf. apply Hinv.
  - pose proof (enf_step_replays _ _ _ _ _ _ _ _ Hinv Hsusp Hact Hstep).
    destruct Hstep as (Hags & Hadm & Hok & Hview & _). split; rewrite ?Hags, ?Hadm;
      [done|apply Hinv| |apply Hinv|apply Hinv|done].
    intros b s. rewrite Hview. destruct (decide (b = a)) as [->|]; [|apply Hinv].
    intros [= <-].
    destruct (enf_view (aw_enf w) a) eqn:Ho; simpl; [|by destruct act].
    rewrite <- (inv_enf_keyed _ Hinv _ _ Ho). by destruct act.
Qed.

Lemma run_calls_inv cs w : aw_inv w -> aw_inv (run_calls cs w).
Proof.
  revert w. induction cs as [|c cs IH]; intros w Hinv; [done|].
  apply IH. eapply call_effect_inv; [done|]. by apply run_call_cases.
Qed.

Lemma disabled_step w w' a st :
  aw_inv w -> call_effect w w' -> adm_view (aw_adm w) a = Some st -> as_state st = ADM_DISABLED ->
  adm_view (aw_adm w') a = Some st.
Proof.
  intros Hinv [Hsame|ag s t Hnew Henf Hags Hst Hv Hview Hled Ht
    |b s t Hags Hold Hleg Hstep|b act reason wm now t Hold Hsusp Hact Hstep] Hst0 Hd.
  - by rewrite (same_adm _ _ Hsame).
  - apply (inv_known _ Hinv) in Hnew. rewrite Hview, decide_False; [done|congruence].
  - destruct Hstep as (_ & Hview & _). rewrite Hview. case_decide; [|done]. subst b.
    by rewrite Hst0 in Hleg; simpl in Hleg; rewrite Hd in Hleg.
  - destruct Hstep as (_ & Hadm & _). by rewrite Hadm.
Qed.

Lemma disabled_forever cs w a st :
  aw_inv w -> adm_view (aw_adm w) a = Some st -> as_state st = ADM_DISABLED ->
  adm_view (aw_adm (run_calls cs w)) a = Some st.
Proof.
  revert w. induction cs as [|c cs IH]; intros w Hinv Hst Hd; [done|].
  apply IH; [by eapply call_effect_inv, run_call_cases|by eapply disabled_step, Hd; [..|apply run_call_cases|]|done].
Qed.

Lemma refusal_None_adm a w :
  lifecycle_refusal a w = None ->
  exists st, adm_view (aw_adm w) a = Some st /\ as_state st = ADM_ACTIVE.
Proof.
  unfold lifecycle_refusal, read_planes. destruct (adm_get_state a (aw_adm w)) eqn:Hadm;
    destruct (enf_get_state a (aw_enf w)); rewrite evaluate_None_failing, failing_empty;
    intros (? & (st & Heq & Hst) & ? & _); simplify_eq; apply adm_get_sound in Hadm; by exists st.
Qed.
End histories.

(** ** Properties *)

Definition empty_world
  : AgentWorld InMemoryAdministrativeStateRepository InMemoryEnforcementStateRepository :=
  mkAgentWorld [] empty_adm_repo empty_enf_repo.

Lemma empty_world_inv : aw_inv empty_world.
Proof.
  split; simpl; try done; apply enf_repo_empty_ok.
Qed.

(** C29. DISABLED is terminal: once an agent's administrative record is DISABLED, no further
    sequence of calls — activations, reinstatements and re-registrations included — changes
    that record, and the agent is refused execution after every such sequence. *)
Theorem disabled_is_terminal `{AdministrativeContract RA} `{EnforcementContract RE}
  (w : AgentWorld RA RE) (cs : list AgentCall) a st :
  aw_inv w -> adm_view (aw_adm w) a = Some st -> as_state st = ADM_DISABLED ->
  adm_view (aw_adm (run_calls cs w)) a = Some st /\
  lifecycle_refusal a (run_calls cs w) <> None.
Proof.
  intros Hinv Hst Hd. pose proof (disabled_forever cs w a st Hinv Hst Hd) as Hst'.
  split; [done|]. intros Href. apply refusal_None_adm in Href as (st' & Hv & Ha). congruence.
Qed.

Definition sample_agent (a : string) : Agent :=
  mkAgent a "demo" "owner" TIER_MEDIUM ["filesystem"] STATUS_REGISTERED.
Definition operator : Actor := mkActor HUMAN "op-1".
Definition env_at (t : Z) (u : string) : CallEnv := mkEnv t u u.

Definition disabled_history : list AgentCall :=
  [CRegister (sample_agent "a") operator None (env_at 1 "u1");
   CActivate "a" operator "ready" None (env_at 2 "u2");
   CDisable "a" operator "retired" None (env_at 3 "u3")].

Lemma disabled_is_terminal_witness :
  let w := run_calls disabled_history empty_world in
  let cs := [CActivate "a" operator "again" None (env_at 4 "u4");
             CRegister (sample_agent "a") operator None (env_at 5 "u5")] in
  adm_view (aw_adm (run_calls cs w)) "a" = Some (mkAdmState "a" ADM_DISABLED 3 (Some 3)) /\
  lifecycle_refusal "a" (run_calls cs w) <> None.
Proof.
  exact (disabled_is_terminal (run_calls disabled_history empty_world)
    [CActivate "a" operator "again" None (env_at 4 "u4");
     CRegister (sample_agent "a") operator None (env_at 5 "u5")] "a"
    (mkAdmState "a" ADM_DISABLED 3 (Some 3))
    (run_calls_inv disabled_history empty_world empty_world_inv) eq_refl eq_refl).
Defined.

(** C34. Both ledgers replay: after any history from empty repositories, folding an agent's
    administrative ledger through the transition graph succeeds and yields exactly the
    stored state and version, and folding its enforcement ledger (SUSPEND only when not
    suspended, REINSTATE only when suspended) yields exactly the stored suspension, epoch
    and recovery generation. *)
Theorem lifecycle_ledgers_replay (cs : list AgentCall) a :
  let w := run_calls cs empty_world in
  adm_replay a (ar_transitions (aw_adm w)) =
    Some (admin_state_of (ar_states (aw_adm w) !! a),
          admin_version_of (ar_states (aw_adm w) !! a)) /\
  enf_replay a (er_transitions (aw_enf w)) =
    Some (is_suspended (er_states (aw_enf w) !! a), epoch_of (er_states (aw_enf w) !! a),
          generation_of (er_states (aw_enf w) !! a)).
Proof.
  pose proof (run_calls_inv cs empty_world empty_world_inv) as Hinv.
  split; [apply (inv_adm _ Hinv a)|apply (inv_enf _ Hinv a)].
Qed.

(** The last action each ledger records for an agent. *)
Definition last_admin_action (a : string) (l : list AdministrativeTransition)
  : option AdministrativeAction := at_action <$> last (adm_entries a l).
Definition last_enforcement_action (a : string) (l : list EnforcementTransition)
  : option EnforcementAction := et_action <$> last (enf_entries a l).

Lemma adm_replay_last a l st v :
  adm_replay a l = Some (st, v) ->
  (last_admin_action a l = Some ACTIVATE <-> st = Some ADM_ACTIVE).
Proof.
  unfold adm_replay, last_admin_action. generalize (adm_entries a l). intros es.
  destruct es as [|t es _] using rev_ind; simpl; [intros [= <- <-]; done|].
  rewrite fold_left_app, last_snoc; simpl. unfold adm_replay_step.
  destruct (fold_left _ es _) as [[p u]|]; csimpl; [|done].
  destruct (_ && _) eqn:Hc; [|done]. intros [= <- <-].
  rewrite !andb_true_iff in Hc. destruct Hc as [[[[_ _] Hact] _] _].
  apply bool_decide_eq_true in Hact.
  destruct p as [[]|], (at_new_state t); simplify_eq/=; rewrite <- Hact; done.
Qed.

Lemma enf_replay_last a l b e g :
  enf_replay a l = Some (b, e, g) ->
  (last_enforcement_action a l = Some SUSPEND <-> b = true).
Proof.
  unfold enf_replay, last_enforcement_action. generalize (enf_entries a l). intros es.
  destruct es as [|t es _] using rev_ind; simpl; [intros [= <- <- <-]; done|].
  rewrite fold_left_app, last_snoc; simpl. unfold enf_replay_step.
  destruct (fold_left _ es _) as [[[p u] q]|]; csimpl; [|done].
  destruct (et_action t), p; intros; simplify_eq; done.
Qed.

Lemma admin_active_iff (o : option AgentAdministrativeState) :
  admin_state_of o = Some ADM_ACTIVE <-> exists st, o = Some st /\ as_state st = ADM_ACTIVE.
Proof.
  destruct o as [st|]; csimpl; split.
  - intros [= ?]. by exists st.
  - by intros (st' & [= <-] & ->).
  - done.
  - by intros (? & ? & _).
Qed.

(** Executability is exactly what the ledgers say: after any history, the lifecycle
    planes permit an agent to execute if and only if the last administrative entry for it
    is an ACTIVATE and the last enforcement entry for it is not a SUSPEND. *)
Theorem executable_iff_ledgers (cs : list AgentCall) a :
  let w := run_calls cs empty_world in
  lifecycle_refusal a w = None <->
  last_admin_action a (ar_transitions (aw_adm w)) = Some ACTIVATE /\
  last_enforcement_action a (er_transitions (aw_enf w)) <> Some SUSPEND.
Proof.
  intros w. pose proof (run_calls_inv cs empty_world empty_world_inv) as Hinv.
  pose proof (inv_adm _ Hinv a) as Hadm. pose proof (inv_enf _ Hinv a) as Henf.
  apply adm_replay_last in Hadm. apply enf_replay_last in Henf. simpl in Hadm, Henf.
  fold w in Hadm, Henf.
  rewrite Hadm, Henf, admin_active_iff, not_true_iff_false.
  unfold lifecycle_refusal; simpl. rewrite evaluate_None_failing, failing_empty. naive_solver.
Qed.

(** The enforcement state a reinstatement leaves behind. *)
Definition reinstated (a : string) (wm : option BaselineWatermark) (now : Z)
  (s : AgentEnforcementState) : AgentEnforcementState :=
  mkEnfState a (es_epoch s + 1) None None
    (Some (default now (wm ≫= wm_baseline_at)))
    (default 0 (wm_baseline_evidence_sequence <$> wm))
    (default 0 (wm_baseline_agent_sequence <$> wm))
    (es_recovery_generation s + 1) (Some now).

Lemma mem_commit_fresh r t s :
  enf_repo_ok r -> es_epoch s = epoch_of (er_states r !! et_agent_id t) + 1 ->
  (es_recovery_generation s = generation_of (er_states r !! et_agent_id t) \/
   es_recovery_generation s = generation_of (er_states r !! et_agent_id t) + 1) ->
  mem_enf_record_transition t s (epoch_of (er_states r !! et_agent_id t)) r =
  (mkEnfRepo (<[et_agent_id t := s]> (er_states r)) (er_transitions r ++ [t])
     (<[et_agent_id t := es_epoch s]> (er_epochs r)), Ok true).
Proof.
  intros Hok He Hg. unfold mem_enf_record_transition. rewrite mem_enf_current_epoch by done.
  rewrite He, !Z.eqb_refl; simpl. 
  destruct (_ || _) eqn:Hor; [done|]. apply orb_false_iff in Hor. lia.
Qed.

Lemma successor_reinstate a reason wm now s :
  es_agent_id s = a -> enforcement_successor REINSTATE reason wm now s = reinstated a wm now s.
Proof. intros <-. unfold reinstated; simpl. by destruct wm as [[? [] ? ?]|]. Qed.

(** Reinstatement, completely: a blank actor or reason is refused, an agent that is not
    suspended is refused, both without any write; otherwise the call clears the suspension,
    advances the epoch and the recovery generation by one, installs the watermark's baseline
    (the current time when it has none), appends one REINSTATE entry, touches neither the
    administrative plane nor any other agent, and returns the agent with its projected
    status. *)
Lemma reinstate_agent_run (w : AgentWorld InMemoryAdministrativeStateRepository
    InMemoryEnforcementStateRepository) a ag actor reason wm env :
  aw_inv w -> agent_get a (aw_agents w) = Some ag ->
  let old := default (initial_enforcement_state a) (er_states (aw_enf w) !! a) in
  let new := reinstated a wm (env_now env) old in
  let entry := mkEnfTransition ("transition-" +:+ env_uuid env) a REINSTATE actor reason
    (project_status (ar_states (aw_adm w) !! a) (er_states (aw_enf w) !! a)) STATUS_ACTIVE None
    (env_now env) in
  reinstate_agent a actor reason wm env w =
  if negb (str_nonempty (str_strip actor)) || negb (str_nonempty (str_strip reason))
  then (w, Err ValueError)
  else if negb (is_suspended (er_states (aw_enf w) !! a)) then (w, Err AgentNotSuspendedError)
  else (mkAgentWorld (aw_agents w) (aw_adm w)
          (mkEnfRepo (<[a := new]> (er_states (aw_enf w))) (er_transitions (aw_enf w) ++ [entry])
             (<[a := es_epoch new]> (er_epochs (aw_enf w)))),
        Ok (with_status (project_status (ar_states (aw_adm w) !! a) (Some new)) ag)).
Proof.
  intros Hinv Hag old new entry. pose proof (inv_keyed _ Hinv _ _ Hag) as Hkey.
  assert (Hold : es_agent_id old = a).
  { unfold old. destruct (er_states (aw_enf w) !! a) eqn:Hs; [|done].
    by apply (inv_enf_keyed _ Hinv). }
  assert (Hepoch : es_epoch old = epoch_of (er_states (aw_enf w) !! a)).
  { unfold old. by destruct (er_states (aw_enf w) !! a). }
  assert (Hgen : es_recovery_generation old = generation_of (er_states (aw_enf w) !! a)).
  { unfold old. by destruct (er_states (aw_enf w) !! a). }
  unfold reinstate_agent, get_agent, enforcement_transition, reads, on_enf, zoom, of_option,
    try_except, raise.
  cbv [mbind comp_bind mret comp_ret]. rewrite Hag. cbn [enf_get_state adm_get_state
    mem_enforcement mem_administrative mem_enf_get_state mem_adm_get_state].
  destruct (negb (str_nonempty (str_strip actor))); [done|].
  destruct (negb (str_nonempty (str_strip reason))); [done|].
  unfold mem_enf_get_state, mem_adm_get_state.
  destruct (negb (is_suspended _)); [done|].
  rewrite with_status_agent_id, Hkey.
  change (bool_decide (REINSTATE = SUSPEND)) with false. cbv beta iota delta [andb].
  change (default (initial_enforcement_state a) (er_states (aw_enf w) !! a)) with old.
  rewrite (successor_reinstate a) by done. fold new. simpl enf_record_transition.
  pose proof (mem_commit_fresh (aw_enf w) entry new (inv_enf_ok _ Hinv)
    ltac:(simpl; lia) ltac:(simpl; lia)) as Hcommit.
  change (et_agent_id entry) with a in Hcommit. rewrite Hepoch.
  change (agent_status (with_status ?st ag)) with st. fold entry.
  rewrite Hcommit. done.
Qed.

Definition suspended_history : list AgentCall :=
  [CRegister (sample_agent "a") operator None (env_at 1 "u1");
   CActivate "a" operator "ready" None (env_at 2 "u2");
   CSuspend "a" "risk" None (env_at 3 "u3")].

Lemma reinstate_agent_example :
  let w := run_calls suspended_history empty_world in
  exists w',
    reinstate_agent "a" "op-1" "cleared" (Some (mkWatermark "a" None 4 2)) (env_at 9 "u9") w
      = (w', Ok (with_status STATUS_ACTIVE (sample_agent "a"))) /\
    er_states (aw_enf w') !! "a"%string = Some (mkEnfState "a" 2 None None (Some 9) 4 2 1 (Some 9)).
Proof.
  intros w. eexists. split.
  - etransitivity.
    + apply (reinstate_agent_run w "a" (sample_agent "a")).
      * apply run_calls_inv, empty_world_inv.
      * vm_compute. reflexivity.
    + vm_compute. reflexivity.
  - vm_compute. reflexivity.
Defined.
