(* ===== verification/ToolPlane.v ===== *)
(** * The tool plane: declarative configuration and the executable registry

    [models/tool*.py], [repositories/in_memory/tool_repository.py],
    [services/tool_service.py] and [registry/tool_registry.py].  The repository holds the
    declarative tools under [(tool_id, version)]; the registry holds the descriptors that
    map a tool version to something executable. *)

From S2P Require Import Prelude PyDict Models.
Local Open Scope Z_scope.

(** ** Data *)

Record ToolIdentity := mkToolIdentity {
  ti_tool_id : string;
  ti_name : string;
  ti_version : string;
  ti_description : string;
}.

Record ToolGovernance := mkToolGovernance {
  tg_risk_level : ToolRiskLevel;
  tg_required_permissions : list string;
  tg_owner : option string;
  tg_approval_required : bool;
}.

Record ToolCapability := mkToolCapability {
  tc_category : string;
  tc_reads_files : bool;
  tc_writes_files : bool;
  tc_network_access : bool;
  tc_internet_access : bool;
  tc_database_access : bool;
  tc_shell_access : bool;
}.

Record ToolOperational := mkToolOperational {
  to_enabled : bool;
  to_timeout_seconds : Z;
  to_supports_streaming : bool;
}.

Record ToolMetadata := mkToolMetadata {
  tm_identity : ToolIdentity;
  tm_governance : ToolGovernance;
  tm_capability : ToolCapability;
  tm_operational : ToolOperational;
}.

(** [Tool] wraps its metadata and projects it. *)
Record Tool := mkTool { tool_metadata : ToolMetadata }.

Definition tool_id (t : Tool) : string := ti_tool_id (tm_identity (tool_metadata t)).
Definition tool_version (t : Tool) : string := ti_version (tm_identity (tool_metadata t)).
Definition tool_identity (t : Tool) : string * string := (tool_id t, tool_version t).
Definition tool_risk_level (t : Tool) : ToolRiskLevel :=
  tg_risk_level (tm_governance (tool_metadata t)).
Definition tool_required_permission (t : Tool) : string :=
  match tg_required_permissions (tm_governance (tool_metadata t)) with
  | p :: _ => p
  | [] => EmptyString
  end.
Definition tool_approval_required (t : Tool) : bool :=
  tg_approval_required (tm_governance (tool_metadata t)).
Definition tool_enabled (t : Tool) : bool := to_enabled (tm_operational (tool_metadata t)).

(** The copy [disable_tool] and [enable_tool] build. *)
Definition with_enabled (b : bool) (t : Tool) : Tool :=
  let md := tool_metadata t in
  let op := tm_operational md in
  mkTool (mkToolMetadata (tm_identity md) (tm_governance md) (tm_capability md)
    (mkToolOperational b (to_timeout_seconds op) (to_supports_streaming op))).

Record ToolFamilyGovernance := mkFamilyGovernance {
  fg_tool_id : string;
  fg_risk_level : ToolRiskLevel;
}.

(** ** Tool repository (in memory) *)

Abbreviation ToolRepo := (pydict (string * string) Tool).

Definition toolrepo_get (tid version : string) (r : ToolRepo) : option Tool :=
  dget (tid, version) r.
Definition toolrepo_save (t : Tool) (r : ToolRepo) : ToolRepo := dset (tool_identity t) t r.
Definition toolrepo_list (r : ToolRepo) : list Tool := dvalues r.
Definition toolrepo_list_versions (tid : string) (r : ToolRepo) : list Tool :=
  (List.filter (fun '((family, _), _) => bool_decide (family = tid)) r).*2.

(** ** ToolService *)

Definition register_tool (t : Tool) : Comp ToolRepo Tool := fun r =>
  match toolrepo_get (tool_id t) (tool_version t) r with
  | Some _ => (r, Err ToolAlreadyExistsError)
  | None => (toolrepo_save t r, Ok t)
  end.

Definition get_tool (tid version : string) (r : ToolRepo) : result Tool :=
  of_option ToolNotFoundError (toolrepo_get tid version r).

Definition list_tools (r : ToolRepo) : list Tool := toolrepo_list r.

Definition list_versions (tid : string) (r : ToolRepo) : list Tool :=
  toolrepo_list_versions tid r.

Definition family_exists (tid : string) (r : ToolRepo) : bool :=
  match toolrepo_list_versions tid r with [] => false | _ => true end.

(** [max(levels, key=severity)]: the first of the largest. *)
Fixpoint max_severity (best : ToolRiskLevel) (l : list ToolRiskLevel) : ToolRiskLevel :=
  match l with
  | [] => best
  | x :: l' => max_severity (if tool_severity best <? tool_severity x then x else best) l'
  end.

Definition get_family_governance (tid : string) (r : ToolRepo) : result ToolFamilyGovernance :=
  match tool_risk_level <$> toolrepo_list_versions tid r with
  | [] => Err ToolNotFoundError
  | l :: ls => Ok (mkFamilyGovernance tid (max_severity l ls))
  end.

Definition set_tool_enabled (b : bool) (tid version : string) : Comp ToolRepo Tool := fun r =>
  match get_tool tid version r with
  | Err e => (r, Err e)
  | Ok t => let updated := with_enabled b t in (toolrepo_save updated r, Ok updated)
  end.

Definition disable_tool : string -> string -> Comp ToolRepo Tool := set_tool_enabled false.
Definition enable_tool : string -> string -> Comp ToolRepo Tool := set_tool_enabled true.

(** ** ToolRegistry

    A [BaseTool] is its metadata and the class it is an instance of; a factory is called
    with no arguments and may raise. *)

Record BaseTool := mkBaseTool { bt_metadata : ToolMetadata; bt_class : string }.

Inductive RegistrationState := RS_REGISTERED | RS_UNREGISTERED | RS_DEPRECATED.

Record ToolDescriptor := mkDescriptor {
  td_metadata : ToolMetadata;
  td_instance : option BaseTool;
  td_factory : option (unit -> result BaseTool);
  td_tool_class : option string;
  td_implementation_id : option string;
  td_enabled : bool;
  td_registration_state : RegistrationState;
}.

Definition td_tool_id (d : ToolDescriptor) : string := ti_tool_id (tm_identity (td_metadata d)).
Definition td_version (d : ToolDescriptor) : string := ti_version (tm_identity (td_metadata d)).

Abbreviation ToolRegistry := (pydict string (pydict string ToolDescriptor)).

Definition match_version (actual requested : string) : bool :=
  bool_decide (str_strip actual = str_strip requested).

Definition validate_tool_metadata (t : BaseTool) : result unit :=
  let identity := tm_identity (bt_metadata t) in
  if negb (str_nonempty (str_strip (ti_tool_id identity))) then Err ToolMetadataValidationError
  else if negb (str_nonempty (str_strip (ti_name identity))) then Err ToolMetadataValidationError
  else Ok tt.

(** [self._descriptors[tool_id]] with the empty dictionary it creates when absent. *)
Definition family_versions (tid : string) (reg : ToolRegistry) : pydict string ToolDescriptor :=
  default [] (dget tid reg).

(** The locked block of [register] and [register_factory]; the empty family dictionary
    it creates stays behind only when there was none to duplicate. *)
Definition store_descriptor (tid : string) (d : ToolDescriptor) : Comp ToolRegistry unit :=
  fun reg =>
    let reg := dsetdefault tid [] reg in
    let versions := family_versions tid reg in
    if dhas (td_version d) versions then (reg, Err DuplicateToolRegistrationError)
    else (dset tid (dset (td_version d) d versions) reg, Ok tt).

Definition register (t : BaseTool) (implementation_id : option string)
  : Comp ToolRegistry BaseTool :=
  _ ← liftR (validate_tool_metadata t);
  let descriptor := mkDescriptor (bt_metadata t) (Some t) None (Some (bt_class t))
                      implementation_id true RS_REGISTERED in
  _ ← store_descriptor (td_tool_id descriptor) descriptor;
  mret t.

Definition register_factory (tid : string) (factory : unit -> result BaseTool)
  (metadata : option ToolMetadata) : Comp ToolRegistry unit :=
  if negb (str_nonempty (str_strip tid)) then raise ValueError
  else
    metadata ← match metadata with
               | Some md => mret md
               | None =>
                   sample ← liftR (factory tt);
                   _ ← liftR (validate_tool_metadata sample);
                   mret (bt_metadata sample)
               end;
    store_descriptor tid
      (mkDescriptor metadata None (Some factory) None None true RS_REGISTERED).

Definition find_version (requested : string) (versions : pydict string ToolDescriptor)
  : option ToolDescriptor :=
  snd <$> List.find (fun '(reg_version, _) => match_version reg_version requested) versions.

Definition resolve (tid : string) (version : option string) (reg : ToolRegistry)
  : result ToolDescriptor :=
  match family_versions tid reg with
  | [] => Err ToolNotRegisteredError
  | ((_, first) :: others) as versions =>
      match version with
      | Some v => of_option ToolVersionMismatchError (find_version v versions)
      | None => match others with
                | _ :: _ => Err AmbiguousToolVersionError
                | [] => Ok first
                end
      end
  end.

Definition exists_tool (tid : string) (reg : ToolRegistry) : bool :=
  match dget tid reg with Some (_ :: _) => true | _ => false end.

Definition unregister (tid : string) (version : option string) : Comp ToolRegistry unit :=
  fun reg =>
    match family_versions tid reg with
    | [] => (reg, Err ToolNotRegisteredError)
    | versions =>
        match version with
        | None => (ddel tid reg, Ok tt)
        | Some v =>
            if negb (dhas v versions) then (reg, Err ToolNotRegisteredError)
            else match ddel v versions with
                 | [] => (ddel tid reg, Ok tt)
                 | rest => (dset tid rest reg, Ok tt)
                 end
        end
    end.

Definition list_descriptors (reg : ToolRegistry) : list ToolDescriptor :=
  concat (dvalues <$> dvalues reg).
Definition list_tool_ids (reg : ToolRegistry) : gset string := list_to_set (dkeys reg).
Definition list_registered_instances (reg : ToolRegistry) : list BaseTool :=
  omap (fun d => if td_enabled d then td_instance d else None) (list_descriptors reg).
Definition discover_tools (reg : ToolRegistry) : list ToolMetadata :=
  td_metadata <$> List.filter td_enabled (list_descriptors reg).

(** ** Lemmas: tool repository *)

Definition repo_wf (r : ToolRepo) : Prop :=
  dwf r /\ forall k t, dget k r = Some t -> tool_identity t = k.

Lemma toolrepo_save_wf t r : repo_wf r -> repo_wf (toolrepo_save t r).
Proof.
  intros [Hwf Hid]. split; [by apply dset_wf|]. intros k u. unfold toolrepo_save.
  rewrite dget_dset. case_decide; [by intros [= <-]|apply Hid].
Qed.

Lemma with_enabled_identity b t : tool_identity (with_enabled b t) = tool_identity t.
Proof. done. Qed.

Lemma list_versions_elem tid t r :
  repo_wf r ->
  t ∈ toolrepo_list_versions tid r <->
  tool_id t = tid /\ toolrepo_get tid (tool_version t) r = Some t.
Proof.
  intros [Hwf Hid]. unfold toolrepo_list_versions, toolrepo_get. rewrite list_elem_of_fmap.
  split.
  - intros ([[f v] u] & -> & Hin). apply filter_elem in Hin as [Hin Hf]; simpl in *.
    apply bool_decide_eq_true in Hf as ->. apply elem_dget in Hin; [|done].
    pose proof (Hid _ _ Hin) as [= <- <-]. by split.
  - intros [<- Hget]. exists ((tool_id t, tool_version t), t). split; [done|].
    apply filter_elem. split; [by apply dget_elem|]. by rewrite bool_decide_true.
Qed.

Lemma max_severity_spec best l :
  (max_severity best l = best \/ max_severity best l ∈ l) /\
  tool_severity best <= tool_severity (max_severity best l) /\
  forall x, x ∈ l -> tool_severity x <= tool_severity (max_severity best l).
Proof.
  revert best. induction l as [|y l IH]; intros best; simpl.
  - split; [by left|]. split; [lia|]. set_solver.
  - destruct (IH (if tool_severity best <? tool_severity y then y else best)) as (H1 & H2 & H3).
    destruct (Z.ltb_spec (tool_severity best) (tool_severity y));
      (split; [set_solver|split; [lia|]]; intros x [->|Hx]%elem_of_cons; [lia|by apply H3]).
Qed.

Lemma get_family_governance_cases tid r :
  (toolrepo_list_versions tid r = [] /\ get_family_governance tid r = Err ToolNotFoundError) \/
  exists g, get_family_governance tid r = Ok g /\ fg_tool_id g = tid /\
    (exists t, t ∈ toolrepo_list_versions tid r /\ tool_risk_level t = fg_risk_level g) /\
    forall t, t ∈ toolrepo_list_versions tid r ->
      tool_severity (tool_risk_level t) <= tool_severity (fg_risk_level g).
Proof.
  unfold get_family_governance. destruct (toolrepo_list_versions tid r) as [|t ts]; [by left|].
  right. csimpl. eexists; split; [done|]. split; [done|]; simpl.
  destruct (max_severity_spec (tool_risk_level t) (tool_risk_level <$> ts)) as (H1 & H2 & H3).
  split.
  - destruct H1 as [H1|H1]; [exists t; rewrite H1; set_solver|].
    apply list_elem_of_fmap in H1 as (u & -> & Hu). exists u. set_solver.
  - intros u [->|Hu]%elem_of_cons; [done|]. apply H3. by apply list_elem_of_fmap_2.
Qed.

(** Replacing a value under its own key keeps every projection of the iteration order. *)
Lemma dset_fmap_same {K V B} `{EqDecision K} (f : K * V -> B) k v v0 (d : pydict K V) :
  dget k d = Some v0 -> f (k, v) = f (k, v0) -> f <$> dset k v d = f <$> d.
Proof.
  induction d as [|[k' v'] d IH]; csimpl; [done|]. case_decide; csimpl.
  - intros [= ->] Hf. subst. by rewrite Hf.
  - intros Hd Hf. by rewrite IH.
Qed.

Definition level_in_family (tid : string) (p : string * string * Tool) : option ToolRiskLevel :=
  if bool_decide (p.1.1 = tid) then Some (tool_risk_level p.2) else None.

Lemma family_levels tid r :
  tool_risk_level <$> toolrepo_list_versions tid r = omap id (level_in_family tid <$> r).
Proof.
  unfold toolrepo_list_versions, level_in_family.
  induction r as [|[[f v] t] r IH]; csimpl; [done|].
  case_bool_decide; csimpl; by rewrite IH.
Qed.

Lemma set_enabled_governance b tid version other r :
  repo_wf r ->
  get_family_governance other (set_tool_enabled b tid version r).1 =
  get_family_governance other r.
Proof.
  intros [Hwf Hid]. unfold set_tool_enabled, get_tool.
  destruct (toolrepo_get tid version r) as [t|] eqn:Hget; [|done]; simpl.
  unfold get_family_governance. rewrite !family_levels. unfold toolrepo_save.
  rewrite with_enabled_identity, (Hid _ _ Hget).
  by rewrite (dset_fmap_same _ (tid, version) _ t).
Qed.

Lemma family_exists_elem tid r :
  family_exists tid r = true <-> exists v t, ((tid, v), t) ∈ r.
Proof.
  unfold family_exists, toolrepo_list_versions.
  set (sel := fun '((family, _), _) => bool_decide (family = tid)). split.
  - intros Hne. destruct (List.filter sel r) as [|[[f v] t] l] eqn:Hf; [discriminate Hne|].
    exists v, t. assert (((f, v), t) ∈ List.filter sel r) as Hin by (rewrite Hf; by left).
    apply filter_elem in Hin as [Hin Hs]. unfold sel in Hs. apply bool_decide_eq_true in Hs as <-. done.
  - intros (v & t & Hin). assert (((tid, v), t) ∈ List.filter sel r) as Hf.
    { apply filter_elem. split; [done|]. by apply bool_decide_eq_true. }
    destruct (List.filter sel r); [by apply not_elem_of_nil in Hf|reflexivity].
Qed.

Lemma family_exists_keys tid r : family_exists tid r = true <-> exists v, (tid, v) ∈ dkeys r.
Proof.
  rewrite family_exists_elem. split; intros [v Hin]; exists v.
  - destruct Hin as [t Hin]. by apply elem_dkeys in Hin.
  - apply list_elem_of_fmap in Hin as ([k t] & -> & Hin). by exists t.
Qed.

(** Saving a version adds its family and no other. *)
Lemma family_exists_saved t r tid :
  family_exists tid (toolrepo_save t r) = bool_decide (tid = tool_id t) || family_exists tid r.
Proof.
  apply eq_true_iff_eq. rewrite orb_true_iff, bool_decide_eq_true, !family_exists_keys.
  unfold toolrepo_save. rewrite dset_keys.
  destruct (dhas (tool_identity t) r) eqn:Hh; last first.
  { setoid_rewrite elem_of_app. setoid_rewrite list_elem_of_singleton. split.
    - intros (v & [?|[= -> _]]); [right; by exists v|by left].
    - intros [->|[v ?]]; [exists (tool_version t); by right|exists v; by left]. }
  split; [by right|]. intros [->|?]; [|done]. apply dhas_true in Hh as [u Hu].
  exists (tool_version t). by eapply elem_dkeys, dget_elem.
Qed.

(** ** Lemmas: registry *)

Definition registry_wf (reg : ToolRegistry) : Prop :=
  dwf reg /\ forall tid versions, dget tid reg = Some versions -> dwf versions.

Lemma family_versions_wf tid reg : registry_wf reg -> dwf (family_versions tid reg).
Proof.
  intros [_ Hv]. unfold family_versions. destruct (dget tid reg) eqn:Hd; simpl; [eauto|].
  apply dwf_nil.
Qed.

Lemma store_descriptor_wf tid d reg :
  registry_wf reg -> registry_wf (store_descriptor tid d reg).1.
Proof.
  intros Hwf. assert (registry_wf (dsetdefault tid [] reg)) as Hwf'.
  { unfold dsetdefault. case_match; [done|]. destruct Hwf as [H1 H2].
    split; [by apply dset_wf|]. intros tid' vs. rewrite dget_dset.
    case_decide; [intros [= <-]; apply dwf_nil|apply H2]. }
  unfold store_descriptor. case_match; [done|]; simpl. pose proof Hwf' as [H1 H2].
  split; [by apply dset_wf|]. intros tid' vs. rewrite dget_dset.
  case_decide; [intros [= <-]; by apply dset_wf, family_versions_wf|apply H2].
Qed.

Lemma unregister_wf tid v reg : registry_wf reg -> registry_wf (unregister tid v reg).1.
Proof.
  intros Hwf. pose proof (family_versions_wf tid reg Hwf) as Hvs. destruct Hwf as [H1 H2].
  assert (registry_wf (ddel tid reg)) as Hdel.
  { split; [by apply ddel_wf|]. intros tid' vs. rewrite dget_ddel. case_decide; [done|apply H2]. }
  unfold unregister. destruct (family_versions tid reg) as [|p vs] eqn:Hf; [by split|].
  destruct v as [v|]; [|done]. destruct (negb _); [by split|].
  destruct (ddel v (p :: vs)) eqn:Hd; [done|]; simpl. split; [by apply dset_wf|].
  intros tid' vs'. rewrite dget_dset. case_decide; [|apply H2].
  intros [= <-]. rewrite <- Hd. by apply ddel_wf.
Qed.

Lemma find_version_Some v versions d :
  find_version v versions = Some d -> exists reg_v, (reg_v, d) ∈ versions /\
    str_strip reg_v = str_strip v.
Proof.
  unfold find_version. destruct (List.find _ versions) as [[rv d']|] eqn:Hf; [|done].
  intros [= <-]. apply List.find_some in Hf as [Hin Hm]. exists rv.
  split; [by apply list_elem_of_In|]. by apply bool_decide_eq_true in Hm.
Qed.

Lemma find_version_exact v versions d :
  dwf versions ->
  (forall v1 v2, v1 ∈ dkeys versions -> v2 ∈ dkeys versions ->
     str_strip v1 = str_strip v2 -> v1 = v2) ->
  dget v versions = Some d -> find_version v versions = Some d.
Proof.
  intros Hwf Hcanon Hd. apply dget_elem in Hd. unfold find_version.
  destruct (List.find _ versions) as [[rv d']|] eqn:Hf.
  - apply List.find_some in Hf as [Hin Hm]. apply bool_decide_eq_true in Hm.
    apply list_elem_of_In in Hin.
    assert (rv = v) as -> by (apply Hcanon; [by eapply elem_dkeys..|done]).
    apply elem_dget in Hin, Hd; [|done..]. simpl. congruence.
  - apply List.find_none with (x := (v, d)) in Hf; [|by apply list_elem_of_In].
    apply bool_decide_eq_false in Hf. done.
Qed.

Lemma find_version_None v versions :
  of_option ToolVersionMismatchError (find_version v versions) = Err ToolVersionMismatchError <->
  forall v', v' ∈ dkeys versions -> str_strip v' <> str_strip v.
Proof.
  unfold find_version. destruct (List.find _ versions) as [[rv d]|] eqn:Hf; csimpl.
  - split; [done|]. intros Hn. apply List.find_some in Hf as [Hin Hm].
    apply bool_decide_eq_true in Hm. apply list_elem_of_In, elem_dkeys in Hin.
    by destruct (Hn rv Hin).
  - split; [|done]. intros _ v' ([v2 d] & -> & Hin)%list_elem_of_fmap.
    apply List.find_none with (x := (v2, d)) in Hf; [|by apply list_elem_of_In].
    by apply bool_decide_eq_false in Hf.
Qed.

(** ** Properties *)

(** A family's governance is the most restrictive level any of its registered versions
    declares — attained by one of them and bounding all of them — and disabling or enabling
    any version of any family leaves it unchanged, so enablement never moves authorization. *)
Theorem family_governance_most_restrictive tid r :
  repo_wf r ->
  (get_family_governance tid r = Err ToolNotFoundError <-> family_exists tid r = false) /\
  (forall g, get_family_governance tid r = Ok g ->
     (exists t, tool_id t = tid /\ toolrepo_get tid (tool_version t) r = Some t /\
        tool_risk_level t = fg_risk_level g) /\
     forall v t, toolrepo_get tid v r = Some t ->
       tool_severity (tool_risk_level t) <= tool_severity (fg_risk_level g)) /\
  (forall b tid' v,
     get_family_governance tid (set_tool_enabled b tid' v r).1 = get_family_governance tid r).
Proof.
  intros Hwf. split_and!; [..|intros; by apply set_enabled_governance].
  - unfold family_exists.
    destruct (get_family_governance_cases tid r) as [[-> ->]|(g & -> & _ & (t & Ht & _) & _)];
      [done|]. destruct (toolrepo_list_versions tid r); [set_solver|done].
  - intros g Hg.
    destruct (get_family_governance_cases tid r) as [[_ ?]|(g' & Hg' & _ & (t & Ht & Hl) & Hb)];
      [congruence|]. assert (g' = g) as -> by congruence. split.
    + apply list_versions_elem in Ht as [? ?]; [|done]. by exists t.
    + intros v u Hu. apply Hb, list_versions_elem; [done|].
      destruct Hwf as [_ Hid]. pose proof (Hid _ _ Hu) as [= <- <-]. by split.
Qed.

Definition sample_metadata (tid v : string) (l : ToolRiskLevel) : ToolMetadata :=
  mkToolMetadata (mkToolIdentity tid "demo" v "demo tool") (mkToolGovernance l [] None false)
    (mkToolCapability "files" true false false false false false) (mkToolOperational true 30 false).

Definition sample_tool (tid v : string) (l : ToolRiskLevel) : Tool :=
  mkTool (sample_metadata tid v l).

Definition sample_repo : ToolRepo :=
  toolrepo_save (sample_tool "fs" "2.0" TOOL_CRITICAL)
    (toolrepo_save (sample_tool "fs" "1.0" TOOL_LOW) []).

Lemma sample_repo_wf : repo_wf sample_repo.
Proof. do 2 apply toolrepo_save_wf. split; [constructor|done]. Qed.

Lemma family_governance_most_restrictive_witness :
  get_family_governance "fs" sample_repo = Ok (mkFamilyGovernance "fs" TOOL_CRITICAL) /\
  get_family_governance "fs" (set_tool_enabled false "fs" "2.0" sample_repo).1
    = get_family_governance "fs" sample_repo.
Proof.
  split; [vm_compute; reflexivity|].
  apply (family_governance_most_restrictive "fs" sample_repo sample_repo_wf).
Defined.

(** Resolution never guesses: it succeeds without a version exactly when one single
    version of the family is registered, and then returns that one; with a version it
    returns only a descriptor registered under a version equal to it up to surrounding
    whitespace, and refuses exactly when there is none. *)
Theorem resolve_never_guesses tid version reg :
  match version with
  | None =>
      (forall d, resolve tid None reg = Ok d <->
         exists v, family_versions tid reg = [(v, d)])
  | Some v =>
      (forall d, resolve tid (Some v) reg = Ok d ->
         exists v', (v', d) ∈ family_versions tid reg /\ str_strip v' = str_strip v) /\
      (resolve tid (Some v) reg = Err ToolVersionMismatchError <->
         family_versions tid reg <> [] /\
         forall v', v' ∈ dkeys (family_versions tid reg) -> str_strip v' <> str_strip v)
  end.
Proof.
  unfold resolve. destruct version as [v|].
  - destruct (family_versions tid reg) as [|p vs]; [split; [done|]; split; [done|naive_solver]|].
    destruct p as [v0 d0]. cbv beta iota. set (versions := (v0, d0) :: vs). split.
    + intros d. destruct (find_version v versions) as [d'|] eqn:Hf; simpl; [|done].
      intros [= <-]. by apply find_version_Some.
    + rewrite find_version_None. naive_solver.
  - intros d. destruct (family_versions tid reg) as [|[v0 d0] [|p vs]]; naive_solver.
Qed.
