(* ===== verification/Policy.v ===== *)
(** * Policy and authorization

    [models/authorization_result.py], [policy/policy_engine.py] and
    [auth/authorization_service.py]: the six ordered checks, their short circuit, and the
    structured evidence of the outcome.  The authorization service reads the agent service
    and the tool service. *)

From S2P Require Import Prelude PyDict Models Lifecycle Planes Agents ToolPlane.
Local Open Scope Z_scope.
Local Open Scope string_scope.

(** ** Authorization evidence *)

Inductive AuthorizationCheckStatus := PASSED | FAILED | NOT_EVALUATED.

#[global] Instance AuthorizationCheckStatus_eq_dec : EqDecision AuthorizationCheckStatus.
Proof. solve_decision. Defined.

Record AuthorizationCheck := mkCheck {
  ck_status : AuthorizationCheckStatus;
  ck_reason : string;
  ck_code : option string;
  ck_details : list (string * string);
}.

Definition not_evaluated_check (skipped_after : string) : AuthorizationCheck :=
  mkCheck NOT_EVALUATED "Skipped due to prior check failure" None
    [("skipped_after", skipped_after)].

Record AuthorizationResult := mkAuthResult {
  az_decision : Decision;
  az_agent_id : string;
  az_tool_id : string;
  az_resource : option string;
  az_agent_check : AuthorizationCheck;
  az_tool_check : AuthorizationCheck;
  az_approved_tool_check : AuthorizationCheck;
  az_status_check : AuthorizationCheck;
  az_risk_tier_check : AuthorizationCheck;
  az_resource_check : AuthorizationCheck;
  az_reason : string;
}.

#[global] Instance AuthorizationCheck_eq_dec : EqDecision AuthorizationCheck.
Proof. solve_decision. Defined.
#[global] Instance AuthorizationResult_eq_dec : EqDecision AuthorizationResult.
Proof. solve_decision. Defined.

(** The checks in their evaluation order. *)
Definition az_checks (r : AuthorizationResult) : list AuthorizationCheck :=
  [az_agent_check r; az_tool_check r; az_approved_tool_check r; az_status_check r;
   az_risk_tier_check r; az_resource_check r].

(** [.value] of the enumerations the messages quote. *)
Definition refusal_value (c : LifecycleRefusalCode) : string :=
  match c with
  | ADMINISTRATIVE_STATE_UNAVAILABLE => "ADMINISTRATIVE_STATE_UNAVAILABLE"
  | ENFORCEMENT_STATE_UNAVAILABLE => "ENFORCEMENT_STATE_UNAVAILABLE"
  | AGENT_DISABLED => "AGENT_DISABLED"
  | AGENT_NOT_ACTIVE => "AGENT_NOT_ACTIVE"
  | AGENT_SUSPENDED => "AGENT_SUSPENDED"
  end.

Definition tier_value (t : RiskTier) : string :=
  match t with
  | TIER_LOW => "LOW" | TIER_MEDIUM => "MEDIUM" | TIER_HIGH => "HIGH"
  | TIER_CRITICAL => "CRITICAL"
  end.

Definition level_value (l : ToolRiskLevel) : string :=
  match l with
  | TOOL_LOW => "LOW" | TOOL_MEDIUM => "MEDIUM" | TOOL_HIGH => "HIGH"
  | TOOL_CRITICAL => "CRITICAL"
  end.

(** An f-string's ['{x}']. *)
Definition quoted (s : string) : string := "'" +:+ s +:+ "'".
(** [str] of an optional string. *)
Definition opt_str (s : option string) : string := default "None" s.

(** ** PolicyEngine *)

Definition PROTECTED_RESOURCES : list string := ["secrets.txt"].

Record PolicyEvaluationResult := mkPolicyResult {
  pr_decision : Decision;
  pr_status_check : AuthorizationCheck;
  pr_risk_tier_check : AuthorizationCheck;
  pr_resource_check : AuthorizationCheck;
  pr_reason : string;
}.

(** [agent.risk_tier == LOW and tool.risk_level in {HIGH, CRITICAL}] *)
Definition tier_forbids (t : RiskTier) (l : ToolRiskLevel) : bool :=
  match t, l with
  | TIER_LOW, (TOOL_HIGH | TOOL_CRITICAL) => true
  | _, _ => false
  end.

(** [tool.tool_id == "file_read" and resource in PROTECTED_RESOURCES] *)
Definition resource_protected (tid : string) (resource : option string) : bool :=
  bool_decide (tid = "file_read")
  && match resource with Some r => bool_decide (r ∈ PROTECTED_RESOURCES) | None => false end.

Definition evaluate_policy (agent : Agent) (tool : ToolFamilyGovernance)
  (resource : option string) (lifecycle_refusal : option LifecycleRefusalCode)
  : PolicyEvaluationResult :=
  match lifecycle_refusal with
  | Some refusal =>
      let reason := "Agent " +:+ quoted (agent_id agent) +:+ " may not execute: "
                    +:+ refusal_value refusal in
      mkPolicyResult DENY
        (mkCheck FAILED reason (Some (refusal_value refusal))
           [("agent_id", agent_id agent); ("lifecycle_refusal", refusal_value refusal)])
        (not_evaluated_check "status_check") (not_evaluated_check "status_check") reason
  | None =>
      let status_check :=
        mkCheck PASSED ("Agent " +:+ quoted (agent_id agent) +:+ " is active") None
          [("agent_id", agent_id agent)] in
      let tier := tier_value (risk_tier agent) in
      let level := level_value (fg_risk_level tool) in
      let tier_details := [("risk_tier", tier); ("tool_risk_level", level)] in
      if tier_forbids (risk_tier agent) (fg_risk_level tool) then
        let reason := "Agent risk tier " +:+ quoted tier +:+
                      " cannot execute tool with risk level " +:+ quoted level in
        mkPolicyResult DENY status_check (mkCheck FAILED reason None tier_details)
          (not_evaluated_check "risk_tier_check") reason
      else
        let risk_tier_check :=
          mkCheck PASSED ("Agent risk tier " +:+ quoted tier +:+ " permits tool risk level "
                          +:+ quoted level) None tier_details in
        if resource_protected (fg_tool_id tool) resource then
          let reason := "Access to protected resource " +:+ quoted (opt_str resource)
                        +:+ " is denied" in
          mkPolicyResult DENY status_check risk_tier_check
            (mkCheck FAILED reason None
               [("resource", opt_str resource); ("tool_id", fg_tool_id tool)]) reason
        else
          let resource_check :=
            match resource with
            | Some r => mkCheck PASSED ("Access to resource " +:+ quoted r +:+ " is permitted")
                          None [("resource", r)]
            | None => mkCheck PASSED "No resource restriction evaluated" None []
            end in
          if bool_decide (fg_risk_level tool = TOOL_CRITICAL)
          then mkPolicyResult APPROVAL_REQUIRED status_check risk_tier_check resource_check
                 ("Tool " +:+ quoted (fg_tool_id tool) +:+
                  " has CRITICAL risk level; human approval is required")
          else mkPolicyResult ALLOW status_check risk_tier_check resource_check
                 "All policy checks passed"
  end.

(** ** AuthorizationService *)

Section authorization.
Context {RA RE : Type} `{AdministrativeStateRepository RA} `{EnforcementStateRepository RE}.

(** The two early returns before policy that stop at the agent check. *)
Definition denied_at_agent (a tid : string) (resource : option string) (reason : string)
  : AuthorizationResult :=
  let skipped := not_evaluated_check "agent_check" in
  mkAuthResult DENY a tid resource (mkCheck FAILED reason None [("agent_id", a)])
    skipped skipped skipped skipped skipped reason.

Definition evaluate (a tid : string) (resource : option string)
  (w : AgentWorld RA RE) (tools : ToolRepo) : result AuthorizationResult :=
  match (get_agent a w).2 with
  | Err AgentNotFoundError =>
      Ok (denied_at_agent a tid resource ("Agent " +:+ quoted a +:+ " is not registered"))
  | Err EnforcementStateUnavailableError =>
      Ok (denied_at_agent a tid resource
            "Security posture authority unavailable (fail-closed)")
  | Err e => Err e
  | Ok agent =>
      let agent_check := mkCheck PASSED ("Agent " +:+ quoted a +:+ " is registered") None
                           [("agent_id", a)] in
      if negb (family_exists tid tools) then
        let reason := "Tool " +:+ quoted tid +:+ " is not registered" in
        let skipped := not_evaluated_check "tool_check" in
        Ok (mkAuthResult DENY a tid resource agent_check
              (mkCheck FAILED reason None [("tool_id", tid)])
              skipped skipped skipped skipped reason)
      else
        let tool_check := mkCheck PASSED ("Tool " +:+ quoted tid +:+ " is registered") None
                            [("tool_id", tid)] in
        if negb (bool_decide (tid ∈ approved_tools agent)) then
          let reason := "Tool " +:+ quoted tid +:+ " is not approved for agent " +:+ quoted a in
          let skipped := not_evaluated_check "approved_tool_check" in
          Ok (mkAuthResult DENY a tid resource agent_check tool_check
                (mkCheck FAILED reason None [("tool_id", tid); ("agent_id", a)])
                skipped skipped skipped reason)
        else
          let approved_tool_check :=
            mkCheck PASSED ("Tool " +:+ quoted tid +:+ " is approved for agent " +:+ quoted a)
              None [("tool_id", tid); ("agent_id", a)] in
          governance ← get_family_governance tid tools;
          let policy := evaluate_policy agent governance resource (lifecycle_refusal a w) in
          Ok (mkAuthResult (pr_decision policy) a tid resource agent_check tool_check
                approved_tool_check (pr_status_check policy) (pr_risk_tier_check policy)
                (pr_resource_check policy) (pr_reason policy))
  end.

Definition authorize (a tid : string) (resource : option string)
  (w : AgentWorld RA RE) (tools : ToolRepo) : result Decision :=
  r ← evaluate a tid resource w tools; mret (az_decision r).
End authorization.

Local Close Scope string_scope.

(** ** Lemmas *)

(** The shape of a short-circuited list of checks: some passed, one failed, the rest were
    not evaluated; or all passed. *)
Definition short_circuits (checks : list AuthorizationCheckStatus) (failed : bool) : Prop :=
  if failed
  then exists n m, checks = repeat PASSED n ++ FAILED :: repeat NOT_EVALUATED m
  else checks = repeat PASSED (length checks).

Lemma evaluate_policy_checks ag tool res lr :
  let p := evaluate_policy ag tool res lr in
  let checks := [ck_status (pr_status_check p); ck_status (pr_risk_tier_check p);
                 ck_status (pr_resource_check p)] in
  match lr with
  | Some _ => checks = [FAILED; NOT_EVALUATED; NOT_EVALUATED] /\ pr_decision p = DENY
  | None =>
      if tier_forbids (risk_tier ag) (fg_risk_level tool)
      then checks = [PASSED; FAILED; NOT_EVALUATED] /\ pr_decision p = DENY
      else if resource_protected (fg_tool_id tool) res
      then checks = [PASSED; PASSED; FAILED] /\ pr_decision p = DENY
      else checks = [PASSED; PASSED; PASSED] /\
           pr_decision p = if bool_decide (fg_risk_level tool = TOOL_CRITICAL)
                           then APPROVAL_REQUIRED else ALLOW
  end.
Proof.
  unfold evaluate_policy. destruct lr; [done|].
  destruct (tier_forbids _ _); [done|]. destruct (resource_protected _ _); [done|].
  destruct res; case_bool_decide; done.
Qed.

(** One case per place [evaluate] returns. *)
Lemma evaluate_cases `{AdministrativeStateRepository RA} `{EnforcementStateRepository RE}
  a tid res (w : AgentWorld RA RE) tools r :
  evaluate a tid res w tools = Ok r ->
  (exists reason, r = denied_at_agent a tid res reason) \/
  exists ag, (get_agent a w).2 = Ok ag /\
    ((family_exists tid tools = false /\ az_decision r = DENY /\
      ck_status <$> az_checks r = [PASSED; FAILED] ++ repeat NOT_EVALUATED 4) \/
     (family_exists tid tools = true /\ tid ∉ approved_tools ag /\ az_decision r = DENY /\
      ck_status <$> az_checks r = [PASSED; PASSED; FAILED] ++ repeat NOT_EVALUATED 3) \/
     (family_exists tid tools = true /\ tid ∈ approved_tools ag /\
      exists g, get_family_governance tid tools = Ok g /\
        let p := evaluate_policy ag g res (lifecycle_refusal a w) in
        az_decision r = pr_decision p /\
        ck_status <$> az_checks r = [PASSED; PASSED; PASSED] ++
          [ck_status (pr_status_check p); ck_status (pr_risk_tier_check p);
           ck_status (pr_resource_check p)])).
Proof.
  unfold evaluate. destruct ((get_agent a w).2) as [ag|e].
  - destruct (family_exists tid tools); simpl; [|intros [= <-]; right; exists ag; naive_solver].
    case_bool_decide; simpl; [|intros [= <-]; right; exists ag; naive_solver].
    destruct (get_family_governance tid tools) as [g|]; [|done]; simpl. intros [= <-].
    right. exists ag. split; [done|]. right. right. split_and!; try done. by exists g.
  - destruct e; try done; intros [= <-]; left; eauto.
Qed.

Lemma get_family_governance_id tid tools g :
  get_family_governance tid tools = Ok g -> fg_tool_id g = tid.
Proof. unfold get_family_governance. case_match; [done|]. by intros [= <-]. Qed.

Lemma get_family_governance_exists tid tools g :
  get_family_governance tid tools = Ok g -> family_exists tid tools = true.
Proof.
  unfold get_family_governance, family_exists. by destruct (toolrepo_list_versions tid tools).
Qed.

(** ** Properties *)

(** A request is authorized (ALLOW) exactly when the agent is registered and both
    planes permit it to execute, the tool family is registered and on the agent's approved
    list, the agent's tier is not LOW against a HIGH or CRITICAL family, the resource is not
    a protected one read through [file_read], and the family is not CRITICAL. *)
Theorem authorize_allow_iff `{AdministrativeStateRepository RA} `{EnforcementStateRepository RE}
  a tid res (w : AgentWorld RA RE) tools :
  authorize a tid res w tools = Ok ALLOW <->
  exists ag g, (get_agent a w).2 = Ok ag /\ get_family_governance tid tools = Ok g /\
    tid ∈ approved_tools ag /\ lifecycle_refusal a w = None /\
    tier_forbids (risk_tier ag) (fg_risk_level g) = false /\
    resource_protected tid res = false /\ fg_risk_level g <> TOOL_CRITICAL.
Proof.
  unfold authorize. split.
  - destruct (evaluate a tid res w tools) as [r|] eqn:He; [|done]; simpl. intros [= Hr].
    apply evaluate_cases in He as [[reason ->]|(ag & Hag & [(_ & ? & _)|[(_ & _ & ? & _)|
      (_ & Hap & g & Hg & Hd & _)]])]; try (simpl in *; congruence).
    exists ag, g. pose proof (get_family_governance_id _ _ _ Hg) as Hid.
    pose proof (evaluate_policy_checks ag g res (lifecycle_refusal a w)) as Hp. simpl in Hp.
    rewrite Hid in Hp. rewrite Hr in Hd.
    destruct (lifecycle_refusal a w); [by destruct Hp; congruence|].
    destruct (tier_forbids _ _); [by destruct Hp; congruence|].
    destruct (resource_protected _ _); [by destruct Hp; congruence|].
    case_bool_decide; [by destruct Hp; congruence|]. by split_and!.
  - intros (ag & g & Hag & Hg & Hap & Hl & Ht & Hp & Hc). unfold evaluate.
    rewrite Hag, (get_family_governance_exists _ _ _ Hg), bool_decide_true by done; simpl.
    rewrite Hg; simpl. f_equal. pose proof (get_family_governance_id _ _ _ Hg) as Hid.
    pose proof (evaluate_policy_checks ag g res (lifecycle_refusal a w)) as Hk.
    rewrite Hl in *. rewrite Hid, Ht, Hp, bool_decide_false in Hk by done.
    by destruct Hk as [_ ->].
Qed.

(** Authorization short-circuits and fails closed: in every result the six checks, in
    order, are PASSED up to the first FAILED one and NOT_EVALUATED after it; the decision is
    DENY exactly when some check failed, and a result without a failed check decides ALLOW
    or APPROVAL_REQUIRED. *)
Theorem authorization_fails_closed `{AdministrativeStateRepository RA}
  `{EnforcementStateRepository RE} a tid res (w : AgentWorld RA RE) tools r :
  evaluate a tid res w tools = Ok r ->
  short_circuits (ck_status <$> az_checks r) (bool_decide (az_decision r = DENY)).
Proof.
  intros He. unfold short_circuits.
  apply evaluate_cases in He as [[reason ->]|(ag & Hag & [(_ & -> & ->)|[(_ & _ & -> & ->)|
    (_ & Hap & g & Hg & -> & ->)]])].
  - simpl. by exists 0%nat, 5%nat.
  - simpl. by exists 1%nat, 4%nat.
  - simpl. by exists 2%nat, 3%nat.
  - pose proof (evaluate_policy_checks ag g res (lifecycle_refusal a w)) as Hp. simpl in Hp.
    destruct (lifecycle_refusal a w);
      [destruct Hp as [-> ->]; simpl; by exists 3%nat, 2%nat|].
    destruct (tier_forbids _ _); [destruct Hp as [-> ->]; simpl; by exists 4%nat, 1%nat|].
    destruct (resource_protected _ _);
      [destruct Hp as [-> ->]; simpl; by exists 5%nat, 0%nat|].
    destruct Hp as [-> ->]. by destruct (bool_decide (fg_risk_level g = TOOL_CRITICAL)).
Qed.

Definition active_world :=
  run_calls [CRegister (mkAgent "a" "demo" "owner" TIER_LOW ["fs"] STATUS_REGISTERED) operator
               None (env_at 1 "u1");
             CActivate "a" operator "ready" None (env_at 2 "u2")] empty_world.

(** A LOW-tier agent against a family whose second version is CRITICAL. *)
Lemma authorization_fails_closed_witness :
  match evaluate "a" "fs" None active_world sample_repo with
  | Ok r => az_decision r = DENY /\ short_circuits (ck_status <$> az_checks r) true
  | Err _ => False
  end.
Proof.
  split; [vm_compute; reflexivity|].
  apply (authorization_fails_closed "a" "fs" None active_world sample_repo).
  reflexivity.
Defined.
