(* ===== verification/Binding.v ===== *)
(** * ExecutionBinding (models/execution_binding.py)

    The canonical description of one tool operation: construction, validation, and the
    serialisation that grants sign. *)

From S2P Require Import Prelude PyDict Json.
Local Open Scope string_scope.

(** A value of unknown type in a caller's mapping: a string, [None], or anything else. *)
Inductive PyAny := PStr (s : string) | PyNone | POther.

#[global] Instance PyAny_eq_dec : EqDecision PyAny.
Proof. solve_decision. Defined.

(** The [parameters] argument: absent, a mapping, or something that is not one. *)
Inductive PyParams :=
| PNone
| PMapping (m : pydict PyAny PyAny)
| PNotMapping.

(** The mapping of a request whose names and values are all strings. *)
Definition str_params (d : list (string * string)) : PyParams :=
  PMapping (List.map (fun '(k, v) => (PStr k, PStr v)) d).

Definition RESOURCE_PARAMETER : string := "path".

Definition canonical_pair (p : PyAny * PyAny) : result (string * string) :=
  match p.1 with
  | PStr name =>
      if str_nonempty name
      then match p.2 with
           | PStr value => Ok (name, value)
           | _ => Err ExecutionBindingValidationError
           end
      else Err ExecutionBindingValidationError
  | _ => Err ExecutionBindingValidationError
  end.

Definition canonicalize_parameters (parameters : PyParams) : result (list (string * string)) :=
  match parameters with
  | PNone => Ok []
  | PNotMapping => Err ExecutionBindingValidationError
  | PMapping m => pairs ← mapR canonical_pair m; Ok (sort_by str_pair_leb pairs)
  end.

(** [dict(pairs)]: a later pair replaces an earlier one. *)
Definition dict_of {K V} `{EqDecision K} (pairs : list (K * V)) : pydict K V :=
  fold_left (fun d '(k, v) => dset k v d) pairs [].

Record ExecutionBinding := mkBinding {
  eb_tool_id : string;
  eb_tool_version : string;
  eb_resource : option string;
  eb_parameters : list (string * string);
}.

#[global] Instance ExecutionBinding_eq_dec : EqDecision ExecutionBinding.
Proof. solve_decision. Defined.

(** [_canonical_parameter_order] *)
Definition canonical_parameter_order (value : list (string * string))
  : result (list (string * string)) :=
  if existsb (fun '(name, _) => negb (str_nonempty name)) value then Err ValueError
  else if negb (bool_decide (NoDup value.*1)) then Err ValueError
  else Ok (sort_by str_pair_leb value).

(** The model's constructor: field constraints, then the two validators. *)
Definition new_binding (tool_id tool_version : string) (resource : option string)
  (parameters : list (string * string)) : result ExecutionBinding :=
  if negb (str_nonempty tool_id) || negb (str_nonempty tool_version) then Err ValueError
  else
    parameters ← canonical_parameter_order parameters;
    match dget RESOURCE_PARAMETER (dict_of parameters) with
    | Some declared =>
        if bool_decide (resource = Some declared)
        then Ok (mkBinding tool_id tool_version resource parameters)
        else Err ValueError
    | None => Ok (mkBinding tool_id tool_version resource parameters)
    end.

Definition from_operation (tool_id tool_version : string) (parameters : PyParams)
  (resource : option string) : result ExecutionBinding :=
  canonical ← canonicalize_parameters parameters;
  let declared := dget RESOURCE_PARAMETER (dict_of canonical) in
  match resource, declared with
  | Some r, Some d =>
      if bool_decide (r = d)
      then match new_binding tool_id tool_version resource canonical with
           | Ok b => Ok b | Err _ => Err ExecutionBindingValidationError
           end
      else Err ExecutionBindingValidationError
  | _, _ =>
      match new_binding tool_id tool_version
              (match resource with Some r => Some r | None => declared end) canonical with
      | Ok b => Ok b | Err _ => Err ExecutionBindingValidationError
      end
  end.

Definition parameters_dict (b : ExecutionBinding) : pydict string string :=
  dict_of (eb_parameters b).

Definition canonical_json (b : ExecutionBinding) : string :=
  dumps (JObj
    [("parameters", JArr (List.map (fun p => JArr [JStr p.1; JStr p.2]) (eb_parameters b)));
     ("resource", from_option JStr JNull (eb_resource b));
     ("tool_id", JStr (eb_tool_id b));
     ("tool_version", JStr (eb_tool_version b))]).

(** ** Lemmas *)

Lemma canonical_json_eq b :
  canonical_json b =
  "{" +:+ json_str "parameters" +:+ ":" +:+ json_pairs (eb_parameters b) +:+ "," +:+
  json_str "resource" +:+ ":" +:+ json_opt (eb_resource b) +:+ "," +:+
  json_str "tool_id" +:+ ":" +:+ json_str (eb_tool_id b) +:+ "," +:+
  json_str "tool_version" +:+ ":" +:+ json_str (eb_tool_version b) +:+ "}".
Proof.
  unfold canonical_json, json_pairs, json_opt.
  generalize (JArr (List.map (fun p => JArr [JStr p.1; JStr p.2]) (eb_parameters b))).
  generalize (from_option JStr JNull (eb_resource b)). intros j1 j2.
  unfold dumps; cbn [dumps_with List.map]. rewrite sort_by_id by (repeat constructor).
  cbn [List.map join]. by rewrite !append_assoc.
Qed.

(** Peel one constant or one prefix-coded piece off both sides of an equation between
    concatenations. *)
Ltac peel H :=
  repeat first
    [ apply append_inj_l in H
    | apply json_str_code in H as [? H]
    | apply json_pairs_code in H as [? H]
    | apply json_opt_code in H as [? H] ].

Lemma canonical_json_inj b1 b2 : canonical_json b1 = canonical_json b2 -> b1 = b2.
Proof.
  rewrite !canonical_json_eq. intros H. destruct b1, b2; simpl in H. peel H. by subst.
Qed.

(** C37. The serialisation a grant signs determines the binding: no two different bindings
    have the same canonical JSON, whatever characters their names, values, tool or resource
    contain. *)
Theorem canonical_json_injective b1 b2 : canonical_json b1 = canonical_json b2 -> b1 = b2.
Proof. apply canonical_json_inj. Qed.

Lemma mapR_Err {A B} (f : A -> result B) l e0 :
  (forall x e, f x = Err e -> e = e0) -> forall e, mapR f l = Err e -> e = e0.
Proof.
  intros Hf. induction l as [|x l IH]; intros e; simpl; [done|].
  destruct (f x) eqn:Hx; simpl; [|intros [= <-]; eauto].
  destruct (mapR f l); simpl; [done|]. intros [= <-]. eauto.
Qed.

Lemma canonical_pair_Err p e : canonical_pair p = Err e -> e = ExecutionBindingValidationError.
Proof. unfold canonical_pair. repeat case_match; congruence. Qed.

(** Results equal up to the order of the list they carry. *)
Definition result_perm {A} (r r' : result (list A)) : Prop :=
  match r, r' with
  | Ok l, Ok l' => l ≡ₚ l'
  | Err e, Err e' => e = e'
  | _, _ => False
  end.

Lemma mapR_perm {A B} (f : A -> result B) e0 l l' :
  (forall x e, f x = Err e -> e = e0) -> l ≡ₚ l' -> result_perm (mapR f l) (mapR f l').
Proof.
  intros Hf. induction 1 as [|x l l' _ IH|x y l|l1 l2 l3 _ IH1 _ IH2].
  - constructor.
  - simpl. destruct (f x); simpl; [|done].
    destruct (mapR f l), (mapR f l'); simpl in *; try done. by constructor.
  - simpl. destruct (f x) eqn:Hx, (f y) eqn:Hy, (mapR f l) eqn:Hl; simpl;
      repeat match goal with
             | E : f _ = Err _ |- _ => apply Hf in E
             | E : mapR f l = Err _ |- _ => apply (mapR_Err f l e0 Hf) in E
             end; subst; done || constructor.
  - destruct (mapR f l1), (mapR f l2), (mapR f l3); simpl in *; try done;
      [by etrans|congruence].
Qed.

Lemma canonicalize_perm m m' :
  m ≡ₚ m' -> canonicalize_parameters (PMapping m) = canonicalize_parameters (PMapping m').
Proof.
  intros Hp. pose proof (mapR_perm canonical_pair _ m m' canonical_pair_Err Hp) as Hr.
  simpl. destruct (mapR canonical_pair m), (mapR canonical_pair m'); simpl in *;
    try done; [|congruence].
  f_equal. apply sort_by_perm_eq; eauto using str_pair_leb_total, str_pair_leb_trans,
    str_pair_leb_antisym.
Qed.

Lemma new_binding_Ok t v r ps b :
  new_binding t v r ps = Ok b ->
  eb_tool_id b = t /\ eb_tool_version b = v /\ eb_resource b = r /\
  eb_parameters b = sort_by str_pair_leb ps /\ NoDup ps.*1 /\ t <> EmptyString /\
  v <> EmptyString /\
  (forall d, dget RESOURCE_PARAMETER (dict_of (eb_parameters b)) = Some d -> r = Some d).
Proof.
  unfold new_binding, canonical_parameter_order.
  destruct (_ || _) eqn:Hne; [done|]. apply orb_false_iff in Hne as [Ht Hv].
  destruct (existsb _ ps); [done|].
  case_bool_decide as Hnd; simpl; [|done].
  destruct (dget RESOURCE_PARAMETER _) eqn:Hd; [case_bool_decide; [|done]|];
    intros [= <-]; simpl; split_and!; try done; try (by intros ->); congruence.
Qed.

(** A binding does not depend on the order a request's mapping was written in: two
    mappings with the same entries give the same binding, or the same refusal. *)
Theorem from_operation_order_insensitive tool_id tool_version resource m m' :
  m ≡ₚ m' ->
  from_operation tool_id tool_version (PMapping m) resource =
  from_operation tool_id tool_version (PMapping m') resource.
Proof. intros Hp. unfold from_operation. by rewrite (canonicalize_perm m m' Hp). Qed.

Lemma canonical_json_injective_witness :
  let b := mkBinding "fs" "1.0" None [("a", "x")] in
  mkBinding "fs" "1.0" None [("a", "x")] = b.
Proof. apply canonical_json_injective. reflexivity. Defined.

Lemma from_operation_order_insensitive_witness :
  let m := [(PStr "path", PStr "a.txt"); (PStr "mode", PStr "r")] in
  let m' := [(PStr "mode", PStr "r"); (PStr "path", PStr "a.txt")] in
  from_operation "fs" "1.0" (PMapping m) None = from_operation "fs" "1.0" (PMapping m') None.
Proof. apply from_operation_order_insensitive. constructor. Defined.

(** A binding built from an operation names exactly that operation. *)
Lemma from_operation_Ok t v ps r b :
  from_operation t v ps r = Ok b ->
  eb_tool_id b = t /\ eb_tool_version b = v /\
  canonicalize_parameters ps = Ok (eb_parameters b) /\
  eb_resource b = match r with
                  | Some r' => Some r'
                  | None => dget RESOURCE_PARAMETER (dict_of (eb_parameters b)) end.
Proof.
  unfold from_operation. destruct (canonicalize_parameters ps) as [ps'|] eqn:Hc; [|done]. simpl.
  assert (Hs : sort_by str_pair_leb ps' = ps').
  { destruct ps as [|m|]; simpl in Hc; [by simplify_eq| |done].
    destruct (mapR canonical_pair m); simplify_eq/=. apply sort_by_id, sort_by_sorted;
      eauto using str_pair_leb_total, str_pair_leb_trans. }
  destruct r as [r|], (dget _ (dict_of ps')) as [d|] eqn:Hd; try case_bool_decide; try done;
    (destruct (new_binding _ _ _ _) as [b'|] eqn:Hb; [|done]); intros [= <-];
    apply new_binding_Ok in Hb as (-> & -> & -> & -> & _); rewrite Hs, ?Hd; done.
Qed.
