(* ===== verification/Authority.v ===== *)
(** * ExecutionAuthority (runtime/execution_authority.py)

    The sole issuer and verifier of execution grants: signed, single-use, short-lived
    authority to execute exactly one binding.  Every method takes the lock for its whole
    effect, so a call is one step of the authority's state; what a call reads from outside
    — the clock and the random identifier — is an argument. *)

From S2P Require Import Prelude PyDict Models Lifecycle Planes Json Binding.
Local Open Scope Z_scope.

(** Clock readings and lifetimes are in microseconds. *)
Definition MAX_GRANT_TTL : Z := 30000000.
Definition DEFAULT_GRANT_TTL : Z := MAX_GRANT_TTL.

Record OutstandingGrant := mkOutstanding {
  og_expires_at : Z;
  og_agent_id : string;
  og_session_id : string;
}.

(** [RuntimeExecutionGrant]; its [decision] is the literal ALLOW. *)
Record RuntimeExecutionGrant := mkGrant {
  g_grant_id : string;
  g_authority_id : string;
  g_agent_id : string;
  g_session_id : string;
  g_binding : ExecutionBinding;
  g_issued_at : Z;
  g_expires_at : Z;
  g_signature : string;
  g_capability_profile_id : option string;
  g_capability_digest : option string;
}.

#[global] Instance RuntimeExecutionGrant_eq_dec : EqDecision RuntimeExecutionGrant.
Proof. solve_decision. Defined.

(** What a caller presents as a grant. *)
Inductive Presented :=
| NoGrant
| NotAGrant
| AGrant (g : RuntimeExecutionGrant).

Record ExecutionAuthority := mkAuthority {
  ea_key : string;
  ea_authority_id : string;
  ea_ttl : Z;
  ea_outstanding : pydict string OutstandingGrant;
  ea_revoked : pydict string Z;
  ea_closed : pydict string (gset IssuancePlane);
}.

Definition set_outstanding (o : pydict string OutstandingGrant) (s : ExecutionAuthority) :=
  mkAuthority (ea_key s) (ea_authority_id s) (ea_ttl s) o (ea_revoked s) (ea_closed s).
Definition set_revoked (r : pydict string Z) (s : ExecutionAuthority) :=
  mkAuthority (ea_key s) (ea_authority_id s) (ea_ttl s) (ea_outstanding s) r (ea_closed s).
Definition set_closed (c : pydict string (gset IssuancePlane)) (s : ExecutionAuthority) :=
  mkAuthority (ea_key s) (ea_authority_id s) (ea_ttl s) (ea_outstanding s) (ea_revoked s) c.

(** The constructor refuses a lifetime that is not positive or exceeds the ceiling. *)
Definition new_authority (key authority_id : string) (ttl : Z) : result ExecutionAuthority :=
  if ttl <=? 0 then Err ValueError
  else if MAX_GRANT_TTL <? ttl then Err ValueError
  else Ok (mkAuthority key authority_id ttl [] [] []).

Definition refuse {S A} (reason : ExecutionRefusalReason) : Comp S A :=
  raise (ExecutionBindingError reason).

(** [_prune]: drop the expired entries of both dictionaries. *)
Definition prune (now : Z) (s : ExecutionAuthority) : ExecutionAuthority :=
  set_revoked (List.filter (fun '(_, expires_at) => negb (expires_at <=? now)) (ea_revoked s))
    (set_outstanding
       (List.filter (fun '(_, o) => negb (og_expires_at o <=? now)) (ea_outstanding s)) s).

Definition closed_planes (a : string) (s : ExecutionAuthority) : gset IssuancePlane :=
  default ∅ (dget a (ea_closed s)).
Definition issuance_suspended (a : string) (s : ExecutionAuthority) : bool :=
  negb (bool_decide (closed_planes a s = ∅)).

Definition outstanding_grant_count (now : Z) : Comp ExecutionAuthority Z := fun s =>
  let s := prune now s in (s, Ok (Z.of_nat (length (ea_outstanding s)))).

Definition suspend_issuance (a : string) (plane : IssuancePlane) : Comp ExecutionAuthority Z :=
  fun s =>
    let s := set_closed (dset a (closed_planes a s ∪ {[plane]}) (ea_closed s)) s in
    let revoked := List.filter (fun '(_, o) => bool_decide (og_agent_id o = a))
                     (ea_outstanding s) in
    let s := fold_left (fun s '(gid, o) =>
                 set_revoked (dset gid (og_expires_at o) (ea_revoked s))
                   (set_outstanding (ddel gid (ea_outstanding s)) s)) revoked s in
    (s, Ok (Z.of_nat (length revoked))).

Definition resume_issuance (a : string) (plane : IssuancePlane) : Comp ExecutionAuthority unit :=
  fun s =>
    match dget a (ea_closed s) with
    | None => (s, Ok tt)
    | Some closed =>
        let closed := closed ∖ {[plane]} in
        (set_closed (if bool_decide (closed = ∅) then ddel a (ea_closed s)
                     else dset a closed (ea_closed s)) s, Ok tt)
    end.

Definition consume_grant (g : RuntimeExecutionGrant) : Comp ExecutionAuthority unit := fun s =>
  (set_outstanding (ddel (g_grant_id g) (ea_outstanding s)) s, Ok tt).

(** [_require_exact_match] *)
Definition require_exact_match (authorized requested : ExecutionBinding) : result unit :=
  if negb (bool_decide (eb_tool_id requested = eb_tool_id authorized))
  then Err (ExecutionBindingError TOOL_MISMATCH)
  else if negb (bool_decide (eb_tool_version requested = eb_tool_version authorized))
  then Err (ExecutionBindingError TOOL_MISMATCH)
  else if negb (bool_decide (eb_resource requested = eb_resource authorized))
  then Err (ExecutionBindingError RESOURCE_MISMATCH)
  else if negb (bool_decide (eb_parameters requested = eb_parameters authorized))
  then Err (ExecutionBindingError PARAMETER_MISMATCH)
  else Ok tt.

(** [_require_claimable_locked] *)
Definition require_claimable (g : RuntimeExecutionGrant) (requested : ExecutionBinding)
  (now : Z) : Comp ExecutionAuthority unit := fun s =>
  let s := prune now s in
  if g_expires_at g <=? now
  then (set_outstanding (ddel (g_grant_id g) (ea_outstanding s)) s,
        Err (ExecutionBindingError EXPIRED))
  else if dhas (g_grant_id g) (ea_revoked s) then (s, Err (ExecutionBindingError REVOKED))
  else match dget (g_grant_id g) (ea_outstanding s) with
  | None => (s, Err (ExecutionBindingError CONSUMED))
  | Some o =>
      if negb (bool_decide (og_agent_id o = g_agent_id g))
         || negb (bool_decide (og_session_id o = g_session_id g))
      then (s, Err (ExecutionBindingError IDENTITY_MISMATCH))
      else (s, require_exact_match (g_binding g) requested)
  end.

(** ** Signing, issuing and claiming

    The keyed hash and the text [repr] gives a float are parameters. *)

Section crypto.
Context (hmac : string -> string -> string) (float_repr : Z -> string).

(** The dictionary [_sign] serialises; the capability fields appear only when present. *)
Definition sign_payload (grant_id authority_id : string) (b : ExecutionBinding)
  (issued_at expires_at : Z) (agent session : string)
  (profile digest : option string) : string :=
  dumps (JObj
    ([("agent_id", JStr agent); ("authority_id", JStr authority_id);
      ("binding", JStr (canonical_json b)); ("expires_at", JNum (float_repr expires_at));
      ("grant_id", JStr grant_id); ("issued_at", JNum (float_repr issued_at));
      ("session_id", JStr session)]
     ++ match profile with Some p => [("capability_profile_id", JStr p)] | None => [] end
     ++ match digest with Some d => [("capability_digest", JStr d)] | None => [] end)).

Definition sign (key grant_id authority_id : string) (b : ExecutionBinding)
  (issued_at expires_at : Z) (agent session : string) (profile digest : option string)
  : string :=
  hmac key (sign_payload grant_id authority_id b issued_at expires_at agent session
              profile digest).

(** [_verify_authenticity] *)
Definition verify_authenticity (p : Presented) (s : ExecutionAuthority)
  : result RuntimeExecutionGrant :=
  match p with
  | NoGrant => Err (ExecutionBindingError MISSING_GRANT)
  | NotAGrant => Err (ExecutionBindingError MALFORMED_GRANT)
  | AGrant g =>
      if negb (bool_decide (g_authority_id g = ea_authority_id s))
      then Err (ExecutionBindingError FOREIGN_AUTHORITY)
      else if negb (bool_decide
             (sign (ea_key s) (g_grant_id g) (g_authority_id g) (g_binding g) (g_issued_at g)
                (g_expires_at g) (g_agent_id g) (g_session_id g) (g_capability_profile_id g)
                (g_capability_digest g) = g_signature g))
      then Err (ExecutionBindingError INVALID_SIGNATURE)
      else Ok g
  end.

Definition verify_grant (p : Presented) (requested : ExecutionBinding) (now : Z)
  : Comp ExecutionAuthority unit := fun s =>
  match verify_authenticity p s with
  | Err e => (s, Err e)
  | Ok g => require_claimable g requested now s
  end.

Definition claim_grant (p : Presented) (requested : ExecutionBinding) (now : Z)
  : Comp ExecutionAuthority unit := fun s =>
  match verify_authenticity p s with
  | Err e => (s, Err e)
  | Ok g =>
      match require_claimable g requested now s with
      | (s', Err e) => (s', Err e)
      | (s', Ok _) => (set_outstanding (ddel (g_grant_id g) (ea_outstanding s')) s', Ok tt)
      end
  end.

Definition verify_and_consume := claim_grant.

(** [_create_grant]; the model's own length constraints are checked when the record is
    built, after the outstanding entry was made. *)
Definition create_grant (b : ExecutionBinding) (agent session : string)
  (profile digest : option string) (uuid : string) (now : Z)
  : Comp ExecutionAuthority RuntimeExecutionGrant := fun s =>
  let s := prune now s in
  let grant_id := ("grant-" +:+ uuid)%string in
  let expires_at := now + ea_ttl s in
  let signature := sign (ea_key s) grant_id (ea_authority_id s) b now expires_at agent session
                     profile digest in
  let s := set_outstanding
             (dset grant_id (mkOutstanding expires_at agent session) (ea_outstanding s)) s in
  if str_nonempty (ea_authority_id s) && str_nonempty agent && str_nonempty session
     && str_nonempty signature
  then (s, Ok (mkGrant grant_id (ea_authority_id s) agent session b now expires_at signature
                 profile digest))
  else (s, Err ValueError).

Definition issue `{EnforcementStateRepository RE} (enforcement : option RE)
  (b : ExecutionBinding) (decision : Decision) (agent session : string)
  (expected_epoch : option Z) (profile digest : option string) (uuid : string) (now : Z)
  : Comp ExecutionAuthority (option RuntimeExecutionGrant) := fun s =>
  if negb (bool_decide (decision = ALLOW)) then (s, Ok None)
  else if issuance_suspended agent s then (s, Ok None)
  else
    let create := g ← create_grant b agent session profile digest uuid now; mret (Some g) in
    match expected_epoch, enforcement with
    | Some e, Some repo =>
        match enf_get_state agent repo with
        | Err err => (s, Err err)
        | Ok persisted =>
            if negb (epoch_of persisted =? e) then (s, Ok None) else create s
        end
    | _, _ => create s
    end.
End crypto.

(** ** Histories

    Calls as data; a history returns the authority's state and what it granted: which
    grants were issued and which were claimed. *)

Inductive AuthOp (RE : Type) :=
| OIssue (enforcement : option RE) (b : ExecutionBinding) (d : Decision)
    (agent session : string) (expected_epoch : option Z) (profile digest : option string)
    (uuid : string) (now : Z)
| OVerify (p : Presented) (requested : ExecutionBinding) (now : Z)
| OClaim (p : Presented) (requested : ExecutionBinding) (now : Z)
| OConsume (g : RuntimeExecutionGrant)
| OSuspend (a : string) (plane : IssuancePlane)
| OResume (a : string) (plane : IssuancePlane)
| OCount (now : Z).
Arguments OIssue {RE}.
Arguments OVerify {RE}.
Arguments OClaim {RE}.
Arguments OConsume {RE}.
Arguments OSuspend {RE}.
Arguments OResume {RE}.
Arguments OCount {RE}.

Inductive AuthEvent :=
| Issued (g : RuntimeExecutionGrant)
| Claimed (g : RuntimeExecutionGrant) (requested : ExecutionBinding) (now : Z).

Definition issued_id (e : AuthEvent) : option string :=
  match e with Issued g => Some (g_grant_id g) | _ => None end.
Definition claimed_id (e : AuthEvent) : option string :=
  match e with Claimed g _ _ => Some (g_grant_id g) | _ => None end.
Definition event_agent (e : AuthEvent) : string :=
  match e with Issued g => g_agent_id g | Claimed g _ _ => g_agent_id g end.

Section histories.
Context (hmac : string -> string -> string) (float_repr : Z -> string).
Context {RE : Type} `{EnforcementStateRepository RE}.

Definition auth_step (op : AuthOp RE) (s : ExecutionAuthority)
  : ExecutionAuthority * list AuthEvent :=
  match op with
  | OIssue enf b d agent session epoch profile digest uuid now =>
      match issue hmac float_repr enf b d agent session epoch profile digest uuid now s with
      | (s', Ok (Some g)) => (s', [Issued g])
      | (s', _) => (s', [])
      end
  | OVerify p requested now => ((verify_grant hmac float_repr p requested now s).1, [])
  | OClaim p requested now =>
      match claim_grant hmac float_repr p requested now s, p with
      | (s', Ok _), AGrant g => (s', [Claimed g requested now])
      | (s', _), _ => (s', [])
      end
  | OConsume g => ((consume_grant g s).1, [])
  | OSuspend a plane => ((suspend_issuance a plane s).1, [])
  | OResume a plane => ((resume_issuance a plane s).1, [])
  | OCount now => ((outstanding_grant_count now s).1, [])
  end.

Fixpoint auth_run (ops : list (AuthOp RE)) (s : ExecutionAuthority)
  : ExecutionAuthority * list AuthEvent :=
  match ops with
  | [] => (s, [])
  | op :: ops' =>
      let '(s1, ev1) := auth_step op s in
      let '(s2, ev2) := auth_run ops' s1 in (s2, ev1 ++ ev2)
  end.

(** The identifiers a history draws for new grants. *)
Definition drawn_id (op : AuthOp RE) : option string :=
  match op with
  | OIssue _ _ _ _ _ _ _ _ uuid _ => Some ("grant-" +:+ uuid)
  | _ => None
  end.
End histories.

(** ** Lemmas: dictionaries *)

Lemma dget_filter {K V} `{EqDecision K} (f : K * V -> bool) k (d : pydict K V) :
  dwf d ->
  dget k (List.filter f d) =
  match dget k d with Some v => if f (k, v) then Some v else None | None => None end.
Proof.
  induction d as [|[k' v'] d IH]; csimpl; [done|]. rewrite dwf_cons. intros [Hn Hwf].
  destruct (f (k', v')) eqn:Hf; csimpl; case_decide; subst; rewrite ?Hf; auto.
  rewrite IH by done. by apply dget_None in Hn as ->.
Qed.

Lemma filter_wf {K V} `{EqDecision K} (f : K * V -> bool) (d : pydict K V) :
  dwf d -> dwf (List.filter f d).
Proof.
  induction d as [|[k v] d IH]; csimpl; [done|]. rewrite dwf_cons. intros [Hn Hwf].
  destruct (f (k, v)); [|auto]. apply dwf_cons. split; [|auto].
  intros Hin. apply Hn. unfold dkeys in *. apply list_elem_of_fmap in Hin as (p & -> & Hp).
  apply filter_elem in Hp as [Hp _]. apply list_elem_of_fmap. eauto.
Qed.

(** ** Lemmas: state *)

Record authority_wf (s : ExecutionAuthority) : Prop := {
  wf_outstanding : dwf (ea_outstanding s);
  wf_revoked : dwf (ea_revoked s);
  wf_closed : dwf (ea_closed s);
}.

Lemma prune_wf now s : authority_wf s -> authority_wf (prune now s).
Proof. intros [H1 H2 H3]. split; simpl; [by apply filter_wf..|done]. Qed.

Lemma prune_outstanding now s gid :
  authority_wf s ->
  dget gid (ea_outstanding (prune now s)) =
  match dget gid (ea_outstanding s) with
  | Some o => if og_expires_at o <=? now then None else Some o
  | None => None
  end.
Proof.
  intros [H1 _ _]. simpl. rewrite dget_filter by done.
  destruct (dget gid _) as [o|]; [|done]. by destruct (_ <=? _).
Qed.

Lemma prune_revoked now s gid :
  authority_wf s ->
  dget gid (ea_revoked (prune now s)) =
  match dget gid (ea_revoked s) with
  | Some t => if t <=? now then None else Some t
  | None => None
  end.
Proof.
  intros [_ H2 _]. simpl. rewrite dget_filter by done.
  destruct (dget gid _) as [o|]; [|done]. by destruct (_ <=? _).
Qed.

(** The revocation loop of [suspend_issuance]. *)
Definition revoke_all (l : list (string * OutstandingGrant)) (s : ExecutionAuthority) :=
  fold_left (fun s '(gid, o) =>
    set_revoked (dset gid (og_expires_at o) (ea_revoked s))
      (set_outstanding (ddel gid (ea_outstanding s)) s)) l s.

Lemma revoke_all_spec l s :
  let s' := revoke_all l s in
  ea_closed s' = ea_closed s /\ ea_key s' = ea_key s /\ ea_ttl s' = ea_ttl s /\
  ea_authority_id s' = ea_authority_id s /\
  (authority_wf s -> authority_wf s') /\
  (forall gid, dget gid (ea_outstanding s') =
     if bool_decide (gid ∈ l.*1) then None else dget gid (ea_outstanding s)) /\
  (forall gid, gid ∉ l.*1 -> dget gid (ea_revoked s') = dget gid (ea_revoked s)) /\
  (NoDup l.*1 -> forall gid o, (gid, o) ∈ l -> dget gid (ea_revoked s') = Some (og_expires_at o)).
Proof.
  revert s. induction l as [|[gid0 o0] l IH]; intros s; csimpl.
  - by split_and!; try done; intros ? ? ? ?%elem_of_nil.
  - specialize (IH (set_revoked (dset gid0 (og_expires_at o0) (ea_revoked s))
      (set_outstanding (ddel gid0 (ea_outstanding s)) s))) as (H1 & H2 & H3 & H4 & H5 & H6 & H7 & H8).
    simpl in *. split_and!; try done.
    + intros [? ? ?]. apply H5. split; simpl; auto using dset_wf, ddel_wf.
    + intros gid. rewrite H6, dget_ddel. rewrite (bool_decide_ext _ _ (elem_of_cons l.*1 gid gid0)).
      destruct (decide (gid = gid0)) as [->|Hne].
      * rewrite (bool_decide_true (_ \/ _)) by auto. by destruct (bool_decide _).
      * by rewrite (bool_decide_ext (gid = gid0 \/ gid ∈ l.*1) (gid ∈ l.*1)) by naive_solver.
    + intros gid Hn. apply not_elem_of_cons in Hn as [? ?].
      by rewrite H7, dget_dset_ne by done.
    + rewrite NoDup_cons. intros [Hn Hnd] gid o [[= -> ->]|Hin]%elem_of_cons; [|by eapply H8].
      rewrite H7 by done. apply dget_dset_eq.
Qed.

Lemma suspend_spec a p s :
  let s' := (suspend_issuance a p s).1 in
  (forall b, closed_planes b s' =
     if decide (b = a) then closed_planes a s ∪ {[p]} else closed_planes b s) /\
  (authority_wf s -> authority_wf s') /\
  (authority_wf s -> forall gid, dget gid (ea_outstanding s') =
     match dget gid (ea_outstanding s) with
     | Some o => if bool_decide (og_agent_id o = a) then None else Some o
     | None => None
     end) /\
  (authority_wf s -> forall gid o, dget gid (ea_outstanding s) = Some o -> og_agent_id o = a ->
     dget gid (ea_revoked s') = Some (og_expires_at o)).
Proof.
  set (f := (fun '(_, o) => bool_decide (og_agent_id o = a)) : string * OutstandingGrant -> bool).
  set (s0 := set_closed (dset a (closed_planes a s ∪ {[p]}) (ea_closed s)) s).
  change ((suspend_issuance a p s).1) with (revoke_all (List.filter f (ea_outstanding s)) s0).
  cbv zeta.
  destruct (revoke_all_spec (List.filter f (ea_outstanding s)) s0)
    as (H1 & _ & _ & _ & H5 & H6 & _ & H8).
  assert (Hin : forall gid o, authority_wf s ->
    (gid, o) ∈ List.filter f (ea_outstanding s) <->
    dget gid (ea_outstanding s) = Some o /\ og_agent_id o = a).
  { intros gid o Hwf. rewrite filter_elem. unfold f. rewrite bool_decide_eq_true.
    split; (intros [Ho Ha]; split; [|done]); [by apply elem_dget; [apply Hwf|]|by apply dget_elem]. }
  split_and!.
  - intros b. unfold closed_planes at 1. rewrite H1. simpl. rewrite dget_dset.
    by case_decide.
  - intros [? ? ?]. apply H5. split; simpl; auto using dset_wf.
  - intros Hwf gid. rewrite H6. simpl. case_bool_decide as Hk.
    + apply list_elem_of_fmap in Hk as ([gid' o] & -> & Ho). apply Hin in Ho as [Ho Ha]; [|done].
      simpl. by rewrite Ho, bool_decide_true.
    + destruct (dget gid (ea_outstanding s)) as [o|] eqn:Ho; [|done].
      case_bool_decide as Ha; [|done]. exfalso. apply Hk.
      apply list_elem_of_fmap. exists (gid, o). split; [done|]. by apply Hin.
  - intros Hwf gid o Ho Ha. apply (H8 (filter_wf f _ (wf_outstanding _ Hwf))). by apply Hin.
Qed.

Lemma resume_spec a p s :
  let s' := (resume_issuance a p s).1 in
  (forall b, closed_planes b s' =
     if decide (b = a) then closed_planes a s ∖ {[p]} else closed_planes b s) /\
  ea_outstanding s' = ea_outstanding s /\ ea_revoked s' = ea_revoked s /\
  (authority_wf s -> authority_wf s').
Proof.
  unfold resume_issuance. destruct (dget a (ea_closed s)) as [c|] eqn:Hc; simpl.
  - split_and!; try done.
    + intros b. unfold closed_planes; simpl. rewrite Hc; simpl.
      case_bool_decide as He; rewrite ?dget_ddel, ?dget_dset; case_decide; simpl; congruence.
    + intros [? ? ?]. split; simpl; try done. case_bool_decide; auto using ddel_wf, dset_wf.
  - split_and!; try done. intros b. case_decide; [|done]. subst b.
    unfold closed_planes. rewrite Hc; simpl. set_solver.
Qed.

Lemma issuance_suspended_iff a s : issuance_suspended a s = true <-> closed_planes a s <> ∅.
Proof. unfold issuance_suspended. rewrite negb_true_iff, bool_decide_eq_false. done. Qed.

Lemma require_exact_match_Ok b b' u : require_exact_match b b' = Ok u <-> b = b'.
Proof.
  unfold require_exact_match. destruct b, b', u; simpl. split.
  - intros H. repeat case_bool_decide; simplify_eq/=; done.
  - intros [= -> -> -> ->]. by rewrite !bool_decide_true by done.
Qed.

(** A claimable grant, in terms of the authority's state. *)
Definition claimable (g : RuntimeExecutionGrant) (requested : ExecutionBinding) (now : Z)
  (s : ExecutionAuthority) : Prop :=
  now < g_expires_at g /\
  (forall t, dget (g_grant_id g) (ea_revoked s) = Some t -> t <= now) /\
  (exists e, dget (g_grant_id g) (ea_outstanding s)
     = Some (mkOutstanding e (g_agent_id g) (g_session_id g)) /\ now < e) /\
  requested = g_binding g.

Lemma live_revocation g now s :
  authority_wf s ->
  dhas g (ea_revoked (prune now s)) = false <->
  forall t, dget g (ea_revoked s) = Some t -> t <= now.
Proof.
  intros Hwf. rewrite dhas_false, prune_revoked by done.
  destruct (dget g (ea_revoked s)) as [t|]; [|done].
  destruct (Z.leb_spec t now); split; try naive_solver. intros Ht. specialize (Ht t eq_refl). lia.
Qed.

Lemma require_claimable_Ok g requested now s :
  authority_wf s ->
  (exists s', require_claimable g requested now s = (s', Ok tt)) <-> claimable g requested now s.
Proof.
  intros Hwf. unfold require_claimable, claimable. cbv zeta.
  rewrite <- live_revocation, prune_outstanding by done.
  destruct (Z.leb_spec (g_expires_at g) now); [split; [by intros (? & ?)|lia]|].
  destruct (dhas _ _); [split; [by intros (? & ?)|naive_solver]|].
  destruct (dget (g_grant_id g) (ea_outstanding s)) as [[e ag se]|]; simpl.
  2: { split; [by intros (? & ?)|]. by intros (_ & _ & (? & ? & _) & _). }
  destruct (Z.leb_spec e now).
  { split; [by intros (? & ?)|]. intros (_ & _ & (? & ? & ?) & _). simplify_eq. lia. }
  simpl. destruct (_ || _) eqn:Hid.
  { split; [by intros (? & ?)|]. intros (_ & _ & (? & ? & ?) & _). simplify_eq.
    by rewrite !bool_decide_true in Hid. }
  apply orb_false_iff in Hid as [H1 H2]. rewrite negb_false_iff, bool_decide_eq_true in H1, H2.
  subst. split.
  - intros (s' & [= _ Hm]). apply require_exact_match_Ok in Hm. naive_solver.
  - intros (_ & _ & _ & ->). eexists. f_equal. by apply require_exact_match_Ok.
Qed.

Lemma require_claimable_state g requested now s :
  authority_wf s ->
  let s' := (require_claimable g requested now s).1 in
  authority_wf s' /\ ea_closed s' = ea_closed s /\ ea_ttl s' = ea_ttl s /\
  ea_key s' = ea_key s /\ ea_authority_id s' = ea_authority_id s /\
  (forall gid, dget gid (ea_outstanding s') =
     if bool_decide (gid = g_grant_id g) && (g_expires_at g <=? now) then None
     else dget gid (ea_outstanding (prune now s))).
Proof.
  intros Hwf. pose proof (prune_wf now s Hwf) as Hp. unfold require_claimable. cbv zeta.
  destruct (g_expires_at g <=? now).
  - cbn [fst]. split_and!; try done.
    + destruct Hp. split; simpl; auto using ddel_wf.
    + intros gid. cbn [ea_outstanding set_outstanding]. rewrite dget_ddel, andb_true_r.
      case_bool_decide; by case_decide.
  - assert (Hs : forall x : ExecutionAuthority * result unit, x.1 = prune now s ->
      authority_wf x.1 /\ ea_closed x.1 = ea_closed s /\ ea_ttl x.1 = ea_ttl s /\
      ea_key x.1 = ea_key s /\ ea_authority_id x.1 = ea_authority_id s /\
      (forall gid, dget gid (ea_outstanding x.1) =
        if bool_decide (gid = g_grant_id g) && false then None
        else dget gid (ea_outstanding (prune now s)))).
    { intros x ->. split_and!; try done. intros gid. by rewrite andb_false_r. }
    apply Hs. by repeat case_match.
Qed.

Section history_lemmas.
Context (hmac : string -> string -> string) (float_repr : Z -> string).
Context {RE : Type} `{EnforcementStateRepository RE}.
Local Abbreviation step := (auth_step hmac float_repr (RE := RE)).
Local Abbreviation run := (auth_run hmac float_repr (RE := RE)).

(** The outstanding entry an issuing call makes. *)
Definition opens (op : AuthOp RE) (s : ExecutionAuthority) (gid : string)
  (o : OutstandingGrant) : Prop :=
  exists enf b agent session epoch profile digest uuid now,
    op = OIssue enf b ALLOW agent session epoch profile digest uuid now /\
    gid = "grant-" +:+ uuid /\ o = mkOutstanding (now + ea_ttl s) agent session /\
    issuance_suspended agent s = false.

Lemma opens_drawn op s gid o : opens op s gid o -> drawn_id op = Some gid.
Proof. intros (?&?&?&?&?&?&?&?&?&->&->&_). done. Qed.

(** What one call can do. *)
Record step_effect (op : AuthOp RE) (s s' : ExecutionAuthority) (ev : list AuthEvent) : Prop := {
  se_wf : authority_wf s';
  se_ttl : ea_ttl s' = ea_ttl s;
  se_key : ea_key s' = ea_key s;
  se_id : ea_authority_id s' = ea_authority_id s;
  se_outstanding : forall gid o, dget gid (ea_outstanding s') = Some o ->
    dget gid (ea_outstanding s) = Some o \/ opens op s gid o;
  se_closed : forall a p, p ∈ closed_planes a s -> op <> OResume a p -> p ∈ closed_planes a s';
  se_events : ev = [] \/
    (exists g requested now, op = OClaim (AGrant g) requested now /\
       ev = [Claimed g requested now] /\ claimable g requested now s /\
       dget (g_grant_id g) (ea_outstanding s') = None) \/
    (exists g o, ev = [Issued g] /\ opens op s (g_grant_id g) o /\
       o = mkOutstanding (g_expires_at g) (g_agent_id g) (g_session_id g) /\
       g_signature g = sign hmac float_repr (ea_key s) (g_grant_id g) (g_authority_id g)
         (g_binding g) (g_issued_at g) (g_expires_at g) (g_agent_id g) (g_session_id g)
         (g_capability_profile_id g) (g_capability_digest g));
}.

Lemma pruned_sub now s gid o :
  authority_wf s -> dget gid (ea_outstanding (prune now s)) = Some o ->
  dget gid (ea_outstanding s) = Some o.
Proof. intros Hwf. rewrite prune_outstanding by done. repeat case_match; congruence. Qed.

Lemma step_effect_none op s s' :
  authority_wf s' -> ea_ttl s' = ea_ttl s -> ea_key s' = ea_key s ->
  ea_authority_id s' = ea_authority_id s -> ea_closed s' = ea_closed s ->
  (forall gid o, dget gid (ea_outstanding s') = Some o -> dget gid (ea_outstanding s) = Some o) ->
  step_effect op s s' [].
Proof.
  intros Hwf Ht Hk Hi Hc Ho. split; auto. intros a p Hp _. unfold closed_planes in *. by rewrite Hc.
Qed.

Lemma create_grant_effect enf b agent session epoch profile digest uuid now s :
  authority_wf s -> issuance_suspended agent s = false ->
  match create_grant hmac float_repr b agent session profile digest uuid now s with
  | (s', Ok g) =>
      step_effect (OIssue enf b ALLOW agent session epoch profile digest uuid now) s s' [Issued g]
  | (s', Err _) =>
      step_effect (OIssue enf b ALLOW agent session epoch profile digest uuid now) s s' []
  end.
Proof.
  intros Hwf Hopen. unfold create_grant. cbv zeta.
  set (gid := "grant-" +:+ uuid).
  set (s' := set_outstanding (dset gid (mkOutstanding (now + ea_ttl (prune now s)) agent session)
               (ea_outstanding (prune now s))) (prune now s)).
  set (op := OIssue enf b ALLOW agent session epoch profile digest uuid now).
  assert (Hop : opens op s gid (mkOutstanding (now + ea_ttl s) agent session)).
  { unfold opens, op. eauto 20. }
  assert (Hwf' : authority_wf s').
  { destruct (prune_wf now s Hwf). split; simpl; auto using dset_wf. }
  assert (Hout : forall gid' o, dget gid' (ea_outstanding s') = Some o ->
    dget gid' (ea_outstanding s) = Some o \/ opens op s gid' o).
  { intros gid' o. unfold s'. cbn [ea_outstanding set_outstanding]. rewrite dget_dset.
    case_decide as Hg; [intros [= <-]; subst gid'; by right|].
    intros Ho. left. by eapply pruned_sub. }
  destruct (_ && _).
  - split; try done. right. right. eexists _, _. split; [done|]. by split_and!.
  - split; try done. by left.
Qed.

Lemma claim_effect p requested now s :
  authority_wf s ->
  step_effect (OClaim p requested now) s (step (OClaim p requested now) s).1 (step (OClaim p requested now) s).2.
Proof.
  intros Hwf. assert (Hsame : step_effect (OClaim p requested now) s s []) by (by apply step_effect_none).
  cbn [auth_step]. unfold claim_grant. destruct (verify_authenticity _ _ p s) as [g|] eqn:Ha; simpl;
    [|by destruct p].
  assert (p = AGrant g) as ->.
  { unfold verify_authenticity in Ha. repeat case_match; congruence. }
  destruct (require_claimable_state g requested now s Hwf) as (H1 & H2 & H3 & H4 & H5 & H6).
  pose proof (require_claimable_Ok g requested now s Hwf) as Hcl.
  destruct (require_claimable g requested now s) as [s' [[]|e]]; cbn [fst snd] in *.
  - split; simpl; try done.
    + destruct H1. split; simpl; auto using ddel_wf.
    + intros gid o. rewrite dget_ddel. case_decide; [done|]. rewrite H6.
      case_match; [done|]. intros ?. left. by eapply pruned_sub.
    + intros a p Hp _. unfold closed_planes in *. simpl. by rewrite H2.
    + right. left. exists g, requested, now. split_and!; try done; [by apply Hcl; eauto|].
      rewrite dget_ddel. by case_decide.
  - apply step_effect_none; try done. intros gid o. rewrite H6.
    case_match; [done|]. by apply pruned_sub.
Qed.

Lemma auth_step_effect op s :
  authority_wf s -> step_effect op s (step op s).1 (step op s).2.
Proof.
  intros Hwf. assert (Hsame : step_effect op s s []) by (by apply step_effect_none).
  destruct op as [enf b d agent session epoch profile digest uuid now|p requested now
    |p requested now|g|a p|a p|now]; cbn [auth_step].
  - unfold issue. cbv [mbind comp_bind mret comp_ret].
    destruct (bool_decide (d = ALLOW)) eqn:Hd; simpl; [|done].
    apply bool_decide_eq_true in Hd as ->.
    destruct (issuance_suspended agent s) eqn:Hs; simpl; [done|].
    pose proof (create_grant_effect enf b agent session epoch profile digest uuid now s Hwf Hs)
      as Hcr.
    destruct epoch as [e|], enf as [repo|];
      try (destruct (enf_get_state agent repo); [|done]; destruct (negb _); [done|]);
      by destruct (create_grant _ _ _ _ _ _ _ _ _ _) as [s' [g|]].
  - unfold verify_grant. destruct (verify_authenticity _ _ p s) as [g|]; simpl; [|done].
    destruct (require_claimable_state g requested now s Hwf) as (H1 & H2 & H3 & H4 & H5 & H6).
    apply step_effect_none; try done. intros gid o. rewrite H6.
    case_match; [done|]. by apply pruned_sub.
  - by apply claim_effect.
  - simpl. apply step_effect_none; try done.
    + destruct Hwf. split; simpl; auto using ddel_wf.
    + intros gid o. simpl. rewrite dget_ddel. by case_decide.
  - destruct (suspend_spec a p s) as (Hc & Hw & Ho & _).
    pose proof (revoke_all_spec (List.filter (fun '(_, o) => bool_decide (og_agent_id o = a))
      (ea_outstanding s)) (set_closed (dset a (closed_planes a s ∪ {[p]}) (ea_closed s)) s))
      as (_ & Hk & Ht & Hi & _). cbn [fst snd].
    split; auto.
    + intros gid o. rewrite Ho by done. repeat case_match; intros; simplify_eq; auto.
    + intros b q Hq _. rewrite Hc. case_decide; subst; set_solver.
  - destruct (resume_spec a p s) as (Hc & Ho & _ & Hw). cbn [fst snd]. split; auto.
    1, 2, 3: unfold resume_issuance; by case_match.
    + intros gid o. rewrite Ho. auto.
    + intros b q Hq Hne. rewrite Hc. case_decide; [|done]. subst b.
      apply elem_of_difference. split; [done|]. apply not_elem_of_singleton. congruence.
  - simpl. apply step_effect_none; try done; [by apply prune_wf|].
    intros gid o. by apply (pruned_sub now).
Qed.
End history_lemmas.

Lemma sign_payload_eq float_repr gid aid b t1 t2 agent session profile digest :
  sign_payload float_repr gid aid b t1 t2 agent session profile digest =
  "{" +:+ json_str "agent_id" +:+ ":" +:+ json_str agent +:+ "," +:+
  json_str "authority_id" +:+ ":" +:+ json_str aid +:+ "," +:+
  json_str "binding" +:+ ":" +:+ json_str (canonical_json b) +:+ "," +:+
  match digest with
  | Some d => json_str "capability_digest" +:+ ":" +:+ json_str d +:+ ","
  | None => EmptyString end +:+
  match profile with
  | Some p => json_str "capability_profile_id" +:+ ":" +:+ json_str p +:+ ","
  | None => EmptyString end +:+
  json_str "expires_at" +:+ ":" +:+ float_repr t2 +:+ "," +:+
  json_str "grant_id" +:+ ":" +:+ json_str gid +:+ "," +:+
  json_str "issued_at" +:+ ":" +:+ float_repr t1 +:+ "," +:+
  json_str "session_id" +:+ ":" +:+ json_str session +:+ "}".
Proof.
  unfold sign_payload.
  destruct profile as [p|], digest as [d|]; unfold dumps; cbn [app dumps_with List.map];
    [generalize (json_str p) (json_str d); intros p' d'|generalize (json_str p); intros p'
    |generalize (json_str d); intros d'|];
    generalize (json_str agent) (json_str aid) (json_str (canonical_json b)) (float_repr t2)
      (float_repr t1) (json_str gid) (json_str session); intros v1 v2 v3 v4 v5 v6 v7;
    match goal with |- context [sort_by key_leb ?l] =>
      let l' := eval vm_compute in (sort_by key_leb l) in change (sort_by key_leb l) with l' end;
    cbn [List.map join]; by rewrite ?append_assoc.
Qed.

(** What the platform relies on of its keyed hash and of the text of a float. *)
Definition collision_free (hmac : string -> string -> string) : Prop :=
  forall key m1 m2, hmac key m1 = hmac key m2 -> m1 = m2.
Definition faithful_repr (float_repr : Z -> string) : Prop :=
  (forall x y, float_repr x = float_repr y -> x = y) /\
  forall x, str_contains "," (float_repr x) = false.

Lemma sign_payload_inj float_repr gid aid b t1 t2 agent session profile digest
  gid' aid' b' t1' t2' agent' session' profile' digest' :
  faithful_repr float_repr ->
  sign_payload float_repr gid aid b t1 t2 agent session profile digest =
  sign_payload float_repr gid' aid' b' t1' t2' agent' session' profile' digest' ->
  gid = gid' /\ aid = aid' /\ canonical_json b = canonical_json b' /\ t1 = t1' /\ t2 = t2' /\
  agent = agent' /\ session = session' /\ profile = profile' /\ digest = digest'.
Proof.
  intros [Hinj Hcomma]. rewrite !sign_payload_eq. intros H.
  assert (Hnum : forall x y r1 r2, float_repr x +:+ "," +:+ r1 = float_repr y +:+ "," +:+ r2 ->
    x = y /\ r1 = r2).
  { intros x y r1 r2 He. apply delimited_code in He as [He ->]; [|apply Hcomma..].
    split; [by apply Hinj|done]. }
  peel H.
  destruct digest, digest', profile, profile'; rewrite ?append_assoc in H; try discriminate;
    peel H; try discriminate; repeat (apply Hnum in H as [? H]; peel H); subst; by split_and!.
Qed.

(** ** Histories: lemmas *)

Section runs.
Context (hmac : string -> string -> string) (float_repr : Z -> string).
Context {RE : Type} `{EnforcementStateRepository RE}.
Local Abbreviation step := (auth_step hmac float_repr (RE := RE)).
Local Abbreviation run := (auth_run hmac float_repr (RE := RE)).

Lemma auth_run_cons op ops s :
  run (op :: ops) s =
  ((run ops (step op s).1).1, (step op s).2 ++ (run ops (step op s).1).2).
Proof. simpl. destruct (step op s) as [s1 e1]; simpl. by destruct (run ops s1). Qed.

Lemma auth_run_app ops1 ops2 s :
  run (ops1 ++ ops2) s =
  ((run ops2 (run ops1 s).1).1, (run ops1 s).2 ++ (run ops2 (run ops1 s).1).2).
Proof.
  revert s. induction ops1 as [|op ops1 IH]; intros s.
  - simpl. by destruct (run ops2 s).
  - change ((op :: ops1) ++ ops2) with (op :: (ops1 ++ ops2)).
    rewrite !auth_run_cons. cbn [fst snd]. rewrite IH. cbn [fst snd]. by rewrite app_assoc.
Qed.

Lemma auth_run_wf ops s : authority_wf s -> authority_wf (run ops s).1.
Proof.
  revert s. induction ops as [|op ops IH]; intros s Hwf; [done|].
  rewrite auth_run_cons. apply IH. by apply (auth_step_effect hmac float_repr op s).
Qed.

Lemma run_claims_fresh ops s :
  authority_wf s -> NoDup (omap drawn_id ops) ->
  (forall gid, gid ∈ omap drawn_id ops -> dget gid (ea_outstanding s) = None) ->
  NoDup (omap claimed_id (run ops s).2) /\
  forall gid, gid ∈ omap claimed_id (run ops s).2 ->
    dget gid (ea_outstanding s) <> None \/ gid ∈ omap drawn_id ops.
Proof.
  revert s. induction ops as [|op ops IH]; intros s Hwf Hnd Hfresh.
  { split; [constructor|]. intros gid Hin. simpl in Hin. by apply elem_of_nil in Hin. }
  pose proof (auth_step_effect hmac float_repr op s Hwf) as [Hwf' _ _ _ Hout _ Hev].
  rewrite auth_run_cons. cbn [snd]. rewrite omap_app.
  assert (Hdrawn : omap drawn_id (op :: ops) =
    match drawn_id op with Some i => [i] | None => [] end ++ omap drawn_id ops).
  { simpl. by destruct (drawn_id op). }
  rewrite Hdrawn in *. apply NoDup_app in Hnd as (_ & Hdis & Hnd).
  assert (Hnone : forall gid, dget gid (ea_outstanding (step op s).1) <> None ->
    dget gid (ea_outstanding s) <> None \/ drawn_id op = Some gid).
  { intros gid Hg. destruct (dget gid (ea_outstanding (step op s).1)) as [o|] eqn:Ho; [|done].
    apply Hout in Ho as [Ho|Ho]; [left; congruence|right; by eapply opens_drawn]. }
  destruct (IH (step op s).1 Hwf' Hnd) as [IHnd IHin].
  { intros gid Hin. destruct (dget gid (ea_outstanding (step op s).1)) eqn:Ho; [|done].
    destruct (Hnone gid) as [Hs|Hs]; [congruence| |].
    - rewrite Hfresh in Hs; [done|]. apply elem_of_app. by right.
    - rewrite Hs in Hdis. destruct (Hdis gid); set_solver. }
  assert (Htail : forall gid, gid ∈ omap claimed_id (run ops (step op s).1).2 ->
    dget gid (ea_outstanding s) <> None \/
    gid ∈ match drawn_id op with Some i => [i] | None => [] end ++ omap drawn_id ops).
  { intros gid Hin. rewrite elem_of_app. apply IHin in Hin as [Hin|Hin]; [|auto].
    apply Hnone in Hin as [?|Hd]; [auto|]. right. left. rewrite Hd. set_solver. }
  destruct Hev as [->|[(g & req & now & -> & -> & Hcl & Hgone)|(g & o & -> & _)]];
    [done| |done]. simpl. destruct Hcl as (_ & _ & (e & Hg & _) & _). split.
  - apply NoDup_cons. split; [|done]. intros Hin. apply IHin in Hin as [?|Hin]; [done|].
    rewrite Hfresh in Hg; [done|]. set_solver.
  - intros gid [->|Hin]%elem_of_cons; [left; congruence|]. by apply Htail.
Qed.

(** A grant that is outstanding was opened by an earlier call. *)
Lemma outstanding_opened ops s gid o :
  authority_wf s -> dget gid (ea_outstanding (run ops s).1) = Some o ->
  dget gid (ea_outstanding s) = Some o \/
  exists before op after, ops = before ++ op :: after /\ opens op (run before s).1 gid o.
Proof.
  intros Hwf. induction ops as [|op ops IH] using rev_ind; [by left|].
  rewrite auth_run_app. cbn [fst]. rewrite auth_run_cons. cbn [fst snd].
  change (run [] ?x).1 with x. intros Ho.
  pose proof (auth_step_effect hmac float_repr op _ (auth_run_wf ops s Hwf)) as Heff.
  apply (se_outstanding _ _ _ _ _ _ Heff) in Ho as [Ho|Ho].
  - apply IH in Ho as [?|(before & op' & after & -> & Hop)]; [by left|].
    right. exists before, op', (after ++ [op]). by rewrite <- app_assoc.
  - right. by exists ops, op, [].
Qed.

Lemma auth_run_ttl ops s : authority_wf s -> ea_ttl (run ops s).1 = ea_ttl s.
Proof.
  revert s. induction ops as [|op ops IH]; intros s Hwf; [done|].
  pose proof (auth_step_effect hmac float_repr op s Hwf) as Heff.
  rewrite auth_run_cons. cbn [fst]. rewrite IH by apply Heff. apply Heff.
Qed.

(** An agent whose issuance is closed and who holds nothing gets nothing. *)
Lemma contained_run ops s a p :
  authority_wf s -> p ∈ closed_planes a s ->
  (forall gid o, dget gid (ea_outstanding s) = Some o -> og_agent_id o <> a) ->
  OResume a p ∉ ops ->
  (forall e, e ∈ (run ops s).2 -> event_agent e <> a) /\
  p ∈ closed_planes a (run ops s).1 /\
  (forall gid o, dget gid (ea_outstanding (run ops s).1) = Some o -> og_agent_id o <> a).
Proof.
  revert s. induction ops as [|op ops IH]; intros s Hwf Hp Hout Hno.
  { split_and!; [|done..]. intros e He. simpl in He. by apply elem_of_nil in He. }
  apply not_elem_of_cons in Hno as [Hne Hno].
  pose proof (auth_step_effect hmac float_repr op s Hwf) as [Hwf' _ _ _ Hout' Hcl Hev].
  assert (Hopen : forall gid o, opens op s gid o -> og_agent_id o <> a).
  { intros gid o (?&?&agent&?&?&?&?&?&?&_&_&->&Hs) Ha. simpl in Ha. subst agent.
    assert (issuance_suspended a s = true); [|congruence].
    apply issuance_suspended_iff. set_solver. }
  rewrite auth_run_cons. cbn [fst snd].
  destruct (IH (step op s).1 Hwf') as (IH1 & IH2 & IH3); [by apply Hcl| |done|].
  { intros gid o Ho. apply Hout' in Ho as [Ho|Ho]; eauto. }
  split_and!; [|done..]. intros e [He|He]%elem_of_app; [|by apply IH1].
  destruct Hev as [Hev|[(g & req & now & _ & Hev & Hclm & _)|(g & o & Hev & Hop & -> & _)]];
    rewrite Hev in He.
  - by apply elem_of_nil in He.
  - apply list_elem_of_singleton in He as ->. destruct Hclm as (_ & _ & (ex & Hg & _) & _).
    by apply Hout in Hg.
  - apply list_elem_of_singleton in He as ->. by apply Hopen in Hop.
Qed.

Lemma issued_signed ops s g :
  authority_wf s -> Issued g ∈ (run ops s).2 ->
  g_signature g = sign hmac float_repr (ea_key s) (g_grant_id g) (g_authority_id g)
    (g_binding g) (g_issued_at g) (g_expires_at g) (g_agent_id g) (g_session_id g)
    (g_capability_profile_id g) (g_capability_digest g).
Proof.
  revert s. induction ops as [|op ops IH]; intros s Hwf.
  { intros He. simpl in He. by apply elem_of_nil in He. }
  pose proof (auth_step_effect hmac float_repr op s Hwf) as [Hwf' _ Hk _ _ _ Hev].
  rewrite auth_run_cons. cbn [snd]. intros [He|He]%elem_of_app.
  - destruct Hev as [Hev|[(g' & req & now & _ & Hev & _)|(g' & o & Hev & _ & _ & Hsig)]];
      rewrite Hev in He; [by apply elem_of_nil in He|..];
      apply list_elem_of_singleton in He; [done|]. by injection He as ->.
  - rewrite <- Hk. by apply IH.
Qed.
End runs.

(** Which plane closed an agent last, according to the calls alone. *)
Definition gate_after {RE} (a : string) (p : IssuancePlane) (ops : list (AuthOp RE)) : bool :=
  fold_left (fun closed op =>
    match op with
    | OSuspend a' p' => if decide (a' = a /\ p' = p) then true else closed
    | OResume a' p' => if decide (a' = a /\ p' = p) then false else closed
    | _ => closed
    end) ops false.

Lemma require_claimable_closed g requested now s :
  ea_closed (require_claimable g requested now s).1 = ea_closed s.
Proof. unfold require_claimable. cbv zeta. by repeat case_match. Qed.

Lemma auth_step_closed hmac float_repr `{EnforcementStateRepository RE} (op : AuthOp RE) s a p :
  p ∈ closed_planes a (auth_step hmac float_repr op s).1 <->
  match op with
  | OSuspend a' p' => (a' = a /\ p' = p) \/ p ∈ closed_planes a s
  | OResume a' p' => ~ (a' = a /\ p' = p) /\ p ∈ closed_planes a s
  | _ => p ∈ closed_planes a s
  end.
Proof.
  assert (Hsame : forall s', ea_closed s' = ea_closed s ->
    p ∈ closed_planes a s' <-> p ∈ closed_planes a s).
  { intros s' Hc. unfold closed_planes. by rewrite Hc. }
  destruct op as [enf b d agent session epoch profile digest uuid now|q requested now
    |q requested now|g|a' p'|a' p'|now]; cbn [auth_step fst].
  - apply Hsame. unfold issue, create_grant. cbv [mbind comp_bind mret comp_ret].
    by repeat case_match; simplify_eq/=.
  - apply Hsame. unfold verify_grant.
    by destruct (verify_authenticity hmac float_repr q s); [apply require_claimable_closed|].
  - apply Hsame. unfold claim_grant.
    destruct (verify_authenticity hmac float_repr q s) as [g|]; [|by destruct q].
    pose proof (require_claimable_closed g requested now s) as Hc.
    destruct (require_claimable g requested now s) as [s' [[]|]]; by destruct q.
  - by apply Hsame.
  - destruct (suspend_spec a' p' s) as (Hc & _). rewrite Hc.
    case_decide; subst; [rewrite elem_of_union, elem_of_singleton; naive_solver|naive_solver].
  - destruct (resume_spec a' p' s) as (Hc & _). rewrite Hc.
    case_decide; subst; [rewrite elem_of_difference, elem_of_singleton; naive_solver|naive_solver].
  - by apply Hsame.
Qed.

Lemma auth_run_closed hmac float_repr `{EnforcementStateRepository RE} (ops : list (AuthOp RE)) s a p :
  closed_planes a s = ∅ ->
  p ∈ closed_planes a (auth_run hmac float_repr ops s).1 <-> gate_after a p ops = true.
Proof.
  intros Hs. induction ops as [|op ops IH] using rev_ind; [simpl; rewrite Hs; set_solver|].
  rewrite auth_run_app, auth_run_cons. cbn [fst snd]. change (auth_run _ _ [] ?x).1 with x.
  rewrite auth_step_closed. unfold gate_after. rewrite fold_left_app. cbn [fold_left].
  fold (gate_after a p ops). destruct op; try done; rewrite IH; case_decide; naive_solver.
Qed.

Lemma claim_Ok hmac float_repr g requested now s :
  authority_wf s ->
  is_ok (claim_grant hmac float_repr (AGrant g) requested now s).2 = true ->
  g_authority_id g = ea_authority_id s /\
  sign hmac float_repr (ea_key s) (g_grant_id g) (g_authority_id g) (g_binding g)
    (g_issued_at g) (g_expires_at g) (g_agent_id g) (g_session_id g)
    (g_capability_profile_id g) (g_capability_digest g) = g_signature g /\
  claimable g requested now s.
Proof.
  intros Hwf. unfold claim_grant, verify_authenticity. simpl.
  case_bool_decide as Ha; simpl; [|done]. case_bool_decide as Hsig; simpl; [|done].
  pose proof (require_claimable_Ok g requested now s Hwf) as Hcl.
  destruct (require_claimable g requested now s) as [s' [[]|e]] eqn:Hr; simpl; [|done].
  intros _. split_and!; try done. apply Hcl; eauto.
Qed.

Lemma auth_run_key hmac float_repr `{EnforcementStateRepository RE} (ops : list (AuthOp RE)) s :
  authority_wf s -> ea_key (auth_run hmac float_repr ops s).1 = ea_key s.
Proof.
  revert s. induction ops as [|op ops IH]; intros s Hwf; [done|].
  pose proof (auth_step_effect hmac float_repr op s Hwf) as Heff.
  rewrite auth_run_cons. cbn [fst]. rewrite IH by apply Heff. apply Heff.
Qed.

(** What an issued grant names and what issuing it required. *)
Lemma issue_granted hmac float_repr `{EnforcementStateRepository RE} (enf : option RE)
  b d agent session epoch profile digest uuid now s s' g :
  issue hmac float_repr enf b d agent session epoch profile digest uuid now s = (s', Ok (Some g)) ->
  d = ALLOW /\ closed_planes agent s = ∅ /\ g_binding g = b /\ g_agent_id g = agent /\
  g_session_id g = session /\ g_capability_profile_id g = profile /\
  (forall e repo, epoch = Some e -> enf = Some repo ->
     exists st, enf_get_state agent repo = Ok st /\ epoch_of st = e) /\
  g_capability_digest g = digest /\
  dget (g_grant_id g) (ea_outstanding s') = Some (mkOutstanding (g_expires_at g) agent session) /\
  ea_closed s' = ea_closed s.
Proof.
  unfold issue, create_grant. cbv [mbind comp_bind mret comp_ret].
  case_bool_decide as Hd; simpl; [|done].
  destruct (issuance_suspended agent s) eqn:Hsus; simpl; [done|].
  assert (Hopen : closed_planes agent s = ∅).
  { destruct (decide (closed_planes agent s = ∅)) as [|Hne]; [done|].
    apply issuance_suspended_iff in Hne. congruence. }
  destruct epoch as [e|], enf as [repo|];
    [destruct (enf_get_state agent repo) as [st|] eqn:Hst; [|done];
     destruct (Z.eqb_spec (epoch_of st) e) as [He|]; simpl; [|done]|..];
    (destruct (_ && str_nonempty _) eqn:Hne; [|done]);
    intros [= <- <-]; simpl; rewrite dget_dset, decide_True by done; split_and!; try done;
    intros ? ? [= <-] [= <-]; eauto.
Qed.

Lemma issue_None hmac float_repr `{EnforcementStateRepository RE} (enf : option RE)
  b d agent session epoch profile digest uuid now s s' :
  issue hmac float_repr enf b d agent session epoch profile digest uuid now s = (s', Ok None) ->
  s' = s.
Proof.
  unfold issue, create_grant. cbv [mbind comp_bind mret comp_ret]. by repeat case_match; intros; simplify_eq.
Qed.

(** ** Properties *)

(** A claim succeeds exactly when the presented object is a grant of this authority
    whose signature verifies over all its fields, it has neither expired, been revoked nor
    been used, the identity it names is the one it was issued for, and the requested
    operation is exactly its binding; the claim then removes it. *)
Theorem claim_grant_iff hmac float_repr p requested now s :
  authority_wf s ->
  is_ok (claim_grant hmac float_repr p requested now s).2 = true <->
  exists g, p = AGrant g /\ g_authority_id g = ea_authority_id s /\
    sign hmac float_repr (ea_key s) (g_grant_id g) (g_authority_id g) (g_binding g)
      (g_issued_at g) (g_expires_at g) (g_agent_id g) (g_session_id g)
      (g_capability_profile_id g) (g_capability_digest g) = g_signature g /\
    claimable g requested now s /\
    dget (g_grant_id g) (ea_outstanding (claim_grant hmac float_repr p requested now s).1) = None.
Proof.
  intros Hwf. unfold claim_grant, verify_authenticity. destruct p as [| |g]; simpl.
  1, 2: split; [done|by intros (? & ? & _)].
  case_bool_decide as Ha; simpl; [|split; [done|naive_solver]].
  case_bool_decide as Hsig; simpl; [|split; [done|naive_solver]].
  pose proof (require_claimable_Ok g requested now s Hwf) as Hcl.
  destruct (require_claimable g requested now s) as [s' [[]|e]] eqn:Hr; simpl; split; try done.
  - intros _. exists g. split_and!; try done; [by apply Hcl; eauto|].
    rewrite dget_ddel. by case_decide.
  - intros (g' & [= <-] & _ & _ & Hc & _). apply Hcl in Hc as (? & ?). congruence.
Qed.

(** C7. Single use: over any history of calls that draws distinct identifiers for new
    grants, no grant identifier is claimed twice, and every claimed identifier was drawn by
    an issuing call of that history. *)
Theorem grant_claimed_at_most_once hmac float_repr `{EnforcementStateRepository RE}
  key authority_id ttl s (ops : list (AuthOp RE)) :
  new_authority key authority_id ttl = Ok s -> NoDup (omap drawn_id ops) ->
  NoDup (omap claimed_id (auth_run hmac float_repr ops s).2) /\
  forall gid, gid ∈ omap claimed_id (auth_run hmac float_repr ops s).2 ->
    gid ∈ omap drawn_id ops.
Proof.
  unfold new_authority. repeat case_match; intros; simplify_eq.
  match goal with |- context [auth_run _ _ ops ?s0] =>
    destruct (run_claims_fresh hmac float_repr ops s0) as [Hn Hi];
      [by split; apply dwf_nil|done|done|] end.
  split; [done|]. intros gid Hin. by apply Hi in Hin as [?|?].
Qed.

(** C8. Containment: once issuance is suspended for an agent on a plane, then until that
    plane is resumed no history of calls issues that agent a grant or lets any grant of that
    agent be claimed — grants issued before the suspension included. *)
Theorem suspension_contains_agent hmac float_repr `{EnforcementStateRepository RE}
  s a p (ops : list (AuthOp RE)) :
  authority_wf s -> OResume a p ∉ ops ->
  forall e, e ∈ (auth_run hmac float_repr ops (suspend_issuance a p s).1).2 ->
  event_agent e <> a.
Proof.
  intros Hwf Hno. destruct (suspend_spec a p s) as (Hc & Hw & Ho & _).
  apply (contained_run hmac float_repr ops _ a p); [by apply Hw| | |done].
  - rewrite Hc, decide_True by done. set_solver.
  - intros gid o. rewrite Ho by done. destruct (dget gid _) as [o'|]; [|done].
    case_bool_decide; [done|]. by intros [= <-].
Qed.

(** No forged or edited grant: with a collision-free keyed hash, a grant that is
    claimed and that carries a signature this authority put on an issued grant is that
    issued grant, field for field, and the operation claimed is the one it was issued for. *)
Theorem claimed_grant_is_the_issued_one hmac float_repr `{EnforcementStateRepository RE}
  s (ops : list (AuthOp RE)) g0 g requested now :
  collision_free hmac -> faithful_repr float_repr -> authority_wf s ->
  Issued g0 ∈ (auth_run hmac float_repr ops s).2 -> g_signature g = g_signature g0 ->
  is_ok (claim_grant hmac float_repr (AGrant g) requested now
           (auth_run hmac float_repr ops s).1).2 = true ->
  g = g0 /\ requested = g_binding g0.
Proof.
  intros Hcf Hfr Hwf Hin Hsig Hok.
  pose proof (auth_run_wf hmac float_repr ops s Hwf) as Hwf'.
  apply claim_Ok in Hok as (Haid & Hg & Hcl); [|done].
  pose proof Hsig as E10. apply issued_signed in Hin; [|done]. destruct Hcl as (_ & _ & _ & ->).
  rewrite <- Hg, (auth_run_key hmac float_repr ops s Hwf) in Hsig.
  rewrite Hin in Hsig. apply Hcf, sign_payload_inj in Hsig; [|done].
  destruct Hsig as (E1 & E2 & E3 & E4 & E5 & E6 & E7 & E8 & E9).
  apply canonical_json_inj in E3.
  assert (g = g0) as -> by (clear Hg Hin; destruct g, g0; simpl in *; congruence).
  done.
Qed.

(** C33. Bounded staleness: a grant claimed at time [t] was issued by an earlier call for
    the same agent and session, on an ALLOW decision and while issuance for that agent was
    open, strictly less than the authority's lifetime — at most thirty seconds — before. *)
Theorem claim_within_ttl hmac float_repr `{EnforcementStateRepository RE}
  key authority_id ttl s0 (ops : list (AuthOp RE)) g requested t :
  new_authority key authority_id ttl = Ok s0 ->
  is_ok (claim_grant hmac float_repr (AGrant g) requested t
           (auth_run hmac float_repr ops s0).1).2 = true ->
  exists before enf b epoch profile digest uuid issued after,
    ops = before ++ OIssue enf b ALLOW (g_agent_id g) (g_session_id g) epoch profile digest
                      uuid issued :: after /\
    g_grant_id g = "grant-" +:+ uuid /\
    issuance_suspended (g_agent_id g) (auth_run hmac float_repr before s0).1 = false /\
    t < issued + ttl /\ ttl <= MAX_GRANT_TTL.
Proof.
  unfold new_authority. destruct (Z.leb_spec ttl 0); [done|].
  destruct (Z.ltb_spec MAX_GRANT_TTL ttl); [done|]. intros [= <-]. set (s0 := mkAuthority _ _ _ _ _ _).
  assert (Hwf : authority_wf s0) by (split; apply dwf_nil). intros Hok.
  apply claim_Ok in Hok as (_ & _ & _ & _ & (e & Ho & He) & _); [|by apply auth_run_wf].
  apply outstanding_opened in Ho as [Ho|(before & op & after & -> & Hop)]; [done| |done].
  destruct Hop as (enf & b & agent & session & epoch & profile & digest & uuid & now & -> & Hid
    & [= -> -> ->] & Hopen).
  rewrite auth_run_ttl in He by done. simpl in He. eauto 20.
Qed.

(** A refused attempt never consumes a grant: whatever the refusal, every unexpired
    outstanding grant is still outstanding after it (the presented one included, as long as
    it states the expiry it was issued with). *)
Theorem refused_claim_preserves_grants hmac float_repr p requested now s s' e gid o :
  authority_wf s -> claim_grant hmac float_repr p requested now s = (s', Err e) ->
  dget gid (ea_outstanding s) = Some o -> now < og_expires_at o ->
  (forall g, p = AGrant g -> g_grant_id g = gid -> g_expires_at g = og_expires_at o) ->
  dget gid (ea_outstanding s') = Some o.
Proof.
  intros Hwf. unfold claim_grant. destruct (verify_authenticity _ _ p s) as [g|] eqn:Ha;
    [|by intros [= <- _]].
  assert (p = AGrant g) as ->.
  { unfold verify_authenticity in Ha. repeat case_match; congruence. }
  destruct (require_claimable_state g requested now s Hwf) as (_ & _ & _ & _ & _ & Hout).
  destruct (require_claimable g requested now s) as [s1 [[]|e1]]; [done|].
  intros [= -> _] Ho Hnow Hexp. cbn [fst] in Hout. rewrite Hout, prune_outstanding, Ho by done.
  destruct (Z.leb_spec (og_expires_at o) now); [lia|].
  case_bool_decide as Hg; [|done]. rewrite (Hexp g) by done.
  by destruct (Z.leb_spec (og_expires_at o) now); [lia|].
Qed.

(** Issuance: a grant is issued exactly when the decision is a final ALLOW, no plane has
    closed issuance for the agent, and — when an expected epoch is given and a repository is
    present — the repository can be read and the persisted epoch is still the expected one. *)
Theorem issue_iff hmac float_repr `{EnforcementStateRepository RE} (enf : option RE)
  b d agent session epoch profile digest uuid now s :
  (forall key m, str_nonempty (hmac key m) = true) ->
  str_nonempty (ea_authority_id s) = true -> str_nonempty agent = true ->
  str_nonempty session = true ->
  (exists s' g, issue hmac float_repr enf b d agent session epoch profile digest uuid now s
     = (s', Ok (Some g))) <->
  d = ALLOW /\ closed_planes agent s = ∅ /\
  (forall e repo, epoch = Some e -> enf = Some repo ->
     exists st, enf_get_state agent repo = Ok st /\ epoch_of st = e).
Proof.
  intros Hh Hi Ha Hs. unfold issue, create_grant, sign. cbv [mbind comp_bind mret comp_ret].
  cbn [ea_authority_id prune set_revoked set_outstanding]. rewrite Hi, Ha, Hs, Hh. simpl.
  case_bool_decide as Hd; simpl; [|split; [by intros (? & ? & ?)|naive_solver]].
  destruct (issuance_suspended agent s) eqn:Hsus; simpl.
  { apply issuance_suspended_iff in Hsus. split; [by intros (? & ? & ?)|naive_solver]. }
  assert (Hopen : closed_planes agent s = ∅).
  { destruct (decide (closed_planes agent s = ∅)) as [|Hne]; [done|].
    apply issuance_suspended_iff in Hne. congruence. }
  destruct epoch as [e|], enf as [repo|].
  2, 3, 4: split; [intros _; by split_and!; try (intros; discriminate)|by eauto].
  destruct (enf_get_state agent repo) as [st|] eqn:Hst.
  - destruct (Z.eqb_spec (epoch_of st) e); simpl.
    + split; [|by eauto]. intros _. split_and!; try done. intros ? ? [= <-] [= <-]. eauto.
    + split; [by intros (? & ? & ?)|]. intros (_ & _ & He).
      destruct (He e repo eq_refl eq_refl) as (st' & ? & ?). congruence.
  - split; [by intros (? & ? & ?)|]. intros (_ & _ & He).
    destruct (He e repo eq_refl eq_refl) as (st' & ? & ?). congruence.
Qed.

(** The two planes close issuance independently: after any history, a plane closes an
    agent exactly when the last call naming that agent and that plane was a suspension, and
    issuance is open exactly when neither plane closes it — so resuming one plane never
    reopens issuance while the other still forbids it. *)
Theorem issuance_gate_per_plane hmac float_repr `{EnforcementStateRepository RE}
  key authority_id ttl s (ops : list (AuthOp RE)) a :
  new_authority key authority_id ttl = Ok s ->
  (forall p, p ∈ closed_planes a (auth_run hmac float_repr ops s).1 <->
     gate_after a p ops = true) /\
  (issuance_suspended a (auth_run hmac float_repr ops s).1 = false <->
     gate_after a ADMINISTRATIVE ops = false /\ gate_after a ENFORCEMENT ops = false).
Proof.
  unfold new_authority. repeat case_match; intros; simplify_eq.
  match goal with |- context [auth_run _ _ ops ?s0] => set (s := s0) end.
  assert (Hg : forall p, p ∈ closed_planes a (auth_run hmac float_repr ops s).1 <->
    gate_after a p ops = true) by (intros p; by apply auth_run_closed).
  split; [done|]. rewrite <- !not_true_iff_false, issuance_suspended_iff, <- !Hg. split.
  - intros Hne. apply dec_stable in Hne. rewrite Hne. set_solver.
  - intros [HA HE] Hne. apply set_choose_L in Hne as ([] & ?); done.
Qed.

(** ** Witnesses

    A concrete keyed hash and float text that satisfy the hypotheses, one authority, and a
    history in which a grant is issued and claimed. *)

Definition sample_hmac (key message : string) : string := "h:" +:+ key +:+ message.
Fixpoint unary (n : nat) : string :=
  match n with O => EmptyString | S n => String "1"%char (unary n) end.
Definition sample_repr (t : Z) : string :=
  if t <? 0 then String "-"%char (unary (Z.to_nat (- t))) else unary (Z.to_nat t).

Lemma unary_inj m n : unary m = unary n -> m = n.
Proof.
  revert n. induction m as [|m IH]; intros [|n] H; try done. injection H as H. f_equal. auto.
Qed.

Lemma unary_no_comma n : str_contains "," (unary n) = false.
Proof. induction n as [|n IH]; [done|]. cbn [unary str_contains]. by rewrite IH. Qed.

Lemma sample_hmac_collision_free : collision_free sample_hmac.
Proof. intros key m1 m2 H. unfold sample_hmac in H. by do 2 apply append_inj_l in H. Qed.

Lemma sample_repr_faithful : faithful_repr sample_repr.
Proof.
  split.
  - intros x y. unfold sample_repr. destruct (Z.ltb_spec x 0), (Z.ltb_spec y 0); intros Heq.
    + injection Heq as Heq. apply unary_inj in Heq. lia.
    + by destruct (Z.to_nat y).
    + by destruct (Z.to_nat x).
    + apply unary_inj in Heq. lia.
  - intros x. unfold sample_repr. destruct (x <? 0); [|apply unary_no_comma].
    cbn [str_contains]. by rewrite unary_no_comma.
Qed.

Definition sample_binding : ExecutionBinding :=
  mkBinding "fs" "1.0" (Some "a.txt"%string) [("path", "a.txt")]%string.
Definition sample_authority : ExecutionAuthority := mkAuthority "k" "auth" 30 [] [] [].
Definition sample_op : AuthOp InMemoryEnforcementStateRepository :=
  OIssue (Some empty_enf_repo) sample_binding ALLOW "a" "s" (Some 0) None (Some "d"%string) "u1" 5.
Definition sample_grant : RuntimeExecutionGrant :=
  mkGrant "grant-u1" "auth" "a" "s" sample_binding 5 35
    (sign sample_hmac sample_repr "k" "grant-u1" "auth" sample_binding 5 35 "a" "s" None
       (Some "d"%string)) None (Some "d"%string).
Definition sample_issued : ExecutionAuthority :=
  (auth_run sample_hmac sample_repr [sample_op] sample_authority).1.

Lemma sample_authority_wf : authority_wf sample_authority.
Proof. split; apply dwf_nil. Qed.

Lemma sample_issued_wf : authority_wf sample_issued.
Proof. apply auth_run_wf, sample_authority_wf. Qed.

Lemma claim_grant_iff_witness :
  exists g, AGrant sample_grant = AGrant g /\ claimable g sample_binding 20 sample_issued.
Proof.
  destruct (proj1 (claim_grant_iff sample_hmac sample_repr (AGrant sample_grant) sample_binding
    20 sample_issued sample_issued_wf) ltac:(vm_compute; reflexivity)) as (g & Hg & _ & _ & Hc & _).
  exists g. split; [exact Hg|exact Hc].
Defined.

Lemma grant_claimed_at_most_once_witness :
  let ops := [sample_op; OClaim (AGrant sample_grant) sample_binding 20;
              OClaim (AGrant sample_grant) sample_binding 21] in
  omap claimed_id (auth_run sample_hmac sample_repr ops sample_authority).2 = ["grant-u1"%string]
  /\ NoDup (omap claimed_id (auth_run sample_hmac sample_repr ops sample_authority).2).
Proof.
  split; [vm_compute; reflexivity|].
  apply (grant_claimed_at_most_once sample_hmac sample_repr "k" "auth" 30 sample_authority
    [sample_op; OClaim (AGrant sample_grant) sample_binding 20;
     OClaim (AGrant sample_grant) sample_binding 21] eq_refl).
  vm_compute. constructor; [apply not_elem_of_nil|constructor].
Defined.

Lemma suspension_contains_agent_witness :
  let ops := [OClaim (AGrant sample_grant) sample_binding 20; OResume "a" ADMINISTRATIVE;
              sample_op] in
  issuance_suspended "a" (suspend_issuance "a" ENFORCEMENT sample_issued).1 = true /\
  forall e, e ∈ (auth_run sample_hmac sample_repr ops
                   (suspend_issuance "a" ENFORCEMENT sample_issued).1).2 ->
  event_agent e <> "a"%string.
Proof.
  split; [vm_compute; reflexivity|].
  apply (suspension_contains_agent sample_hmac sample_repr sample_issued "a" ENFORCEMENT
    [OClaim (AGrant sample_grant) sample_binding 20; OResume "a" ADMINISTRATIVE; sample_op]
    sample_issued_wf).
  rewrite !not_elem_of_cons. split_and!; [discriminate..|apply not_elem_of_nil].
Defined.

Lemma claimed_grant_is_the_issued_one_witness :
  sample_grant = sample_grant /\ sample_binding = g_binding sample_grant.
Proof.
  apply (claimed_grant_is_the_issued_one sample_hmac sample_repr sample_authority [sample_op]
    sample_grant sample_grant sample_binding 20 sample_hmac_collision_free sample_repr_faithful
    sample_authority_wf).
  - vm_compute. left.
  - reflexivity.
  - vm_compute. reflexivity.
Defined.

Lemma claim_within_ttl_witness :
  exists before enf b epoch profile digest uuid issued after,
    [sample_op] = before ++ OIssue enf b ALLOW "a" "s" epoch profile digest uuid issued :: after /\
    "grant-u1" = "grant-" +:+ uuid /\
    issuance_suspended "a" (auth_run sample_hmac sample_repr before sample_authority).1 = false /\
    20 < issued + 30 /\ 30 <= MAX_GRANT_TTL.
Proof.
  apply (claim_within_ttl sample_hmac sample_repr "k" "auth" 30 sample_authority [sample_op]
    sample_grant sample_binding 20 eq_refl).
  vm_compute. reflexivity.
Defined.

Lemma refused_claim_preserves_grants_witness :
  exists s', claim_grant sample_hmac sample_repr (AGrant sample_grant)
    (mkBinding "fs" "1.0" (Some "b.txt"%string) [("path", "b.txt")]%string) 20 sample_issued
    = (s', Err (ExecutionBindingError RESOURCE_MISMATCH)) /\
  dget "grant-u1"%string (ea_outstanding s') = Some (mkOutstanding 35 "a" "s").
Proof.
  eexists. split; [vm_compute; reflexivity|].
  apply (refused_claim_preserves_grants sample_hmac sample_repr (AGrant sample_grant)
    (mkBinding "fs" "1.0" (Some "b.txt"%string) [("path", "b.txt")]%string) 20 sample_issued _
    (ExecutionBindingError RESOURCE_MISMATCH) "grant-u1" (mkOutstanding 35 "a" "s")
    sample_issued_wf); [vm_compute; reflexivity|vm_compute; reflexivity|reflexivity|].
  intros g [= <-] _. reflexivity.
Defined.

Lemma issue_iff_witness :
  exists s' g, issue sample_hmac sample_repr (Some empty_enf_repo) sample_binding ALLOW "a" "s"
    (Some 0) None None "u1" 5 sample_authority = (s', Ok (Some g)).
Proof.
  apply (issue_iff sample_hmac sample_repr (Some empty_enf_repo) sample_binding ALLOW "a" "s"
    (Some 0) None None "u1" 5 sample_authority (fun _ _ => eq_refl) eq_refl eq_refl eq_refl).
  split; [reflexivity|]. split; [reflexivity|].
  intros e repo [= <-] [= <-]. exists None. split; reflexivity.
Defined.

Lemma issuance_gate_per_plane_witness :
  let ops : list (AuthOp InMemoryEnforcementStateRepository) :=
    [OSuspend "a" ADMINISTRATIVE; OSuspend "a" ENFORCEMENT; OResume "a" ENFORCEMENT] in
  (forall p, p ∈ closed_planes "a" (auth_run sample_hmac sample_repr ops sample_authority).1 <->
     gate_after "a" p ops = true) /\ gate_after "a" ADMINISTRATIVE ops = true.
Proof.
  split; [|reflexivity].
  apply (issuance_gate_per_plane sample_hmac sample_repr "k" "auth" 30 sample_authority
    [OSuspend "a" ADMINISTRATIVE; OSuspend "a" ENFORCEMENT; OResume "a" ENFORCEMENT] "a").
  reflexivity.
Defined.
