(* ===== verification/Evidence.v ===== *)
(** * Execution evidence and reconciliation

    [models/execution_receipt.py], [services/execution_evidence_service.py] and
    [services/execution_reconciler.py]: the store of execution receipts with its grant
    index, its timing map and its bounded retention, and the reconciler that resolves
    executions whose outcome was never reported. *)

From S2P Require Import Prelude PyDict.
Local Open Scope Z_scope.

(** ** Data *)

Inductive ExecutionStatus := STARTED | SUCCEEDED | FAILED | TIMEOUT | INTERRUPTED | UNKNOWN.
Inductive ReconciliationReason :=
| PROCESS_RESTART | EXECUTION_TIMEOUT | WORKER_LOST | EVIDENCE_UNAVAILABLE.

#[global] Instance ExecutionStatus_eq_dec : EqDecision ExecutionStatus.
Proof. solve_decision. Defined.
#[global] Instance ReconciliationReason_eq_dec : EqDecision ReconciliationReason.
Proof. solve_decision. Defined.

(** What an execution is known to be from its start: the fields [record_terminal] and
    [record_reconciled] copy unchanged. *)
Record ReceiptIdentity := mkIdentity {
  ri_receipt_id : string;
  ri_grant_id : string;
  ri_session_id : string;
  ri_agent_id : string;
  ri_request_id : string;
  ri_tool_id : string;
  ri_tool_version : string;
  ri_implementation_id : string;
  ri_binding_hash : string;
  ri_capability_profile_id : string;
  ri_capability_digest : string;
  ri_declared_timeout : Z;
  ri_started_at : Z;
}.

Record ExecutionReceipt := mkReceipt {
  rc_identity : ReceiptIdentity;
  rc_status : ExecutionStatus;
  rc_completed_at : option Z;
  rc_reconciled_at : option Z;
  rc_duration_ms : option Z;
  rc_error_type : option string;
  rc_error_code : option string;
  rc_reconciliation_reason : option ReconciliationReason;
  rc_output_digest : option string;
}.

#[global] Instance ReceiptIdentity_eq_dec : EqDecision ReceiptIdentity.
Proof. solve_decision. Defined.
#[global] Instance ExecutionReceipt_eq_dec : EqDecision ExecutionReceipt.
Proof. solve_decision. Defined.

Definition rc_receipt_id (r : ExecutionReceipt) : string := ri_receipt_id (rc_identity r).
Definition rc_grant_id (r : ExecutionReceipt) : string := ri_grant_id (rc_identity r).
Definition rc_started_at (r : ExecutionReceipt) : Z := ri_started_at (rc_identity r).

Definition is_open (r : ExecutionReceipt) : bool := bool_decide (rc_status r = STARTED).
Definition is_terminal (r : ExecutionReceipt) : bool := negb (is_open r).

(** The field constraints of the model: non-empty identifiers, a positive timeout and a
    duration that is not negative. *)
Definition receipt_fields_valid (i : ReceiptIdentity) (duration : option Z) : bool :=
  forallb str_nonempty
    [ri_receipt_id i; ri_grant_id i; ri_session_id i; ri_agent_id i; ri_request_id i;
     ri_tool_id i; ri_tool_version i; ri_implementation_id i; ri_binding_hash i;
     ri_capability_profile_id i; ri_capability_digest i]
  && (0 <? ri_declared_timeout i)
  && match duration with Some d => 0 <=? d | None => true end.

Definition ALLOWED_TERMINAL_STATUSES : list ExecutionStatus :=
  [SUCCEEDED; FAILED; TIMEOUT; INTERRUPTED].

(** ** The store *)

Record ExecutionEvidenceService := mkEvidence {
  ev_evidence_failures : Z;
  ev_reconciled_unknown : Z;
  ev_max_terminal : Z;
  ev_receipts : pydict string ExecutionReceipt;
  ev_grants : pydict string string;
  ev_starts : pydict string Z;
}.

(** The retention policy admits only a bound of at least one. *)
Definition new_evidence_service (max_terminal_receipts : Z) : result ExecutionEvidenceService :=
  if 1 <=? max_terminal_receipts
  then Ok (mkEvidence 0 0 max_terminal_receipts [] [] [])
  else Err ValueError.

Definition open_receipt_count (s : ExecutionEvidenceService) : Z :=
  count is_open (dvalues (ev_receipts s)).
Definition terminal_receipt_count (s : ExecutionEvidenceService) : Z :=
  count is_terminal (dvalues (ev_receipts s)).

Definition get_receipt (rid : string) (s : ExecutionEvidenceService) : option ExecutionReceipt :=
  dget rid (ev_receipts s).
Definition get_by_grant (gid : string) (s : ExecutionEvidenceService) : option ExecutionReceipt :=
  rid ← dget gid (ev_grants s); dget rid (ev_receipts s).
Definition get_monotonic_start (rid : string) (s : ExecutionEvidenceService) : option Z :=
  dget rid (ev_starts s).
Definition list_open (s : ExecutionEvidenceService) : list ExecutionReceipt :=
  List.filter is_open (dvalues (ev_receipts s)).
Definition list_receipts (session agent : option string) (s : ExecutionEvidenceService)
  : list ExecutionReceipt :=
  let results := dvalues (ev_receipts s) in
  let results := match session with
                 | Some x => List.filter (fun r => bool_decide (ri_session_id (rc_identity r) = x)) results
                 | None => results end in
  match agent with
  | Some x => List.filter (fun r => bool_decide (ri_agent_id (rc_identity r) = x)) results
  | None => results end.

(** Drop one receipt from every structure keyed by it. *)
Definition evict (r : ExecutionReceipt) (s : ExecutionEvidenceService)
  : ExecutionEvidenceService :=
  mkEvidence (ev_evidence_failures s) (ev_reconciled_unknown s) (ev_max_terminal s)
    (ddel (rc_receipt_id r) (ev_receipts s)) (ddel (rc_grant_id r) (ev_grants s))
    (ddel (rc_receipt_id r) (ev_starts s)).

Definition started_leb (r1 r2 : ExecutionReceipt) : bool :=
  rc_started_at r1 <=? rc_started_at r2.

(** [_prune_terminal_locked] *)
Definition prune_terminal (s : ExecutionEvidenceService) : ExecutionEvidenceService :=
  let terminal := List.filter is_terminal (dvalues (ev_receipts s)) in
  let excess := Z.of_nat (length terminal) - ev_max_terminal s in
  if excess <=? 0 then s
  else fold_left (fun s r => evict r s)
         (take (Z.to_nat excess) (sort_by started_leb terminal)) s.

Definition count_failure (s : ExecutionEvidenceService) : ExecutionEvidenceService :=
  mkEvidence (ev_evidence_failures s + 1) (ev_reconciled_unknown s) (ev_max_terminal s)
    (ev_receipts s) (ev_grants s) (ev_starts s).

Definition record_started (i : ReceiptIdentity) (monotonic_start : option Z)
  : Comp ExecutionEvidenceService ExecutionReceipt := fun s =>
  if dhas (ri_receipt_id i) (ev_receipts s)
  then (count_failure s, Err ExecutionReceiptDuplicateError)
  else if dhas (ri_grant_id i) (ev_grants s)
  then (count_failure s, Err ExecutionReceiptDuplicateError)
  else if negb (receipt_fields_valid i None) then (s, Err ValueError)
  else
    let receipt := mkReceipt i STARTED None None None None None None None in
    (mkEvidence (ev_evidence_failures s) (ev_reconciled_unknown s) (ev_max_terminal s)
       (dset (ri_receipt_id i) receipt (ev_receipts s))
       (dset (ri_grant_id i) (ri_receipt_id i) (ev_grants s))
       (match monotonic_start with
        | Some t => dset (ri_receipt_id i) t (ev_starts s)
        | None => ev_starts s end), Ok receipt).

(** Replace an open receipt by a resolved one and apply retention. *)
Definition resolve_receipt (rid : string) (r : ExecutionReceipt) (reconciled : Z)
  (s : ExecutionEvidenceService) : ExecutionEvidenceService :=
  prune_terminal
    (mkEvidence (ev_evidence_failures s) (ev_reconciled_unknown s + reconciled)
       (ev_max_terminal s) (dset rid r (ev_receipts s)) (ev_grants s) (ddel rid (ev_starts s))).

Definition record_terminal (rid : string) (status : ExecutionStatus)
  (completed_at duration_ms : Z) (error_type error_code output_digest : option string)
  : Comp ExecutionEvidenceService ExecutionReceipt := fun s =>
  if negb (bool_decide (status ∈ ALLOWED_TERMINAL_STATUSES))
  then (s, Err ExecutionReceiptTransitionError)
  else match dget rid (ev_receipts s) with
  | None => (s, Err ExecutionReceiptNotFoundError)
  | Some existing =>
      if negb (is_open existing) then (s, Err ExecutionReceiptTransitionError)
      else if negb (receipt_fields_valid (rc_identity existing) (Some duration_ms))
      then (s, Err ValueError)
      else
        let terminal := mkReceipt (rc_identity existing) status (Some completed_at) None
                          (Some duration_ms) error_type error_code None output_digest in
        (resolve_receipt rid terminal 0 s, Ok terminal)
  end.

Definition record_reconciled (rid : string) (reconciled_at : Z) (reason : ReconciliationReason)
  : Comp ExecutionEvidenceService ExecutionReceipt := fun s =>
  match dget rid (ev_receipts s) with
  | None => (s, Err ExecutionReceiptNotFoundError)
  | Some existing =>
      if negb (is_open existing) then (s, Err ExecutionReceiptTransitionError)
      else if negb (receipt_fields_valid (rc_identity existing) None) then (s, Err ValueError)
      else
        let reconciled := mkReceipt (rc_identity existing) UNKNOWN None (Some reconciled_at)
                            None None None (Some reason) None in
        (resolve_receipt rid reconciled 1 s, Ok reconciled)
  end.

(** ** Reconciler *)

(** [_reconcile_one]: a failed transition is isolated to its receipt. *)
Definition reconcile_one (r : ExecutionReceipt) (now_utc : Z) (reason : ReconciliationReason)
  : ExecutionEvidenceService -> ExecutionEvidenceService * option ExecutionReceipt := fun s =>
  match record_reconciled (rc_receipt_id r) now_utc reason s with
  | (s', Ok rec) => (s', Some rec)
  | (s', Err _) => (s', None)
  end.

(** The reason an open receipt is due for reconciliation at a monotonic time, if any. *)
Definition due_reason (grace now : Z) (start : option Z) (r : ExecutionReceipt)
  : option ReconciliationReason :=
  match start with
  | None => Some EVIDENCE_UNAVAILABLE
  | Some t =>
      let execution_deadline := t + ri_declared_timeout (rc_identity r) in
      let reconciliation_deadline := execution_deadline + grace in
      if reconciliation_deadline <=? now then Some EXECUTION_TIMEOUT else None
  end.

Fixpoint reconcile_loop (reason_of : ExecutionReceipt -> ExecutionEvidenceService ->
    option ReconciliationReason) (now_utc : Z) (receipts : list ExecutionReceipt)
  (s : ExecutionEvidenceService) : ExecutionEvidenceService * list ExecutionReceipt :=
  match receipts with
  | [] => (s, [])
  | r :: rest =>
      match reason_of r s with
      | None => reconcile_loop reason_of now_utc rest s
      | Some reason =>
          let '(s1, rec) := reconcile_one r now_utc reason s in
          let '(s2, recs) := reconcile_loop reason_of now_utc rest s1 in
          (s2, match rec with Some x => x :: recs | None => recs end)
      end
  end.

Definition reconcile_on_startup (now_utc : Z) (s : ExecutionEvidenceService) :=
  reconcile_loop (fun _ _ => Some PROCESS_RESTART) now_utc (list_open s) s.

Definition reconcile_unresolved (grace now_utc monotonic_now : Z)
  (s : ExecutionEvidenceService) :=
  reconcile_loop
    (fun r s => due_reason grace monotonic_now (get_monotonic_start (rc_receipt_id r) s) r)
    now_utc (list_open s) s.

(** ** Invariant *)

Record ev_indexed (s : ExecutionEvidenceService) : Prop := mkIndexed {
  ix_receipts : dwf (ev_receipts s);
  ix_grants : dwf (ev_grants s);
  ix_keyed : forall rid r, dget rid (ev_receipts s) = Some r ->
    rc_receipt_id r = rid /\ dget (rc_grant_id r) (ev_grants s) = Some rid;
  ix_granted : forall gid rid, dget gid (ev_grants s) = Some rid ->
    exists r, dget rid (ev_receipts s) = Some r /\ rc_grant_id r = gid;
  ix_starts : forall rid t, dget rid (ev_starts s) = Some t ->
    exists r, dget rid (ev_receipts s) = Some r /\ is_open r = true;
  ix_valid : forall rid r, dget rid (ev_receipts s) = Some r ->
    receipt_fields_valid (rc_identity r) None = true;
}.

(** The indexes agree and retention holds. *)
Record ev_inv (s : ExecutionEvidenceService) : Prop := mkEvInv {
  inv_indexed : ev_indexed s;
  inv_bound : terminal_receipt_count s <= ev_max_terminal s;
}.

(** [s'] keeps of [s] every receipt it does not evict, and evicts no open one. *)
Record ev_sub (s s' : ExecutionEvidenceService) : Prop := mkSub {
  sub_receipts : forall rid r, dget rid (ev_receipts s') = Some r ->
    dget rid (ev_receipts s) = Some r;
  sub_open : forall rid r, dget rid (ev_receipts s) = Some r -> is_open r = true ->
    dget rid (ev_receipts s') = Some r /\ dget rid (ev_starts s') = dget rid (ev_starts s);
  sub_max : ev_max_terminal s' = ev_max_terminal s;
  sub_failures : ev_evidence_failures s' = ev_evidence_failures s;
  sub_unknown : ev_reconciled_unknown s' = ev_reconciled_unknown s;
}.

Lemma ev_sub_refl s : ev_sub s s.
Proof. by split. Qed.

Lemma ev_sub_trans s1 s2 s3 : ev_sub s1 s2 -> ev_sub s2 s3 -> ev_sub s1 s3.
Proof.
  intros [A1 A2 A3 A4 A5] [B1 B2 B3 B4 B5]. split; [eauto| |congruence..].
  intros rid r Hr Ho. destruct (A2 rid r Hr Ho) as [H1 H2], (B2 rid r H1 Ho) as [H3 H4].
  split; [done|congruence].
Qed.

Lemma evict_spec r s :
  ev_indexed s -> dget (rc_receipt_id r) (ev_receipts s) = Some r -> is_terminal r = true ->
  ev_indexed (evict r s) /\ ev_sub s (evict r s) /\
  terminal_receipt_count (evict r s) = terminal_receipt_count s - 1 /\
  (forall rid, rid <> rc_receipt_id r ->
     dget rid (ev_receipts (evict r s)) = dget rid (ev_receipts s)).
Proof.
  intros [H1 H2 H3 H4 H5 H6] Hr Ht.
  assert (Hsub : forall rid r', dget rid (ddel (rc_receipt_id r) (ev_receipts s)) = Some r' ->
    rid <> rc_receipt_id r /\ dget rid (ev_receipts s) = Some r').
  { intros rid r'. rewrite dget_ddel. by case_decide. }
  split_and!.
  - split; simpl.
    + by apply ddel_wf.
    + by apply ddel_wf.
    + intros rid r' [Hne Hr']%Hsub. destruct (H3 rid r' Hr') as [Hid Hg]. split; [done|].
      rewrite dget_ddel, decide_False; [done|]. intros Heq. apply H3 in Hr as [_ Hg'].
      rewrite <- Heq, Hg in Hg'. by injection Hg'.
    + intros gid rid. rewrite dget_ddel. case_decide as Hd; [done|]. intros Hg.
      destruct (H4 gid rid Hg) as (r' & Hr' & Hgid). exists r'. split; [|done].
      rewrite dget_ddel, decide_False; [done|]. intros ->. congruence.
    + intros rid t. rewrite dget_ddel. case_decide as Hd; [done|]. intros Hs.
      destruct (H5 rid t Hs) as (r' & Hr' & Ho). exists r'. split; [|done].
      by rewrite dget_ddel, decide_False.
    + intros rid r' [_ Hr']%Hsub. eauto.
  - split; simpl; try done; [by intros rid r' [_ ?]%Hsub|].
    intros rid r' Hr' Ho. rewrite !dget_ddel. case_decide as Hd; [|done]. subst rid.
    rewrite Hr in Hr'. simplify_eq. unfold is_terminal in Ht. by rewrite Ho in Ht.
  - unfold terminal_receipt_count; simpl. rewrite count_ddel, Hr, Ht by done. lia.
  - intros rid Hne. simpl. by rewrite dget_ddel, decide_False.
Qed.

Lemma evict_all l s :
  ev_indexed s -> NoDup (rc_receipt_id <$> l) ->
  (forall r, r ∈ l -> dget (rc_receipt_id r) (ev_receipts s) = Some r /\ is_terminal r = true) ->
  let s' := fold_left (fun s r => evict r s) l s in
  ev_indexed s' /\ ev_sub s s' /\
  terminal_receipt_count s' = terminal_receipt_count s - Z.of_nat (length l).
Proof.
  revert s. induction l as [|r l IH]; intros s Hix Hnd Hall; csimpl.
  - split_and!; [done|apply ev_sub_refl|lia].
  - csimpl in Hnd. apply NoDup_cons in Hnd as [Hn Hnd].
    destruct (Hall r) as [Hr Ht]; [by left|].
    destruct (evict_spec r s Hix Hr Ht) as (Hix' & Hsub & Hc & Hother).
    destruct (IH (evict r s) Hix' Hnd) as (I1 & I2 & I3).
    + intros r' Hin. destruct (Hall r') as [Hr' Ht']; [by right|]. split; [|done].
      rewrite Hother; [done|]. intros Heq. apply Hn. rewrite <- Heq.
      by apply list_elem_of_fmap_2.
    + split_and!; [done|by eapply ev_sub_trans|]. rewrite I3, Hc. lia.
Qed.

Lemma dvalues_ids s :
  ev_indexed s -> rc_receipt_id <$> dvalues (ev_receipts s) = dkeys (ev_receipts s).
Proof.
  intros [Hwf _ Hk _ _ _]. unfold dvalues, dkeys. rewrite <- list_fmap_compose.
  apply list_fmap_ext. intros i [rid r] Hi. simpl.
  apply list_elem_of_lookup_2 in Hi. apply elem_dget in Hi; [|done]. by apply Hk in Hi as [? _].
Qed.

Lemma victims_spec s n :
  ev_indexed s ->
  let l := take n (sort_by started_leb (List.filter is_terminal (dvalues (ev_receipts s)))) in
  NoDup (rc_receipt_id <$> l) /\
  forall r, r ∈ l -> dget (rc_receipt_id r) (ev_receipts s) = Some r /\ is_terminal r = true.
Proof.
  intros Hix l. split.
  - unfold l. eapply sublist_NoDup; [|apply fmap_sublist, sublist_take].
    assert (Hp : forall l1 l2, l1 ≡ₚ l2 -> NoDup (rc_receipt_id <$> l1) -> NoDup (rc_receipt_id <$> l2)).
    { intros l1 l2 Hp. by rewrite Hp. }
    eapply Hp; [symmetry; apply sort_by_perm|].
    assert (Hf : List.filter is_terminal (dvalues (ev_receipts s)) `sublist_of` dvalues (ev_receipts s)).
    { induction (dvalues (ev_receipts s)) as [|x l' IH]; simpl; [constructor|].
      destruct (is_terminal x); by constructor. }
    eapply sublist_NoDup; [|apply fmap_sublist, Hf]. rewrite dvalues_ids by done. apply Hix.
  - intros r Hin. unfold l in Hin. apply (subseteq_take n) in Hin. apply sort_by_elem in Hin.
    apply filter_elem in Hin as [Hin Ht]. split; [|done].
    apply values_dget in Hin as [rid Hr]; [|apply Hix]. pose proof (ix_keyed _ Hix _ _ Hr) as [<- _].
    done.
Qed.

Lemma prune_terminal_spec s :
  ev_indexed s -> 0 <= ev_max_terminal s ->
  ev_inv (prune_terminal s) /\ ev_sub s (prune_terminal s).
Proof.
  intros Hix Hmax. unfold prune_terminal. cbv zeta.
  change (Z.of_nat (length (List.filter is_terminal (dvalues (ev_receipts s)))))
    with (terminal_receipt_count s).
  destruct (Z.leb_spec (terminal_receipt_count s - ev_max_terminal s) 0).
  { split; [split; [done|lia]|apply ev_sub_refl]. }
  set (n := Z.to_nat (terminal_receipt_count s - ev_max_terminal s)).
  destruct (victims_spec s n Hix) as [Hnd Hall].
  destruct (evict_all _ s Hix Hnd Hall) as (I1 & I2 & I3). split; [|done]. split; [done|].
  rewrite I3, (sub_max _ _ I2), length_take, (sort_by_perm _ _).
  assert (Z.of_nat (length (List.filter is_terminal (dvalues (ev_receipts s)))) =
    terminal_receipt_count s) by done. lia.
Qed.

Lemma resolve_receipt_spec rid old r k s :
  ev_inv s -> dget rid (ev_receipts s) = Some old -> is_open old = true ->
  rc_identity r = rc_identity old -> is_terminal r = true ->
  let s' := resolve_receipt rid r k s in
  ev_inv s' /\ ev_max_terminal s' = ev_max_terminal s /\
  (forall rid' r', dget rid' (ev_receipts s') = Some r' ->
     rid' = rid /\ r' = r \/ rid' <> rid /\ dget rid' (ev_receipts s) = Some r') /\
  (forall rid' r', rid' <> rid -> dget rid' (ev_receipts s) = Some r' -> is_open r' = true ->
     dget rid' (ev_receipts s') = Some r' /\ dget rid' (ev_starts s') = dget rid' (ev_starts s)).
Proof.
  intros [[H1 H2 H3 H4 H5 H6] Hb] Hold Ho Hi Ht.
  set (s1 := mkEvidence (ev_evidence_failures s) (ev_reconciled_unknown s + k)
    (ev_max_terminal s) (dset rid r (ev_receipts s)) (ev_grants s) (ddel rid (ev_starts s))).
  pose proof (H3 rid old Hold) as [Hrid Hgid].
  assert (Hix : ev_indexed s1).
  { split; simpl; try done.
    - by apply dset_wf.
    - intros rid' r'. rewrite dget_dset. case_decide; [|apply H3]. subst. intros [= <-].
      unfold rc_receipt_id, rc_grant_id in *. by rewrite Hi.
    - intros gid rid' Hg. destruct (H4 gid rid' Hg) as (r' & Hr' & Hgr). rewrite dget_dset.
      case_decide; [|by exists r']. subst rid'. exists r. split; [done|].
      simplify_eq. unfold rc_grant_id. by rewrite Hi.
    - intros rid' t. rewrite dget_ddel. case_decide; [done|]. intros Hs.
      destruct (H5 rid' t Hs) as (r' & ? & ?). exists r'. by rewrite dget_dset_ne.
    - intros rid' r'. rewrite dget_dset. case_decide; [|apply H6]. intros [= <-].
      rewrite Hi. by eapply H6. }
  destruct (prune_terminal_spec s1 Hix) as [Hinv [S1 S2 S3 _ _]].
  { pose proof (count_nonneg is_terminal (dvalues (ev_receipts s))).
    unfold terminal_receipt_count in Hb. simpl. lia. }
  cbv zeta. change (resolve_receipt rid r k s) with (prune_terminal s1). split_and!; try done.
  - intros rid' r' Hr'. apply S1 in Hr'. simpl in Hr'. rewrite dget_dset in Hr'.
    case_decide; [left; split; congruence|by right].
  - intros rid' r' Hne Hr' Hop. destruct (S2 rid' r') as [G1 G2]; [|done|].
    + simpl. by rewrite dget_dset_ne.
    + split; [done|]. rewrite G2. simpl. by rewrite dget_ddel, decide_False.
Qed.

Lemma record_started_spec i mono s :
  ev_inv s ->
  let s' := (record_started i mono s).1 in
  ev_inv s' /\ ev_max_terminal s' = ev_max_terminal s /\
  (forall rid r, dget rid (ev_receipts s) = Some r ->
     dget rid (ev_receipts s') = Some r /\
     (is_open r = true -> dget rid (ev_starts s') = dget rid (ev_starts s))) /\
  (forall rid r, dget rid (ev_receipts s') = Some r -> dget rid (ev_receipts s) = None ->
     rid = ri_receipt_id i).
Proof.
  intros Hinv. unfold record_started.
  destruct (dhas (ri_receipt_id i) (ev_receipts s)) eqn:Hr.
  { split_and!; try done; [by destruct Hinv as [[] ?]|]. simpl. congruence. }
  destruct (dhas (ri_grant_id i) (ev_grants s)) eqn:Hg.
  { split_and!; try done; [by destruct Hinv as [[] ?]|]. simpl. congruence. }
  destruct (receipt_fields_valid i None) eqn:Hv; simpl.
  2: { split_and!; try done. congruence. }
  apply dhas_false in Hr, Hg. destruct Hinv as [[H1 H2 H3 H4 H5 H6] Hb].
  assert (Hstart : forall rid t, dget rid (match mono with
    | Some t => dset (ri_receipt_id i) t (ev_starts s) | None => ev_starts s end) = Some t ->
    rid = ri_receipt_id i \/ dget rid (ev_starts s) = Some t).
  { intros rid t. destruct mono; [|auto]. rewrite dget_dset. case_decide; auto. }
  split_and!.
  - split; [split; simpl|].
    + by apply dset_wf.
    + by apply dset_wf.
    + intros rid r. rewrite dget_dset. case_decide as Hd.
      * intros [= <-]. subst rid. split; [done|]. apply dget_dset_eq.
      * intros Hr'. destruct (H3 rid r Hr') as [? Hgr]. split; [done|].
        rewrite dget_dset_ne; [done|]. intros Heq. congruence.
    + intros gid rid. rewrite dget_dset. case_decide as Hd.
      * intros [= <-]. subst gid. eexists. by rewrite dget_dset_eq.
      * intros Hg'. destruct (H4 gid rid Hg') as (r & Hr' & Hgr). exists r.
        rewrite dget_dset_ne; [done|]. intros ->. congruence.
    + intros rid t [->|Hs]%Hstart; [eexists; by rewrite dget_dset_eq|].
      destruct (H5 rid t Hs) as (r & Hr' & Ho). exists r.
      rewrite dget_dset_ne; [done|]. intros ->. congruence.
    + intros rid r. rewrite dget_dset. case_decide; [by intros [= <-]|apply H6].
    + unfold terminal_receipt_count in *; simpl. rewrite count_dset, Hr by done. simpl. lia.
  - done.
  - intros rid r Hr'. assert (rid <> ri_receipt_id i) by congruence. simpl.
    rewrite dget_dset_ne by done. split; [done|]. intros _.
    destruct mono; [by rewrite dget_dset_ne|done].
  - intros rid r. simpl. rewrite dget_dset. case_decide; [done|congruence].
Qed.

(** The receipt reconciliation writes for an open one. *)
Definition reconciled_receipt (now_utc : Z) (reason : ReconciliationReason)
  (r : ExecutionReceipt) : ExecutionReceipt :=
  mkReceipt (rc_identity r) UNKNOWN None (Some now_utc) None None None (Some reason) None.

Lemma reconcile_one_open r now_utc reason s :
  ev_inv s -> dget (rc_receipt_id r) (ev_receipts s) = Some r -> is_open r = true ->
  reconcile_one r now_utc reason s =
  (resolve_receipt (rc_receipt_id r) (reconciled_receipt now_utc reason r) 1 s,
   Some (reconciled_receipt now_utc reason r)).
Proof.
  intros Hinv Hr Ho. unfold reconcile_one, record_reconciled. rewrite Hr, Ho. simpl.
  by rewrite (ix_valid _ (inv_indexed _ Hinv) _ _ Hr).
Qed.

(** What the batch does to receipts it is given while they are open: [due] says, from the
    store at the start, which are reconciled and why. *)
Lemma reconcile_loop_spec reason_of (due : ExecutionReceipt -> option ReconciliationReason)
  now_utc l s :
  ev_inv s -> NoDup (rc_receipt_id <$> l) ->
  (forall r, r ∈ l -> dget (rc_receipt_id r) (ev_receipts s) = Some r /\ is_open r = true) ->
  (forall r s', r ∈ l ->
     dget (rc_receipt_id r) (ev_starts s') = dget (rc_receipt_id r) (ev_starts s) ->
     reason_of r s' = due r) ->
  let '(s', recs) := reconcile_loop reason_of now_utc l s in
  ev_inv s' /\ ev_max_terminal s' = ev_max_terminal s /\
  recs = omap (fun r => reason ← due r; Some (reconciled_receipt now_utc reason r)) l /\
  (forall rid r, dget rid (ev_receipts s') = Some r ->
     dget rid (ev_receipts s) = Some r \/
     exists r0 reason, r0 ∈ l /\ due r0 = Some reason /\ rc_receipt_id r0 = rid /\
       r = reconciled_receipt now_utc reason r0) /\
  (forall rid r, dget rid (ev_receipts s) = Some r -> is_open r = true ->
     (r ∈ l -> due r = None) ->
     dget rid (ev_receipts s') = Some r /\ dget rid (ev_starts s') = dget rid (ev_starts s)) /\
  (forall r reason, r ∈ l -> due r = Some reason ->
     dget (rc_receipt_id r) (ev_receipts s') <> Some r).
Proof.
  revert s. induction l as [|r l IH]; intros s Hinv Hnd Hall Hdue; csimpl.
  { split_and!; [done|done|done|by left|done|].
    intros ? ? Hin. by apply elem_of_nil in Hin. }
  csimpl in Hnd. apply NoDup_cons in Hnd as [Hn Hnd].
  destruct (Hall r) as [Hr Ho]; [by left|].
  assert (Hne : forall r', r' ∈ l -> rc_receipt_id r' <> rc_receipt_id r).
  { intros r' Hin Heq. apply Hn. rewrite <- Heq. by apply list_elem_of_fmap_2. }
  rewrite (Hdue r s) by (done || by left).
  destruct (due r) as [reason|] eqn:Hd; csimpl.
  - rewrite reconcile_one_open by done.
    destruct (resolve_receipt_spec (rc_receipt_id r) r (reconciled_receipt now_utc reason r) 1 s
      Hinv Hr Ho) as (I1 & I2 & I3 & I4); [done..|].
    set (s1 := resolve_receipt _ _ _ s) in *.
    specialize (IH s1 I1 Hnd). destruct (reconcile_loop reason_of now_utc l s1) as [s2 recs].
    destruct IH as (J1 & J2 & J3 & J4 & J5 & J6).
    { intros r' Hin. destruct (Hall r') as [Hr' Ho']; [by right|]. split; [|done].
      by apply I4; auto. }
    { intros r' s' Hin Hs. apply Hdue; [by right|]. rewrite Hs.
      destruct (Hall r') as [Hr' Ho']; [by right|]. by apply (I4 _ r'); auto. }
    split_and!; [done|congruence|by rewrite J3|..].
    + intros rid r' Hr'. apply J4 in Hr' as [Hr'|(r0 & re & Hin & ? & ? & ?)].
      * apply I3 in Hr' as [[-> ->]|[_ ?]]; [|by left]. right. exists r, reason.
        split_and!; try done. by left.
      * right. exists r0, re. split_and!; try done. by right.
    + intros rid r' Hr' Ho' Hnot. assert (rid <> rc_receipt_id r).
      { intros ->. assert (r' = r) as -> by congruence. rewrite Hnot in Hd; [done|by left]. }
      destruct (I4 rid r') as [G1 G2]; try done. destruct (J5 rid r') as [K1 K2]; try done.
      { intros Hin. apply Hnot. by right. }
      split; [done|congruence].
    + intros r' re [->|Hin]%elem_of_cons Hd'; [|by eapply J6]. intros Heq.
      apply J4 in Heq as [Heq|(r0 & re' & Hin & _ & Hid & _)]; [|by apply Hne in Hin].
      apply I3 in Heq as [[_ Heq]|[? _]]; [|done]. unfold is_open in Ho. rewrite Heq in Ho. done.
  - specialize (IH s Hinv Hnd). destruct (reconcile_loop reason_of now_utc l s) as [s2 recs].
    destruct IH as (J1 & J2 & J3 & J4 & J5 & J6); [intros; apply Hall; by right
      |intros; apply Hdue; [by right|done]|].
    split_and!; try done.
    + intros rid r' Hr'. apply J4 in Hr' as [?|(r0 & re & Hin & ? & ? & ?)]; [by left|].
      right. exists r0, re. split_and!; try done. by right.
    + intros rid r' Hr' Ho' Hnot. apply J5; try done. intros Hin. apply Hnot. by right.
    + intros r' re [->|Hin]%elem_of_cons Hd'; [congruence|]. by eapply J6.
Qed.

Lemma list_open_spec s :
  ev_indexed s ->
  NoDup (rc_receipt_id <$> list_open s) /\
  forall r, r ∈ list_open s <->
    dget (rc_receipt_id r) (ev_receipts s) = Some r /\ is_open r = true.
Proof.
  intros Hix. split.
  - assert (Hf : list_open s `sublist_of` dvalues (ev_receipts s)).
    { unfold list_open. induction (dvalues (ev_receipts s)) as [|x l IH]; simpl; [constructor|].
      destruct (is_open x); by constructor. }
    eapply sublist_NoDup; [|apply fmap_sublist, Hf]. rewrite dvalues_ids by done. apply Hix.
  - intros r. unfold list_open. rewrite filter_elem. split; intros [H1 H2]; (split; [|done]).
    + apply values_dget in H1 as [rid Hr]; [|apply Hix].
      pose proof (ix_keyed _ Hix _ _ Hr) as [<- _]. done.
    + by eapply dget_values.
Qed.

(** ** Histories *)

Inductive EvOp :=
| EStart (i : ReceiptIdentity) (mono : option Z)
| ETerminal (rid : string) (status : ExecutionStatus) (completed duration : Z)
    (error_type error_code digest : option string)
| EReconcile (rid : string) (at_ : Z) (reason : ReconciliationReason)
| EStartup (now_utc : Z)
| EUnresolved (grace now_utc mono : Z).

Definition ev_step (s : ExecutionEvidenceService) (op : EvOp) : ExecutionEvidenceService :=
  match op with
  | EStart i mono => (record_started i mono s).1
  | ETerminal rid st c d et ec dg => (record_terminal rid st c d et ec dg s).1
  | EReconcile rid t reason => (record_reconciled rid t reason s).1
  | EStartup now_utc => (reconcile_on_startup now_utc s).1
  | EUnresolved grace now_utc mono => (reconcile_unresolved grace now_utc mono s).1
  end.

Definition ev_run (ops : list EvOp) (s : ExecutionEvidenceService) : ExecutionEvidenceService :=
  fold_left ev_step ops s.

(** How a call may change what the store holds under one receipt identifier. *)
Definition evolves (started : Prop) (before after : option ExecutionReceipt) : Prop :=
  match before, after with
  | None, None => True
  | None, Some r => started /\ is_open r = true
  | Some r, None => True
  | Some r, Some r' => r' = r \/
      is_open r = true /\ is_terminal r' = true /\ rc_identity r' = rc_identity r
  end.

Definition starts_receipt (rid : string) (op : EvOp) : Prop :=
  match op with EStart i _ => ri_receipt_id i = rid | _ => False end.

Lemma record_started_new i mono s rid r :
  dget rid (ev_receipts (record_started i mono s).1) = Some r ->
  dget rid (ev_receipts s) = None -> is_open r = true.
Proof.
  unfold record_started. repeat case_match; simpl; try congruence.
  all: rewrite dget_dset; case_decide; [by intros [= <-]|congruence].
Qed.

Lemma evolves_same P o : evolves P o o.
Proof. destruct o; simpl; auto. Qed.

Lemma resolve_evolves s rid r old k :
  ev_inv s -> dget rid (ev_receipts s) = Some old -> is_open old = true ->
  rc_identity r = rc_identity old -> is_terminal r = true ->
  ev_inv (resolve_receipt rid r k s) /\ ev_max_terminal (resolve_receipt rid r k s) = ev_max_terminal s /\
  forall P rid', evolves P (dget rid' (ev_receipts s)) (dget rid' (ev_receipts (resolve_receipt rid r k s))).
Proof.
  intros Hinv Hold Ho Hi Ht.
  destruct (resolve_receipt_spec rid old r k s Hinv Hold Ho Hi Ht) as (I1 & I2 & I3 & _).
  split_and!; try done. intros P rid'.
  destruct (dget rid' (ev_receipts (resolve_receipt rid r k s))) as [r'|] eqn:Hr';
    [|by destruct (dget rid' (ev_receipts s))].
  apply I3 in Hr' as [[-> ->]|[_ Hr']]; [rewrite Hold; simpl; by right|].
  rewrite Hr'. by left.
Qed.

Lemma loop_evolves s reason_of due now_utc :
  ev_inv s ->
  (forall r s', r ∈ list_open s ->
     dget (rc_receipt_id r) (ev_starts s') = dget (rc_receipt_id r) (ev_starts s) -> reason_of r s' = due r) ->
  let s' := (reconcile_loop reason_of now_utc (list_open s) s).1 in
  ev_inv s' /\ ev_max_terminal s' = ev_max_terminal s /\
  forall P rid, evolves P (dget rid (ev_receipts s)) (dget rid (ev_receipts s')).
Proof.
  intros Hinv Hdue. destruct (list_open_spec s (inv_indexed _ Hinv)) as [Hnd Hop].
  pose proof (reconcile_loop_spec reason_of due now_utc (list_open s) s Hinv Hnd
    (fun r H => proj1 (Hop r) H) Hdue) as Hl.
  destruct (reconcile_loop _ _ _ _) as [s' recs]. destruct Hl as (I1 & I2 & _ & I4 & _).
  simpl. split_and!; try done. intros P rid.
  destruct (dget rid (ev_receipts s')) as [r'|] eqn:Hr'; [|by destruct (dget rid (ev_receipts s))].
  apply I4 in Hr' as [->|(r0 & re & Hin & _ & <- & ->)]; [by left|].
  apply Hop in Hin as [-> ?]. simpl. by right.
Qed.

Lemma ev_step_effect s op :
  ev_inv s ->
  ev_inv (ev_step s op) /\ ev_max_terminal (ev_step s op) = ev_max_terminal s /\
  forall rid, evolves (starts_receipt rid op) (dget rid (ev_receipts s))
                (dget rid (ev_receipts (ev_step s op))).
Proof.
  intros Hinv.
  pose proof (fun P rid => evolves_same P (dget rid (ev_receipts s))) as Hsame.
  destruct op as [i mono|rid st c d et ec dg|rid t reason|now_utc|grace now_utc mono];
    cbn [ev_step].
  - destruct (record_started_spec i mono s Hinv) as (I1 & I2 & I3 & I4). split_and!; try done.
    intros rid. destruct (dget rid (ev_receipts s)) as [r|] eqn:Hr.
    + apply I3 in Hr as [-> _]. by left.
    + destruct (dget rid (ev_receipts (record_started i mono s).1)) as [r|] eqn:Hr'; [|done].
      simpl. split; [symmetry; by eapply I4|by eapply record_started_new].
  - unfold record_terminal. case_bool_decide as Hst; simpl; [|auto].
    destruct (dget rid (ev_receipts s)) as [old|] eqn:Hold; simpl; [|auto].
    destruct (is_open old) eqn:Ho; simpl; [|auto].
    destruct (receipt_fields_valid _ _); simpl; [|auto].
    match goal with |- context [resolve_receipt rid ?r ?k s] =>
      destruct (resolve_evolves s rid r old k Hinv Hold Ho) as (I1 & I2 & I3); [done| |by auto] end.
    unfold is_terminal, is_open. simpl. apply negb_true_iff, bool_decide_eq_false.
    intros ->. unfold ALLOWED_TERMINAL_STATUSES in Hst. set_solver.
  - unfold record_reconciled.
    destruct (dget rid (ev_receipts s)) as [old|] eqn:Hold; simpl; [|auto].
    destruct (is_open old) eqn:Ho; simpl; [|auto].
    destruct (receipt_fields_valid _ _); simpl; [|auto].
    match goal with |- context [resolve_receipt rid ?r ?k s] =>
      destruct (resolve_evolves s rid r old k Hinv Hold Ho) as (I1 & I2 & I3); by auto end.
  - destruct (loop_evolves s (fun _ _ => Some PROCESS_RESTART) (fun _ => Some PROCESS_RESTART) now_utc Hinv)
      as (I1 & I2 & I3); [done|]. split_and!; auto.
  - edestruct (loop_evolves s (fun r s => due_reason grace mono (get_monotonic_start (rc_receipt_id r) s) r)
      (fun r => due_reason grace mono (get_monotonic_start (rc_receipt_id r) s) r) now_utc Hinv)
      as (I1 & I2 & I3); [|split_and!; auto].
    intros r s' _ Hs. unfold get_monotonic_start. by rewrite Hs.
Qed.

Lemma ev_run_inv ops s : ev_inv s -> ev_inv (ev_run ops s).
Proof.
  revert s. induction ops as [|op ops IH]; intros s Hinv; [done|].
  apply IH. by apply ev_step_effect.
Qed.

(** ** Properties *)

(** C39. The evidence store stays consistent and bounded over every history of starts,
    outcomes and reconciliations: at most the configured number of terminal receipts is
    retained, a grant has at most one receipt and the grant index finds exactly it, and
    timing is kept for open receipts only. *)
Theorem evidence_store_invariant max s0 (ops : list EvOp) :
  new_evidence_service max = Ok s0 ->
  let s := ev_run ops s0 in
  terminal_receipt_count s <= max /\
  (forall rid r, get_receipt rid s = Some r ->
     rc_receipt_id r = rid /\ get_by_grant (rc_grant_id r) s = Some r) /\
  (forall gid r, get_by_grant gid s = Some r -> rc_grant_id r = gid) /\
  (forall rid1 rid2 r1 r2, get_receipt rid1 s = Some r1 -> get_receipt rid2 s = Some r2 ->
     rc_grant_id r1 = rc_grant_id r2 -> rid1 = rid2) /\
  (forall rid t, get_monotonic_start rid s = Some t -> exists r, get_receipt rid s = Some r /\
     rc_status r = STARTED).
Proof.
  unfold new_evidence_service. destruct (Z.leb_spec 1 max); [|done]. intros [= <-].
  set (s0 := mkEvidence 0 0 max [] [] []). cbv zeta.
  assert (Hinv0 : ev_inv s0) by (split; [split; try done; apply dwf_nil|unfold terminal_receipt_count, count; simpl; lia]).
  assert (Hmax : ev_max_terminal (ev_run ops s0) = max).
  { change max with (ev_max_terminal s0). revert Hinv0. generalize s0.
    induction ops as [|op ops IH]; intros s Hs; [done|]. simpl.
    destruct (ev_step_effect s op Hs) as (Hs' & Hm & _). rewrite <- Hm. by apply IH. }
  destruct (ev_run_inv ops s0 Hinv0) as [[H1 H2 H3 H4 H5 H6] Hb]. rewrite Hmax in Hb.
  unfold get_receipt, get_by_grant, get_monotonic_start. split_and!; [done|..].
  - intros rid r Hr. destruct (H3 rid r Hr) as [Hid Hg]. split; [done|]. by rewrite Hg.
  - intros gid r. destruct (dget gid _) as [rid|] eqn:Hg; [|done]. simpl. intros Hr.
    destruct (H4 gid rid Hg) as (r' & ? & ?). congruence.
  - intros rid1 rid2 r1 r2 Hr1 Hr2 Heq. apply H3 in Hr1 as [_ Hg1], Hr2 as [_ Hg2]. congruence.
  - intros rid t Ht. destruct (H5 rid t Ht) as (r & Hr & Ho). exists r. split; [done|].
    by apply bool_decide_eq_true in Ho.
Qed.

(** Terminal evidence is immutable: once a receipt is terminal, whatever is called
    afterwards the store holds that very receipt, or has evicted it — it never holds another
    status, outcome or identity under that identifier unless a new execution is started
    under it. *)
Theorem terminal_evidence_immutable s rid r (ops : list EvOp) :
  ev_inv s -> get_receipt rid s = Some r -> rc_status r <> STARTED ->
  Forall (fun op => ~ starts_receipt rid op) ops ->
  get_receipt rid (ev_run ops s) = Some r \/ get_receipt rid (ev_run ops s) = None.
Proof.
  intros Hinv Hr Ht Hops. assert (Hcl : get_receipt rid s = Some r \/ get_receipt rid s = None)
    by auto. clear Hr. revert s Hinv Hcl.
  induction Hops as [|op ops Hop _ IH]; intros s Hinv Hcl; [done|]. simpl.
  destruct (ev_step_effect s op Hinv) as (Hinv' & _ & Hev). apply IH; [done|].
  specialize (Hev rid). unfold get_receipt in *.
  destruct Hcl as [Hr|Hr]; rewrite Hr in Hev;
    destruct (dget rid (ev_receipts (ev_step s op))) as [r'|]; simpl in Hev; auto.
  - destruct Hev as [->|(Ho & _)]; [by left|]. by apply bool_decide_eq_true in Ho.
  - by destruct Hev as [? _].
Qed.

(** Reconciliation is exact: a batch reconciles precisely the open receipts that have
    no recorded start or whose declared timeout plus the recovery grace has elapsed, each to
    UNKNOWN with the matching reason; every other open receipt — one still within its own
    declared budget in particular — is left untouched with its timing. *)
Theorem reconcile_unresolved_exact s grace now_utc mono :
  ev_inv s ->
  let due r := due_reason grace mono (get_monotonic_start (rc_receipt_id r) s) r in
  let s' := (reconcile_unresolved grace now_utc mono s).1 in
  (reconcile_unresolved grace now_utc mono s).2 =
    omap (fun r => reason ← due r; Some (reconciled_receipt now_utc reason r)) (list_open s) /\
  (forall r, r ∈ list_open s -> due r = None ->
     r ∈ list_open s' /\
     get_monotonic_start (rc_receipt_id r) s' = get_monotonic_start (rc_receipt_id r) s) /\
  (forall r reason, r ∈ list_open s -> due r = Some reason -> r ∉ list_open s') /\
  ev_inv s'.
Proof.
  intros Hinv due. destruct (list_open_spec s (inv_indexed _ Hinv)) as [Hnd Hop].
  unfold reconcile_unresolved.
  pose proof (reconcile_loop_spec
    (fun r s => due_reason grace mono (get_monotonic_start (rc_receipt_id r) s) r) due now_utc
    (list_open s) s Hinv Hnd (fun r H => proj1 (Hop r) H)) as Hl.
  destruct (reconcile_loop _ _ _ _) as [s' recs]. cbv zeta. cbn [fst snd].
  destruct Hl as (I1 & I2 & I3 & I4 & I5 & I6).
  { intros r s1 _ Hs. unfold due, get_monotonic_start. by rewrite Hs. }
  destruct (list_open_spec s' (inv_indexed _ I1)) as [_ Hop']. split_and!; try done.
  - intros r Hin Hd. apply Hop in Hin as [Hr Ho]. destruct (I5 _ _ Hr Ho) as [Hr' Hs']; [done|].
    split; [by apply Hop'|done].
  - intros r reason Hin Hd Hin'. apply Hop' in Hin' as [Hr' _]. by eapply I6.
Qed.

Definition sample_identity (rid gid : string) (started : Z) : ReceiptIdentity :=
  mkIdentity rid gid "s" "a" "req" "fs" "1.0" "impl" "hash" "profile" "digest" 10 started.

Definition empty_store : ExecutionEvidenceService := mkEvidence 0 0 1 [] [] [].

Lemma empty_store_inv : ev_inv empty_store.
Proof.
  split; [split; try done; apply dwf_nil|unfold terminal_receipt_count, count; simpl; lia].
Qed.

(** Three executions against a bound of one: two finish, one stays open. *)
Definition sample_history : list EvOp :=
  [EStart (sample_identity "r1" "g1" 1) (Some 100); EStart (sample_identity "r2" "g2" 2) (Some 200);
   EStart (sample_identity "r3" "g3" 3) (Some 300);
   ETerminal "r1" SUCCEEDED 5 4 None None None; ETerminal "r2" FAILED 6 4 None None None].

Lemma evidence_store_invariant_witness :
  terminal_receipt_count (ev_run sample_history empty_store) <= 1 /\
  length (dvalues (ev_receipts (ev_run sample_history empty_store))) = 2%nat.
Proof.
  split; [|vm_compute; reflexivity].
  exact (proj1 (evidence_store_invariant 1 empty_store sample_history eq_refl)).
Defined.

Definition finished_store : ExecutionEvidenceService :=
  ev_run [EStart (sample_identity "r1" "g1" 1) (Some 100);
          ETerminal "r1" SUCCEEDED 5 4 None None None] empty_store.

Lemma terminal_evidence_immutable_witness :
  let r := mkReceipt (sample_identity "r1" "g1" 1) SUCCEEDED (Some 5) None (Some 4) None None
             None None in
  let ops := [EReconcile "r1" 9 WORKER_LOST; ETerminal "r1" FAILED 9 9 None None None] in
  get_receipt "r1" (ev_run ops finished_store) = Some r \/
  get_receipt "r1" (ev_run ops finished_store) = None.
Proof.
  apply (terminal_evidence_immutable finished_store "r1"
    (mkReceipt (sample_identity "r1" "g1" 1) SUCCEEDED (Some 5) None (Some 4) None None None None)
    [EReconcile "r1" 9 WORKER_LOST; ETerminal "r1" FAILED 9 9 None None None]).
  - apply ev_run_inv, empty_store_inv.
  - vm_compute. reflexivity.
  - discriminate.
  - repeat constructor; intros [].
Defined.

Lemma reconcile_unresolved_exact_witness :
  let s := ev_run sample_history empty_store in
  rc_receipt_id <$> list_open s = ["r3"%string] /\
  due_reason 5 310 (get_monotonic_start "r3" s)
    (mkReceipt (sample_identity "r3" "g3" 3) STARTED None None None None None None None) = None /\
  ev_inv (reconcile_unresolved 5 9 310 s).1.
Proof.
  split; [vm_compute; reflexivity|]. split; [vm_compute; reflexivity|].
  destruct (reconcile_unresolved_exact (ev_run sample_history empty_store) 5 9 310
    (ev_run_inv sample_history empty_store empty_store_inv)) as (_ & _ & _ & Hinv). exact Hinv.
Defined.
