(* ===== verification/Capabilities.v ===== *)
(** * Execution capabilities

    [models/execution_capability.py] (the frozen capability set and its digest) and
    [runtime/capability_registry.py] (the registry of profiles, and the check that a grant
    is bound to exactly the profile the executor resolved). *)

From S2P Require Import Prelude PyDict Json Binding Authority.
From stdpp Require Import pretty.
Local Open Scope Z_scope.

Definition BLOCKED_ENVIRONMENT_KEYS : list string :=
  ["POSTGRES_URL"; "POSTGRES_PASSWORD"; "POSTGRES_USER"; "POSTGRES_DB"; "DATABASE_URL";
   "JWT_SECRET_KEY"; "SECRET_KEY"; "API_KEY"; "AWS_SECRET_ACCESS_KEY"; "AWS_SESSION_TOKEN";
   "AZURE_CLIENT_SECRET"; "GOOGLE_APPLICATION_CREDENTIALS"; "GEMINI_API_KEY";
   "ANTHROPIC_API_KEY"; "OPENAI_API_KEY"].

Definition ascii_upper (c : ascii) : ascii :=
  let n := N_of_ascii c in
  if ((97 <=? n) && (n <=? 122))%N then ascii_of_N (n - 32)%N else c.

Definition NUL : string := String "000"%char EmptyString.

(** [_validate_environment], for a mapping of strings. *)
Definition environment_key_blocked (k : string) : bool :=
  let key_upper := str_strip (str_map ascii_upper k) in
  bool_decide (key_upper ∈ BLOCKED_ENVIRONMENT_KEYS)
  || existsb (fun blocked => str_contains blocked key_upper)
       ["SECRET"; "PASSWORD"; "POSTGRES_URL"].

Definition validate_environment (env : list (string * string))
  : result (list (string * string)) :=
  if existsb (fun '(k, v) => environment_key_blocked k || str_contains NUL k
                             || str_contains NUL v) env
  then Err ValueError else Ok env.

Record FilesystemCapability := mkFsCap {
  fc_workspace_root : string;
  fc_read_only : bool;
  fc_allowed_subpaths : list string;
  fc_allow_temp_writes : bool;
}.

Inductive NetworkEgressMode := NET_DISABLED | NET_ALLOWLIST.

Record NetworkDestination := mkDestination { nd_host : string; nd_port : Z }.

Definition destination_to_string (d : NetworkDestination) : string :=
  nd_host d +:+ ":" +:+ pretty (nd_port d).

Record NetworkCapability := mkNetCap {
  nc_mode : NetworkEgressMode;
  nc_destinations : list NetworkDestination;
  nc_allowed_destinations : list string;
  nc_allow_unix_sockets : bool;
  nc_allow_bind : bool;
}.

(** Times are in microseconds. *)
Record ResourceLimits := mkLimits {
  rl_max_memory_bytes : Z;
  rl_max_cpu : Z;
  rl_max_output_bytes : Z;
  rl_wall_clock_timeout : Z;
  rl_required_controls : list string;
}.

Record ExecutionCapabilities := mkCapabilities {
  cap_profile_id : string;
  cap_filesystem : FilesystemCapability;
  cap_environment : list (string * string);
  cap_network : NetworkCapability;
  cap_resources : ResourceLimits;
}.

#[global] Instance NetworkEgressMode_eq_dec : EqDecision NetworkEgressMode.
Proof. solve_decision. Defined.
#[global] Instance NetworkDestination_eq_dec : EqDecision NetworkDestination.
Proof. solve_decision. Defined.
#[global] Instance FilesystemCapability_eq_dec : EqDecision FilesystemCapability.
Proof. solve_decision. Defined.
#[global] Instance NetworkCapability_eq_dec : EqDecision NetworkCapability.
Proof. solve_decision. Defined.
#[global] Instance ResourceLimits_eq_dec : EqDecision ResourceLimits.
Proof. solve_decision. Defined.
#[global] Instance ExecutionCapabilities_eq_dec : EqDecision ExecutionCapabilities.
Proof. solve_decision. Defined.

(** [_validate_required_controls] *)
Definition validate_required_controls (v : list string) : result (list string) :=
  if forallb (fun c => bool_decide (c ∈ ["memory"; "cpu"])) v
  then Ok (sort_by str_leb (remove_dups v)) else Err ValueError.

Definition mode_value (m : NetworkEgressMode) : string :=
  match m with NET_DISABLED => "disabled" | NET_ALLOWLIST => "allowlist" end.

(** [sorted(set(v))] as a JSON array. *)
Definition sorted_set (v : list string) : json :=
  JArr (JStr <$> sort_by str_leb (remove_dups v)).

(** ** Digest

    SHA-256 and the text of a float are parameters. *)

Section digest.
Context (sha256 : string -> string) (float_repr : Z -> string).

Definition canonical_capabilities (c : ExecutionCapabilities) : json :=
  let fs := cap_filesystem c in
  let net := cap_network c in
  let res := cap_resources c in
  JObj
    [("capability_profile_id", JStr (cap_profile_id c));
     ("filesystem", JObj
        [("workspace_root", JStr (fc_workspace_root fs));
         ("read_only", JBool (fc_read_only fs));
         ("allowed_subpaths", sorted_set (fc_allowed_subpaths fs));
         ("allow_temp_writes", JBool (fc_allow_temp_writes fs))]);
     ("environment_variables", JArr (List.map (fun '(k, v) => JArr [JStr k; JStr v])
        (sort_by key_leb (cap_environment c))));
     ("network", JObj
        [("allow_bind", JBool (nc_allow_bind net));
         ("allow_unix_sockets", JBool (nc_allow_unix_sockets net));
         ("allowed_destinations", sorted_set (nc_allowed_destinations net));
         ("mode", JStr (mode_value (nc_mode net)))]);
     ("resources", JObj
        [("max_memory_bytes", JNum (pretty (rl_max_memory_bytes res)));
         ("max_cpu_seconds", JNum (float_repr (rl_max_cpu res)));
         ("max_output_bytes", JNum (pretty (rl_max_output_bytes res)));
         ("wall_clock_timeout_seconds", JNum (float_repr (rl_wall_clock_timeout res)));
         ("required_controls", sorted_set (rl_required_controls res))])].

Definition compute_digest (c : ExecutionCapabilities) : string :=
  sha256 (dumps_ascii (canonical_capabilities c)).

(** ** verify_capability_binding *)

Definition verify_capability_binding (g : RuntimeExecutionGrant) (c : ExecutionCapabilities)
  : result unit :=
  match g_capability_profile_id g with
  | None => Err CapabilityProfileNotFoundError
  | Some profile =>
      if negb (bool_decide (profile = cap_profile_id c)) then Err CapabilityDigestMismatchError
      else match g_capability_digest g with
      | None => Err CapabilityDigestMismatchError
      | Some expected =>
          if negb (bool_decide (compute_digest c = expected))
          then Err CapabilityDigestMismatchError else Ok tt
      end
  end.

Lemma verify_capability_binding_Ok g c u :
  verify_capability_binding g c = Ok u <->
  g_capability_profile_id g = Some (cap_profile_id c) /\
  g_capability_digest g = Some (compute_digest c).
Proof.
  unfold verify_capability_binding. destruct u. split.
  - intros H. repeat case_match; simplify_eq/=.
    repeat match goal with E : negb (bool_decide _) = false |- _ =>
      apply negb_false_iff, bool_decide_eq_true in E end. by subst.
  - intros [-> ->]. by rewrite !bool_decide_true by done.
Qed.
End digest.

(** ** InMemoryCapabilityProfileRegistry *)

Abbreviation CapabilityRegistry := (pydict string ExecutionCapabilities).

Definition register_profile (c : ExecutionCapabilities) (r : CapabilityRegistry)
  : CapabilityRegistry := dset (cap_profile_id c) c r.
Definition resolve_profile (p : string) (r : CapabilityRegistry) : result ExecutionCapabilities :=
  of_option CapabilityProfileNotFoundError (dget p r).
Definition profile_exists (p : string) (r : CapabilityRegistry) : bool := dhas p r.
Definition list_profiles (r : CapabilityRegistry) : list ExecutionCapabilities := dvalues r.
