(* ===== verification/CapabilityModels.v ===== *)
(** * Building an execution capability

    The validators of [models/execution_capability.py]: what a capability value looks like
    once it is constructed.  An optional argument is a field the caller left out; pydantic
    runs a field's validators only on the fields that were supplied, and so does this model.
    Resolving a path against the filesystem is a parameter. *)

From S2P Require Import Prelude PyDict Json Paths PyInt Binding Authority Capabilities.
From stdpp Require Import pretty.
Local Open Scope Z_scope.

(** ** FilesystemCapability *)

(** An item of the sequence given as [allowed_subpaths]; [None] is one that is not a str. *)
Definition normalize_subpath (item : option string) : result string :=
  match item with
  | None => Err ValueError
  | Some s =>
      if str_contains NUL s then Err ValueError
      else if String.prefix "/" s then Err ValueError
      else if bool_decide (".."%string ∈ path_parts (parse_path s)) then Err ValueError
      else Ok (str_strip_chars (fun c => bool_decide (c = SLASH)) s)
  end.

(** [_normalize_allowed_subpaths]; [None] is a value that is not a sequence. *)
Definition normalize_allowed_subpaths (v : option (list (option string))) : result (list string) :=
  match v with None => Err ValueError | Some items => mapR normalize_subpath items end.

Section workspace.
(** [str(Path(v).resolve())] *)
Context (resolve : Path -> result string).

Definition validate_workspace_root (v : string) : result string :=
  if str_contains NUL v then Err ValueError
  else if negb (is_absolute (parse_path v)) then Err ValueError
  else resolve (parse_path v).

Definition filesystem_capability (workspace_root : string) (read_only : option bool)
  (allowed_subpaths : option (option (list (option string)))) (allow_temp_writes : option bool)
  : result FilesystemCapability :=
  if negb (str_nonempty workspace_root) then Err ValueError
  else
    root ← validate_workspace_root workspace_root;
    subs ← match allowed_subpaths with
           | None => Ok []
           | Some v => normalize_allowed_subpaths v
           end;
    Ok (mkFsCap root (default true read_only) subs (default false allow_temp_writes)).
End workspace.

(** ** NetworkDestination *)

Definition has_blank (s : string) : bool := str_contains NUL s || has_char " "%char s.

(** [_validate_host] *)
Definition validate_host (v : string) : result string :=
  let cleaned := str_lower (str_strip v) in
  if negb (str_nonempty cleaned) then Err ValueError
  else if has_blank cleaned then Err ValueError else Ok cleaned.

Definition port_in_range (p : Z) : bool := (1 <=? p) && (p <=? 65535).

Definition network_destination (host : string) (port : Z) : result NetworkDestination :=
  if negb (str_nonempty host) then Err ValueError
  else if negb (port_in_range port) then Err ValueError
  else h ← validate_host host; Ok (mkDestination h port).

(** ** NetworkCapability *)

(** An item of the sequence given as [destinations]. *)
Inductive DestinationItem :=
| ItemObject (d : NetworkDestination)
| ItemDict (host : string) (port : Z)
| ItemText (s : string)
| ItemOther.

(** [item.split(":")] with exactly two parts. *)
Definition split_host_port (s : string) : result (string * string) :=
  match str_split ":"%char s with [h; p] => Ok (h, p) | _ => Err ValueError end.

(** [int(text)] *)
Definition int_of_text (s : string) : result Z := of_option ValueError (py_int s).

Definition normalize_destination (item : DestinationItem) : result NetworkDestination :=
  match item with
  | ItemObject d => Ok d
  | ItemDict h p => network_destination h p
  | ItemText s => '(h, p) ← split_host_port (str_strip s);
                  port ← int_of_text p; network_destination h port
  | ItemOther => Err ValueError
  end.

(** [_normalize_destinations_objs] *)
Definition normalize_destinations_objs (v : option (list DestinationItem))
  : result (list NetworkDestination) :=
  match v with None => Err ValueError | Some items => mapR normalize_destination items end.

(** An item of [allowed_destinations], then [_normalize_destinations_str]. *)
Definition normalize_destination_str (item : DestinationItem) : result string :=
  match item with
  | ItemObject d => Ok (destination_to_string d)
  | ItemText s =>
      let cleaned := str_lower (str_strip s) in
      if negb (str_nonempty cleaned) then Err ValueError
      else if has_blank cleaned then Err ValueError
      else '(h, p) ← split_host_port cleaned;
           if negb (str_nonempty h) then Err ValueError
           else port ← int_of_text p;
                if port_in_range port then Ok (h +:+ ":" +:+ pretty port) else Err ValueError
  | _ => Err ValueError
  end.

Definition normalize_destinations_str (v : option (list DestinationItem)) : result (list string) :=
  match v with None => Err ValueError | Some items => mapR normalize_destination_str items end.

(** [_sync_and_validate_destinations] *)
Definition sync_and_validate_destinations (mode : NetworkEgressMode)
  (destinations : list NetworkDestination) (allowed : list string) : result (list string) :=
  let all_dests := remove_dups (app allowed (destination_to_string <$> destinations)) in
  match mode, all_dests with
  | NET_DISABLED, _ :: _ => Err ValueError
  | NET_ALLOWLIST, [] => Err ValueError
  | _, _ => Ok (sort_by str_leb all_dests)
  end.

(** One element of [model_post_init]'s reconstruction. *)
Definition destination_of_text (item : string) : result NetworkDestination :=
  '(h, p) ← split_host_port item; port ← int_of_text p; network_destination h port.

Definition model_post_init (c : NetworkCapability) : result NetworkCapability :=
  match nc_destinations c, nc_allowed_destinations c with
  | [], _ :: _ =>
      objs ← mapR destination_of_text (nc_allowed_destinations c);
      Ok (mkNetCap (nc_mode c) objs (nc_allowed_destinations c)
            (nc_allow_unix_sockets c) (nc_allow_bind c))
  | _ :: _, [] =>
      Ok (mkNetCap (nc_mode c) (nc_destinations c) (destination_to_string <$> nc_destinations c)
            (nc_allow_unix_sockets c) (nc_allow_bind c))
  | _, _ => Ok c
  end.

(** [NetworkCapability(...)] *)
Definition network_capability (mode : option NetworkEgressMode)
  (destinations allowed_destinations : option (option (list DestinationItem)))
  (allow_unix_sockets allow_bind : option bool) : result NetworkCapability :=
  let m := default NET_DISABLED mode in
  ds ← match destinations with None => Ok [] | Some v => normalize_destinations_objs v end;
  al ← match allowed_destinations with
       | None => Ok []
       | Some v => texts ← normalize_destinations_str v;
                   sync_and_validate_destinations m ds texts
       end;
  model_post_init (mkNetCap m ds al (default false allow_unix_sockets) (default false allow_bind)).

(** ** ResourceLimits

    Times are in microseconds, as in [Capabilities]. *)

Definition resource_limits (max_memory_bytes max_cpu max_output_bytes wall_clock_timeout : option Z)
  (required_controls : option (list string)) : result ResourceLimits :=
  let mem := default (256 * 1024 * 1024) max_memory_bytes in
  let cpu := default 5000000 max_cpu in
  let out := default (1024 * 1024) max_output_bytes in
  let wall := default 10000000 wall_clock_timeout in
  if (0 <? mem) && (mem <=? 4 * 1024 * 1024 * 1024)
     && (0 <? cpu) && (cpu <=? 300000000)
     && (0 <=? out) && (out <=? 100 * 1024 * 1024)
     && (0 <? wall) && (wall <=? 600000000)
  then
    controls ← match required_controls with
               | None => Ok []
               | Some v => validate_required_controls v
               end;
    Ok (mkLimits mem cpu out wall controls)
  else Err ValueError.

(** ** ExecutionCapabilities *)

Definition default_network : NetworkCapability := mkNetCap NET_DISABLED [] [] false false.
Definition default_limits : ResourceLimits :=
  mkLimits (256 * 1024 * 1024) 5000000 (1024 * 1024) 10000000 [].

Definition execution_capabilities (profile_id : string) (fs : FilesystemCapability)
  (environment : option (list (string * string))) (network : option NetworkCapability)
  (resources : option ResourceLimits) : result ExecutionCapabilities :=
  if negb (str_nonempty profile_id) then Err ValueError
  else
    env ← match environment with None => Ok [] | Some v => validate_environment v end;
    Ok (mkCapabilities profile_id fs env (default default_network network)
          (default default_limits resources)).

(** ** What construction establishes *)

Definition destination_wf (d : NetworkDestination) : Prop :=
  nd_host d <> EmptyString /\ str_strip (nd_host d) = nd_host d /\ str_lower (nd_host d) = nd_host d
  /\ has_blank (nd_host d) = false /\ 1 <= nd_port d <= 65535.

Lemma validate_host_Ok v h :
  validate_host v = Ok h ->
  h <> EmptyString /\ str_strip h = h /\ str_lower h = h /\ has_blank h = false.
Proof.
  unfold validate_host. intros H. repeat case_match; simplify_eq/=.
  apply negb_false_iff in H0. split; [by intros Hn; rewrite Hn in H0|].
  split; [by rewrite str_strip_lower, str_strip_idem|]. by rewrite str_lower_idem.
Qed.

Lemma network_destination_wf h p d : network_destination h p = Ok d -> destination_wf d.
Proof.
  unfold network_destination. intros H. repeat case_match; simplify_eq/=.
  destruct (validate_host h) as [v|] eqn:Hv; simplify_eq/=.
  apply validate_host_Ok in Hv as (? & ? & ? & ?).
  apply negb_false_iff in H1. unfold port_in_range in H1. repeat split; simpl; auto; lia.
Qed.

(** A validated destination is validated to itself. *)
Lemma network_destination_id d :
  destination_wf d -> network_destination (nd_host d) (nd_port d) = Ok d.
Proof.
  intros (H1 & H2 & H3 & H4 & H5). unfold network_destination, validate_host.
  rewrite H2, H3, H4. assert (str_nonempty (nd_host d) = true) as -> by (by destruct (nd_host d)).
  unfold port_in_range. destruct (Z.leb_spec 1 (nd_port d)), (Z.leb_spec (nd_port d) 65535); try lia.
  by destruct d.
Qed.

Definition item_wf (i : DestinationItem) : Prop :=
  match i with ItemObject d => destination_wf d | _ => True end.

Lemma destination_of_text_wf t d : destination_of_text t = Ok d -> destination_wf d.
Proof.
  unfold destination_of_text. intros H. destruct (split_host_port t) as [[h p]|]; simplify_eq/=.
  destruct (int_of_text p); simplify_eq/=. by eapply network_destination_wf.
Qed.

Lemma normalize_destination_wf i d : item_wf i -> normalize_destination i = Ok d -> destination_wf d.
Proof.
  destruct i as [d'|h p|s|]; simpl; intros Hi H; [by simplify_eq|by eapply network_destination_wf| |done].
  eapply (destination_of_text_wf (str_strip s)). exact H.
Qed.

Lemma Forall2_image {A B} (f : A -> result B) (P : A -> Prop) (Q : B -> Prop) l ys :
  (forall x y, P x -> f x = Ok y -> Q y) ->
  Forall P l -> Forall2 (fun x y => f x = Ok y) l ys -> Forall Q ys.
Proof. intros H HP. induction 1; [constructor|]. inversion HP; subst. constructor; eauto. Qed.

Lemma sync_Ok mode ds al r :
  sync_and_validate_destinations mode ds al = Ok r ->
  (forall t, t ∈ r <-> t ∈ al \/ t ∈ destination_to_string <$> ds) /\ (mode = NET_DISABLED <-> r = []).
Proof.
  unfold sync_and_validate_destinations. intros H.
  assert (r = sort_by str_leb (remove_dups (app al (destination_to_string <$> ds)))) as Hr.
  { repeat case_match; simplify_eq; done. }
  split.
  - intros t. rewrite Hr, sort_by_elem, elem_of_remove_dups, elem_of_app. done.
  - destruct (remove_dups _) as [|x l] eqn:Hd; destruct mode; simplify_eq/=; try done.
    split; [done|]. intros He. pose proof (sort_by_perm str_leb (x :: l)) as Hp.
    simpl in Hp. rewrite He in Hp. by apply Permutation_nil_l in Hp.
Qed.

(** Every destination the guard will enforce is one the digest covers, and the reverse
    cannot be empty when the other is not. *)
Definition covered (c : NetworkCapability) : Prop :=
  (forall d, d ∈ nc_destinations c -> exists t, t ∈ nc_allowed_destinations c /\
     (t = destination_to_string d \/ destination_of_text t = Ok d))
  /\ (nc_destinations c = [] <-> nc_allowed_destinations c = []).

Lemma model_post_init_Ok c0 c :
  model_post_init c0 = Ok c ->
  Forall destination_wf (nc_destinations c0) ->
  (nc_destinations c0 = [] \/ nc_allowed_destinations c0 = []
   \/ forall d, d ∈ nc_destinations c0 -> destination_to_string d ∈ nc_allowed_destinations c0) ->
  nc_mode c = nc_mode c0 /\ Forall destination_wf (nc_destinations c) /\ covered c
  /\ (nc_destinations c = [] <-> nc_destinations c0 = [] /\ nc_allowed_destinations c0 = []).
Proof.
  destruct c0 as [m ds al u b]. unfold model_post_init, covered; simpl. intros H Hwf Hcov.
  destruct ds as [|d ds], al as [|t al]; simplify_eq/=.
  - split; [done|]. repeat split; try done. set_solver.
  - destruct (destination_of_text t) as [d|] eqn:Ht; simplify_eq/=.
    destruct (mapR destination_of_text al) as [ds|] eqn:Hal; simplify_eq/=.
    apply mapR_Ok in Hal. split; [done|]. split.
    { constructor; [by eapply destination_of_text_wf|].
      eapply (Forall2_image _ (fun _ => True)); [|by apply Forall_true|exact Hal].
      intros x y _. apply destination_of_text_wf. }
    split; [|naive_solver]. split; [|done]. intros d' [->|Hd]%elem_of_cons; [exists t; set_solver|].
    apply list_elem_of_lookup in Hd as [i Hi]. eapply Forall2_lookup_r in Hal as (t' & Ht' & Hok); [|done].
    exists t'. split; [|by right]. apply elem_of_cons. right. by eapply list_elem_of_lookup_2.
  - split; [done|]. split; [done|]. split; [|naive_solver]. split; [|done].
    intros d' Hd. exists (destination_to_string d'). split; [|by left].
    rewrite <- fmap_cons. by apply list_elem_of_fmap_2.
  - split; [done|]. split; [done|]. split; [|naive_solver]. split; [|done].
    intros d' Hd. destruct Hcov as [?|[?|Hc]]; [done..|]. exists (destination_to_string d').
    split; [by apply Hc|by left].
Qed.

Definition network_wf (c : NetworkCapability) : Prop :=
  Forall destination_wf (nc_destinations c) /\ covered c.


Definition sample_network : result NetworkCapability :=
  network_capability (Some NET_ALLOWLIST) None
    (Some (Some [ItemText " API.Example.com:443 "; ItemText "api.example.com:8443"])) None None.

