(* ===== verification/NetworkGuard.v ===== *)
(** * The network guard of the sandbox

    [runtime/sandbox/network.py]: the addresses a host text denotes, the ranges that are
    never reachable, and the guard that decides every connection a sandboxed tool makes.
    [ipaddress] is modelled to the extent the guard uses it; name resolution is a
    parameter. *)

From S2P Require Import Prelude PyDict Json Paths PyInt Binding Authority Capabilities CapabilityModels.
From stdpp Require Import pretty.
Local Open Scope Z_scope.

(** ** Addresses *)

Inductive IPAddress :=
| IPv4 (n : N)
| IPv6 (n : N) (scope_id : option string).

#[global] Instance IPAddress_eq_dec : EqDecision IPAddress.
Proof. solve_decision. Defined.

(** [IPv4Address._parse_octet] *)
Definition parse_octet (s : string) : option N :=
  if negb (isdigit s) then None
  else if Nat.ltb 3 (String.length s) then None
  else if negb (bool_decide (s = "0"%string)) && String.prefix "0" s then None
  else n ← digits_value dec_digit 10 0 s; if (255 <? n)%N then None else Some n.

(** [IPv4Address(text)] *)
Definition parse_ipv4 (s : string) : option N :=
  match str_split "."%char s with
  | [a; b; c; d] =>
      a ← parse_octet a; b ← parse_octet b; c ← parse_octet c; d ← parse_octet d;
      Some (((a * 256 + b) * 256 + c) * 256 + d)%N
  | _ => None
  end.

(** [IPv6Address._parse_hextet] *)
Definition parse_hextet (s : string) : option N :=
  if Nat.ltb 4 (String.length s) || negb (str_nonempty s) then None
  else digits_value hex_value 16 0 s.

(** A dotted tail is replaced by the two hextets it stands for. *)
Definition expand_dotted (parts : list string) : option (list string) :=
  let tail := List.last parts EmptyString in
  if has_char "."%char tail then
    v4 ← parse_ipv4 tail;
    Some (removelast parts ++ [hex_text ((v4 / 65536) mod 65536); hex_text (v4 mod 65536)])
  else Some parts.

(** Indices of the empty parts strictly inside the list. *)
Definition inner_empties (parts : list string) : list nat :=
  List.filter (fun i => bool_decide (parts !! i = Some EmptyString))
    (seq 1 (length parts - 2)).

Definition shift_in (acc : N) (s : string) : option N :=
  h ← parse_hextet s; Some (acc * 65536 + h)%N.

Fixpoint fold_hextets (acc : N) (l : list string) : option N :=
  match l with
  | [] => Some acc
  | s :: l' => acc' ← shift_in acc s; fold_hextets acc' l'
  end.

(** [IPv6Address._ip_int_from_string] *)
Definition parse_ipv6_int (s : string) : option N :=
  let parts := str_split ":"%char s in
  if Nat.ltb (length parts) 3 then None else
  parts ← expand_dotted parts;
  if Nat.ltb 9 (length parts) then None else
  let first_empty := negb (str_nonempty (hd EmptyString parts)) in
  let last_empty := negb (str_nonempty (List.last parts EmptyString)) in
  match inner_empties parts with
  | [] =>
      if negb (Nat.eqb (length parts) 8) || first_empty || last_empty then None
      else fold_hextets 0 parts
  | [k] =>
      let parts_hi := if first_empty then (k - 1)%nat else k in
      let parts_lo := (length parts - k - 1 - (if last_empty then 1 else 0))%nat in
      if first_empty && negb (Nat.eqb parts_hi 0) then None
      else if last_empty && negb (Nat.eqb parts_lo 0) then None
      else if Nat.leb 8 (parts_hi + parts_lo) then None
      else
        hi ← fold_hextets 0 (take parts_hi parts);
        fold_hextets (hi * 65536 ^ N.of_nat (8 - (parts_hi + parts_lo)))%N
          (drop (length parts - parts_lo) parts)
  | _ => None
  end.

(** [IPv6Address(text)]: [_split_scope_id], then the integer. *)
Definition parse_ipv6 (s : string) : option IPAddress :=
  if has_char SLASH s then None
  else match str_split "%"%char s with
  | [addr] => n ← parse_ipv6_int addr; Some (IPv6 n None)
  | [addr; scope] =>
      if str_nonempty scope then n ← parse_ipv6_int addr; Some (IPv6 n (Some scope)) else None
  | _ => None
  end.

(** [ipaddress.ip_address(text)] *)
Definition ip_address (s : string) : option IPAddress :=
  match parse_ipv4 s with
  | Some n => Some (IPv4 n)
  | None => parse_ipv6 s
  end.

Definition MAX_IPV4 : N := 4294967295.

(** [ip.ipv4_mapped] *)
Definition ipv4_mapped (n : N) : option N :=
  if (n / 4294967296 =? 65535)%N then Some (n mod 4294967296)%N else None.

Definition is_bracket (c : ascii) : bool := bool_decide (c = "["%char) || bool_decide (c = "]"%char).

(** Steps of [_parse_and_normalize_ip]: a decimal or hexadecimal integer, then a text. *)
Definition integer_form (cleaned : string) : option N :=
  let candidate :=
    if isdigit cleaned then Z.to_N <$> py_int cleaned
    else if String.prefix "0x" (str_lower cleaned) then py_int_hex cleaned
    else None in
  n ← candidate; if (n <=? MAX_IPV4)%N then Some n else None.

Definition unwrap_mapped (ip : IPAddress) : IPAddress :=
  match ip with
  | IPv6 n _ => match ipv4_mapped n with Some v4 => IPv4 v4 | None => ip end
  | IPv4 _ => ip
  end.

Definition parse_and_normalize_ip (host_or_ip : string) : option IPAddress :=
  let cleaned := str_strip_chars is_bracket (str_strip host_or_ip) in
  if negb (str_nonempty cleaned) then None
  else match integer_form cleaned with
  | Some n => Some (IPv4 n)
  | None => unwrap_mapped <$> ip_address cleaned
  end.

(** *** Printing *)

Definition ipv4_text (n : N) : string :=
  Json.join "." [pretty (n / 16777216 mod 256)%N; pretty (n / 65536 mod 256)%N;
            pretty (n / 256 mod 256)%N; pretty (n mod 256)%N].

Definition hextets (n : N) : list string :=
  (fun i => hex_text (n / 65536 ^ (7 - N.of_nat i) mod 65536)) <$> seq 0 8.

(** [_compress_hextets]: the first longest run of zero hextets, as (start, length). *)
Fixpoint longest_zeros (i : nat) (l : list string) (cur best : nat * nat) : nat * nat :=
  match l with
  | [] => best
  | s :: l' =>
      if bool_decide (s = "0"%string) then
        let cur := if Nat.eqb cur.2 0 then (i, 1%nat) else (cur.1, S cur.2) in
        longest_zeros (S i) l' cur (if Nat.ltb best.2 cur.2 then cur else best)
      else longest_zeros (S i) l' (i, 0%nat) best
  end.

Definition compress_hextets (l : list string) : list string :=
  let '(start, len) := longest_zeros 0 l (0%nat, 0%nat) (0%nat, 0%nat) in
  if Nat.ltb 1 len then
    (if Nat.eqb start 0 then [EmptyString] else []) ++ take start l ++ [EmptyString]
    ++ drop (start + len) l ++ (if Nat.eqb (start + len) (length l) then [EmptyString] else [])
  else l.

Definition ip_text (ip : IPAddress) : string :=
  match ip with
  | IPv4 n => ipv4_text n
  | IPv6 n scope =>
      Json.join ":" (compress_hextets (hextets n))
      +:+ match scope with Some s => "%" +:+ s | None => EmptyString end
  end.

(** *** Ranges *)

(** [ip in network], for a network of [bits] address bits and a prefix of [len]. *)
Definition in_network (bits : N) (net len ip : N) : bool :=
  (N.shiftr ip (bits - len) =? N.shiftr net (bits - len))%N.

Definition v6_reserved : list (N * N) :=
  [(0, 8); (1, 8); (2, 7); (4, 6); (8, 5); (16, 4); (64, 3); (96, 3); (128, 3); (160, 3);
   (192, 3); (224, 4); (240, 5); (248, 6); (254, 9)]%N.

Definition is_loopback (ip : IPAddress) : bool :=
  match ip with IPv4 n => in_network 32 2130706432 8 n | IPv6 n _ => (n =? 1)%N end.
Definition is_link_local (ip : IPAddress) : bool :=
  match ip with
  | IPv4 n => in_network 32 2851995648 16 n
  | IPv6 n _ => in_network 128 (65152 * 2 ^ 112) 10 n
  end.
Definition is_unspecified (ip : IPAddress) : bool :=
  match ip with IPv4 n | IPv6 n _ => (n =? 0)%N end.
Definition is_multicast (ip : IPAddress) : bool :=
  match ip with
  | IPv4 n => in_network 32 3758096384 4 n
  | IPv6 n _ => in_network 128 (255 * 2 ^ 120) 8 n
  end.
Definition is_reserved (ip : IPAddress) : bool :=
  match ip with
  | IPv4 n => in_network 32 4026531840 4 n
  | IPv6 n _ => existsb (fun '(top, len) => in_network 128 (top * 2 ^ 120) len n) v6_reserved
  end.

(** [_is_restricted_or_internal_ip] *)
Definition is_restricted_or_internal_ip (ip : IPAddress) : bool :=
  is_loopback ip || is_link_local ip || is_unspecified ip || is_multicast ip || is_reserved ip
  || bool_decide (ip_text ip = "169.254.169.254"%string).

(** ** The guard *)

Record NetworkSandboxGuard := mkNetGuard {
  (** [None]: a value [from_dict] took over that is not an egress mode *)
  ng_mode : option NetworkEgressMode;
  ng_destinations : list NetworkDestination;
  ng_allow_unix_sockets : bool;
  ng_allow_bind : bool;
  ng_allowed_ports : list Z;
  ng_allowed_hosts : list string;
  ng_active : bool;
  ng_installed : bool;
}.

Definition network_guard (mode : option NetworkEgressMode) (destinations : list NetworkDestination)
  (allow_unix_sockets allow_bind : bool) : NetworkSandboxGuard :=
  mkNetGuard mode destinations allow_unix_sockets allow_bind
    (remove_dups (nd_port <$> destinations))
    (remove_dups ((fun d => str_lower (nd_host d)) <$> destinations)) false false.

Definition set_ng_active (b : bool) (g : NetworkSandboxGuard) : NetworkSandboxGuard :=
  mkNetGuard (ng_mode g) (ng_destinations g) (ng_allow_unix_sockets g) (ng_allow_bind g)
    (ng_allowed_ports g) (ng_allowed_hosts g) b (ng_installed g).

Definition activate_network : NetworkSandboxGuard -> NetworkSandboxGuard := set_ng_active true.
Definition deactivate_network : NetworkSandboxGuard -> NetworkSandboxGuard := set_ng_active false.

Section resolver.
(** [[res[4][0] for res in socket.getaddrinfo(host, port)]] *)
Context (getaddrinfo : string -> Z -> result (list string)).

(** The loop over the allowed hosts of step 4: whether one resolves to the address. *)
Fixpoint some_host_resolves (port : Z) (ip : IPAddress) (hosts : list string) : result bool :=
  match hosts with
  | [] => Ok false
  | h :: hosts' =>
      match getaddrinfo h port with
      | Ok addrs =>
          if existsb (fun a => bool_decide (parse_and_normalize_ip a = Some ip)) addrs
          then Ok true else some_host_resolves port ip hosts'
      | Err e => if is_os_error e then some_host_resolves port ip hosts' else Err e
      end
  end.

Definition resolves_internally (addrs : list string) : bool :=
  existsb (fun a => match parse_and_normalize_ip a with
                    | Some ip => is_restricted_or_internal_ip ip
                    | None => false
                    end) addrs.

Definition check_destination (g : NetworkSandboxGuard) (host_or_ip : string) (port : Z)
  : result unit :=
  if negb (ng_active g) then Ok tt
  else if bool_decide (ng_mode g = Some NET_DISABLED) then Err PermissionError
  else
    let parsed_ip := parse_and_normalize_ip host_or_ip in
    if match parsed_ip with Some ip => is_restricted_or_internal_ip ip | None => false end
    then Err PermissionError
    else if negb (bool_decide (port ∈ ng_allowed_ports g)) then Err PermissionError
    else match parsed_ip with
    | Some ip =>
        if bool_decide (ip_text ip ∈ ng_allowed_hosts g) then Ok tt
        else found ← some_host_resolves port ip (ng_allowed_hosts g);
             if found : bool then Ok tt else Err PermissionError
    | None =>
        let host_lower := str_lower (str_strip host_or_ip) in
        if negb (bool_decide (host_lower ∈ ng_allowed_hosts g)) then Err PermissionError
        else match getaddrinfo host_lower port with
        | Ok addrs => if resolves_internally addrs then Err PermissionError else Ok tt
        | Err GaiError => Err PermissionError
        | Err e => Err e
        end
    end.

Definition check_unix_socket (g : NetworkSandboxGuard) : result unit :=
  if negb (ng_active g) then Ok tt
  else if ng_allow_unix_sockets g then Ok tt else Err PermissionError.

Definition check_bind (g : NetworkSandboxGuard) : result unit :=
  if negb (ng_active g) then Ok tt
  else if ng_allow_bind g then Ok tt else Err PermissionError.

(** *** The audit hook *)

(** The address argument of an event: absent or None, a str, bytes or Path, a tuple (its
    length, [str] of its first item, [int] of its second), or any other object. *)
Inductive SocketAddress :=
| NoAddress
| PathAddress
| TupleAddress (len : nat) (host : string) (port : result Z)
| OtherAddress.

Definition AF_UNIX : Z := 1.

Definition audit_network (g : NetworkSandboxGuard) (event : string) (family : option Z)
  (address : SocketAddress) : result unit :=
  if negb (ng_active g) then Ok tt
  else if bool_decide (event ∈ ["socket.connect"; "socket.sendto"; "socket.sendmsg"]%string) then
    match address with
    | NoAddress => Ok tt
    | _ =>
        if bool_decide (family = Some AF_UNIX)
           || match address with PathAddress => true | _ => false end
        then check_unix_socket g
        else match address with
        | TupleAddress len host port =>
            if Nat.ltb len 2 then Ok tt
            else match port with
            | Ok p => check_destination g host p
            | Err ValueError | Err TypeError => Err PermissionError
            | Err e => Err e
            end
        | _ => Ok tt
        end
    end
  else if bool_decide (event = "socket.bind"%string) then check_bind g
  else Ok tt.
End resolver.

(** [install]: the number of hooks the interpreter holds for this guard. *)
Definition install_network (s : NetworkSandboxGuard * nat) : NetworkSandboxGuard * nat :=
  let '(g, hooks) := s in
  if ng_installed g then s
  else (mkNetGuard (ng_mode g) (ng_destinations g) (ng_allow_unix_sockets g) (ng_allow_bind g)
          (ng_allowed_ports g) (ng_allowed_hosts g) (ng_active g) true, S hooks).

(** ** Crossing the process boundary

    The parent dumps the capability, the child builds its guard from the parsed document. *)

Definition destination_dump (d : NetworkDestination) : json :=
  JObj [("host", JStr (nd_host d)); ("port", JNum (pretty (nd_port d)))].

(** [capabilities.network.model_dump()] as JSON prints it *)
Definition network_dump (c : NetworkCapability) : list (string * json) :=
  [("mode", JStr (mode_value (nc_mode c)));
   ("destinations", JArr (destination_dump <$> nc_destinations c));
   ("allowed_destinations", JArr (JStr <$> nc_allowed_destinations c));
   ("allow_unix_sockets", JBool (nc_allow_unix_sockets c));
   ("allow_bind", JBool (nc_allow_bind c))].

Definition truthy (v : json) : bool :=
  match v with
  | JNull => false
  | JBool b => b
  | JStr s => str_nonempty s
  | JNum repr => negb (bool_decide (repr ∈ ["0"; "-0"; "0.0"; "-0.0"]%string))
  | JArr [] | JObj [] => false
  | _ => true
  end.

(** [for item in v]: the items, or the TypeError of a value that cannot be iterated. *)
Fixpoint chars_of (s : string) : list json :=
  match s with
  | EmptyString => []
  | String c s' => JStr (String c EmptyString) :: chars_of s'
  end.

Definition json_iter (v : json) : result (list json) :=
  match v with
  | JArr l => Ok l
  | JObj l => Ok ((fun kv => JStr kv.1) <$> l)
  | JStr s => Ok (chars_of s)
  | _ => Err TypeError
  end.

Section from_dict.
(** Pydantic's conversion of a JSON value to an int field. *)
Context (lax_int : json -> option Z).

(** [NetworkDestination] built from the members of an object; unknown fields are refused. *)
Definition destination_of_members (d : list (string * json)) : result NetworkDestination :=
  if negb (forallb (fun kv => bool_decide (kv.1 ∈ ["host"; "port"]%string)) d) then Err ValueError
  else match dget "host" d, dget "port" d with
  | Some (JStr h), Some p => port ← of_option ValueError (lax_int p); network_destination h port
  | _, _ => Err ValueError
  end.

(** The comprehension over [raw_dests]: items that are not dicts are skipped. *)
Fixpoint dict_destinations (items : list json) : result (list NetworkDestination) :=
  match items with
  | [] => Ok []
  | JObj d :: items' =>
      x ← destination_of_members d; xs ← dict_destinations items'; Ok (x :: xs)
  | _ :: items' => dict_destinations items'
  end.

(** The loop over [allowed_destinations]: items that are not strings are skipped. *)
Fixpoint text_destinations (items : list json) : result (list NetworkDestination) :=
  match items with
  | [] => Ok []
  | JStr s :: items' =>
      '(h, p) ← split_host_port s; port ← int_of_text p; x ← network_destination h port;
      xs ← text_destinations items'; Ok (x :: xs)
  | _ :: items' => text_destinations items'
  end.

Definition mode_of_json (v : json) : result (option NetworkEgressMode) :=
  match v with
  | JStr s =>
      if bool_decide (s = "disabled"%string) then Ok (Some NET_DISABLED)
      else if bool_decide (s = "allowlist"%string) then Ok (Some NET_ALLOWLIST)
      else Err ValueError
  | _ => Ok None
  end.

Definition network_from_dict (data : list (string * json)) : result NetworkSandboxGuard :=
  mode ← mode_of_json (default (JStr (mode_value NET_DISABLED)) (dget "mode" data));
  let raw_dests := default (JArr []) (dget "destinations" data) in
  dests ← (if truthy raw_dests then items ← json_iter raw_dests; dict_destinations items
           else match dget "allowed_destinations" data with
                | Some v => items ← json_iter v; text_destinations items
                | None => Ok []
                end);
  Ok (network_guard mode dests
        (default false (truthy <$> dget "allow_unix_sockets" data))
        (default false (truthy <$> dget "allow_bind" data))).
End from_dict.

(** ** The confinement the guard gives *)

Lemma some_host_resolves_Ok gai port ip hosts :
  some_host_resolves gai port ip hosts = Ok true ->
  exists h addrs a, h ∈ hosts /\ gai h port = Ok addrs /\ a ∈ addrs
    /\ parse_and_normalize_ip a = Some ip.
Proof.
  induction hosts as [|h hosts IH]; simpl; [done|]. intros H.
  assert (some_host_resolves gai port ip hosts = Ok true -> exists h' addrs a, h' ∈ h :: hosts
    /\ gai h' port = Ok addrs /\ a ∈ addrs /\ parse_and_normalize_ip a = Some ip) as IH'.
  { intros Hr. destruct (IH Hr) as (h' & addrs & a & ? & ?). exists h', addrs, a. set_solver. }
  destruct (gai h port) as [addrs|e] eqn:Hg.
  - destruct (existsb _ addrs) eqn:Hx; [|by apply IH']. apply existsb_exists in Hx as (a & Ha & Heq).
    apply bool_decide_eq_true in Heq. exists h, addrs, a. apply list_elem_of_In in Ha. set_solver.
  - destruct (is_os_error e); [by apply IH'|done].
Qed.

(** What reaching [port] on the host text [host] may rest on. *)
Definition destination_authorized (gai : string -> Z -> result (list string))
  (ds : list NetworkDestination) (host : string) (port : Z) : Prop :=
  (exists d, d ∈ ds /\ nd_port d = port) /\
  match parse_and_normalize_ip host with
  | Some ip =>
      is_restricted_or_internal_ip ip = false /\
      exists d, d ∈ ds /\
        (str_lower (nd_host d) = ip_text ip \/
         exists addrs a, gai (str_lower (nd_host d)) port = Ok addrs /\ a ∈ addrs
           /\ parse_and_normalize_ip a = Some ip)
  | None =>
      exists d addrs, d ∈ ds /\ str_lower (nd_host d) = str_lower (str_strip host) /\
        gai (str_lower (str_strip host)) port = Ok addrs /\
        forall a ip, a ∈ addrs -> parse_and_normalize_ip a = Some ip ->
          is_restricted_or_internal_ip ip = false
  end.

Lemma resolves_internally_false addrs a ip :
  resolves_internally addrs = false -> a ∈ addrs -> parse_and_normalize_ip a = Some ip ->
  is_restricted_or_internal_ip ip = false.
Proof.
  intros H Ha Hp. destruct (is_restricted_or_internal_ip ip) eqn:Hr; [|done].
  enough (resolves_internally addrs = true) by congruence. apply existsb_exists.
  exists a. rewrite Hp. by rewrite <- list_elem_of_In.
Qed.

Lemma check_destination_Ok gai mode ds unix bind host port :
  check_destination gai (activate_network (network_guard mode ds unix bind)) host port = Ok tt ->
  mode <> Some NET_DISABLED /\ destination_authorized gai ds host port.
Proof.
  unfold check_destination, destination_authorized. simpl. intros H.
  case_bool_decide as Hm; [done|]. split; [done|].
  destruct (parse_and_normalize_ip host) as [ip|] eqn:Hip.
  - destruct (is_restricted_or_internal_ip ip); [done|].
    case_bool_decide as Hport; [|done]. simpl in H.
    rewrite elem_of_remove_dups, list_elem_of_fmap in Hport. destruct Hport as (d & -> & Hd).
    split; [by exists d|]. split; [done|]. case_bool_decide as Htext.
    + rewrite elem_of_remove_dups, list_elem_of_fmap in Htext. destruct Htext as (d' & Hd' & ?).
      exists d'. split; [done|]. by left.
    + destruct (some_host_resolves _ _ _ _) as [[]|] eqn:Hs; simplify_eq/=.
      apply some_host_resolves_Ok in Hs as (h & addrs & a & Hh & Hg & Ha & Hp).
      rewrite elem_of_remove_dups, list_elem_of_fmap in Hh. destruct Hh as (d' & -> & ?).
      exists d'. split; [done|]. right. by exists addrs, a.
  - case_bool_decide as Hport; [|done]. simpl in H.
    rewrite elem_of_remove_dups, list_elem_of_fmap in Hport. destruct Hport as (d & -> & Hd).
    split; [by exists d|]. case_bool_decide as Hh; [|done]. simpl in H.
    rewrite elem_of_remove_dups, list_elem_of_fmap in Hh. destruct Hh as (d' & Hd' & ?).
    destruct (gai _ _) as [addrs|e] eqn:Hg; [|by destruct e].
    destruct (resolves_internally addrs) eqn:Hr; [done|]. exists d', addrs.
    split; [done|]. split; [done|]. split; [done|]. intros a ip Ha Hp.
    by eapply resolves_internally_false.
Qed.


Definition sample_resolver (host : string) (port : Z) : result (list string) :=
  if bool_decide (host = "api.example.com"%string) then Ok ["93.184.216.34"%string] else Err GaiError.

Definition sample_destinations : list NetworkDestination :=
  [mkDestination "api.example.com" 443; mkDestination "mail.example.com" 25].


(** Ports and hosts are looked up independently: a pair that no destination names is let
    through when its port and its host each belong to one. *)
Lemma unlisted_pair_admitted :
  check_destination (fun _ _ => Ok ["93.184.216.34"%string])
    (activate_network (network_guard (Some NET_ALLOWLIST) sample_destinations false false))
    "mail.example.com" 443 = Ok tt
  /\ mkDestination "mail.example.com" 443 ∉ sample_destinations.
Proof. split; [vm_compute; reflexivity|]. unfold sample_destinations. set_solver. Qed.

(** ** One address, many spellings *)

Lemma parse_octet_pretty n : (n < 256)%N -> parse_octet (pretty n) = Some n.
Proof.
  intros Hn.
  assert (forallb (fun i => bool_decide (parse_octet (pretty (N.of_nat i)) = Some (N.of_nat i)))
            (seq 0 256) = true) as H by (vm_compute; reflexivity).
  rewrite forallb_forall in H. specialize (H (N.to_nat n)). rewrite N2Nat.id in H.
  apply bool_decide_eq_true in H; [done|]. apply in_seq. lia.
Qed.

Lemma ipv4_bytes n :
  (n < 4294967296)%N ->
  (((n / 16777216 mod 256 * 256 + n / 65536 mod 256) * 256 + n / 256 mod 256) * 256 + n mod 256
   = n)%N.
Proof.
  intros Hn. pose proof (N.div_mod n 256 ltac:(done)).
  pose proof (N.div_mod (n / 256) 256 ltac:(done)).
  pose proof (N.div_mod (n / 256 / 256) 256 ltac:(done)).
  rewrite !N.Div0.div_div in *. change (256 * 256)%N with 65536%N in *.
  change (65536 * 256)%N with 16777216%N in *.
  rewrite (N.mod_small (n / 16777216)) by (apply N.Div0.div_lt_upper_bound; lia). lia.
Qed.

Definition digit_or (c0 c : ascii) : bool := bool_decide (is_Some (dec_digit c)) || bool_decide (c = c0).

Lemma pretty_digit_or c0 (n : N) : str_forall (digit_or c0) (pretty n) = true.
Proof.
  apply pretty_forall. intros k Hk. unfold digit_or. by rewrite dec_digit_char, bool_decide_true by done.
Qed.

Lemma ipv4_text_forall n : str_forall (digit_or "."%char) (ipv4_text n) = true.
Proof.
  unfold ipv4_text. cbn [Json.join].
  rewrite !str_forall_app, !pretty_digit_or. done.
Qed.

Lemma pretty_no_dot (n : N) : has_char "."%char (pretty n) = false.
Proof. apply has_char_forall, pretty_forall. by_digit. Qed.

Lemma append_one c t : String c EmptyString +:+ t = String c t.
Proof. done. Qed.

Lemma str_split_ipv4 n :
  str_split "."%char (ipv4_text n) =
  [pretty (n / 16777216 mod 256)%N; pretty (n / 65536 mod 256)%N;
   pretty (n / 256 mod 256)%N; pretty (n mod 256)%N].
Proof.
  unfold ipv4_text. cbn [Json.join]. rewrite !append_one.
  rewrite (str_split_app "."%char _ _ (pretty_no_dot _)). f_equal.
  rewrite (str_split_app "."%char _ _ (pretty_no_dot _)). f_equal.
  rewrite (str_split_app "."%char _ _ (pretty_no_dot _)). f_equal.
  by rewrite (str_split_single "."%char _ (pretty_no_dot _)).
Qed.

Lemma parse_ipv4_text n : (n < 4294967296)%N -> parse_ipv4 (ipv4_text n) = Some n.
Proof.
  intros Hn. unfold parse_ipv4. rewrite str_split_ipv4.
  rewrite !parse_octet_pretty by (by apply N.mod_lt). simpl. by rewrite ipv4_bytes.
Qed.

(** A text without blanks or brackets is its own cleaned form. *)
Lemma cleaned_id s :
  str_forall (fun c => negb (is_space c) && negb (is_bracket c)) s = true ->
  str_strip_chars is_bracket (str_strip s) = s.
Proof.
  intros H. rewrite str_strip_none.
  - apply str_strip_chars_none. eapply str_forall_impl; [|exact H]. simpl. intros c.
    by destruct (is_space c), (is_bracket c).
  - eapply str_forall_impl; [|exact H]. simpl. intros c.
    by destruct (is_space c), (is_bracket c).
Qed.

Lemma no_hex_prefix s :
  str_forall (fun c => negb (bool_decide (ascii_lower c = "x"%char))) s = true ->
  String.prefix "0x" (str_lower s) = false.
Proof.
  unfold str_lower. destruct s as [|a [|b s]]; cbn [str_forall str_map]; intros H; [done| |].
  - rewrite str_prefix_cons. apply andb_false_r.
  - apply andb_true_iff in H as [_ [H _]%andb_true_iff].
    apply negb_true_iff, bool_decide_eq_false in H. rewrite !str_prefix_cons.
    rewrite (bool_decide_false ("x"%char = _)) by congruence. by rewrite andb_false_r.
Qed.

Lemma not_isdigit c s t : dec_digit c = None -> isdigit (s +:+ String c t) = false.
Proof.
  intros Hc. unfold isdigit. rewrite str_forall_app. simpl. rewrite Hc.
  rewrite (bool_decide_false (is_Some None)) by (by intros []). by rewrite !andb_false_r.
Qed.

Lemma digit_or_impl c0 (q : ascii -> bool) s :
  q c0 = true -> digit_closed q -> str_forall (digit_or c0) s = true -> str_forall q s = true.
Proof.
  intros H0 Hq. apply str_forall_impl. intros c [Hc|Hc]%orb_true_iff; apply bool_decide_eq_true in Hc.
  - destruct Hc as [d Hd]. unfold dec_digit, in_range in Hd. case_match eqn:Hr; [|done].
    apply andb_true_iff in Hr as [H1 H2]. apply N.leb_le in H1, H2. cbn in H1, H2.
    specialize (Hq (N_of_ascii c - 48)%N ltac:(lia)).
    assert (forall k, (k < 10)%N -> pretty_N_char k = ascii_of_N (48 + k)) as Hch by by_digit.
    rewrite Hch in Hq by lia. replace (48 + (N_of_ascii c - 48))%N with (N_of_ascii c) in Hq by lia.
    by rewrite ascii_N_embedding in Hq.
  - by subst.
Qed.

Lemma parse_dotted n :
  (n < 4294967296)%N -> parse_and_normalize_ip (ipv4_text n) = Some (IPv4 n).
Proof.
  intros Hn. unfold parse_and_normalize_ip. rewrite cleaned_id.
  2: { eapply digit_or_impl; [| |apply ipv4_text_forall]; [done|by_digit]. }
  assert (isdigit (ipv4_text n) = false) as Hd.
  { unfold ipv4_text. cbn [Json.join]. rewrite !append_one. by apply (not_isdigit "."%char). }
  assert (str_nonempty (ipv4_text n) = true) as ->.
  { pose proof (str_split_ipv4 n) as Hs. by destruct (ipv4_text n). }
  unfold integer_form, ip_address. rewrite Hd, no_hex_prefix, parse_ipv4_text; [done..|].
  eapply digit_or_impl; [| |apply ipv4_text_forall]; [done|by_digit].
Qed.

Lemma parse_decimal n :
  (n < 4294967296)%N -> parse_and_normalize_ip (pretty n) = Some (IPv4 n).
Proof.
  intros Hn. unfold parse_and_normalize_ip.
  rewrite cleaned_id by (apply pretty_forall; by_digit).
  pose proof (pretty_isdigit n) as Hd.
  assert (str_nonempty (pretty n) = true) as ->.
  { unfold isdigit in Hd. by apply andb_true_iff in Hd as [-> _]. }
  unfold integer_form. rewrite Hd, py_int_pretty.
  - simpl. rewrite N2Z.id. assert (n <=? MAX_IPV4 = true)%N as -> by (apply N.leb_le; unfold MAX_IPV4; lia). done.
  - etrans; [apply (pretty_length n 9)|unfold MAX_STR_DIGITS; lia].
    change (10 ^ N.of_nat 10)%N with 10000000000%N. lia.
Qed.

Lemma parse_hexadecimal n :
  (n < 4294967296)%N -> parse_and_normalize_ip ("0x" +:+ hex_text n) = Some (IPv4 n).
Proof.
  intros Hn. destruct (hex_text_spec n) as (Hne & Hv & _).
  assert (str_forall (fun c => negb (is_space c) && negb (is_bracket c)) ("0x" +:+ hex_text n) = true) as Hcl.
  { rewrite str_forall_app. simpl. by apply hex_text_forall. }
  unfold parse_and_normalize_ip. rewrite cleaned_id by done.
  change ("0x" +:+ hex_text n) with (String "0" (String "x" (hex_text n))) in *.
  cbn [str_nonempty negb]. unfold integer_form, isdigit. cbn [str_nonempty str_forall andb].
  assert (bool_decide (is_Some (dec_digit "x"%char)) = false) as ->
    by (apply bool_decide_false; intros [? [=]]).
  rewrite andb_false_r. cbn [andb].
  assert (String.prefix "0x" (str_lower (String "0" (String "x" (hex_text n)))) = true) as ->.
  { unfold str_lower. cbn [str_map]. generalize (str_map ascii_lower (hex_text n)). by intros []. }
  unfold py_int_hex. rewrite str_strip_none.
  2: { eapply str_forall_impl; [|exact Hcl]. simpl. intros c. by destruct (is_space c). }
  rewrite Hne, drop_underscores_none; [|by apply hex_text_forall|by left].
  simpl. rewrite Hv. simpl.
  assert (n <=? MAX_IPV4 = true)%N as -> by (apply N.leb_le; unfold MAX_IPV4; lia). done.
Qed.

Lemma has_char_none c s :
  str_forall (fun d => negb (bool_decide (d = c))) s = true -> has_char c s = false.
Proof. apply has_char_forall. Qed.

Lemma ipv4_text_no_char c n :
  forallb (fun k => negb (bool_decide (k = c))) ["0"; "1"; "2"; "3"; "4"; "5"; "6"; "7"; "8"; "9"; "."]%char
    = true -> has_char c (ipv4_text n) = false.
Proof.
  intros H. simpl in H. repeat (apply andb_true_iff in H as [? H]).
  apply has_char_none. eapply digit_or_impl; [| |apply ipv4_text_forall].
  - done.
  - intros k Hk. pattern k. revert k Hk. by apply digit_cases.
Qed.

Lemma parse_hextet_text n : (n < 65536)%N -> parse_hextet (hex_text n) = Some n.
Proof.
  intros Hn. destruct (hex_text_spec n) as (Hne & Hv & _). unfold parse_hextet.
  pose proof (hex_text_length n 3 ltac:(change (16 ^ N.of_nat 4)%N with 65536%N; lia)).
  destruct (Nat.ltb_spec 4 (String.length (hex_text n))); [lia|]. by rewrite Hne, Hv.
Qed.

Definition MAPPED_PREFIX : string := "::ffff:".

Lemma expand_dotted_text a b c n :
  (n < 4294967296)%N ->
  expand_dotted [a; b; c; ipv4_text n] =
  Some [a; b; c; hex_text ((n / 65536) mod 65536); hex_text (n mod 65536)].
Proof.
  intros Hn. unfold expand_dotted. cbn [List.last].
  assert (has_char "."%char (ipv4_text n) = true) as ->.
  { unfold ipv4_text. cbn [Json.join]. rewrite !append_one, has_char_app. simpl.
    by rewrite orb_true_r. }
  by rewrite parse_ipv4_text.
Qed.

Lemma parse_ipv6_int_mapped n :
  (n < 4294967296)%N -> parse_ipv6_int (MAPPED_PREFIX +:+ ipv4_text n) = Some (65535 * 4294967296 + n)%N.
Proof.
  intros Hn. unfold parse_ipv6_int.
  assert (str_split ":"%char (MAPPED_PREFIX +:+ ipv4_text n)
          = [EmptyString; EmptyString; "ffff"%string; ipv4_text n]) as ->.
  { change (MAPPED_PREFIX +:+ ipv4_text n) with (EmptyString +:+ String ":"%char
      (EmptyString +:+ String ":"%char ("ffff"%string +:+ String ":"%char (ipv4_text n)))).
    rewrite !str_split_app by done.
    by rewrite (str_split_single ":"%char (ipv4_text n)) by (by apply ipv4_text_no_char). }
  cbn [length Nat.ltb Nat.leb]. rewrite expand_dotted_text by done. cbn [mbind option_bind length].
  destruct (hex_text_spec ((n / 65536) mod 65536)) as (Hne1 & _ & _).
  destruct (hex_text_spec (n mod 65536)) as (Hne2 & _ & _).
  unfold inner_empties. cbn [length Nat.sub seq List.filter lookup list_lookup].
  rewrite (bool_decide_true (Some EmptyString = Some EmptyString)) by done.
  rewrite (bool_decide_false (Some "ffff"%string = Some EmptyString)) by done.
  rewrite (bool_decide_false (Some (hex_text _) = Some EmptyString))
    by (intros [= He]; by rewrite He in Hne1).
  cbn [hd List.last str_nonempty negb Nat.sub Nat.add Nat.eqb andb Nat.leb take drop].
  rewrite Hne2. cbn [negb andb Nat.sub Nat.add Nat.leb take drop fold_hextets mbind option_bind].
  unfold shift_in. rewrite !parse_hextet_text by (by apply N.mod_lt).
  change (parse_hextet "ffff") with (Some 65535%N). cbn [mbind option_bind].
  pose proof (N.div_mod n 65536 ltac:(done)).
  rewrite (N.mod_small (n / 65536)) by (apply N.Div0.div_lt_upper_bound; lia). f_equal. lia.
Qed.

Lemma parse_mapped n :
  (n < 4294967296)%N ->
  parse_and_normalize_ip (MAPPED_PREFIX +:+ ipv4_text n) = Some (IPv4 n).
Proof.
  intros Hn. unfold parse_and_normalize_ip.
  assert (forall q : ascii -> bool, forallb q [":"; "f"; "."]%char = true -> digit_closed q ->
            str_forall q (MAPPED_PREFIX +:+ ipv4_text n) = true) as Hall.
  { intros q Hq Hd. simpl in Hq. repeat (apply andb_true_iff in Hq as [? Hq]).
    rewrite str_forall_app. apply andb_true_iff. split.
    - simpl. by repeat (apply andb_true_iff; split).
    - eapply digit_or_impl; [| |apply ipv4_text_forall]; done. }
  rewrite cleaned_id by (apply Hall; [done|by_digit]).
  assert (str_nonempty (MAPPED_PREFIX +:+ ipv4_text n) = true) as -> by done.
  unfold integer_form. rewrite no_hex_prefix by (apply Hall; [done|by_digit]).
  assert (isdigit (MAPPED_PREFIX +:+ ipv4_text n) = false) as -> by done.
  cbn [negb mbind option_bind]. unfold ip_address, parse_ipv6.
  assert (parse_ipv4 (MAPPED_PREFIX +:+ ipv4_text n) = None) as ->.
  { unfold parse_ipv4, ipv4_text. cbn [Json.join]. rewrite !append_one.
    rewrite <- append_assoc.
    rewrite (str_split_app "."%char (MAPPED_PREFIX +:+ _)).
    2: { rewrite has_char_app, pretty_no_dot. done. }
    repeat (rewrite (str_split_app "."%char _ _ (pretty_no_dot _))).
    rewrite (str_split_single "."%char _ (pretty_no_dot _)). done. }
  rewrite has_char_none by (apply Hall; [done|by_digit]).
  rewrite str_split_single by (apply has_char_none, Hall; [done|by_digit]).
  rewrite parse_ipv6_int_mapped by done. simpl. unfold ipv4_mapped.
  rewrite N.div_add_l, N.div_small by lia. simpl.
  rewrite N.Div0.add_mod, N.Div0.mod_mul, N.add_0_l, N.Div0.mod_mod. by rewrite N.mod_small.
Qed.

(** The spellings of an IPv4 address an attacker can choose from. *)
Definition spellings (n : N) : list string :=
  [ipv4_text n; pretty n; "0x" +:+ hex_text n; MAPPED_PREFIX +:+ ipv4_text n].

(** Whatever spelling of an IPv4 address a tool connects to, dotted, decimal,
    hexadecimal or mapped into IPv6, the guard decides as for the address itself; so an
    address in an internal range is refused in every spelling by every active guard,
    whatever the allowlist and whatever names resolve to. *)
Theorem spelling_does_not_matter gai g port n s :
  (n < 4294967296)%N -> s ∈ spellings n ->
  parse_and_normalize_ip s = Some (IPv4 n)
  /\ check_destination gai g s port = check_destination gai g (ipv4_text n) port
  /\ (ng_active g = true -> is_restricted_or_internal_ip (IPv4 n) = true ->
      check_destination gai g s port = Err PermissionError).
Proof.
  intros Hn Hs.
  assert (parse_and_normalize_ip s = Some (IPv4 n)) as Hp.
  { unfold spellings in Hs. repeat (apply elem_of_cons in Hs as [->|Hs]).
    - by apply parse_dotted.
    - by apply parse_decimal.
    - by apply parse_hexadecimal.
    - by apply parse_mapped.
    - set_solver. }
  split; [done|]. unfold check_destination. rewrite Hp, parse_dotted by done. split; [done|].
  intros -> ->. simpl. by case_bool_decide.
Qed.

Lemma spelling_does_not_matter_witness :
  check_destination sample_resolver
    (activate_network (network_guard (Some NET_ALLOWLIST) [mkDestination "127.0.0.1" 443] false false))
    "0x7f000001" 443 = Err PermissionError.
Proof.
  refine (proj2 (proj2 (spelling_does_not_matter sample_resolver
    (activate_network (network_guard (Some NET_ALLOWLIST) [mkDestination "127.0.0.1" 443] false false))
    443 2130706433 "0x7f000001" _ _)) _ _).
  - reflexivity.
  - assert ("0x" +:+ hex_text 2130706433 = "0x7f000001"%string) as <- by (vm_compute; reflexivity).
    unfold spellings. right. right. left.
  - reflexivity.
  - vm_compute; reflexivity.
Defined.

(** ** The guard of the child is the guard of the capability *)

Lemma dict_destinations_dump lax ds :
  (forall p, 1 <= p <= 65535 -> lax (JNum (pretty p)) = Some p) -> Forall destination_wf ds ->
  dict_destinations lax (destination_dump <$> ds) = Ok ds.
Proof.
  intros Hlax. induction 1 as [|d ds Hd _ IH]; [done|].
  assert (destination_of_members lax [("host"%string, JStr (nd_host d));
            ("port"%string, JNum (pretty (nd_port d)))] = Ok d) as Hm.
  { unfold destination_of_members. cbn [forallb fst].
    rewrite !bool_decide_true by set_solver. cbn [andb negb dget]. simpl.
    rewrite Hlax by apply Hd. simpl. by apply network_destination_id. }
  rewrite fmap_cons. unfold destination_dump at 1. cbn [dict_destinations].
  rewrite Hm. cbn [mbind result_bind]. by rewrite IH.
Qed.

(** The guard the child builds from the dumped network capability is the guard of that
    capability: the same mode, destinations, ports, hosts and flags, so what the parent
    authorised is what the child enforces. *)
Theorem child_guard_enforces_capability lax c :
  (forall p, 1 <= p <= 65535 -> lax (JNum (pretty p)) = Some p) -> network_wf c ->
  network_from_dict lax (network_dump c) =
  Ok (network_guard (Some (nc_mode c)) (nc_destinations c) (nc_allow_unix_sockets c)
        (nc_allow_bind c)).
Proof.
  destruct c as [m ds al unix bind]. intros Hlax [Hwf [_ Hempty]]. cbn [nc_destinations nc_mode
    nc_allow_unix_sockets nc_allow_bind nc_allowed_destinations] in *.
  set (c := mkNetCap m ds al unix bind). unfold network_from_dict.
  assert (dget "mode" (network_dump c) = Some (JStr (mode_value m))) as -> by done.
  assert (dget "destinations" (network_dump c) = Some (JArr (destination_dump <$> ds))) as -> by done.
  assert (dget "allowed_destinations" (network_dump c) = Some (JArr (JStr <$> al))) as -> by done.
  assert (dget "allow_unix_sockets" (network_dump c) = Some (JBool unix)) as -> by done.
  assert (dget "allow_bind" (network_dump c) = Some (JBool bind)) as -> by done.
  assert (mode_of_json (default (JStr (mode_value NET_DISABLED)) (Some (JStr (mode_value m)))) = Ok (Some m)) as ->
    by (by destruct m).
  pose proof (dict_destinations_dump lax ds Hlax Hwf) as Hd.
  destruct ds as [|d ds]; [by rewrite (proj1 Hempty eq_refl)|].
  rewrite fmap_cons in Hd |- *. cbn [default from_option id mbind result_bind truthy json_iter].
  by rewrite Hd.
Qed.

Definition sample_lax (v : json) : option Z := match v with JNum r => py_int r | _ => None end.

Lemma sample_lax_ports p : 1 <= p <= 65535 -> sample_lax (JNum (pretty p)) = Some p.
Proof.
  intros Hp. destruct p as [|q|q]; [lia| |lia].
  change (pretty (Zpos q)) with (pretty (Npos q)). apply py_int_pretty.
  etrans; [apply (pretty_length _ 4); change (10 ^ N.of_nat 5)%N with 100000%N; lia|].
  unfold MAX_STR_DIGITS. lia.
Qed.

Lemma child_guard_enforces_capability_witness :
  exists g, network_from_dict sample_lax (network_dump (mkNetCap NET_ALLOWLIST
    [mkDestination "api.example.com" 443] ["api.example.com:443"%string] false false)) = Ok g
  /\ ng_allowed_ports g = [443].
Proof.
  eexists. split.
  - refine (child_guard_enforces_capability sample_lax (mkNetCap NET_ALLOWLIST
      [mkDestination "api.example.com" 443] ["api.example.com:443"%string] false false)
      sample_lax_ports _).
    split; simpl.
    + constructor; [|constructor]. repeat split; simpl; (discriminate || lia || (vm_compute; reflexivity)).
    + split; [|done]. intros d ->%list_elem_of_singleton. eexists. split; [by left|].
      left. vm_compute. reflexivity.
  - reflexivity.
Defined.
