(* ===== verification/FilesystemGuard.v ===== *)
(** * The filesystem guard of the sandbox

    [runtime/sandbox/filesystem.py]: the decision on every path a sandboxed tool opens,
    lists or changes.  [Path.resolve], which reads the filesystem, is a parameter; the
    comparisons of resolved paths are lexical, as in the code. *)

From S2P Require Import Prelude PyDict Json Paths PyInt Binding Authority Capabilities CapabilityModels.
Local Open Scope Z_scope.

Record FilesystemSandboxGuard := mkFsGuard {
  fg_workspace_root : Path;
  fg_allowed_subpaths : list string;
  fg_read_only : bool;
  fg_allow_temp_writes : bool;
  fg_scratch_dir : option Path;
  fg_platform_root : option Path;
  fg_runtime_dirs : list Path;
  fg_active : bool;
  fg_installed : bool;
}.

(** The target of an operation: None, an int (a descriptor), the text of anything else, or
    an object whose text cannot be computed. *)
Inductive AccessTarget :=
| TargetNone
| TargetInt
| TargetText (s : string)
| TargetBad.

Definition SENSITIVE_WORDS : list string := ["jwt"; "secret"; "password"].

(** The name test on sensitive files. *)
Definition sensitive_name (p : Path) : bool :=
  String.prefix ".env" (path_name p)
  || existsb (fun w => str_contains w (str_lower (path_name p))) SENSITIVE_WORDS.

Definition DEVNULL : string := "/dev/null".

Section guard.
(** [path.resolve()] *)
Context (resolve : Path -> result Path).

(** [Path(x).resolve() if x else None] *)
Definition resolve_opt (x : option string) : result (option Path) :=
  match x with
  | Some s => if str_nonempty s then p ← resolve (parse_path s); Ok (Some p) else Ok None
  | None => Ok None
  end.

(** The runtime directories: a prefix that cannot be resolved is left out. *)
Fixpoint resolve_runtime_dirs (prefixes : list string) : list Path :=
  match prefixes with
  | [] => []
  | p :: ps =>
      if str_nonempty p then
        match resolve (parse_path p) with
        | Ok d => d :: resolve_runtime_dirs ps
        | Err _ => resolve_runtime_dirs ps
        end
      else resolve_runtime_dirs ps
  end.

(** [__init__]; [prefixes] are [sys.base_prefix], [sys.prefix] and [sys.exec_prefix]. *)
Definition filesystem_guard (prefixes : list string) (workspace_root : string)
  (allowed_subpaths : list string) (read_only allow_temp_writes : bool)
  (scratch_dir platform_root : option string) : result FilesystemSandboxGuard :=
  root ← resolve (parse_path workspace_root);
  scratch ← resolve_opt scratch_dir;
  platform ← resolve_opt platform_root;
  Ok (mkFsGuard root allowed_subpaths read_only allow_temp_writes scratch platform
        (resolve_runtime_dirs prefixes) false false).

(** The dumped capability as the child parses it; [None] is a missing field. *)
Record FilesystemDict := mkFsDict {
  fd_workspace_root : option string;
  fd_read_only : option bool;
  fd_allowed_subpaths : option (list string);
  fd_allow_temp_writes : option bool;
}.

Definition filesystem_from_dict (prefixes : list string) (data : FilesystemDict)
  (scratch_dir platform_root : option string) : result FilesystemSandboxGuard :=
  match fd_workspace_root data with
  | None => Err KeyError
  | Some root =>
      filesystem_guard prefixes root (default [] (fd_allowed_subpaths data))
        (default true (fd_read_only data)) (default false (fd_allow_temp_writes data))
        scratch_dir platform_root
  end.

(** ** check_access *)

(** The path an access text denotes: relative texts are taken from the workspace root. *)
Definition resolve_target (g : FilesystemSandboxGuard) (s : string) : result Path :=
  let target_path := parse_path s in
  if negb (is_absolute target_path) then resolve (path_div (fg_workspace_root g) target_path)
  else resolve target_path.

Definition under (root : option Path) (p : Path) : bool :=
  match root with Some r => is_relative_to p r | None => false end.

Definition subpath (g : FilesystemSandboxGuard) (sub : string) : Path :=
  path_div (fg_workspace_root g) (parse_path sub).

Definition check_write (g : FilesystemSandboxGuard) (p : Path) : result unit :=
  if fg_read_only g then
    if fg_allow_temp_writes g && bool_decide (is_Some (fg_scratch_dir g)) then
      if negb (under (fg_scratch_dir g) p) then Err PermissionError else Ok tt
    else Err PermissionError
  else if under (fg_scratch_dir g) p then Ok tt
  else if negb (is_relative_to p (fg_workspace_root g)) then Err PermissionError
  else if negb (bool_decide (fg_allowed_subpaths g = [])) then
    if existsb (fun sub => is_relative_to p (subpath g sub)) (fg_allowed_subpaths g)
    then Ok tt else Err PermissionError
  else Ok tt.

Definition check_read (g : FilesystemSandboxGuard) (p : Path) : result unit :=
  if under (fg_scratch_dir g) p then Ok tt
  else if is_relative_to p (fg_workspace_root g) then
    if negb (bool_decide (fg_allowed_subpaths g = [])) then
      if negb (existsb (fun sub => is_relative_to p (subpath g sub)
                                   || is_relative_to (subpath g sub) p) (fg_allowed_subpaths g))
         && negb (bool_decide (p = fg_workspace_root g))
      then Err PermissionError else Ok tt
    else Ok tt
  else if existsb (fun rd => is_relative_to p rd) (fg_runtime_dirs g) then Ok tt
  else Err PermissionError.

Definition check_access (g : FilesystemSandboxGuard) (target : AccessTarget) (is_write : bool)
  : result unit :=
  if negb (fg_active g) then Ok tt
  else match target with
  | TargetNone | TargetInt => Ok tt
  | TargetBad => Err PermissionError
  | TargetText s =>
      if negb (str_nonempty (str_strip s)) then Ok tt
      else if bool_decide (s = DEVNULL) then Ok tt
      else match resolve_target g s with
      | Err _ => Err PermissionError
      | Ok resolved =>
          if sensitive_name resolved then Err PermissionError
          else if under (fg_platform_root g) resolved
                  && negb (is_relative_to resolved (fg_workspace_root g)) then Err PermissionError
          else if is_write then check_write g resolved else check_read g resolved
      end
  end.

(** ** The audit hook *)

(** An argument of an event, as far as the hook looks at it. *)
Inductive EventArg :=
| ArgTarget (t : AccessTarget)
| ArgMode (mode : string)
| ArgFlags (flags : Z)
| ArgOther.

Definition O_WRONLY : Z := 1.
Definition O_RDWR : Z := 2.
Definition O_CREAT : Z := 64.
Definition O_TRUNC : Z := 512.
Definition O_APPEND : Z := 1024.
Definition WRITE_MASK : Z :=
  Z.lor O_WRONLY (Z.lor O_RDWR (Z.lor O_CREAT (Z.lor O_APPEND O_TRUNC))).

(** [args[i] if len(args) > i else None], used as a path *)
Definition path_arg (args : list EventArg) (i : nat) : AccessTarget :=
  match args !! i with
  | Some (ArgTarget t) => t
  | Some (ArgMode s) => TargetText s
  | Some (ArgFlags _) => TargetInt
  | Some ArgOther => TargetBad
  | None => TargetNone
  end.

Definition mode_writes (mode : string) : bool :=
  has_char "w"%char mode || has_char "a"%char mode || has_char "x"%char mode
  || has_char "+"%char mode.

(** Whether an [open] event asks for writing: the mode decides when it is a str, otherwise
    the flags, which are 0 when absent. *)
Definition open_writes (args : list EventArg) : bool :=
  match args !! 1%nat with
  | Some (ArgMode mode) => mode_writes mode
  | Some (ArgTarget (TargetText mode)) => mode_writes mode
  | _ => match args !! 2%nat with
         | Some (ArgFlags flags) => negb (Z.land flags WRITE_MASK =? 0)
         | _ => false
         end
  end.

Definition audit_filesystem (g : FilesystemSandboxGuard) (event : string) (args : list EventArg)
  : result unit :=
  if negb (fg_active g) then Ok tt
  else if bool_decide (event = "open"%string)
  then check_access g (path_arg args 0) (open_writes args)
  else if bool_decide (event ∈ ["os.listdir"; "os.scandir"]%string)
  then check_access g (path_arg args 0) false
  else if bool_decide (event ∈ ["os.mkdir"; "os.rmdir"; "os.remove"; "os.unlink"; "os.chmod"]%string)
  then check_access g (path_arg args 0) true
  else if bool_decide (event ∈ ["os.rename"; "os.replace"]%string)
  then _ ← check_access g (path_arg args 0) true; check_access g (path_arg args 1) true
  else if bool_decide (event ∈ ["os.symlink"; "os.link"]%string)
  then _ ← check_access g (path_arg args 1) true; check_access g (path_arg args 0) false
  else Ok tt.
End guard.

Definition set_fg_active (b : bool) (g : FilesystemSandboxGuard) : FilesystemSandboxGuard :=
  mkFsGuard (fg_workspace_root g) (fg_allowed_subpaths g) (fg_read_only g)
    (fg_allow_temp_writes g) (fg_scratch_dir g) (fg_platform_root g) (fg_runtime_dirs g) b
    (fg_installed g).

Definition activate_filesystem : FilesystemSandboxGuard -> FilesystemSandboxGuard :=
  set_fg_active true.
Definition deactivate_filesystem : FilesystemSandboxGuard -> FilesystemSandboxGuard :=
  set_fg_active false.

Definition install_filesystem (s : FilesystemSandboxGuard * nat) : FilesystemSandboxGuard * nat :=
  let '(g, hooks) := s in
  if fg_installed g then s
  else (mkFsGuard (fg_workspace_root g) (fg_allowed_subpaths g) (fg_read_only g)
          (fg_allow_temp_writes g) (fg_scratch_dir g) (fg_platform_root g) (fg_runtime_dirs g)
          (fg_active g) true, S hooks).

(** ** The authority the guard grants *)

Definition write_permitted (g : FilesystemSandboxGuard) (p : Path) : Prop :=
  if fg_read_only g then fg_allow_temp_writes g = true /\ under (fg_scratch_dir g) p = true
  else under (fg_scratch_dir g) p = true \/
       is_relative_to p (fg_workspace_root g) = true /\
       (fg_allowed_subpaths g = [] \/
        exists sub, sub ∈ fg_allowed_subpaths g /\ is_relative_to p (subpath g sub) = true).

Definition read_permitted (g : FilesystemSandboxGuard) (p : Path) : Prop :=
  under (fg_scratch_dir g) p = true \/
  (is_relative_to p (fg_workspace_root g) = true /\
   (fg_allowed_subpaths g = [] \/ p = fg_workspace_root g \/
    exists sub, sub ∈ fg_allowed_subpaths g /\
      (is_relative_to p (subpath g sub) = true \/ is_relative_to (subpath g sub) p = true))) \/
  (is_relative_to p (fg_workspace_root g) = false /\
   exists rd, rd ∈ fg_runtime_dirs g /\ is_relative_to p rd = true).

Definition access_permitted (g : FilesystemSandboxGuard) (p : Path) (is_write : bool) : Prop :=
  sensitive_name p = false /\
  (under (fg_platform_root g) p = true -> is_relative_to p (fg_workspace_root g) = true) /\
  if is_write then write_permitted g p else read_permitted g p.

(** Texts the guard lets through without looking at a path. *)
Definition exempt (s : string) : bool := negb (str_nonempty (str_strip s)) || bool_decide (s = DEVNULL).

Lemma existsb_elem {A} (f : A -> bool) l : existsb f l = true <-> exists x, x ∈ l /\ f x = true.
Proof.
  rewrite existsb_exists. split; intros (x & Hx & Hf); exists x; split; auto;
    by apply list_elem_of_In.
Qed.

Lemma check_write_Ok g p : check_write g p = Ok tt <-> write_permitted g p.
Proof.
  unfold check_write, write_permitted.
  destruct (fg_read_only g), (fg_allow_temp_writes g); simpl; try naive_solver.
  - destruct (fg_scratch_dir g) as [s|]; simpl; [|naive_solver].
    destruct (is_relative_to p s); naive_solver.
  - destruct (under (fg_scratch_dir g) p); [naive_solver|].
    destruct (is_relative_to p (fg_workspace_root g)); simpl; [|naive_solver].
    case_bool_decide as Hs; simpl; [naive_solver|].
    rewrite <- (existsb_elem (fun sub => is_relative_to p (subpath g sub))).
    destruct (existsb _ _); naive_solver.
  - destruct (under (fg_scratch_dir g) p); [naive_solver|].
    destruct (is_relative_to p (fg_workspace_root g)); simpl; [|naive_solver].
    case_bool_decide as Hs; simpl; [naive_solver|].
    rewrite <- (existsb_elem (fun sub => is_relative_to p (subpath g sub))).
    destruct (existsb _ _); naive_solver.
Qed.

Lemma check_read_Ok g p : check_read g p = Ok tt <-> read_permitted g p.
Proof.
  unfold check_read, read_permitted.
  destruct (under (fg_scratch_dir g) p); [naive_solver|].
  destruct (is_relative_to p (fg_workspace_root g)); simpl.
  - case_bool_decide as Hs; simpl; [naive_solver|].
    setoid_rewrite <- orb_true_iff.
    rewrite <- (existsb_elem (fun sub => is_relative_to p (subpath g sub) || is_relative_to (subpath g sub) p)).
    destruct (existsb _ _); simpl; [naive_solver|]. case_bool_decide; naive_solver.
  - rewrite <- (existsb_elem (fun rd => is_relative_to p rd)).
    destruct (existsb _ _); naive_solver.
Qed.

Lemma check_write_error g p e : check_write g p = Err e -> e = PermissionError.
Proof. unfold check_write. by repeat case_match; intros; simplify_eq. Qed.

Lemma check_read_error g p e : check_read g p = Err e -> e = PermissionError.
Proof. unfold check_read. by repeat case_match; intros; simplify_eq. Qed.

Lemma ok_exists {A} (p : A) (Q : A -> Prop) :
  (false = true \/ exists q, Ok p = Ok q /\ Q q) <-> Q p.
Proof. split; [intros [?|(q & [= <-] & ?)]; done|]. intros ?. right. by exists p. Qed.

(** The decision on a path text, characterised. *)
Lemma check_access_text_Ok resolve g s w :
  fg_active g = true ->
  check_access resolve g (TargetText s) w = Ok tt <->
  exempt s = true \/ exists p, resolve_target resolve g s = Ok p /\ access_permitted g p w.
Proof.
  intros Ha. unfold check_access, exempt, access_permitted. rewrite Ha. simpl.
  destruct (str_nonempty (str_strip s)); simpl; [|naive_solver].
  case_bool_decide as Hd; [naive_solver|].
  destruct (resolve_target resolve g s) as [p|e]; [|split; [done|]; by intros [?|(p & ? & _)]].
  rewrite ok_exists.
  destruct (sensitive_name p); [split; [done|]; by intros [? _]|].
  destruct (under (fg_platform_root g) p), (is_relative_to p (fg_workspace_root g)); simpl;
    try (split; [done|]; intros (_ & H & _); by discriminate (H eq_refl));
    destruct w; rewrite ?check_write_Ok, ?check_read_Ok; tauto.
Qed.

Lemma check_access_error resolve g t w e :
  check_access resolve g t w = Err e -> e = PermissionError.
Proof.
  unfold check_access. intros H. repeat case_match; simplify_eq; eauto using check_write_error, check_read_error.
Qed.

(** An active guard decides a path exactly as its capability says: it lets an access
    through when the text names no path or the null device, or when the path it resolves to
    is not a secret, not a platform file outside the workspace, and lies where the
    capability permits that reading or writing; every other access raises PermissionError,
    and so does a path that cannot be resolved. *)
Theorem filesystem_guard_decides resolve g s w :
  fg_active g = true ->
  (check_access resolve g (TargetText s) w = Ok tt /\
   (exempt s = true \/ exists p, resolve_target resolve g s = Ok p /\ access_permitted g p w))
  \/ (check_access resolve g (TargetText s) w = Err PermissionError /\
      ~ (exempt s = true \/ exists p, resolve_target resolve g s = Ok p /\ access_permitted g p w)).
Proof.
  intros Ha. pose proof (check_access_text_Ok resolve g s w Ha) as Hiff.
  destruct (check_access resolve g (TargetText s) w) as [[]|e] eqn:Hc.
  - left. split; [done|]. by apply Hiff.
  - right. rewrite (check_access_error resolve g (TargetText s) w e Hc) in *.
    split; [done|]. intros H. apply Hiff in H. congruence.
Qed.

(** ** Events *)

(** The targets an event changes, among the events the guard treats as changes. *)
Definition written_targets (event : string) (args : list EventArg) : list AccessTarget :=
  if bool_decide (event = "open"%string) then if open_writes args then [path_arg args 0] else []
  else if bool_decide (event ∈ ["os.mkdir"; "os.rmdir"; "os.remove"; "os.unlink"; "os.chmod"]%string)
  then [path_arg args 0]
  else if bool_decide (event ∈ ["os.rename"; "os.replace"]%string)
  then [path_arg args 0; path_arg args 1]
  else if bool_decide (event ∈ ["os.symlink"; "os.link"]%string) then [path_arg args 1]
  else [].

Lemma audit_checks_writes resolve g event args t :
  audit_filesystem resolve g event args = Ok tt -> fg_active g = true ->
  t ∈ written_targets event args -> check_access resolve g t true = Ok tt.
Proof.
  unfold audit_filesystem, written_targets. intros H Ha Ht. revert H Ht. rewrite Ha. simpl.
  case_bool_decide as H1.
  { intros H. destruct (open_writes args); [|set_solver]. by intros ->%list_elem_of_singleton. }
  case_bool_decide as H2.
  { rewrite !bool_decide_false by set_solver. set_solver. }
  case_bool_decide as H3; [by intros H ->%list_elem_of_singleton|].
  case_bool_decide as H4.
  { destruct (check_access resolve g (path_arg args 0) true) as [[]|] eqn:Hc; simpl; [|done].
    by intros H [->| ->%list_elem_of_singleton]%elem_of_cons. }
  case_bool_decide as H5; [|set_solver].
  destruct (check_access resolve g (path_arg args 1) true) as [[]|] eqn:Hc; simpl; [|done].
  by intros _ ->%list_elem_of_singleton.
Qed.

(** Under a read-only capability, no intercepted event that changes the filesystem goes
    through unless every path it changes resolves inside the scratch directory, and none
    does at all when temporary writes are not allowed; descriptors, empty texts and the null
    device are not paths to the guard. *)
Theorem read_only_workspace_is_not_written resolve g event args s :
  fg_active g = true -> fg_read_only g = true ->
  audit_filesystem resolve g event args = Ok tt ->
  TargetText s ∈ written_targets event args -> exempt s = false ->
  fg_allow_temp_writes g = true /\
  exists p scratch, resolve_target resolve g s = Ok p /\ fg_scratch_dir g = Some scratch
    /\ is_relative_to p scratch = true.
Proof.
  intros Ha Hro Hev Ht Hex.
  pose proof (audit_checks_writes resolve g event args _ Hev Ha Ht) as Hc.
  apply check_access_text_Ok in Hc as [?|(p & Hp & _ & _ & Hw)]; [congruence| |done].
  unfold write_permitted in Hw. rewrite Hro in Hw. destruct Hw as [Htmp Hu]. split; [done|].
  destruct (fg_scratch_dir g) as [scratch|] eqn:Hs; [|done]. by exists p, scratch.
Qed.

(** A filesystem without symbolic links: resolving removes the ".." components. *)
Definition sample_resolve (p : Path) : result Path :=
  Ok (mkPath (p_root p) (rev (fold_left (fun acc x =>
    if bool_decide (x = ".."%string) then tl acc else x :: acc) (p_parts p) []))).

Definition sample_guard : FilesystemSandboxGuard :=
  mkFsGuard (parse_path "/ws") ["data"%string] true true (Some (parse_path "/tmp/scratch")) None
    [parse_path "/usr"] true true.

Lemma filesystem_guard_decides_witness :
  check_access sample_resolve sample_guard (TargetText "../etc/passwd") false = Err PermissionError.
Proof.
  destruct (filesystem_guard_decides sample_resolve sample_guard "../etc/passwd" false eq_refl)
    as [[H _]|[H _]]; [vm_compute in H; discriminate H|exact H].
Defined.

Lemma read_only_workspace_is_not_written_witness :
  exists p scratch, resolve_target sample_resolve sample_guard "/tmp/scratch/a" = Ok p /\
    fg_scratch_dir sample_guard = Some scratch /\ is_relative_to p scratch = true.
Proof.
  refine (proj2 (read_only_workspace_is_not_written sample_resolve sample_guard "open"
    [ArgTarget (TargetText "/tmp/scratch/a"); ArgMode "w"; ArgFlags 0] "/tmp/scratch/a"
    eq_refl eq_refl _ _ _)).
  - vm_compute; reflexivity.
  - left.
  - vm_compute; reflexivity.
Defined.

(** A sub-path the capability's validator accepted stays below the workspace root. *)
Lemma subpath_below_workspace item sub g :
  normalize_subpath item = Ok sub -> is_absolute (parse_path sub) = false ->
  is_relative_to (subpath g sub) (fg_workspace_root g) = true.
Proof. unfold subpath, path_div. intros _ ->. apply is_relative_to_join. Qed.

(** Changing directory is not an intercepted event, and a relative text is always judged
    from the workspace root: after [os.chdir("/")], opening "data/x" is judged as
    "/ws/data/x" whatever file the process then opens. *)
Lemma chdir_is_not_intercepted resolve g path :
  audit_filesystem resolve g "os.chdir" [ArgTarget path] = Ok tt.
Proof. unfold audit_filesystem. by destruct (fg_active g). Qed.

Lemma truncate_is_not_intercepted resolve g path len :
  audit_filesystem resolve g "os.truncate" [ArgTarget path; ArgFlags len] = Ok tt.
Proof. unfold audit_filesystem. by destruct (fg_active g). Qed.
