(* ===== verification/ResourceControls.v ===== *)
(** * Resource controls of the sandbox

    [runtime/sandbox/resource_controls.py]: what each configured control can establish on a
    platform, and how the forked child establishes it before the workload starts.  The
    platform (which limits it has, and what [setrlimit] answers) is a parameter; times are
    in microseconds. *)

From S2P Require Import Prelude PyDict.
Local Open Scope Z_scope.

Definition MEMORY_CONTROL : string := "memory".
Definition CPU_CONTROL : string := "cpu".
Definition GENEROUS_MEMORY_PROBE_BYTES : Z := 64 * 1024 * 1024 * 1024.

Inductive ResourceControlOutcome := RC_ENFORCED | RC_UNSUPPORTED | RC_FAILED.

#[global] Instance ResourceControlOutcome_eq_dec : EqDecision ResourceControlOutcome.
Proof. solve_decision. Defined.

Record ResourceControlAssessment := mkAssessment {
  ra_control : string;
  ra_outcome : ResourceControlOutcome;
  ra_detail : string;
}.

Definition established (a : ResourceControlAssessment) : bool :=
  bool_decide (ra_outcome a = RC_ENFORCED).

(** What the operating system offers: the limits the [resource] module has, and what
    [setrlimit(id, (soft, hard))] raises, if anything. *)
Record Platform := mkPlatform {
  pl_posix : bool;
  pl_rlimit_as : option Z;
  pl_rlimit_cpu : option Z;
  pl_setrlimit : Z -> Z * Z -> option string;
}.

(** [_assessment_cache] *)
Abbreviation AssessmentCache := (pydict (Z * Z) (list ResourceControlAssessment)).

(** Limits set in a process, in order: identifier, soft and hard value. *)
Abbreviation Limits := (list (Z * (Z * Z))).

Section platform.
Context (pl : Platform).

(** [int(max_cpu_seconds) + 1] *)
Definition cpu_limit_seconds (max_cpu : Z) : Z := max_cpu / 1000000 + 1.

(** The program [_probe_source] writes, run in a child of its own. *)
Definition probe_child (max_memory_bytes max_cpu : Z) : list (string * (ResourceControlOutcome * string)) :=
  let memory :=
    match pl_rlimit_as pl with
    | None => (RC_UNSUPPORTED, "RLIMIT_AS is not available on this platform"%string)
    | Some id =>
        match pl_setrlimit pl id (max_memory_bytes, max_memory_bytes) with
        | None => (RC_ENFORCED, EmptyString)
        | Some err =>
            match pl_setrlimit pl id (GENEROUS_MEMORY_PROBE_BYTES, GENEROUS_MEMORY_PROBE_BYTES) with
            | None => (RC_FAILED, err)
            | Some _ => (RC_UNSUPPORTED, err)
            end
        end
    end in
  let cpu :=
    match pl_rlimit_cpu pl with
    | None => (RC_UNSUPPORTED, "RLIMIT_CPU is not available on this platform"%string)
    | Some id =>
        let s := cpu_limit_seconds max_cpu in
        match pl_setrlimit pl id (s, s + 1) with
        | None => (RC_ENFORCED, EmptyString)
        | Some err => (RC_FAILED, err)
        end
    end in
  [(MEMORY_CONTROL, memory); (CPU_CONTROL, cpu)].

Definition assess_all (outcome : ResourceControlOutcome) (detail : string)
  : list ResourceControlAssessment :=
  (fun control => mkAssessment control outcome detail) <$> [MEMORY_CONTROL; CPU_CONTROL].

Definition assessments_of (raw : list (string * (ResourceControlOutcome * string)))
  : list ResourceControlAssessment :=
  omap (fun control => '(o, d) ← dget control raw; Some (mkAssessment control o d))
    [MEMORY_CONTROL; CPU_CONTROL].

(** The assessment of one configured value, without the cache.  [probe_failure] is the
    class of the exception that running the probe or reading its answer raised, if any. *)
Definition assess_uncached (probe_failure : option string) (max_memory_bytes max_cpu : Z)
  : list ResourceControlAssessment :=
  if negb (pl_posix pl)
  then assess_all RC_UNSUPPORTED "POSIX resource limits are unavailable on this platform"
  else match probe_failure with
  | Some name => assess_all RC_FAILED ("resource control probe failed: " +:+ name)
  | None => assessments_of (probe_child max_memory_bytes max_cpu)
  end.

Definition assess_resource_controls (probe_failure : option string) (max_memory_bytes max_cpu : Z)
  (cache : AssessmentCache) : AssessmentCache * list ResourceControlAssessment :=
  match dget (max_memory_bytes, max_cpu) cache with
  | Some cached => (cache, cached)
  | None =>
      let r := assess_uncached probe_failure max_memory_bytes max_cpu in
      (dset (max_memory_bytes, max_cpu) r cache, r)
  end.

(** ** Establishing them, in the forked child

    The limits set so far, then whether the child goes on to exec. *)

Definition attempt_limit (id : option Z) (wanted : bool) (value : Z * Z) (limits : Limits)
  : Limits * list string :=
  match id with
  | Some i =>
      if wanted then
        match pl_setrlimit pl i value with
        | None => (app limits [(i, value)], [])
        | Some err => (limits, [err])
        end
      else (limits, [])
  | None => (limits, [])
  end.

Definition apply_resource_controls (max_memory_bytes max_cpu : Z) : Limits * result unit :=
  let '(limits, f1) :=
    attempt_limit (pl_rlimit_as pl) (0 <? max_memory_bytes) (max_memory_bytes, max_memory_bytes) [] in
  let cpu_seconds := cpu_limit_seconds max_cpu in
  let '(limits, f2) :=
    attempt_limit (pl_rlimit_cpu pl) (0 <? max_cpu) (cpu_seconds, cpu_seconds + 1) limits in
  (limits, if bool_decide (app f1 f2 = []) then Ok tt else Err RuntimeError).

(** ** The gate before the launch ([ProcessToolExecutionSandbox._execute_process]) *)

(** An attempted control that failed blocks always, an unsupported one when required. *)
Definition blocking (required : list string) (a : ResourceControlAssessment) : bool :=
  match ra_outcome a with
  | RC_FAILED => true
  | RC_UNSUPPORTED => bool_decide (ra_control a ∈ required)
  | RC_ENFORCED => false
  end.

(** The limits the child is told to establish, or the refusal. *)
Definition effective_limits (required : list string) (max_memory_bytes max_cpu : Z)
  (assessments : list ResourceControlAssessment) : result (Z * Z) :=
  match List.filter (blocking required) assessments with
  | _ :: _ => Err SandboxUnavailableError
  | [] =>
      let enforced := ra_control <$> List.filter established assessments in
      Ok (if bool_decide (MEMORY_CONTROL ∈ enforced) then max_memory_bytes else 0,
          if bool_decide (CPU_CONTROL ∈ enforced) then max_cpu else 0)
  end.
End platform.

(** ** What a launch has established *)

(** Every cached answer is an assessment of this platform. *)
Definition cache_ok (pl : Platform) (cache : AssessmentCache) : Prop :=
  forall mem cpu r, dget (mem, cpu) cache = Some r ->
    exists failure, r = assess_uncached pl failure mem cpu.

Lemma assess_cache_ok pl failure mem cpu cache cache' r :
  cache_ok pl cache -> assess_resource_controls pl failure mem cpu cache = (cache', r) ->
  cache_ok pl cache' /\ exists f, r = assess_uncached pl f mem cpu.
Proof.
  intros Hc. unfold assess_resource_controls.
  destruct (dget (mem, cpu) cache) as [cached|] eqn:Hg; intros H; simplify_eq.
  - split; [done|]. by apply Hc.
  - split; [|by exists failure]. intros mem' cpu' r. rewrite dget_dset.
    case_decide as Hk; [|apply Hc]. intros [= <-]. simplify_eq. by exists failure.
Qed.

(** The state of one control on a platform. *)
Definition control_established (limits : Limits) (id : option Z) (value : Z * Z) : Prop :=
  exists i, id = Some i /\ (i, value) ∈ limits.

(** An assessment list always has the two controls, in order. *)
Lemma assess_uncached_shape pl f mem cpu :
  exists om dm oc dc,
    assess_uncached pl f mem cpu =
      [mkAssessment MEMORY_CONTROL om dm; mkAssessment CPU_CONTROL oc dc]
    /\ (om = RC_ENFORCED -> is_Some (pl_rlimit_as pl))
    /\ (oc = RC_ENFORCED -> is_Some (pl_rlimit_cpu pl)).
Proof.
  unfold assess_uncached. destruct (negb (pl_posix pl)); [by eexists _, _, _, _|].
  destruct f as [name|]; [by eexists _, _, _, _|].
  unfold probe_child. simpl.
  destruct (pl_rlimit_as pl) as [i|], (pl_rlimit_cpu pl) as [j|]; repeat case_match; simplify_eq;
    (eexists _, _, _, _; split; [reflexivity|]; split; intros; (done || eauto)).
Qed.

Lemma attempt_limit_Ok pl id wanted value limits limits' :
  attempt_limit pl id wanted value limits = (limits', []) ->
  (forall x, x ∈ limits -> x ∈ limits') /\
  (is_Some id -> wanted = true -> control_established limits' id value).
Proof.
  unfold attempt_limit, control_established. intros H.
  destruct id as [i|]; [|simplify_eq; split; [done|]; by intros []].
  destruct wanted; [|by simplify_eq]. destruct (pl_setrlimit pl i value); simplify_eq.
  split; [set_solver|]. intros _ _. exists i. set_solver.
Qed.

Lemma gate_establishes pl cache failure mem cpu required cache' assessments
  eff_mem eff_cpu limits :
  cache_ok pl cache -> 0 < mem -> 0 < cpu ->
  assess_resource_controls pl failure mem cpu cache = (cache', assessments) ->
  effective_limits required mem cpu assessments = Ok (eff_mem, eff_cpu) ->
  apply_resource_controls pl eff_mem eff_cpu = (limits, Ok tt) ->
  (MEMORY_CONTROL ∉ required \/ control_established limits (pl_rlimit_as pl) (mem, mem)) /\
  (CPU_CONTROL ∉ required \/
   control_established limits (pl_rlimit_cpu pl) (cpu_limit_seconds cpu, cpu_limit_seconds cpu + 1)) /\
  (forall a, a ∈ assessments -> ra_outcome a <> RC_FAILED) /\
  (forall a, a ∈ assessments -> ra_outcome a = RC_ENFORCED ->
     (ra_control a = MEMORY_CONTROL -> control_established limits (pl_rlimit_as pl) (mem, mem)) /\
     (ra_control a = CPU_CONTROL -> control_established limits (pl_rlimit_cpu pl)
        (cpu_limit_seconds cpu, cpu_limit_seconds cpu + 1))).
Proof.
  intros Hc Hmem Hcpu Ha He Hl.
  apply (assess_cache_ok pl) in Ha as [_ [f Hf]]; [|done].
  destruct (assess_uncached_shape pl f mem cpu) as (om & dm & oc & dc & Hs & Hm & Hcp).
  rewrite Hs in Hf. subst assessments. unfold effective_limits in He.
  destruct (List.filter _ _) as [|x l] eqn:Hb; [|done]. simpl in Hb.
  destruct (blocking required (mkAssessment MEMORY_CONTROL om dm)) eqn:Hb1; [done|].
  destruct (blocking required (mkAssessment CPU_CONTROL oc dc)) eqn:Hb2; [done|].
  clear Hb. unfold blocking in Hb1, Hb2. simpl in Hb1, Hb2.
  unfold apply_resource_controls in Hl.
  destruct (attempt_limit pl (pl_rlimit_as pl) _ _ []) as [l1 f1] eqn:H1.
  destruct (attempt_limit pl (pl_rlimit_cpu pl) _ _ l1) as [l2 f2] eqn:H2.
  case_bool_decide as Hnil; simplify_eq. apply app_eq_nil in Hnil as [-> ->].
  apply attempt_limit_Ok in H1 as [_ H1], H2 as [Hmono H2].
  unfold established in H1, H2. simpl in H1, H2.
  assert (om = RC_ENFORCED -> control_established limits (pl_rlimit_as pl) (mem, mem)) as Hmem_est.
  { intros ->. destruct (H1 (Hm eq_refl)) as (i & Hi & Hin).
    - destruct oc; simpl; by apply Z.ltb_lt.
    - exists i. split; [done|]. apply Hmono. destruct oc; exact Hin. }
  assert (oc = RC_ENFORCED -> control_established limits (pl_rlimit_cpu pl)
    (cpu_limit_seconds cpu, cpu_limit_seconds cpu + 1)) as Hcpu_est.
  { intros ->. destruct (H2 (Hcp eq_refl)) as (i & Hi & Hin).
    - destruct om; simpl; by apply Z.ltb_lt.
    - exists i. split; [done|]. destruct om; exact Hin. }
  split; [destruct om; [by right; auto|left; by apply bool_decide_eq_false in Hb1|done]|].
  split; [destruct oc; [by right; auto|left; by apply bool_decide_eq_false in Hb2|done]|].
  split.
  - intros a [->|Hin]%elem_of_cons; simpl; [by destruct om|].
    apply list_elem_of_singleton in Hin as ->. simpl. by destruct oc.
  - intros a [->|Hin]%elem_of_cons; simpl; [by intros ->; split; [auto|done]|].
    apply list_elem_of_singleton in Hin as ->. simpl. intros ->. by split; [done|auto].
Qed.

(** The required controls hold in a process with these limits. *)
Definition in_force (pl : Platform) (required : list string) (mem cpu : Z) (limits : Limits) : Prop :=
  (MEMORY_CONTROL ∈ required -> control_established limits (pl_rlimit_as pl) (mem, mem)) /\
  (CPU_CONTROL ∈ required -> control_established limits (pl_rlimit_cpu pl)
     (cpu_limit_seconds cpu, cpu_limit_seconds cpu + 1)).

Lemma gate_in_force pl cache failure mem cpu required cache' assessments eff_mem eff_cpu limits :
  cache_ok pl cache -> 0 < mem -> 0 < cpu ->
  assess_resource_controls pl failure mem cpu cache = (cache', assessments) ->
  effective_limits required mem cpu assessments = Ok (eff_mem, eff_cpu) ->
  apply_resource_controls pl eff_mem eff_cpu = (limits, Ok tt) ->
  in_force pl required mem cpu limits.
Proof.
  intros Hc Hm Hp Ha He Hl.
  destruct (gate_establishes pl cache failure mem cpu required cache' assessments eff_mem eff_cpu
    limits Hc Hm Hp Ha He Hl) as ([?|?] & [?|?] & _); by split.
Qed.

(** When the gate lets a launch through and the forked child goes on to exec the
    workload, every control the profile requires is established in that child at exactly the
    configured value, and so is every control assessed as enforceable; no control that was
    attempted and failed is among the assessments, whether the profile required it or not. *)
Theorem required_controls_are_in_force pl cache failure mem cpu required cache' assessments
  eff_mem eff_cpu limits :
  cache_ok pl cache -> 0 < mem -> 0 < cpu ->
  assess_resource_controls pl failure mem cpu cache = (cache', assessments) ->
  effective_limits required mem cpu assessments = Ok (eff_mem, eff_cpu) ->
  apply_resource_controls pl eff_mem eff_cpu = (limits, Ok tt) ->
  in_force pl required mem cpu limits /\
  (forall a, a ∈ assessments -> ra_outcome a <> RC_FAILED) /\
  (forall a, a ∈ assessments -> established a = true ->
     in_force pl [ra_control a] mem cpu limits).
Proof.
  intros Hc Hm Hp Ha He Hl.
  destruct (gate_establishes pl cache failure mem cpu required cache' assessments eff_mem eff_cpu
    limits Hc Hm Hp Ha He Hl) as (H1 & H2 & H3 & H4).
  split; [by split; [destruct H1|destruct H2]|]. split; [done|].
  intros a Hin Hen. apply bool_decide_eq_true in Hen. destruct (H4 a Hin Hen) as [H5 H6].
  split; intros Hx%list_elem_of_singleton; [by apply H5|by apply H6].
Qed.

(** A platform with both limits that accepts every value up to 1 GiB. *)
Definition sample_platform : Platform :=
  mkPlatform true (Some 9) (Some 0)
    (fun id v => if (id =? 9) && (1024 * 1024 * 1024 <? v.1) then Some "ValueError"%string else None).

Lemma required_controls_are_in_force_witness :
  exists limits, apply_resource_controls sample_platform 268435456 5000000 = (limits, Ok tt) /\
    in_force sample_platform ["memory"%string] 268435456 5000000 limits.
Proof.
  eexists. split; [vm_compute; reflexivity|].
  refine (proj1 (required_controls_are_in_force sample_platform [] None 268435456 5000000
    ["memory"%string] _ _ 268435456 5000000 _ _ _ _ _ _ _)).
  - intros mem cpu r [=].
  - reflexivity.
  - reflexivity.
  - vm_compute; reflexivity.
  - vm_compute; reflexivity.
  - vm_compute; reflexivity.
Defined.

(** A probe that failed once, for whatever passing reason, is remembered: the same limits
    are refused from then on although the platform could enforce them. *)
Lemma probe_failure_is_remembered :
  let '(cache, _) := assess_resource_controls sample_platform (Some "TimeoutExpired"%string)
                       268435456 5000000 [] in
  let '(_, again) := assess_resource_controls sample_platform None 268435456 5000000 cache in
  effective_limits [] 268435456 5000000 again = Err SandboxUnavailableError
  /\ effective_limits [] 268435456 5000000 (assess_uncached sample_platform None 268435456 5000000)
     = Ok (268435456, 5000000).
Proof. vm_compute. done. Qed.
