(* ===== verification/Descriptor.v ===== *)
(** * The execution descriptor

    [runtime/sandbox/descriptor.py]: the document that crosses from the platform process to
    the sandbox child, as a JSON tree, with the constructor's validation on both sides. *)

From S2P Require Import Prelude PyDict Json Binding Authority Capabilities NetworkGuard FilesystemGuard.
Local Open Scope Z_scope.

Record ToolExecutionDescriptor := mkExecDescriptor {
  de_tool_id : string;
  de_tool_version : option string;
  de_implementation_id : string;
  de_parameters : list (string * json);
  de_grant_id : option string;
  de_session_id : option string;
  de_agent_id : option string;
  de_request_id : option string;
  de_filesystem : option (list (string * json));
  de_scratch_dir : option string;
  de_network : option (list (string * json));
}.

(** The constructor: the two identifiers must not be empty; the mappings are frozen copies. *)
Definition new_descriptor (d : ToolExecutionDescriptor) : result ToolExecutionDescriptor :=
  if str_nonempty (de_tool_id d) && str_nonempty (de_implementation_id d) then Ok d
  else Err ValueError.

Definition opt_str (o : option string) : json := from_option JStr JNull o.
Definition opt_obj (o : option (list (string * json))) : json := from_option JObj JNull o.

(** [to_json], before printing *)
Definition descriptor_tree (d : ToolExecutionDescriptor) : json :=
  JObj
    [("tool_id", JStr (de_tool_id d));
     ("tool_version", opt_str (de_tool_version d));
     ("implementation_id", JStr (de_implementation_id d));
     ("parameters", JObj (de_parameters d));
     ("grant_id", opt_str (de_grant_id d));
     ("session_id", opt_str (de_session_id d));
     ("agent_id", opt_str (de_agent_id d));
     ("request_id", opt_str (de_request_id d));
     ("filesystem", opt_obj (de_filesystem d));
     ("scratch_dir", opt_str (de_scratch_dir d));
     ("network", opt_obj (de_network d))].

Definition to_json (d : ToolExecutionDescriptor) : string := dumps_ascii (descriptor_tree d).

(** Field validation of a parsed value: a required str, an optional str, a mapping. *)
Definition as_str (v : json) : result string :=
  match v with JStr s => Ok s | _ => Err ValueError end.
Definition as_opt_str (v : option json) : result (option string) :=
  match v with
  | None | Some JNull => Ok None
  | Some (JStr s) => Ok (Some s)
  | Some _ => Err ValueError
  end.
Definition as_opt_obj (v : option json) : result (option (list (string * json))) :=
  match v with
  | None | Some JNull => Ok None
  | Some (JObj m) => Ok (Some m)
  | Some _ => Err ValueError
  end.
Definition as_params (v : option json) : result (list (string * json)) :=
  match v with
  | None => Ok []
  | Some (JObj m) => Ok m
  | Some _ => Err ValueError
  end.

(** [from_json], after parsing: a document that is not an object has no keys to index. *)
Definition descriptor_of_tree (v : json) : result ToolExecutionDescriptor :=
  match v with
  | JObj raw =>
      tool_id ← of_option KeyError (dget "tool_id" raw);
      implementation_id ← of_option KeyError (dget "implementation_id" raw);
      tool_id ← as_str tool_id;
      tool_version ← as_opt_str (dget "tool_version" raw);
      implementation_id ← as_str implementation_id;
      parameters ← as_params (dget "parameters" raw);
      grant_id ← as_opt_str (dget "grant_id" raw);
      session_id ← as_opt_str (dget "session_id" raw);
      agent_id ← as_opt_str (dget "agent_id" raw);
      request_id ← as_opt_str (dget "request_id" raw);
      filesystem ← as_opt_obj (dget "filesystem" raw);
      scratch_dir ← as_opt_str (dget "scratch_dir" raw);
      network ← as_opt_obj (dget "network" raw);
      new_descriptor (mkExecDescriptor tool_id tool_version implementation_id parameters grant_id
        session_id agent_id request_id filesystem scratch_dir network)
  | _ => Err TypeError
  end.

(** What the parent sends is what the child reads, provided the parent could build it. *)
Lemma descriptor_round_trip d d' :
  new_descriptor d = Ok d' -> descriptor_of_tree (descriptor_tree d) = Ok d'.
Proof.
  intros H. destruct d as [t v i p g s a r f sc n]. unfold descriptor_of_tree, descriptor_tree.
  destruct v, g, s, a, r, f, sc, n; exact H.
Qed.

(** ** The two capability dictionaries *)

(** [capabilities.filesystem.model_dump()] *)
Definition filesystem_dump (c : FilesystemCapability) : list (string * json) :=
  [("workspace_root", JStr (fc_workspace_root c));
   ("read_only", JBool (fc_read_only c));
   ("allowed_subpaths", JArr (JStr <$> fc_allowed_subpaths c));
   ("allow_temp_writes", JBool (fc_allow_temp_writes c))].

(** The dictionary as [FilesystemSandboxGuard.from_dict] reads it; a value of another type
    than the dump gives is outside the model and refused here. *)
Definition filesystem_dict (data : list (string * json)) : result FilesystemDict :=
  root ← match dget "workspace_root" data with
         | None => Ok None
         | Some (JStr s) => Ok (Some s)
         | Some _ => Err TypeError
         end;
  subs ← match dget "allowed_subpaths" data with
         | None => Ok None
         | Some (JArr l) => texts ← mapR as_str l; Ok (Some texts)
         | Some _ => Err TypeError
         end;
  Ok (mkFsDict root (truthy <$> dget "read_only" data) subs
        (truthy <$> dget "allow_temp_writes" data)).

Lemma mapR_as_str l : mapR as_str (JStr <$> l) = Ok l.
Proof. apply mapR_Ok. induction l as [|s l IH]; csimpl; by constructor. Qed.

(** The dictionary the child reads is the capability the parent dumped. *)
Lemma filesystem_dict_dump c :
  filesystem_dict (filesystem_dump c) =
  Ok (mkFsDict (Some (fc_workspace_root c)) (Some (fc_read_only c))
        (Some (fc_allowed_subpaths c)) (Some (fc_allow_temp_writes c))).
Proof.
  unfold filesystem_dict. change (dget "workspace_root" (filesystem_dump c))
    with (Some (JStr (fc_workspace_root c))).
  change (dget "allowed_subpaths" (filesystem_dump c))
    with (Some (JArr (JStr <$> fc_allowed_subpaths c))).
  cbn [mbind result_bind]. by rewrite mapR_as_str.
Qed.
