(* ===== verification/Executor.v ===== *)
(** * DefaultToolExecutor (runtime/tool_executor.py)

    The execution trust boundary: verify and claim a grant, verify its capability binding,
    record STARTED evidence, dispatch to the sandbox, classify the outcome and record it.
    The sandbox and the telemetry emitter are parameters with states of their own; the
    model keeps the log of what was dispatched to the sandbox. *)

From S2P Require Import Prelude PyDict Json Models Lifecycle Planes Binding Authority.
From S2P Require Import Capabilities Evidence ToolPlane.
Local Open Scope Z_scope.

(** ** Data *)

(** A tool's output, as far as its digest is concerned: absent, serialisable, or not. *)
Inductive PyOutput := OutNone | OutJson (j : json) | OutOpaque.

Record SandboxExecutionResult := mkSandboxResult {
  sr_success : bool;
  sr_output : PyOutput;
  sr_output_digest : option string;
  sr_duration_ms : Z;
  sr_error_type : option string;
}.

Record RuntimeContext := mkContext {
  rx_session_id : string;
  rx_request_id : string;
  rx_authenticated_agent : string;
}.

(** [ExecutionProvenance] *)
Record ExecutionProvenance := mkProvenance {
  pv_grant_id : string;
  pv_agent_id : string;
  pv_session_id : string;
  pv_request_id : string;
  pv_tool_id : string;
  pv_tool_version : string;
  pv_implementation_id : string;
}.

(** [from_grant], with the model's length constraints. *)
Definition provenance_from_grant (g : RuntimeExecutionGrant) (request_id implementation_id : string)
  : result ExecutionProvenance :=
  let b := g_binding g in
  if forallb str_nonempty
       [g_grant_id g; g_agent_id g; g_session_id g; request_id; eb_tool_id b; eb_tool_version b;
        implementation_id]
  then Ok (mkProvenance (g_grant_id g) (g_agent_id g) (g_session_id g) request_id (eb_tool_id b)
             (eb_tool_version b) implementation_id)
  else Err ValueError.

(** What [sandbox.execute] is called with. *)
Record SandboxRequest := mkRequest {
  sq_tool : BaseTool;
  sq_parameters : PyParams;
  sq_capabilities : ExecutionCapabilities;
  sq_provenance : ExecutionProvenance;
  sq_implementation_id : string;
  sq_tool_version : string;
}.

Inductive TelemetryEventType :=
| EXECUTION_STARTED | EXECUTION_COMPLETED | EXECUTION_FAILED | EXECUTION_EVIDENCE_FAILED.

Record BehavioralEvent := mkTelemetry {
  te_type : TelemetryEventType;
  te_session_id : string;
  te_agent_id : string;
  te_trace_id : string;
  te_tool_id : string;
  te_duration_ms : option Z;
  te_error_code : option string;
}.

(** What one execution reads from outside: the authority's clock at the two checks, the
    wall clock and the monotonic clock at the start and at the end, and the identifiers. *)
Record ExecEnv := mkExecEnv {
  xe_verify_now : Z;
  xe_claim_now : Z;
  xe_start_utc : Z;
  xe_start_mono : Z;
  xe_end_mono : Z;
  xe_completed_utc : Z;
  xe_receipt_uuid : string;
  xe_request_uuid : string;
}.

(** [type(exc).__name__] of the exceptions a sandbox call can raise. *)
Definition exn_name (e : exn) : string :=
  match e with
  | ValueError => "ValueError" | KeyError => "KeyError" | TypeError => "TypeError"
  | PermissionError => "PermissionError" | TimeoutError => "TimeoutError"
  | InterruptedError => "InterruptedError"
  | SandboxUnavailableError => "SandboxUnavailableError"
  | SandboxTimeoutError => "SandboxTimeoutError"
  | SandboxResourceExhaustedError => "SandboxResourceExhaustedError"
  | SandboxIsolationError => "SandboxIsolationError"
  | ToolExecutionError _ => "ToolExecutionError" | ToolDisabledError => "ToolDisabledError"
  | ExecutionBindingError _ => "ExecutionBindingError"
  | CapabilityProfileNotFoundError => "CapabilityProfileNotFoundError"
  | CapabilityDigestMismatchError => "CapabilityDigestMismatchError"
  | OtherException c => c
  | _ => "Exception"
  end.

(** The handler's [isinstance] chain; [ExecutionBindingError] is a [PermissionError]. *)
Definition classify_exception (e : exn) : ExecutionStatus * string :=
  match e with
  | SandboxTimeoutError | TimeoutError => (TIMEOUT, "EXECUTION_TIMEOUT")
  | SandboxResourceExhaustedError => (FAILED, "RESOURCE_EXHAUSTED")
  | SandboxIsolationError | PermissionError | ExecutionBindingError _ =>
      (FAILED, "ISOLATION_FAILURE")
  | InterruptedError => (INTERRUPTED, "EXECUTION_INTERRUPTED")
  | _ => (FAILED, "TOOL_EXECUTION_ERROR")
  end.

(** The same taxonomy over the error type a sandbox result names. *)
Definition classify_error_type (err_type : string) : ExecutionStatus * string :=
  if bool_decide (err_type ∈ ["SandboxTimeoutError"; "TimeoutError"])
  then (TIMEOUT, "EXECUTION_TIMEOUT")
  else if bool_decide (err_type = "SandboxResourceExhaustedError")
  then (FAILED, "RESOURCE_EXHAUSTED")
  else if bool_decide (err_type ∈ ["SandboxIsolationError"; "PermissionError"])
  then (FAILED, "ISOLATION_FAILURE")
  else if bool_decide (err_type = "InterruptedError")
  then (INTERRUPTED, "EXECUTION_INTERRUPTED")
  else (FAILED, "TOOL_EXECUTION_ERROR").

(** [require_context_agrees_with_grant]: an empty field claims nothing. *)
Definition require_context_agrees_with_grant (g : RuntimeExecutionGrant)
  (context : option RuntimeContext) : result unit :=
  match context with
  | None => Ok tt
  | Some c =>
      if str_nonempty (rx_authenticated_agent c)
         && negb (bool_decide (rx_authenticated_agent c = g_agent_id g))
      then Err (ExecutionBindingError IDENTITY_MISMATCH)
      else if str_nonempty (rx_session_id c)
              && negb (bool_decide (rx_session_id c = g_session_id g))
      then Err (ExecutionBindingError IDENTITY_MISMATCH)
      else Ok tt
  end.

(** [instantiate], with no keyword arguments. *)
Definition instantiate (d : ToolDescriptor) : result BaseTool :=
  if negb (td_enabled d) then Err ToolDisabledError
  else match td_instance d with
  | Some t => Ok t
  | None => match td_factory d with
            | Some factory => factory tt
            | None => Err (ToolExecutionError None)
            end
  end.

(** ** The executor *)

Section executor.
Context (hmac : string -> string -> string) (float_repr : Z -> string)
        (sha256 : string -> string).
Context {Tel Sbx : Type}.
Context (emit : BehavioralEvent -> Tel -> Tel * result unit).
Context (sandbox_execute : SandboxRequest -> Sbx -> Sbx * result SandboxExecutionResult).

(** How the executor was wired. *)
Record ExecutorConfig := mkExecutorConfig {
  xc_has_authority : bool;
  xc_has_evidence : bool;
  xc_has_telemetry : bool;
  xc_has_sandbox : bool;
  xc_capabilities : option CapabilityRegistry;
  xc_registry : option ToolRegistry;
}.

Record ExecWorld := mkExecWorld {
  xw_authority : ExecutionAuthority;
  xw_evidence : ExecutionEvidenceService;
  xw_telemetry : Tel;
  xw_sandbox : Sbx;
  xw_dispatched : list SandboxRequest;
}.

Definition on_authority {A} (m : Comp ExecutionAuthority A) : Comp ExecWorld A :=
  zoom xw_authority (fun a w => mkExecWorld a (xw_evidence w) (xw_telemetry w) (xw_sandbox w)
                                  (xw_dispatched w)) m.
Definition on_evidence {A} (m : Comp ExecutionEvidenceService A) : Comp ExecWorld A :=
  zoom xw_evidence (fun e w => mkExecWorld (xw_authority w) e (xw_telemetry w) (xw_sandbox w)
                                 (xw_dispatched w)) m.
Definition on_telemetry {A} (m : Comp Tel A) : Comp ExecWorld A :=
  zoom xw_telemetry (fun t w => mkExecWorld (xw_authority w) (xw_evidence w) t (xw_sandbox w)
                                  (xw_dispatched w)) m.

(** Calling the sandbox also logs the call. *)
Definition dispatch (q : SandboxRequest) : Comp ExecWorld SandboxExecutionResult := fun w =>
  let '(s, r) := sandbox_execute q (xw_sandbox w) in
  (mkExecWorld (xw_authority w) (xw_evidence w) (xw_telemetry w) s (xw_dispatched w ++ [q]), r).

Context (cfg : ExecutorConfig).

Definition compute_output_digest (o : PyOutput) : option string :=
  match o with
  | OutNone => None
  | OutJson j => Some (sha256 (dumps j))
  | OutOpaque => None
  end.

(** [_safe_emit] and the emission in [_emit_evidence_failure]: a failing emitter never
    fails the execution. *)
Definition safe_emit (e : BehavioralEvent) : Comp ExecWorld unit :=
  if xc_has_telemetry cfg
  then try_except (on_telemetry (emit e)) (fun _ => mret tt)
  else mret tt.

Definition emit_evidence_failure (tool session agent trace code : string) : Comp ExecWorld unit :=
  safe_emit (mkTelemetry EXECUTION_EVIDENCE_FAILED session agent trace tool None (Some code)).

(** [_record_terminal]: returns the integrity error instead of raising it. *)
Definition record_terminal_evidence (rid tool session agent trace : string)
  (status : ExecutionStatus) (completed duration : Z) (error_type error_code digest : option string)
  : Comp ExecWorld (option exn) :=
  if negb (xc_has_evidence cfg) then mret None
  else try_except
    (_ ← on_evidence (record_terminal rid status completed duration error_type error_code digest);
     mret None)
    (fun _ =>
      _ ← emit_evidence_failure tool session agent trace "EVIDENCE_INTEGRITY_FAILURE";
      mret (Some ExecutionEvidenceIntegrityError)).

(** [_verify_and_prepare] *)
Definition verify_and_prepare (tool tool_version : string) (parameters : PyParams)
  (grant : Presented) (context : option RuntimeContext) (env : ExecEnv)
  : Comp ExecWorld ExecutionCapabilities :=
  if negb (xc_has_authority cfg) then refuse NO_AUTHORITY
  else match grant with
  | NoGrant => refuse MISSING_GRANT
  | _ =>
      requested ← match from_operation tool tool_version parameters None with
                  | Ok b => mret b
                  | Err _ => refuse INVALID_REQUEST
                  end;
      _ ← on_authority (verify_grant hmac float_repr grant requested (xe_verify_now env));
      match grant with
      | AGrant g =>
          _ ← liftR (require_context_agrees_with_grant g context);
          if negb (xc_has_sandbox cfg) then raise SandboxUnavailableError
          else match g_capability_profile_id g with
          | None => raise CapabilityProfileNotFoundError
          | Some profile =>
              if negb (str_nonempty profile) then raise CapabilityProfileNotFoundError
              else match xc_capabilities cfg with
              | None => raise CapabilityProfileNotFoundError
              | Some registry =>
                  capabilities ← liftR (resolve_profile profile registry);
                  _ ← liftR (verify_capability_binding sha256 float_repr g capabilities);
                  _ ← on_authority (claim_grant hmac float_repr grant requested
                                      (xe_claim_now env));
                  mret capabilities
              end
          end
      | _ => refuse MALFORMED_GRANT
      end
  end.

(** [_run], up to the sandbox: identity and provenance from the grant, then STARTED
    evidence, then its telemetry. *)
Definition run_identity (tool : string) (capabilities : ExecutionCapabilities)
  (g : RuntimeExecutionGrant) (implementation_id trace_id rid : string) (env : ExecEnv)
  : ReceiptIdentity :=
  mkIdentity rid (g_grant_id g) (g_session_id g) (g_agent_id g) trace_id tool
    (eb_tool_version (g_binding g)) implementation_id (sha256 (canonical_json (g_binding g)))
    (default EmptyString (g_capability_profile_id g)) (default EmptyString (g_capability_digest g))
    (rl_wall_clock_timeout (cap_resources capabilities)) (xe_start_utc env).

Definition start_evidence (tool : string) (capabilities : ExecutionCapabilities)
  (g : RuntimeExecutionGrant) (implementation_id trace_id rid : string) (env : ExecEnv)
  : Comp ExecWorld unit :=
  if negb (xc_has_evidence cfg) then mret tt
  else try_except
    (_ ← on_evidence (record_started
           (run_identity tool capabilities g implementation_id trace_id rid env)
           (Some (xe_start_mono env)));
     mret tt)
    (fun _ =>
      _ ← emit_evidence_failure tool (g_session_id g) (g_agent_id g) trace_id
            "EVIDENCE_UNAVAILABLE";
      raise ExecutionEvidenceUnavailableError).

(** [int((clock() - start) * 1000)] of a reading in microseconds. *)
Definition elapsed_ms (env : ExecEnv) : Z := Z.quot (xe_end_mono env - xe_start_mono env) 1000.

(** The [except] branch: record the classified failure, then raise; an evidence fault
    travels with the execution failure. *)
Definition run_failed (tool : string) (g : RuntimeExecutionGrant) (trace_id rid : string)
  (env : ExecEnv) (e : exn) : Comp ExecWorld PyOutput :=
  let '(status, error_code) := classify_exception e in
  let duration := elapsed_ms env in
  integrity ← record_terminal_evidence rid tool (g_session_id g) (g_agent_id g) trace_id status
                (xe_completed_utc env) duration (Some (exn_name e)) (Some error_code) None;
  _ ← safe_emit (mkTelemetry EXECUTION_FAILED (g_session_id g) (g_agent_id g) trace_id tool
                   (Some duration) (Some error_code));
  match e with
  | ToolExecutionError ev =>
      raise (ToolExecutionError (match integrity with Some i => Some (exn_name i) | None => ev end))
  | ToolDisabledError => raise ToolDisabledError
  | _ => raise (ToolExecutionError (exn_name <$> integrity))
  end.

(** The sandbox returned a result. *)
Definition run_completed (tool : string) (g : RuntimeExecutionGrant) (trace_id rid : string)
  (env : ExecEnv) (r : SandboxExecutionResult) : Comp ExecWorld PyOutput :=
  let duration := if sr_duration_ms r =? 0 then elapsed_ms env else sr_duration_ms r in
  if sr_success r then
    let digest := match sr_output_digest r with
                  | Some d => if str_nonempty d then Some d else compute_output_digest (sr_output r)
                  | None => compute_output_digest (sr_output r)
                  end in
    integrity ← record_terminal_evidence rid tool (g_session_id g) (g_agent_id g) trace_id
                  SUCCEEDED (xe_completed_utc env) duration None None digest;
    match integrity with
    | Some i => raise i
    | None =>
        _ ← safe_emit (mkTelemetry EXECUTION_COMPLETED (g_session_id g) (g_agent_id g) trace_id
                         tool (Some duration) None);
        mret (sr_output r)
    end
  else
    let err_type := match sr_error_type r with
                    | Some t => if str_nonempty t then t else "ToolExecutionError"
                    | None => "ToolExecutionError"
                    end in
    let '(status, error_code) := classify_error_type err_type in
    integrity ← record_terminal_evidence rid tool (g_session_id g) (g_agent_id g) trace_id status
                  (xe_completed_utc env) duration (Some err_type) (Some error_code) None;
    _ ← safe_emit (mkTelemetry EXECUTION_FAILED (g_session_id g) (g_agent_id g) trace_id tool
                     (Some duration) (Some error_code));
    raise (ToolExecutionError (exn_name <$> integrity)).

(** The [try] around the sandbox call. *)
Definition run_dispatched (q : SandboxRequest) (tool : string) (g : RuntimeExecutionGrant)
  (trace_id rid : string) (env : ExecEnv) : Comp ExecWorld PyOutput := fun w =>
  match dispatch q w with
  | (w', Err e) => run_failed tool g trace_id rid env e w'
  | (w', Ok r) => run_completed tool g trace_id rid env r w'
  end.

(** [_run] *)
Definition run_tool (tool : BaseTool) (parameters : PyParams)
  (capabilities : ExecutionCapabilities) (g : RuntimeExecutionGrant)
  (context : option RuntimeContext) (implementation_id : option string) (env : ExecEnv)
  : Comp ExecWorld PyOutput :=
  let impl := default EmptyString implementation_id in
  let tool_name := ti_tool_id (tm_identity (bt_metadata tool)) in
  if negb (str_nonempty impl) then refuse NO_AUTHORITY
  else
    let trace_id := match context with
                    | Some c => rx_request_id c
                    | None => "req-" +:+ xe_request_uuid env
                    end in
    provenance ← liftR (provenance_from_grant g trace_id impl);
    let rid := "rcpt-" +:+ xe_receipt_uuid env in
    _ ← start_evidence tool_name capabilities g impl trace_id rid env;
    _ ← safe_emit (mkTelemetry EXECUTION_STARTED (g_session_id g) (g_agent_id g) trace_id
                     tool_name None None);
    run_dispatched (mkRequest tool parameters capabilities provenance impl
                      (eb_tool_version (g_binding g))) tool_name g trace_id rid env.

(** [_execute_resolved]; the verified presentation is a grant. *)
Definition execute_resolved (descriptor : ToolDescriptor) (parameters : PyParams)
  (context : option RuntimeContext) (grant : Presented) (env : ExecEnv)
  : Comp ExecWorld PyOutput :=
  if negb (td_enabled descriptor) then raise ToolDisabledError
  else
    capabilities ← verify_and_prepare (td_tool_id descriptor) (td_version descriptor) parameters
                     grant context env;
    match grant with
    | AGrant g =>
        tool ← liftR (instantiate descriptor);
        run_tool tool parameters capabilities g context (td_implementation_id descriptor) env
    | _ => refuse MISSING_GRANT
    end.

Definition execute_descriptor := execute_resolved.

Definition execute_tool (tool : BaseTool) (parameters : PyParams)
  (context : option RuntimeContext) (grant : Presented) (implementation_id : option string)
  (env : ExecEnv) : Comp ExecWorld PyOutput :=
  let identity := tm_identity (bt_metadata tool) in
  capabilities ← verify_and_prepare (ti_tool_id identity) (ti_version identity) parameters grant
                   context env;
  match grant with
  | AGrant g => run_tool tool parameters capabilities g context implementation_id env
  | _ => refuse MISSING_GRANT
  end.

(** [execute]: the grant alone names the implementation. *)
Definition execute (grant : option RuntimeExecutionGrant) (parameters : PyParams)
  (context : option RuntimeContext) (env : ExecEnv) : Comp ExecWorld PyOutput :=
  match grant with
  | None => refuse MISSING_GRANT
  | Some g =>
      match xc_registry cfg with
      | None => refuse NO_AUTHORITY
      | Some registry =>
          descriptor ← liftR (resolve (eb_tool_id (g_binding g))
                                (Some (eb_tool_version (g_binding g))) registry);
          execute_resolved descriptor parameters context (AGrant g) env
      end
  end.
End executor.

(** ** Lemmas *)

Section executor_lemmas.
Context (hmac : string -> string -> string) (float_repr : Z -> string)
        (sha256 : string -> string).
Context {Tel Sbx : Type}.
Context (emit : BehavioralEvent -> Tel -> Tel * result unit).
Context (sandbox_execute : SandboxRequest -> Sbx -> Sbx * result SandboxExecutionResult).
Context (cfg : ExecutorConfig).
Local Abbreviation W := (ExecWorld (Tel := Tel) (Sbx := Sbx)).

(** [w'] differs from [w] in telemetry and evidence at most. *)
Record observes (w w' : W) : Prop := mkObserves {
  ob_authority : xw_authority w' = xw_authority w;
  ob_sandbox : xw_sandbox w' = xw_sandbox w;
  ob_dispatched : xw_dispatched w' = xw_dispatched w;
}.

Lemma observes_trans w1 w2 w3 : observes w1 w2 -> observes w2 w3 -> observes w1 w3.
Proof. intros [A B C] [D E F]. split; congruence. Qed.

Lemma safe_emit_spec e (w : W) :
  exists w', safe_emit emit cfg e w = (w', Ok tt) /\ observes w w' /\
    xw_evidence w' = xw_evidence w.
Proof.
  unfold safe_emit, on_telemetry, zoom, try_except.
  destruct (xc_has_telemetry cfg); [|by exists w].
  destruct (emit e (xw_telemetry w)) as [t [[]|]]; eexists; by split.
Qed.

(** Terminal evidence: recorded, or reported as an integrity failure. *)
Lemma record_terminal_evidence_spec rid tool session agent trace st c d et ec dg (w : W) :
  exists w' i, record_terminal_evidence emit cfg rid tool session agent trace st c d et ec dg w
      = (w', Ok i) /\ observes w w' /\
    (i = None /\ xc_has_evidence cfg = false /\ xw_evidence w' = xw_evidence w \/
     i = None /\ (exists rc, record_terminal rid st c d et ec dg (xw_evidence w)
                    = (xw_evidence w', Ok rc)) \/
     i = Some ExecutionEvidenceIntegrityError /\
       (exists e, record_terminal rid st c d et ec dg (xw_evidence w) = (xw_evidence w', Err e))).
Proof.
  unfold record_terminal_evidence. destruct (xc_has_evidence cfg); simpl.
  2: { exists w, None. split; [done|]. split; [done|]. by left. }
  unfold on_evidence, zoom, try_except. cbv [mbind comp_bind mret comp_ret].
  destruct (record_terminal rid st c d et ec dg (xw_evidence w)) as [ev [rc|e]].
  - eexists _, None. split; [done|]. split; [done|]. right. left. simpl. eauto.
  - unfold emit_evidence_failure.
    match goal with |- context [safe_emit emit cfg ?ev ?w0] =>
      destruct (safe_emit_spec ev w0) as (w1 & -> & [O1 O2 O3] & O4) end.
    exists w1, (Some ExecutionEvidenceIntegrityError). split; [done|]. split; [by split|].
    right. right. split; [done|]. exists e. by rewrite O4.
Qed.

Lemma start_evidence_spec tool caps g impl trace rid env (w : W) :
  exists w' x, start_evidence sha256 emit cfg tool caps g impl trace rid env w = (w', x) /\
    observes w w' /\
    (x = Ok tt /\ xc_has_evidence cfg = false /\ xw_evidence w' = xw_evidence w \/
     x = Ok tt /\ xc_has_evidence cfg = true /\
       (exists rc, record_started (run_identity sha256 tool caps g impl trace rid env)
                     (Some (xe_start_mono env)) (xw_evidence w) = (xw_evidence w', Ok rc)) \/
     x = Err ExecutionEvidenceUnavailableError).
Proof.
  unfold start_evidence. destruct (xc_has_evidence cfg) eqn:He; simpl.
  2: { exists w, (Ok tt). split; [done|]. split; [done|]. by left. }
  unfold on_evidence, zoom, try_except. cbv [mbind comp_bind mret comp_ret].
  destruct (record_started _ _ (xw_evidence w)) as [ev [rc|e]].
  - eexists _, (Ok tt). split; [done|]. split; [done|]. right. left. simpl. eauto.
  - unfold emit_evidence_failure, raise.
    match goal with |- context [safe_emit emit cfg ?ev ?w0] =>
      destruct (safe_emit_spec ev w0) as (w1 & -> & [O1 O2 O3] & O4) end.
    eexists w1, _. split; [done|]. split; [by split|]. by right; right.
Qed.

(** A refusal after the verification step: the authority is where that step left it. *)
Ltac refused_after Hv req :=
  intros [= <- <-]; simpl; split_and!; try done; right; exists req; rewrite Hv; simpl; auto.

(** The pre-execution checks: what they establish, and that they touch the authority only. *)
Lemma verify_and_prepare_spec tool ver params grant ctx env (w : W) w' x :
  verify_and_prepare hmac float_repr sha256 cfg tool ver params grant ctx env w = (w', x) ->
  xw_evidence w' = xw_evidence w /\ xw_telemetry w' = xw_telemetry w /\
  xw_sandbox w' = xw_sandbox w /\ xw_dispatched w' = xw_dispatched w /\
  (xw_authority w' = xw_authority w \/
   exists requested, from_operation tool ver params None = Ok requested /\
     let s1 := (verify_grant hmac float_repr grant requested (xe_verify_now env)
                  (xw_authority w)).1 in
     xw_authority w' = s1 \/
     xw_authority w' = (claim_grant hmac float_repr grant requested (xe_claim_now env) s1).1) /\
  (forall caps, x = Ok caps ->
     exists g requested registry, grant = AGrant g /\
       from_operation tool ver params None = Ok requested /\
       require_context_agrees_with_grant g ctx = Ok tt /\
       xc_has_authority cfg = true /\ xc_has_sandbox cfg = true /\
       xc_capabilities cfg = Some registry /\ dget (cap_profile_id caps) registry = Some caps /\
       g_capability_profile_id g = Some (cap_profile_id caps) /\
       g_capability_digest g = Some (compute_digest sha256 float_repr caps) /\
       let s1 := (verify_grant hmac float_repr grant requested (xe_verify_now env)
                    (xw_authority w)).1 in
       claim_grant hmac float_repr grant requested (xe_claim_now env) s1
         = (xw_authority w', Ok tt)).
Proof.
  unfold verify_and_prepare, refuse, raise.
  destruct (xc_has_authority cfg); [|intros [= <- <-]; split_and!; try done; by left].
  destruct grant as [| |g]; simpl; cbv [mbind comp_bind mret comp_ret];
    [intros [= <- <-]; split_and!; try done; by left| |];
    (destruct (from_operation tool ver params None) as [req|] eqn:Hop;
      [|intros [= <- <-]; split_and!; try done; by left]); unfold on_authority, zoom.
  - intros [= <- <-]; split_and!; try done. by left.
  - destruct (verify_grant hmac float_repr (AGrant g) req (xe_verify_now env) (xw_authority w))
      as [s1 [u|e]] eqn:Hv; [|refused_after Hv req].
    unfold liftR. destruct (require_context_agrees_with_grant g ctx) as [[]|] eqn:Hctx;
      [|refused_after Hv req].
    destruct (xc_has_sandbox cfg); simpl;
      [|refused_after Hv req].
    destruct (g_capability_profile_id g) as [profile|] eqn:Hp;
      [|refused_after Hv req].
    destruct (str_nonempty profile); simpl;
      [|refused_after Hv req].
    destruct (xc_capabilities cfg) as [registry|] eqn:Hreg;
      [|refused_after Hv req].
    unfold resolve_profile, of_option. destruct (dget profile registry) as [caps|] eqn:Hcaps;
      [|refused_after Hv req].
    destruct (verify_capability_binding sha256 float_repr g caps) as [[]|] eqn:Hvc;
      [|refused_after Hv req].
    simpl. destruct (claim_grant hmac float_repr (AGrant g) req (xe_claim_now env) s1)
      as [s2 [[]|e]] eqn:Hc; intros [= <- <-]; simpl; split_and!; try done;
      try (right; exists req; rewrite Hv; simpl; rewrite Hc; auto).
    intros caps' [= <-]. apply verify_capability_binding_Ok in Hvc as [H1 H2].
    exists g, req, registry. rewrite Hv. simpl. assert (profile = cap_profile_id caps) as ->
      by congruence. by split_and!.
Qed.

Definition trace_of (ctx : option RuntimeContext) (env : ExecEnv) : string :=
  match ctx with Some c => rx_request_id c | None => "req-" +:+ xe_request_uuid env end.
Definition receipt_of (env : ExecEnv) : string := "rcpt-" +:+ xe_receipt_uuid env.

(** Step over recorded terminal evidence, and over an emission. *)
Ltac terminal_step w1 w2 i Hi :=
  match goal with |- context [record_terminal_evidence emit cfg ?p1 ?p2 ?p3 ?p4 ?p5 ?p6 ?p7 ?p8
      ?p9 ?p10 ?p11 w1] =>
    destruct (record_terminal_evidence_spec p1 p2 p3 p4 p5 p6 p7 p8 p9 p10 p11 w1)
      as (w2 & i & -> & [? ? ?] & Hi) end.
Ltac emit_step w2 w3 Hev :=
  match goal with |- context [safe_emit emit cfg ?ev w2] =>
    destruct (safe_emit_spec ev w2) as (w3 & -> & [? ? ?] & Hev) end.

(** What a returned output stands for. *)
Definition output_backed (q : SandboxRequest) (env : ExecEnv) (out : PyOutput) (w w' : W) : Prop :=
  exists r s', sandbox_execute q (xw_sandbox w) = (s', Ok r) /\ sr_success r = true /\
    sr_output r = out /\
    (xc_has_evidence cfg = true -> exists ev0 d dg rc,
       record_terminal (receipt_of env) SUCCEEDED (xe_completed_utc env) d None None dg ev0
         = (xw_evidence w', Ok rc)).

Lemma run_dispatched_spec q tool g trace env (w : W) w' x :
  run_dispatched sha256 emit sandbox_execute cfg q tool g trace (receipt_of env) env w = (w', x) ->
  xw_authority w' = xw_authority w /\ xw_dispatched w' = xw_dispatched w ++ [q] /\
  (forall out, x = Ok out -> output_backed q env out w w').
Proof.
  unfold run_dispatched, dispatch. destruct (sandbox_execute q (xw_sandbox w)) as [s [r|e]] eqn:Hs.
  - set (w1 := mkExecWorld _ _ _ s _). unfold run_completed. cbv [mbind comp_bind mret comp_ret].
    destruct (sr_success r) eqn:Hok.
    + terminal_step w1 w2 i Hi.
      destruct i as [i|]; [intros [= <- <-]; simpl in *; by split_and!|].
      emit_step w2 w3 P4.
      intros [= <- <-]. simpl in *. split_and!; [congruence|congruence|].
      intros out [= <-]. exists r, s. split_and!; try done. intros He. rewrite P4.
      destruct Hi as [(_ & ? & _)|[(_ & rc & ?)|(? & _)]]; [congruence|eauto|done].
    + destruct (classify_error_type _) as [st ec].
      terminal_step w1 w2 i Hi.
      emit_step w2 w3 P4.
      intros [= <- <-]. simpl in *. split_and!; [congruence|congruence|done].
  - set (w1 := mkExecWorld _ _ _ s _). unfold run_failed. cbv [mbind comp_bind mret comp_ret].
    destruct (classify_exception e) as [st ec].
    terminal_step w1 w2 i Hi.
    emit_step w2 w3 P4.
    unfold raise. intros Hx. destruct e; injection Hx as <- <-; simpl in *;
      (split_and!; [congruence|congruence|done]).
Qed.

Lemma run_tool_spec tool params caps g ctx impl env (w : W) w' x :
  run_tool sha256 emit sandbox_execute cfg tool params caps g ctx impl env w = (w', x) ->
  xw_authority w' = xw_authority w /\
  (xw_dispatched w' = xw_dispatched w /\ is_ok x = false \/
   exists prov, let i := default EmptyString impl in
     let q := mkRequest tool params caps prov i (eb_tool_version (g_binding g)) in
     provenance_from_grant g (trace_of ctx env) i = Ok prov /\
     xw_dispatched w' = xw_dispatched w ++ [q] /\
     (xc_has_evidence cfg = true -> exists ev1 rc,
        record_started (run_identity sha256 (ti_tool_id (tm_identity (bt_metadata tool))) caps g i
            (trace_of ctx env) (receipt_of env) env) (Some (xe_start_mono env)) (xw_evidence w)
          = (ev1, Ok rc)) /\
     (forall out, x = Ok out -> exists w1, xw_sandbox w1 = xw_sandbox w /\
        output_backed q env out w1 w')).
Proof.
  unfold run_tool, refuse, raise. set (i := default EmptyString impl).
  destruct (str_nonempty i); simpl; [|intros [= <- <-]; split; [done|by left]].
  cbv [mbind comp_bind mret comp_ret liftR].
  change (match ctx with Some c => rx_request_id c | None => "req-" +:+ xe_request_uuid env end)
    with (trace_of ctx env).
  destruct (provenance_from_grant g (trace_of ctx env) i) as [prov|e] eqn:Hp;
    [|intros [= <- <-]; split; [done|by left]].
  change ("rcpt-" +:+ xe_receipt_uuid env) with (receipt_of env).
  match goal with |- context [start_evidence sha256 emit cfg ?a ?b ?c ?d ?t ?r env w] =>
    destruct (start_evidence_spec a b c d t r env w) as (w1 & y & -> & [O1 O2 O3] & Hy) end.
  destruct y as [[]|e]; [|intros [= <- <-]; split; [done|left; done]].
  match goal with |- context [safe_emit emit cfg ?ev w1] =>
    destruct (safe_emit_spec ev w1) as (w2 & -> & [P1 P2 P3] & P4) end.
  intros Hr. apply run_dispatched_spec in Hr as (R1 & R2 & R3).
  split; [congruence|]. right. exists prov. cbv zeta. split; [done|]. split; [congruence|]. split.
  - intros He. destruct Hy as [(_ & ? & _)|[(_ & _ & rc & Hrc)|?]]; [congruence|eauto|done].
  - intros out Hout. exists w2. split; [congruence|auto].
Qed.
End executor_lemmas.

Section authority_steps.
Context (hmac : string -> string -> string) (float_repr : Z -> string).

(** Verifying and claiming keep the authority well formed and open nothing. *)
Lemma verify_state p b now s :
  authority_wf s ->
  let s' := (verify_grant hmac float_repr p b now s).1 in
  authority_wf s' /\ forall gid o, dget gid (ea_outstanding s') = Some o ->
    dget gid (ea_outstanding s) = Some o.
Proof.
  intros Hwf. pose proof (auth_step_effect hmac float_repr
    (OVerify (RE := InMemoryEnforcementStateRepository) p b now) s Hwf) as Heff.
  split; [apply Heff|]. intros gid o Ho. apply (se_outstanding _ _ _ _ _ _ Heff) in Ho as [?|Ho];
    [done|]. by apply opens_drawn in Ho.
Qed.

Lemma claim_state p b now s :
  authority_wf s ->
  let s' := (claim_grant hmac float_repr p b now s).1 in
  authority_wf s' /\ forall gid o, dget gid (ea_outstanding s') = Some o ->
    dget gid (ea_outstanding s) = Some o.
Proof.
  intros Hwf. pose proof (auth_step_effect hmac float_repr
    (OClaim (RE := InMemoryEnforcementStateRepository) p b now) s Hwf) as Heff. simpl in Heff.
  destruct (claim_grant hmac float_repr p b now s) as [s' [u|e]]; destruct p; simpl in *;
    (split; [apply Heff|]; intros gid o Ho;
     apply (se_outstanding _ _ _ _ _ _ Heff) in Ho as [?|Ho]; [done|]; by apply opens_drawn in Ho).
Qed.

Lemma claim_removes g b now s s' u :
  authority_wf s -> claim_grant hmac float_repr (AGrant g) b now s = (s', Ok u) ->
  b = g_binding g /\ dget (g_grant_id g) (ea_outstanding s) <> None /\
  dget (g_grant_id g) (ea_outstanding s') = None.
Proof.
  intros Hwf Hc. assert (is_ok (claim_grant hmac float_repr (AGrant g) b now s).2 = true) as Hok
    by (by rewrite Hc).
  apply claim_Ok in Hok as (_ & _ & _ & _ & (e & He & _) & ->); [|done].
  split; [done|]. split; [congruence|].
  unfold claim_grant in Hc. destruct (verify_authenticity _ _ _ _) as [g'|] eqn:Ha; [|done].
  assert (g' = g) as -> by (unfold verify_authenticity in Ha; repeat case_match; congruence).
  destruct (require_claimable g (g_binding g) now s) as [s1 [v|]]; [|done].
  injection Hc as <- _. simpl. rewrite dget_ddel. by case_decide.
Qed.
End authority_steps.

(** ** Properties *)

Section properties.
Context (hmac : string -> string -> string) (float_repr : Z -> string)
        (sha256 : string -> string).
Context {Tel Sbx : Type}.
Context (emit : BehavioralEvent -> Tel -> Tel * result unit).
Context (sandbox_execute : SandboxRequest -> Sbx -> Sbx * result SandboxExecutionResult).
Context (cfg : ExecutorConfig).
Local Abbreviation W := (ExecWorld (Tel := Tel) (Sbx := Sbx)).
Local Abbreviation exec_resolved :=
  (execute_resolved hmac float_repr sha256 emit sandbox_execute cfg).
Local Abbreviation exec := (execute hmac float_repr sha256 emit sandbox_execute cfg).

(** Everything a dispatch to the sandbox rests on. *)
Definition authorized_dispatch (d : ToolDescriptor) (params : PyParams)
  (ctx : option RuntimeContext) (g : RuntimeExecutionGrant) (env : ExecEnv) (w w' : W)
  (q : SandboxRequest) : Prop :=
  from_operation (td_tool_id d) (td_version d) params None = Ok (g_binding g) /\
  (exists s1, claim_grant hmac float_repr (AGrant g) (g_binding g) (xe_claim_now env) s1
     = (xw_authority w', Ok tt)) /\
  dget (g_grant_id g) (ea_outstanding (xw_authority w)) <> None /\
  dget (g_grant_id g) (ea_outstanding (xw_authority w')) = None /\
  g_capability_profile_id g = Some (cap_profile_id (sq_capabilities q)) /\
  g_capability_digest g = Some (compute_digest sha256 float_repr (sq_capabilities q)) /\
  provenance_from_grant g (trace_of ctx env) (default EmptyString (td_implementation_id d))
    = Ok (sq_provenance q) /\
  sq_parameters q = params /\ sq_tool_version q = eb_tool_version (g_binding g) /\
  (xc_has_evidence cfg = true -> exists tool ev1 rc,
     record_started (run_identity sha256 tool (sq_capabilities q) g
         (default EmptyString (td_implementation_id d)) (trace_of ctx env) (receipt_of env) env)
       (Some (xe_start_mono env)) (xw_evidence w) = (ev1, Ok rc)).

Lemma execute_resolved_spec d params ctx grant env (w : W) w' x :
  authority_wf (xw_authority w) -> exec_resolved d params ctx grant env w = (w', x) ->
  authority_wf (xw_authority w') /\
  (forall gid o, dget gid (ea_outstanding (xw_authority w')) = Some o ->
     dget gid (ea_outstanding (xw_authority w)) = Some o) /\
  (xw_dispatched w' = xw_dispatched w /\ is_ok x = false \/
   exists g q, grant = AGrant g /\ td_enabled d = true /\
     xw_dispatched w' = xw_dispatched w ++ [q] /\
     authorized_dispatch d params ctx g env w w' q /\
     (forall out, x = Ok out -> exists w1, output_backed sandbox_execute cfg q env out w1 w')).
Proof.
  intros Hwf. unfold execute_resolved, raise, refuse.
  destruct (td_enabled d) eqn:Hen; simpl; [|intros [= <- <-]; by split_and!; try left].
  cbv [mbind comp_bind mret comp_ret liftR].
  destruct (verify_and_prepare hmac float_repr sha256 cfg (td_tool_id d) (td_version d) params
    grant ctx env w) as [w1 y] eqn:Hv.
  apply verify_and_prepare_spec in Hv as (V1 & V2 & V3 & V4 & V5 & V6).
  assert (Haut : authority_wf (xw_authority w1) /\
    forall gid o, dget gid (ea_outstanding (xw_authority w1)) = Some o ->
      dget gid (ea_outstanding (xw_authority w)) = Some o).
  { destruct V5 as [->|(req & _ & Hs)]; [done|].
    destruct (verify_state hmac float_repr grant req (xe_verify_now env) _ Hwf) as [A1 A2].
    destruct (claim_state hmac float_repr grant req (xe_claim_now env) _ A1) as [B1 B2].
    destruct Hs as [->| ->]; [done|]. split; [done|]. eauto. }
  destruct Haut as [Hwf1 Hsub1].
  destruct y as [caps|e]; [|intros [= <- <-]; split_and!; try done; by left].
  destruct (V6 caps eq_refl) as (g & req & registry & -> & Hop & Hctx & _ & _ & _ & _ & Hprof & Hdig
    & Hclaim).
  destruct (verify_state hmac float_repr (AGrant g) req (xe_verify_now env) _ Hwf) as [A1 A2].
  destruct (claim_removes hmac float_repr _ _ _ _ _ _ A1 Hclaim) as (-> & C1 & C2).
  destruct (instantiate d) as [tool|e] eqn:Hin;
    [|intros [= <- <-]; split_and!; try done; by left].
  intros Hr. apply run_tool_spec in Hr as (R1 & Hr). rewrite R1.
  split; [done|]. split; [done|].
  destruct Hr as [[Hd Hx]|(prov & Hp & Hd & Hev & Hout)]; [left; split; [congruence|done]|].
  right. eexists g, _. split; [done|]. split; [done|]. split; [rewrite <- V4; exact Hd|].
  split.
  - unfold authorized_dispatch; simpl. split_and!; try done; [by rewrite R1; eauto| |by rewrite R1|].
    + intros Hnone. apply C1. destruct (dget (g_grant_id g) _) as [o|] eqn:Ho; [|done].
      apply A2 in Ho. congruence.
    + intros He. rewrite <- V1. destruct (Hev He) as (ev1 & rc & ?). eauto.
  - intros out ->. destruct (Hout out eq_refl) as (w2 & _ & ?). eauto.
Qed.

(** Successive executions, each with its own arguments. *)
Definition ExecCall : Type :=
  option RuntimeExecutionGrant * PyParams * option RuntimeContext * ExecEnv.

Definition run_executions (calls : list ExecCall) (w : W) : W :=
  fold_left (fun w '(g, params, ctx, env) => (exec g params ctx env w).1) calls w.

Lemma execute_spec g params ctx env (w : W) w' x :
  authority_wf (xw_authority w) -> exec g params ctx env w = (w', x) ->
  authority_wf (xw_authority w') /\
  (forall gid o, dget gid (ea_outstanding (xw_authority w')) = Some o ->
     dget gid (ea_outstanding (xw_authority w)) = Some o) /\
  (xw_dispatched w' = xw_dispatched w /\ is_ok x = false \/
   exists g0 d registry q, g = Some g0 /\ xc_registry cfg = Some registry /\
     resolve (eb_tool_id (g_binding g0)) (Some (eb_tool_version (g_binding g0))) registry = Ok d /\
     td_enabled d = true /\ xw_dispatched w' = xw_dispatched w ++ [q] /\
     authorized_dispatch d params ctx g0 env w w' q /\
     (forall out, x = Ok out -> exists w1, output_backed sandbox_execute cfg q env out w1 w')).
Proof.
  intros Hwf. unfold execute, refuse, raise.
  destruct g as [g0|]; [|intros [= <- <-]; by split_and!; try left].
  destruct (xc_registry cfg) as [registry|] eqn:Hreg; [|intros [= <- <-]; by split_and!; try left].
  cbv [mbind comp_bind liftR].
  destruct (resolve _ _ registry) as [d|e] eqn:Hres; [|intros [= <- <-]; by split_and!; try left].
  intros Hx. apply execute_resolved_spec in Hx as (H1 & H2 & H3); [|done].
  split; [done|]. split; [done|].
  destruct H3 as [?|(g & q & [= <-] & ? & ? & ? & ?)]; [by left|].
  right. exists g0, d, registry, q. by split_and!.
Qed.

Lemma provenance_grant_id g r i prov :
  provenance_from_grant g r i = Ok prov -> pv_grant_id prov = g_grant_id g.
Proof. unfold provenance_from_grant. case_match; [|done]. by intros [= <-]. Qed.

Definition dispatched_grants (w : W) : list string :=
  (fun q => pv_grant_id (sq_provenance q)) <$> xw_dispatched w.

Lemma run_executions_spec calls (w : W) :
  authority_wf (xw_authority w) -> NoDup (dispatched_grants w) ->
  (forall gid, gid ∈ dispatched_grants w -> dget gid (ea_outstanding (xw_authority w)) = None) ->
  NoDup (dispatched_grants (run_executions calls w)).
Proof.
  revert w. induction calls as [|[[[g params] ctx] env] calls IH]; intros w Hwf Hnd Hgone; [done|].
  cbn [run_executions fold_left]. destruct (exec g params ctx env w) as [w' x] eqn:Hx.
  apply execute_spec in Hx as (Hwf' & Hsub & Hcase); [|done]. cbn [fst].
  assert (Hold : forall gid, gid ∈ dispatched_grants w ->
    dget gid (ea_outstanding (xw_authority w')) = None).
  { intros gid Hin. destruct (dget gid (ea_outstanding (xw_authority w'))) eqn:Ho; [|done].
    apply Hsub in Ho. by rewrite Hgone in Ho. }
  apply IH; [done|..].
  - destruct Hcase as [[Hd _]|(g0 & d & registry & q & _ & _ & _ & _ & Hd & Ha & _)];
      unfold dispatched_grants; rewrite Hd; [done|].
    destruct Ha as (_ & _ & Hout & _ & _ & _ & Hp & _). apply provenance_grant_id in Hp.
    rewrite fmap_app. apply NoDup_app. split_and!; [done| |apply NoDup_singleton].
    intros gid Hin Hin'. apply list_elem_of_singleton in Hin' as ->.
    apply Hout. rewrite <- Hp. by apply Hgone.
  - intros gid. destruct Hcase as [[Hd _]|(g0 & d & registry & q & _ & _ & _ & _ & Hd & Ha & _)];
      unfold dispatched_grants; rewrite Hd; [by apply Hold|].
    rewrite fmap_app. intros [Hin|Hin]%elem_of_app; [by apply Hold|].
    destruct Ha as (_ & _ & _ & Hnone & _ & _ & Hp & _). apply provenance_grant_id in Hp.
    apply list_elem_of_singleton in Hin as ->. by rewrite Hp.
Qed.
End properties.

(** C6. Nothing reaches the sandbox without authority: a call that dispatches presented a
    grant whose binding is the operation rebuilt from the resolved version and the supplied
    parameters, claimed it in this call (it was outstanding before and is gone after), runs
    under capabilities whose digest the grant carries, hands over a provenance derived from
    the grant alone, and had recorded STARTED evidence for it first. *)
Theorem sandbox_dispatch_authorized hmac float_repr sha256 {Tel Sbx : Type} emit sandbox_execute
  cfg g params ctx env (w : ExecWorld (Tel := Tel) (Sbx := Sbx)) w' x :
  authority_wf (xw_authority w) ->
  execute hmac float_repr sha256 emit sandbox_execute cfg g params ctx env w = (w', x) ->
  xw_dispatched w' <> xw_dispatched w ->
  exists g0 d registry q, g = Some g0 /\ xc_registry cfg = Some registry /\
    resolve (eb_tool_id (g_binding g0)) (Some (eb_tool_version (g_binding g0))) registry = Ok d /\
    td_enabled d = true /\ xw_dispatched w' = xw_dispatched w ++ [q] /\
    authorized_dispatch hmac float_repr sha256 cfg d params ctx g0 env w w' q.
Proof.
  intros Hwf Hx Hne. apply execute_spec in Hx as (_ & _ & Hcase); [|done].
  destruct Hcase as [[? _]|(g0 & d & registry & q & ? & ? & ? & ? & ? & ? & _)]; [done|].
  by exists g0, d, registry, q.
Qed.

(** One grant, one execution: over any sequence of execution attempts, with any grants,
    parameters and contexts, no grant reaches the sandbox twice. *)
Theorem grant_dispatched_at_most_once hmac float_repr sha256 {Tel Sbx : Type} emit
  sandbox_execute cfg calls (w : ExecWorld (Tel := Tel) (Sbx := Sbx)) :
  authority_wf (xw_authority w) -> xw_dispatched w = [] ->
  NoDup (dispatched_grants
    (run_executions hmac float_repr sha256 emit sandbox_execute cfg calls w)).
Proof.
  intros Hwf Hd. apply run_executions_spec; [done|..]; unfold dispatched_grants; rewrite Hd.
  - constructor.
  - intros gid Hin. by apply elem_of_nil in Hin.
Qed.

(** No output without evidence: an execution returns an output only when the sandbox
    reported success with that output, and — with an evidence store — only after the store
    accepted the SUCCEEDED transition of this execution's receipt; every other outcome
    raises. *)
Theorem output_backed_by_evidence hmac float_repr sha256 {Tel Sbx : Type} emit sandbox_execute
  cfg g params ctx env (w : ExecWorld (Tel := Tel) (Sbx := Sbx)) w' out :
  authority_wf (xw_authority w) ->
  execute hmac float_repr sha256 emit sandbox_execute cfg g params ctx env w = (w', Ok out) ->
  exists q w1, xw_dispatched w' = xw_dispatched w ++ [q] /\
    output_backed sandbox_execute cfg q env out w1 w'.
Proof.
  intros Hwf Hx. apply execute_spec in Hx as (_ & _ & Hcase); [|done].
  destruct Hcase as [[_ ?]|(g0 & d & registry & q & _ & _ & _ & _ & Hd & _ & Hout)]; [done|].
  destruct (Hout out eq_refl) as (w1 & Hb). eauto.
Qed.

(** ** Witnesses: one tool, one profile, one outstanding grant *)

Definition sample_caps : ExecutionCapabilities :=
  mkCapabilities "profile" (mkFsCap "/work" true [] false) []
    (mkNetCap NET_DISABLED [] [] false false) (mkLimits 100 5 100 10 []).
Definition sample_sha (m : string) : string := "sha:" +:+ m.
Definition sample_digest : string := compute_digest sample_sha sample_repr sample_caps.

Definition exec_tool : BaseTool := mkBaseTool (sample_metadata "fs" "1.0" TOOL_LOW) "FsTool".
Definition exec_registry (impl : option string) : ToolRegistry :=
  (register exec_tool impl []).1.
Definition exec_cfg (impl : option string) : ExecutorConfig :=
  mkExecutorConfig true true true true (Some [("profile"%string, sample_caps)])
    (Some (exec_registry impl)).

Definition exec_authority : ExecutionAuthority :=
  (auth_run sample_hmac sample_repr
     [OIssue (Some empty_enf_repo) sample_binding ALLOW "a" "s" (Some 0) (Some "profile"%string)
        (Some sample_digest) "u1" 5] sample_authority).1.
Definition exec_grant : RuntimeExecutionGrant :=
  mkGrant "grant-u1" "auth" "a" "s" sample_binding 5 35
    (sign sample_hmac sample_repr "k" "grant-u1" "auth" sample_binding 5 35 "a" "s"
       (Some "profile"%string) (Some sample_digest)) (Some "profile"%string) (Some sample_digest).

Definition exec_world : ExecWorld (Tel := list BehavioralEvent) (Sbx := unit) :=
  mkExecWorld exec_authority empty_store [] tt [].
Definition sample_emit (e : BehavioralEvent) (t : list BehavioralEvent) := (t ++ [e], Ok tt).
Definition sample_sandbox (q : SandboxRequest) (s : unit) : unit * result SandboxExecutionResult :=
  (s, Ok (mkSandboxResult true (OutJson (JStr "done"%string)) None 3 None)).
Definition sample_params : PyParams := str_params [("path", "a.txt")]%string.
Definition sample_env (n : string) : ExecEnv := mkExecEnv 20 21 100 1000 5000 200 n n.

Definition sample_execute impl n :=
  execute sample_hmac sample_repr sample_sha sample_emit sample_sandbox (exec_cfg impl)
    (Some exec_grant) sample_params None (sample_env n).

Lemma exec_authority_wf : authority_wf exec_authority.
Proof. apply auth_run_wf, sample_authority_wf. Qed.

Lemma sandbox_dispatch_authorized_witness :
  exists g0 d q, Some exec_grant = Some g0 /\ td_enabled d = true /\
    authorized_dispatch sample_hmac sample_repr sample_sha (exec_cfg (Some "impl"%string)) d
      sample_params None g0 (sample_env "r1") exec_world
      (sample_execute (Some "impl"%string) "r1" exec_world).1 q.
Proof.
  destruct (sandbox_dispatch_authorized sample_hmac sample_repr sample_sha sample_emit
    sample_sandbox (exec_cfg (Some "impl"%string)) (Some exec_grant) sample_params None
    (sample_env "r1") exec_world (sample_execute (Some "impl"%string) "r1" exec_world).1
    (sample_execute (Some "impl"%string) "r1" exec_world).2 exec_authority_wf)
    as (g0 & d & registry & q & Hg & _ & _ & Hen & _ & Ha).
  - apply surjective_pairing.
  - vm_compute. discriminate.
  - exists g0, d, q. split; [exact Hg|]. split; [exact Hen|exact Ha].
Defined.

Lemma grant_dispatched_at_most_once_witness :
  let calls : list ExecCall :=
    [(Some exec_grant, sample_params, None, sample_env "r1");
     (Some exec_grant, sample_params, None, sample_env "r2")] in
  let w := run_executions sample_hmac sample_repr sample_sha sample_emit sample_sandbox
             (exec_cfg (Some "impl"%string)) calls exec_world in
  dispatched_grants w = ["grant-u1"%string] /\ NoDup (dispatched_grants w).
Proof.
  split; [vm_compute; reflexivity|].
  exact (grant_dispatched_at_most_once sample_hmac sample_repr sample_sha sample_emit
    sample_sandbox (exec_cfg (Some "impl"%string))
    [(Some exec_grant, sample_params, None, sample_env "r1");
     (Some exec_grant, sample_params, None, sample_env "r2")] exec_world exec_authority_wf eq_refl).
Defined.

Lemma output_backed_by_evidence_witness :
  exists q w1, xw_dispatched (sample_execute (Some "impl"%string) "r1" exec_world).1
      = xw_dispatched exec_world ++ [q] /\
    output_backed sample_sandbox (exec_cfg (Some "impl"%string)) q (sample_env "r1")
      (OutJson (JStr "done"%string)) w1 (sample_execute (Some "impl"%string) "r1" exec_world).1.
Proof.
  apply (output_backed_by_evidence sample_hmac sample_repr sample_sha sample_emit
    sample_sandbox (exec_cfg (Some "impl"%string)) (Some exec_grant) sample_params None
    (sample_env "r1") exec_world (sample_execute (Some "impl"%string) "r1" exec_world).1
    (OutJson (JStr "done"%string)) exec_authority_wf).
  vm_compute. reflexivity.
Defined.

(** A registration without a declared implementation is refused only after the grant was
    claimed: the refusal spends the grant. *)
Lemma missing_implementation_spends_grant :
  let '(w', x) := sample_execute None "r1" exec_world in
  x = Err (ExecutionBindingError NO_AUTHORITY) /\ xw_dispatched w' = [] /\
  dget "grant-u1"%string (ea_outstanding (xw_authority exec_world))
    = Some (mkOutstanding 35 "a" "s") /\
  dget "grant-u1"%string (ea_outstanding (xw_authority w')) = None.
Proof. vm_compute. by split_and!. Qed.
