(* ===== verification/ProcessSandbox.v ===== *)
(** * The process sandbox

    [runtime/sandbox/process_sandbox.py]: launching the child under its resource controls,
    collecting its output under a size and a time limit, killing its process group on every
    path, and reading its answer.  The operating system is an environment of observations:
    what the clock, the pipes and the process say in each round of the collection loop.
    Times are in microseconds; texts are sequences of bytes. *)

From S2P Require Import Prelude PyDict Json Paths Binding Authority Capabilities NetworkGuard.
From S2P Require Import Evidence ToolPlane Executor ResourceControls Descriptor.
Local Open Scope Z_scope.

(** ** Collecting output *)

(** One round of the loop: the clock at its head, what [select] or a read raised, the bytes
    read from each pipe that was ready, and, once the process has exited, the clock-free
    drain of both pipes ([None] also when the drain raised). *)
Record Round := mkRound {
  rd_now : Z;
  rd_raises : option exn;
  rd_stdout : option string;
  rd_stderr : option string;
  rd_exited : bool;
  rd_rest_stdout : option string;
  rd_rest_stderr : option string;
}.

Record Buffers := mkBuffers { bf_stdout : string; bf_stderr : string; bf_total : Z }.

Definition empty_buffers : Buffers := mkBuffers EmptyString EmptyString 0.

Definition chunk_len (c : option string) : Z := Z.of_nat (String.length (default EmptyString c)).

(** [if chunk: total += len(chunk); chunks.append(chunk)] for both pipes *)
Definition take_chunks (out err : option string) (b : Buffers) : Buffers :=
  mkBuffers (bf_stdout b +:+ default EmptyString out) (bf_stderr b +:+ default EmptyString err)
    (bf_total b + chunk_len out + chunk_len err).

Inductive Collected :=
| CollectedAll (b : Buffers)
| CollectTimeout
| CollectExhausted (b : Buffers)
| CollectRaised (e : exn).

(** One pass through the loop body: the end of the loop, or the buffers to go on with. *)
Definition collect_round (deadline max_output : Z) (r : Round) (b : Buffers)
  : Collected + Buffers :=
  if deadline - rd_now r <=? 0 then inl CollectTimeout
  else match rd_raises r with
  | Some e => inl (CollectRaised e)
  | None =>
      let b := take_chunks (rd_stdout r) (rd_stderr r) b in
      if max_output <? bf_total b then inl (CollectExhausted b)
      else if rd_exited r then
        let b := take_chunks (rd_rest_stdout r) (rd_rest_stderr r) b in
        if max_output <? bf_total b then inl (CollectExhausted b) else inl (CollectedAll b)
      else inr b
  end.

(** The loop; [None] when the rounds considered do not suffice. *)
Fixpoint collect (deadline max_output : Z) (rounds : nat -> Round) (fuel i : nat) (b : Buffers)
  : option Collected :=
  match fuel with
  | O => None
  | S fuel' =>
      match collect_round deadline max_output (rounds i) b with
      | inl c => Some c
      | inr b' => collect deadline max_output rounds fuel' (S i) b'
      end
  end.

(** ** The processes of an execution *)

Inductive SandboxEffect :=
| MakeScratch (path : string)
| Launch (argv : list string) (env : list (string * string)) (cwd : string) (limits : Limits)
| Terminate | Kill
| RemoveScratch (path : string).

(** [pw_group]: whether the process group of the launched child still has a process. *)
Record ProcWorld := mkProcWorld {
  pw_cache : AssessmentCache;
  pw_group : bool;
  pw_scratch : list string;
  pw_trace : list SandboxEffect;
}.

Definition emit_effect (x : SandboxEffect) (w : ProcWorld) : ProcWorld :=
  mkProcWorld (pw_cache w) (pw_group w) (pw_scratch w) (pw_trace w ++ [x]).
Definition set_group (alive : bool) (w : ProcWorld) : ProcWorld :=
  mkProcWorld (pw_cache w) alive (pw_scratch w) (pw_trace w).
Definition set_cache (c : AssessmentCache) (w : ProcWorld) : ProcWorld :=
  mkProcWorld c (pw_group w) (pw_scratch w) (pw_trace w).
Definition set_scratch (l : list string) (w : ProcWorld) : ProcWorld :=
  mkProcWorld (pw_cache w) (pw_group w) l (pw_trace w).

(** What one execution meets. *)
Record ProcEnv := mkProcEnv {
  pe_start : Z;
  pe_workspace : result (string * bool);        (** the resolved root, and whether it exists *)
  pe_mkdtemp : result string;
  pe_chmod : option exn;
  pe_path : option string;                      (** [os.environ.get("PATH")] *)
  pe_probe_failure : option string;
  pe_popen : option exn;                        (** a launch failure other than the limits *)
  pe_write : option exn;                        (** writing the descriptor to the child *)
  pe_rounds : nat -> Round;
  pe_group_survives : bool;                     (** the group outlives its leader *)
  pe_may_signal : bool;                         (** [killpg] is permitted *)
  pe_returncode : Z;
  pe_end : Z;
  pe_rmtree : bool;                             (** removing the scratch directory succeeds *)
}.

(** [_kill_process_group]: a group without processes, or one the platform may not signal,
    ends it after the first call. *)
Definition kill_process_group (env : ProcEnv) (w : ProcWorld) : ProcWorld :=
  if negb (pw_group w) || negb (pe_may_signal env) then emit_effect Terminate w
  else set_group false (emit_effect Kill (emit_effect Terminate w)).

Section sandbox.
Context (pl : Platform) (sha256 : string -> string).
(** [bytes.decode("utf-8", errors="replace")], [json.loads], pydantic's conversions, the
    encoding of parameter values and names that are not strings. *)
Context (decode : string -> string) (loads : string -> option json)
        (lax_bool : json -> option bool) (lax_int : json -> option Z)
        (other_json : result json) (other_key : result string).
Context (executable platform_root : string) (enable_testing_handlers : bool).

(** *** The payload *)

Definition any_json (v : PyAny) : result json :=
  match v with PStr s => Ok (JStr s) | PyNone => Ok JNull | POther => other_json end.
Definition any_key (v : PyAny) : result string :=
  match v with PStr s => Ok s | PyNone => Ok "null"%string | POther => other_key end.
Definition parameters_json (p : PyParams) : result (list (string * json)) :=
  match p with
  | PMapping m => mapR (fun '(k, v) => k' ← any_key k; v' ← any_json v; Ok (k', v')) m
  | _ => Err ValueError
  end.

Definition descriptor_of (q : SandboxRequest) (scratch : option string)
  : result ToolExecutionDescriptor :=
  params ← parameters_json (sq_parameters q);
  let pv := sq_provenance q in
  new_descriptor (mkExecDescriptor (ti_tool_id (tm_identity (bt_metadata (sq_tool q)))) (Some (sq_tool_version q))
    (sq_implementation_id q) params (Some (pv_grant_id pv)) (Some (pv_session_id pv))
    (Some (pv_agent_id pv)) (Some (pv_request_id pv))
    (Some (filesystem_dump (cap_filesystem (sq_capabilities q)))) scratch
    (Some (network_dump (cap_network (sq_capabilities q))))).

(** *** The environment of the child *)

Definition BLOCKED_PROXY : list string := ["http_proxy"; "https_proxy"; "all_proxy"; "no_proxy"].

Definition base_env (env : ProcEnv) : pydict string string :=
  let d := [("PATH", default "/usr/bin:/bin:/usr/sbin:/sbin" (pe_path env));
            ("PYTHONUNBUFFERED", "1"); ("PYTHONPATH", platform_root)]%string in
  if enable_testing_handlers then dset "EASP_SANDBOX_TESTING_HANDLERS"%string "1"%string d else d.

Definition clean_env (caps : ExecutionCapabilities) (env : ProcEnv) : pydict string string :=
  fold_left (fun d '(k, v) => if bool_decide (str_lower k ∈ BLOCKED_PROXY) then d else dset k v d)
    (cap_environment caps) (base_env env).

(** *** Reading the answer *)

Definition optional_text (v : option json) : result (option string) := as_opt_str v.

Definition parse_answer (env : ProcEnv) (b : Buffers) : result SandboxExecutionResult :=
  let duration_ms := (pe_end env - pe_start env) / 1000 in
  let raw_stdout := str_strip (decode (bf_stdout b)) in
  if duration_ms <? 0 then Err ValueError
  else if negb (str_nonempty raw_stdout)
  then Ok (mkSandboxResult false OutNone None duration_ms (Some "EmptyOutputError"%string))
  else match loads raw_stdout with
  | None => Ok (mkSandboxResult false OutNone None duration_ms (Some "JSONDecodeError"%string))
  | Some (JObj parsed) =>
      let output := match dget "output" parsed with
                    | None | Some JNull => OutNone
                    | Some v => OutJson v
                    end in
      let digest := match output with OutJson v => Some (sha256 (dumps_ascii v)) | _ => None end in
      success ← of_option ValueError (lax_bool (default (JBool false) (dget "success" parsed)));
      _ ← match dget "exit_code" parsed with
          | None => Ok (pe_returncode env)
          | Some v => of_option ValueError (lax_int v)
          end;
      error_type ← optional_text (dget "error_type" parsed);
      _ ← optional_text (dget "error_message" parsed);
      Ok (mkSandboxResult success output digest duration_ms error_type)
  | Some _ => Err (OtherException "AttributeError")
  end.

(** *** Execution *)

Definition argv : list string := [executable; "-P"; "-m"; "app.runtime.sandbox.runner"]%string.

(** The loop, then the [finally] of the collection: the group is killed on every path. *)
Definition supervise (caps : ExecutionCapabilities) (env : ProcEnv) (fuel : nat) (w : ProcWorld)
  : option (ProcWorld * result Buffers) :=
  let res := cap_resources caps in
  let deadline := pe_start env + rl_wall_clock_timeout res in
  match pe_write env with
  | Some e => Some (kill_process_group env w, Err e)
  | None =>
      c ← collect deadline (rl_max_output_bytes res) (pe_rounds env) fuel 0 empty_buffers;
      Some (match c with
      | CollectedAll b => (kill_process_group env (set_group (pe_group_survives env) w), Ok b)
      | CollectTimeout =>
          (kill_process_group env (kill_process_group env w), Err SandboxTimeoutError)
      | CollectExhausted _ =>
          (kill_process_group env (kill_process_group env w), Err SandboxResourceExhaustedError)
      | CollectRaised e => (kill_process_group env w, Err e)
      end)
  end.

(** [_execute_process] *)
Definition execute_process (q : SandboxRequest) (workspace : string) (scratch : option string)
  (env : ProcEnv) (fuel : nat) (w : ProcWorld)
  : option (ProcWorld * result SandboxExecutionResult) :=
  let caps := sq_capabilities q in
  let res := cap_resources caps in
  match descriptor_of q scratch with
  | Err e => Some (w, Err e)
  | Ok _ =>
      let '(cache, assessments) := assess_resource_controls pl (pe_probe_failure env)
            (rl_max_memory_bytes res) (rl_max_cpu res) (pw_cache w) in
      let w := set_cache cache w in
      match effective_limits (rl_required_controls res) (rl_max_memory_bytes res)
              (rl_max_cpu res) assessments with
      | Err e => Some (w, Err e)
      | Ok (mem, cpu) =>
          let '(limits, applied) :=
            if pl_posix pl then apply_resource_controls pl mem cpu else ([], Ok tt) in
          match pe_popen env, applied with
          | Some _, _ | _, Err _ => Some (w, Err SandboxUnavailableError)
          | None, Ok _ =>
              let w := set_group true (emit_effect (Launch argv (clean_env caps env) workspace limits) w) in
              '(w, r) ← supervise caps env fuel w;
              Some (w, b ← r; parse_answer env b)
          end
      end
  end.

(** The scratch directory around it, removed in a [finally]. *)
Definition remove_scratch (env : ProcEnv) (path : string) (w : ProcWorld) : ProcWorld :=
  let w := emit_effect (RemoveScratch path) w in
  if pe_rmtree env then set_scratch (List.filter (fun p => negb (bool_decide (p = path))) (pw_scratch w)) w
  else w.

(** [ProcessToolExecutionSandbox.execute] *)
Definition sandbox_execute_process (q : SandboxRequest) (env : ProcEnv) (fuel : nat) (w : ProcWorld)
  : option (ProcWorld * result SandboxExecutionResult) :=
  if negb (str_nonempty (sq_implementation_id q)) then Some (w, Err SandboxUnavailableError)
  else match pe_workspace env with
  | Err e => Some (w, Err e)
  | Ok (workspace, false) => Some (w, Err SandboxUnavailableError)
  | Ok (workspace, true) =>
      if fc_allow_temp_writes (cap_filesystem (sq_capabilities q)) then
        match pe_mkdtemp env with
        | Err e => Some (w, Err e)
        | Ok path =>
            let w := emit_effect (MakeScratch path) (set_scratch (path :: pw_scratch w) w) in
            match pe_chmod env with
            | Some e => Some (w, Err e)
            | None =>
                '(w, r) ← execute_process q workspace (Some path) env fuel w;
                Some (remove_scratch env path w, r)
            end
        end
      else execute_process q workspace None env fuel w
  end.
End sandbox.

(** ** The collection loop *)

Definition buffers_ok (b : Buffers) : Prop :=
  bf_total b = Z.of_nat (String.length (bf_stdout b) + String.length (bf_stderr b)).

Lemma length_append (s t : string) : String.length (s +:+ t) = (String.length s + String.length t)%nat.
Proof. induction s as [|c s IH]; [done|]. rewrite append_cons. simpl. by rewrite IH. Qed.

Lemma take_chunks_ok out err b : buffers_ok b -> buffers_ok (take_chunks out err b).
Proof.
  unfold buffers_ok, take_chunks, chunk_len. simpl. intros ->. rewrite !length_append. lia.
Qed.

(** What the way the loop ended says about the rounds. *)
Definition collected_spec (deadline max_output : Z) (rounds : nat -> Round) (c : Collected) : Prop :=
  match c with
  | CollectedAll b => buffers_ok b /\ bf_total b <= max_output /\
      exists j, rd_now (rounds j) < deadline /\ rd_exited (rounds j) = true
        /\ forall k, (k <= j)%nat -> rd_now (rounds k) < deadline
  | CollectTimeout => exists j, deadline <= rd_now (rounds j)
  | CollectExhausted b => buffers_ok b /\ max_output < bf_total b
  | CollectRaised e => exists j, rd_raises (rounds j) = Some e
  end.

Lemma collect_round_spec deadline max_output rounds i b :
  buffers_ok b -> (forall k, (k < i)%nat -> rd_now (rounds k) < deadline) ->
  match collect_round deadline max_output (rounds i) b with
  | inl c => collected_spec deadline max_output rounds c
  | inr b' => buffers_ok b' /\ rd_now (rounds i) < deadline
  end.
Proof.
  intros Hb Hpast. unfold collect_round. destruct (Z.leb_spec (deadline - rd_now (rounds i)) 0).
  { exists i. lia. }
  destruct (rd_raises (rounds i)) as [e|] eqn:He; [by exists i|].
  pose proof (take_chunks_ok (rd_stdout (rounds i)) (rd_stderr (rounds i)) b Hb) as H1.
  set (b1 := take_chunks (rd_stdout (rounds i)) (rd_stderr (rounds i)) b) in *. cbn zeta.
  destruct (Z.ltb_spec max_output (bf_total b1)); [done|].
  destruct (rd_exited (rounds i)) eqn:Hexit; [|by split; [|lia]].
  pose proof (take_chunks_ok (rd_rest_stdout (rounds i)) (rd_rest_stderr (rounds i)) _ H1) as H2.
  set (b2 := take_chunks (rd_rest_stdout (rounds i)) (rd_rest_stderr (rounds i)) b1) in *.
  destruct (Z.ltb_spec max_output (bf_total b2)); [done|]. split; [done|].
  split; [done|]. exists i. split; [lia|]. split; [done|]. intros k Hk.
  destruct (decide (k = i)) as [->|]; [lia|]. apply Hpast. lia.
Qed.

Lemma collect_sound deadline max_output rounds fuel i b c :
  buffers_ok b -> (forall k, (k < i)%nat -> rd_now (rounds k) < deadline) ->
  collect deadline max_output rounds fuel i b = Some c ->
  collected_spec deadline max_output rounds c.
Proof.
  revert i b. induction fuel as [|fuel IH]; intros i b Hb Hpast H; [done|]. simpl in H.
  pose proof (collect_round_spec deadline max_output rounds i b Hb Hpast) as Hr.
  destruct (collect_round _ _ _ _) as [c'|b']; [by simplify_eq|]. destruct Hr as [Hb' Hi].
  apply (IH (S i) b' Hb'); [|done]. intros k Hk. destruct (decide (k = i)) as [->|]; [done|].
  apply Hpast. lia.
Qed.

(** A round at or past the deadline ends the loop, so no later one is looked at. *)
Lemma collect_terminates deadline max_output rounds n fuel i b :
  deadline <= rd_now (rounds n) -> (i <= n)%nat -> (n - i < fuel)%nat ->
  exists c, forall more, collect deadline max_output rounds (fuel + more) i b = Some c.
Proof.
  intros Hn. revert i b. induction fuel as [|fuel IH]; intros i b Hi Hf; [lia|]. simpl.
  destruct (collect_round deadline max_output (rounds i) b) as [c|b'] eqn:Hr; [by exists c|].
  destruct (decide (i = n)) as [->|Hne].
  - exfalso. unfold collect_round in Hr. destruct (Z.leb_spec (deadline - rd_now (rounds n)) 0); [done|lia].
  - apply IH; lia.
Qed.

(** ** Killing the group *)

Lemma kill_process_group_spec env w :
  pe_may_signal env = true ->
  pw_group (kill_process_group env w) = false /\
  pw_scratch (kill_process_group env w) = pw_scratch w.
Proof.
  intros Hs. unfold kill_process_group. rewrite Hs. simpl.
  destruct (pw_group w) eqn:Hg; simpl; [done|]. by rewrite Hg.
Qed.

Lemma kill_process_group_scratch env w : pw_scratch (kill_process_group env w) = pw_scratch w.
Proof. unfold kill_process_group. by case_match. Qed.

(** What the environment leaves running is what the trace killed last. *)
Lemma supervise_group caps env fuel w w' r :
  pe_may_signal env = true -> supervise caps env fuel w = Some (w', r) ->
  pw_group w' = false /\ pw_scratch w' = pw_scratch w.
Proof.
  intros Hs. unfold supervise. intros H. destruct (pe_write env) as [e|].
  - simplify_eq. by apply kill_process_group_spec.
  - destruct (collect _ _ _ _ _ _) as [c|]; [|done]. simpl in H.
    destruct c as [b| |b|e]; simplify_eq;
      rewrite ?kill_process_group_scratch; split; (done || by apply kill_process_group_spec).
Qed.

Section sandbox_facts.
Context (pl : Platform) (sha256 : string -> string).
Context (decode : string -> string) (loads : string -> option json)
        (lax_bool : json -> option bool) (lax_int : json -> option Z)
        (other_json : result json) (other_key : result string).
Context (executable platform_root : string) (enable_testing_handlers : bool).

Local Abbreviation run := (sandbox_execute_process pl sha256 decode loads lax_bool lax_int
  other_json other_key executable platform_root enable_testing_handlers).
Local Abbreviation run_process := (execute_process pl sha256 decode loads lax_bool lax_int
  other_json other_key executable platform_root enable_testing_handlers).

Lemma execute_process_group q ws scratch env fuel w w' r :
  pe_may_signal env = true -> pw_group w = false ->
  run_process q ws scratch env fuel w = Some (w', r) ->
  pw_group w' = false /\ pw_scratch w' = pw_scratch w.
Proof.
  intros Hs Hg. unfold execute_process. intros H.
  destruct (descriptor_of other_json other_key q scratch); [|by simplify_eq].
  destruct (assess_resource_controls _ _ _ _ _) as [cache assessments].
  destruct (effective_limits _ _ _ _) as [[mem cpu]|]; [|by simplify_eq].
  destruct (if pl_posix pl then _ else _) as [limits applied].
  destruct (pe_popen env); [by simplify_eq|]. destruct applied; [|by simplify_eq].
  destruct (supervise _ _ _ _) as [[w2 r2]|] eqn:Hv; [|done]. simpl in H. simplify_eq.
  by apply supervise_group in Hv.
Qed.

Lemma remove_scratch_fresh env path w :
  pe_rmtree env = true -> path ∉ pw_scratch w ->
  pw_scratch (remove_scratch env path (set_scratch (path :: pw_scratch w) w)) = pw_scratch w.
Proof.
  intros Hr Hf. unfold remove_scratch. rewrite Hr. simpl.
  rewrite bool_decide_true by done. simpl. apply filter_all. intros x Hx.
  rewrite bool_decide_false; [done|]. by intros ->.
Qed.


Lemma supervise_terminates caps env n w :
  pe_start env + rl_wall_clock_timeout (cap_resources caps) <= rd_now (pe_rounds env n) ->
  exists out, forall more, supervise caps env (S n + more) w = Some out.
Proof.
  intros Hn. unfold supervise. destruct (pe_write env) as [e|]; [by eexists|].
  destruct (collect_terminates (pe_start env + rl_wall_clock_timeout (cap_resources caps))
    (rl_max_output_bytes (cap_resources caps)) (pe_rounds env) n (S n) 0 empty_buffers
    Hn ltac:(lia) ltac:(lia)) as [c Hc].
  eexists. intros more. by rewrite Hc.
Qed.

Lemma execute_process_terminates q ws scratch env n w :
  pe_start env + rl_wall_clock_timeout (cap_resources (sq_capabilities q))
    <= rd_now (pe_rounds env n) ->
  exists out, forall more, run_process q ws scratch env (S n + more) w = Some out.
Proof.
  intros Hn. unfold execute_process.
  destruct (descriptor_of other_json other_key q scratch); [|by eexists].
  destruct (assess_resource_controls _ _ _ _ _) as [cache assessments].
  destruct (effective_limits _ _ _ _) as [[mem cpu]|]; [|by eexists].
  destruct (if pl_posix pl then _ else _) as [limits applied].
  destruct (pe_popen env); [by eexists|]. destruct applied; [|by eexists].
  match goal with |- context [set_group true ?w0] =>
    destruct (supervise_terminates (sq_capabilities q) env n (set_group true w0) Hn) as [[w2 r2] Hv] end.
  eexists. intros more. rewrite Hv. simpl. done.
Qed.


Lemma supervise_Ok caps env fuel w w' b :
  supervise caps env fuel w = Some (w', Ok b) ->
  let deadline := pe_start env + rl_wall_clock_timeout (cap_resources caps) in
  collected_spec deadline (rl_max_output_bytes (cap_resources caps)) (pe_rounds env) (CollectedAll b).
Proof.
  unfold supervise. intros H. destruct (pe_write env) as [e|]; [by simplify_eq|].
  destruct (collect _ _ _ _ _ _) as [c|] eqn:Hc; [|done]. simpl in H.
  apply collect_sound in Hc; [|done|lia]. by destruct c; simplify_eq.
Qed.

Lemma execute_process_Ok q ws scratch env fuel w w' sr :
  run_process q ws scratch env fuel w = Some (w', Ok sr) ->
  exists b, parse_answer sha256 decode loads lax_bool lax_int env b = Ok sr /\
    collected_spec (pe_start env + rl_wall_clock_timeout (cap_resources (sq_capabilities q)))
      (rl_max_output_bytes (cap_resources (sq_capabilities q))) (pe_rounds env) (CollectedAll b).
Proof.
  unfold execute_process. intros H.
  destruct (descriptor_of other_json other_key q scratch); [|by simplify_eq].
  destruct (assess_resource_controls _ _ _ _ _) as [cache assessments].
  destruct (effective_limits _ _ _ _) as [[mem cpu]|]; [|by simplify_eq].
  destruct (if pl_posix pl then _ else _) as [limits applied].
  destruct (pe_popen env); [by simplify_eq|]. destruct applied; [|by simplify_eq].
  destruct (supervise _ _ _ _) as [[w2 [b|e]]|] eqn:Hv; simpl in H; simplify_eq.
  exists b. split; [done|]. by eapply supervise_Ok.
Qed.

(** A result is read from bounded output collected in time: the bytes of both pipes
    together are exactly what was counted and at most [max_output_bytes], the child had
    exited, and every round up to that one began before the deadline. *)
Theorem answer_within_bounds q env fuel w w' sr :
  sandbox_execute_process pl sha256 decode loads lax_bool lax_int other_json
    other_key executable platform_root enable_testing_handlers q env fuel w = Some (w', Ok sr) ->
  let res := cap_resources (sq_capabilities q) in
  let deadline := pe_start env + rl_wall_clock_timeout res in
  exists b, parse_answer sha256 decode loads lax_bool lax_int env b = Ok sr /\
    Z.of_nat (String.length (bf_stdout b) + String.length (bf_stderr b)) <= rl_max_output_bytes res /\
    exists j, rd_exited (pe_rounds env j) = true /\
      forall k, (k <= j)%nat -> rd_now (pe_rounds env k) < deadline.
Proof.
  intros H res deadline.
  assert (exists b, parse_answer sha256 decode loads lax_bool lax_int env b = Ok sr /\
    collected_spec deadline (rl_max_output_bytes res) (pe_rounds env) (CollectedAll b))
    as (b & Hp & Hok & Hmax & j & _ & Hexit & Hall).
  { unfold sandbox_execute_process in H.
    destruct (negb (str_nonempty (sq_implementation_id q))); [by simplify_eq|].
    destruct (pe_workspace env) as [[ws []]|e]; [|by simplify_eq..].
    destruct (fc_allow_temp_writes _); [|by eapply execute_process_Ok].
    destruct (pe_mkdtemp env) as [path|e]; [|by simplify_eq].
    destruct (pe_chmod env); [by simplify_eq|].
    destruct (run_process _ _ _ _ _ _) as [[w2 r2]|] eqn:He; [|done]. simpl in H. simplify_eq.
    by eapply execute_process_Ok. }
  exists b. split; [done|]. split; [by rewrite <- Hok|]. by exists j.
Qed.

(** ** Launches *)

Lemma kill_process_group_launches env w x :
  (exists a e c l, x = Launch a e c l) -> x ∈ pw_trace (kill_process_group env w) -> x ∈ pw_trace w.
Proof. intros (a & e & c & l & ->). unfold kill_process_group. case_match; simpl; set_solver. Qed.

Lemma supervise_launches caps env fuel w w' r x :
  (exists a e c l, x = Launch a e c l) ->
  supervise caps env fuel w = Some (w', r) -> x ∈ pw_trace w' -> x ∈ pw_trace w.
Proof.
  intros Hx. unfold supervise. intros H Hin. destruct (pe_write env) as [e|].
  - simplify_eq. by eapply kill_process_group_launches.
  - destruct (collect _ _ _ _ _ _) as [c|]; [|done]. simpl in H.
    destruct c as [b| |b|e]; simplify_eq;
      repeat (apply kill_process_group_launches in Hin; [|done]); exact Hin.
Qed.

(** A variable of the child: one the sandbox sets itself, or one the capability declares
    that is not a proxy setting. *)
Definition declared_variable (caps : ExecutionCapabilities) (kv : string * string) : Prop :=
  kv.1 ∈ ["PATH"; "PYTHONUNBUFFERED"; "PYTHONPATH"; "EASP_SANDBOX_TESTING_HANDLERS"]%string \/
  kv ∈ cap_environment caps /\ str_lower kv.1 ∉ BLOCKED_PROXY.

Lemma dset_elem {K V} `{EqDecision K} (k : K) (v : V) d x : x ∈ dset k v d -> x = (k, v) \/ x ∈ d.
Proof.
  induction d as [|[k' v'] d IH]; simpl; [set_solver|]. case_decide; [set_solver|].
  intros [->|Hx]%elem_of_cons; [set_solver|]. destruct (IH Hx); set_solver.
Qed.

Lemma clean_env_declared caps env kv :
  kv ∈ clean_env platform_root enable_testing_handlers caps env -> declared_variable caps kv.
Proof.
  unfold clean_env.
  assert (forall l d, (forall x, x ∈ d -> declared_variable caps x) ->
    (forall x, x ∈ l -> x ∈ cap_environment caps) ->
    kv ∈ fold_left (fun d '(k, v) => if bool_decide (str_lower k ∈ BLOCKED_PROXY) then d
                                     else dset k v d) l d -> declared_variable caps kv) as Hfold.
  { induction l as [|[k v] l IH]; intros d Hd Hl; simpl; [apply Hd|]. apply IH; [|set_solver].
    intros x Hx. case_bool_decide as Hb; [by apply Hd|]. apply dset_elem in Hx as [->|Hx]; [|by apply Hd].
    right. split; [apply Hl; set_solver|done]. }
  apply Hfold; [|done]. intros x Hx. left. unfold base_env in Hx.
  destruct enable_testing_handlers; [apply dset_elem in Hx as [->|Hx]; [set_solver|]|];
    repeat (apply elem_of_cons in Hx as [->|Hx]; [set_solver|]); set_solver.
Qed.

Lemma execute_process_launch q ws scratch env fuel w w' r a e c l :
  pl_posix pl = true -> cache_ok pl (pw_cache w) ->
  0 < rl_max_memory_bytes (cap_resources (sq_capabilities q)) ->
  0 < rl_max_cpu (cap_resources (sq_capabilities q)) ->
  run_process q ws scratch env fuel w = Some (w', r) ->
  Launch a e c l ∈ pw_trace w' -> Launch a e c l ∉ pw_trace w ->
  a = argv executable /\ c = ws /\
  e = clean_env platform_root enable_testing_handlers (sq_capabilities q) env /\
  in_force pl (rl_required_controls (cap_resources (sq_capabilities q)))
    (rl_max_memory_bytes (cap_resources (sq_capabilities q)))
    (rl_max_cpu (cap_resources (sq_capabilities q))) l.
Proof.
  intros Hpx Hc Hm Hp. unfold execute_process. intros H Hin Hnew.
  destruct (descriptor_of other_json other_key q scratch); [|by simplify_eq].
  destruct (assess_resource_controls _ _ _ _ _) as [cache assessments] eqn:Ha.
  destruct (effective_limits _ _ _ _) as [[mem cpu]|] eqn:He; [|by simplify_eq].
  rewrite Hpx in H.
  destruct (apply_resource_controls pl mem cpu) as [limits applied] eqn:Hap.
  destruct (pe_popen env); [by simplify_eq|]. destruct applied as [[]|]; [|by simplify_eq].
  destruct (supervise _ _ _ _) as [[w2 r2]|] eqn:Hv; [|done]. simpl in H. simplify_eq.
  eapply supervise_launches in Hv; [|by eauto|exact Hin]. simpl in Hv.
  apply elem_of_app in Hv as [Hv|Hv]; [done|]. apply list_elem_of_singleton in Hv. simplify_eq.
  split; [done|]. split; [done|]. split; [done|]. by eapply gate_in_force.
Qed.

(** Every child an execution launches starts as the platform's own runner with the
    automatic search path off, in the resolved workspace, with an environment made only of
    the sandbox's own variables and of those the capability declares and no proxy setting,
    and with every control the profile requires established at its configured value. *)
Theorem launch_is_confined q env fuel w w' r a e c l :
  pl_posix pl = true -> cache_ok pl (pw_cache w) ->
  0 < rl_max_memory_bytes (cap_resources (sq_capabilities q)) ->
  0 < rl_max_cpu (cap_resources (sq_capabilities q)) ->
  sandbox_execute_process pl sha256 decode loads lax_bool lax_int other_json
    other_key executable platform_root enable_testing_handlers q env fuel w = Some (w', r) ->
  Launch a e c l ∈ pw_trace w' -> Launch a e c l ∉ pw_trace w ->
  a = argv executable /\ pe_workspace env = Ok (c, true) /\
  (forall kv, kv ∈ e -> declared_variable (sq_capabilities q) kv) /\
  in_force pl (rl_required_controls (cap_resources (sq_capabilities q)))
    (rl_max_memory_bytes (cap_resources (sq_capabilities q)))
    (rl_max_cpu (cap_resources (sq_capabilities q))) l.
Proof.
  intros Hpx Hc Hm Hp. unfold sandbox_execute_process. intros H Hin Hnew.
  destruct (negb (str_nonempty (sq_implementation_id q))); [by simplify_eq|].
  destruct (pe_workspace env) as [[ws []]|ex] eqn:Hws; [|by simplify_eq..].
  destruct (fc_allow_temp_writes _).
  - destruct (pe_mkdtemp env) as [path|ex]; [|by simplify_eq].
    destruct (pe_chmod env).
    { simplify_eq. simpl in Hin. set_solver. }
    destruct (run_process _ _ _ _ _ _) as [[w2 r2]|] eqn:He; [|done]. simpl in H. simplify_eq.
    assert (Launch a e c l ∈ pw_trace w2) as Hin2.
    { unfold remove_scratch in Hin.
      destruct (pe_rmtree env); simpl in Hin; apply elem_of_app in Hin as [?|Hin]; try done;
        by apply list_elem_of_singleton in Hin. }
    assert (Launch a e c l ∉ pw_trace w ++ [MakeScratch path]) as Hnew2.
    { rewrite elem_of_app, list_elem_of_singleton. by intros [?|?]. }
    destruct (execute_process_launch q ws (Some path) env fuel
      (emit_effect (MakeScratch path) (set_scratch (path :: pw_scratch w) w))
      w2 r a e c l Hpx Hc Hm Hp He Hin2 Hnew2)
      as (-> & -> & -> & ?).
    split; [done|]. split; [done|]. split; [apply clean_env_declared|done].
  - destruct (execute_process_launch q ws None env fuel w w' r a e c l Hpx Hc Hm Hp H Hin Hnew)
      as (-> & -> & -> & ?).
    split; [done|]. split; [done|]. split; [apply clean_env_declared|done].
Qed.
End sandbox_facts.

(** ** A run on a concrete platform *)

Definition ps_caps : ExecutionCapabilities :=
  mkCapabilities "default" (mkFsCap "/ws" true [] true)
    [("LANG", "C"); ("HTTP_PROXY", "http://proxy")]%string
    (mkNetCap NET_DISABLED [] [] false false)
    (mkLimits 268435456 5000000 1024 10000000 ["memory"%string]).

Definition ps_request : SandboxRequest :=
  mkRequest exec_tool (str_params [("path", "a.txt")]%string) ps_caps
    (mkProvenance "g1" "a1" "s1" "r1" "file_read" "1.0.0" "file_read_v1") "file_read_v1" "1.0.0".

Definition ps_answer : string := "{output: ok}".

(** The child writes its answer in the second round and exits in the third. *)
Definition ps_rounds (i : nat) : Round :=
  match i with
  | 0%nat => mkRound 1000 None None None false None None
  | 1%nat => mkRound 50000 None (Some ps_answer) None false None None
  | _ => mkRound (Z.of_nat i * 50000) None None None true None None
  end.

Definition ps_env : ProcEnv :=
  mkProcEnv 0 (Ok ("/ws"%string, true)) (Ok "/tmp/sandbox_scratch_1"%string) None None None None None
    ps_rounds true true 0 120000 true.

Definition ps_world : ProcWorld := mkProcWorld [] false [] [].

Definition ps_loads (s : string) : option json :=
  if bool_decide (s = ps_answer)
  then Some (JObj [("success", JBool true); ("output", JStr "ok"); ("exit_code", JNum "0")]%string)
  else None.

Definition ps_run (fuel : nat) : option (ProcWorld * result SandboxExecutionResult) :=
  sandbox_execute_process sample_platform (fun s => s) (fun s => s) ps_loads
    (fun v => match v with JBool b => Some b | _ => None end)
    (fun v => match v with JNum _ => Some 0 | _ => None end) (Err TypeError) (Err TypeError)
    "/usr/bin/python3" "/platform" false ps_request ps_env fuel ps_world.

Definition ps_result : SandboxExecutionResult :=
  mkSandboxResult true (OutJson (JStr "ok")) (Some (dumps_ascii (JStr "ok"))) 120 None.

Lemma ps_run_answers :
  option_map snd (ps_run 3) = Some (Ok ps_result).
Proof. vm_compute. reflexivity. Qed.



Lemma answer_within_bounds_witness :
  exists b, parse_answer (fun s => s) (fun s => s) ps_loads
    (fun v => match v with JBool b => Some b | _ => None end)
    (fun v => match v with JNum _ => Some 0 | _ => None end) ps_env b = Ok ps_result /\
    Z.of_nat (String.length (bf_stdout b) + String.length (bf_stderr b)) <= 1024.
Proof.
  destruct (ps_run 3) as [[w' r]|] eqn:H; [|vm_compute in H; discriminate H].
  assert (r = Ok ps_result) as Hr.
  { pose proof ps_run_answers as Ha. rewrite H in Ha. injection Ha. trivial. }
  subst r.
  destruct (answer_within_bounds sample_platform (fun s => s) (fun s => s) ps_loads
    (fun v => match v with JBool b => Some b | _ => None end)
    (fun v => match v with JNum _ => Some 0 | _ => None end) (Err TypeError) (Err TypeError)
    "/usr/bin/python3" "/platform" false ps_request ps_env 3 ps_world w' ps_result H)
    as (b & Hp & Hb & _).
  exists b. split; [exact Hp|exact Hb].
Defined.

Definition ps_limits : Limits := [(9, (268435456, 268435456)); (0, (6, 7))].

Lemma launch_is_confined_witness :
  in_force sample_platform ["memory"%string] 268435456 5000000 ps_limits /\
  clean_env "/platform" false ps_caps ps_env =
    [("PATH", "/usr/bin:/bin:/usr/sbin:/sbin"); ("PYTHONUNBUFFERED", "1");
     ("PYTHONPATH", "/platform"); ("LANG", "C")]%string.
Proof.
  split; [|vm_compute; reflexivity].
  destruct (ps_run 3) as [[w' r]|] eqn:H; [|vm_compute in H; discriminate H].
  refine (proj2 (proj2 (proj2 (launch_is_confined sample_platform (fun s => s) (fun s => s) ps_loads
    (fun v => match v with JBool b => Some b | _ => None end)
    (fun v => match v with JNum _ => Some 0 | _ => None end) (Err TypeError) (Err TypeError)
    "/usr/bin/python3" "/platform" false ps_request ps_env 3 ps_world w' r
    (argv "/usr/bin/python3") (clean_env "/platform" false ps_caps ps_env) "/ws" ps_limits
    eq_refl _ eq_refl eq_refl H _ _)))).
  - intros mem cpu x Hx. discriminate Hx.
  - assert (option_map (fun x => nth 1 (pw_trace (fst x)) Kill) (ps_run 3)
      = Some (Launch (argv "/usr/bin/python3") (clean_env "/platform" false ps_caps ps_env) "/ws" ps_limits)) as Ht
      by (vm_compute; reflexivity).
    rewrite H in Ht. cbn [option_map fst] in Ht. injection Ht as Ht. rewrite <- Ht.
    assert (option_map (fun x => length (pw_trace (fst x))) (ps_run 3) = Some 5%nat) as Hl
      by (vm_compute; reflexivity).
    rewrite H in Hl. cbn [option_map fst] in Hl. injection Hl as Hl.
    apply list_elem_of_In, nth_In. rewrite Hl. lia.
  - intros Hn. inversion Hn.
Defined.
