(* ===== verification/Findings.v ===== *)
(** * Findings store (app/services/findings_service.py)

    The authoritative evidence store.  It owns the per-agent evidence sequence numbers and
    the time at which it accepted each finding; every derived view (risk assessments, the
    materialised posture, the reinstatement baseline) is computed from it.  Every public
    method runs under one lock, so a call is one atomic step; the clock reading a method
    takes is its [now] argument. *)

From S2P Require Import Prelude.
From S2P Require Import PyDict.
From S2P Require Import Models.

Open Scope Z_scope.

(** ** State *)

Record FindingsService := mkFindingsService {
  fs_findings : pydict string Finding;
  fs_recorded_at : pydict string Z;
  fs_agent_sequences : pydict string Z;
}.

Definition set_findings (d : pydict string Finding) (s : FindingsService) : FindingsService :=
  mkFindingsService d (fs_recorded_at s) (fs_agent_sequences s).
Definition set_recorded_at (d : pydict string Z) (s : FindingsService) : FindingsService :=
  mkFindingsService (fs_findings s) d (fs_agent_sequences s).
Definition set_agent_sequences (d : pydict string Z) (s : FindingsService) : FindingsService :=
  mkFindingsService (fs_findings s) (fs_recorded_at s) d.

Definition empty_findings : FindingsService := mkFindingsService [] [] [].

(** ** Bootstrap of unassigned sequences *)

(** [self._recorded_at.get(f.finding_id, f.created_at)] *)
Definition recording_time (s : FindingsService) (f : Finding) : Z :=
  default (f_created_at f) (dget (finding_id f) (fs_recorded_at s)).

(** The tuple [(recorded_at, created_at, finding_id)] the unassigned findings sort by. *)
Definition bootstrap_leb (s : FindingsService) (f g : Finding) : bool :=
  let rf := recording_time s f in
  let rg := recording_time s g in
  if rf <? rg then true
  else if rg <? rf then false
  else pair_leb (f_created_at f, finding_id f) (f_created_at g, finding_id g).

(** The loop body [max_seq += 1; self._findings[f.finding_id] = updated]. *)
Definition assign_next (acc : FindingsService * Z) (f : Finding) : FindingsService * Z :=
  let '(s, max_seq) := acc in
  let max_seq := max_seq + 1 in
  let updated := with_sequence max_seq (recording_time s f) f in
  (set_findings (dset (finding_id f) updated (fs_findings s)) s, max_seq).

Definition bootstrap_agent (s : FindingsService) (item : string * list Finding)
  : FindingsService :=
  let '(agent, agent_findings) := item in
  let assigned_seqs :=
    List.filter (fun n => UNASSIGNED_SEQUENCE <? n) (f_evidence_sequence <$> agent_findings) in
  let max_seq := max_default 0 assigned_seqs in
  let unassigned :=
    List.filter (fun f => f_evidence_sequence f =? UNASSIGNED_SEQUENCE) agent_findings in
  let '(s', max_seq) := foldl assign_next (s, max_seq) (sort_by (bootstrap_leb s) unassigned) in
  set_agent_sequences (dset agent max_seq (fs_agent_sequences s')) s'.

Definition bootstrap_sequences (s : FindingsService) : FindingsService :=
  foldl bootstrap_agent s (group_by f_agent_id (dvalues (fs_findings s))).

(** ** Construction *)

Definition seed_finding (initial_recorded_at : option (pydict string Z))
    (s : FindingsService) (f : Finding) : FindingsService :=
  let s := set_findings (dset (finding_id f) f (fs_findings s)) s in
  match initial_recorded_at with
  | Some d =>
      match dget (finding_id f) d with
      | Some at_ => set_recorded_at (dset (finding_id f) at_ (fs_recorded_at s)) s
      | None => set_recorded_at (dsetdefault (finding_id f) (f_created_at f) (fs_recorded_at s)) s
      end
  | None => set_recorded_at (dsetdefault (finding_id f) (f_created_at f) (fs_recorded_at s)) s
  end.

Definition new_findings_service (initial_findings : list Finding)
    (initial_recorded_at : option (pydict string Z)) : FindingsService :=
  match initial_findings with
  | [] => empty_findings
  | _ => bootstrap_sequences
           (foldl (seed_finding initial_recorded_at) empty_findings initial_findings)
  end.

(** ** Recording *)

Definition get_agent_sequence (agent : string) (s : FindingsService) : Z :=
  default 0 (dget agent (fs_agent_sequences s)).

Definition next_sequence_for_agent (agent : string) (s : FindingsService)
  : FindingsService * Z :=
  let seq := get_agent_sequence agent s + 1 in
  (set_agent_sequences (dset agent seq (fs_agent_sequences s)) s, seq).

Definition record_finding_locked (f : Finding) (now : Z) (s : FindingsService)
  : FindingsService * Finding :=
  match dget (finding_id f) (fs_findings s) with
  | Some existing =>
      let '(s, assigned_seq) :=
        if UNASSIGNED_SEQUENCE <? f_evidence_sequence existing
        then (s, f_evidence_sequence existing)
        else next_sequence_for_agent (f_agent_id f) s in
      let rec_at := default now (dget (finding_id existing) (fs_recorded_at s)) in
      let assigned := with_sequence assigned_seq rec_at f in
      let s := set_findings (dset (finding_id assigned) assigned (fs_findings s)) s in
      (set_recorded_at (dsetdefault (finding_id assigned) now (fs_recorded_at s)) s, assigned)
  | None =>
      let '(s, assigned_seq) := next_sequence_for_agent (f_agent_id f) s in
      let assigned := with_sequence assigned_seq now f in
      let s := set_findings (dset (finding_id assigned) assigned (fs_findings s)) s in
      (set_recorded_at (dset (finding_id assigned) now (fs_recorded_at s)) s, assigned)
  end.

Definition record_finding (f : Finding) (now : Z) (s : FindingsService)
  : FindingsService * Finding := record_finding_locked f now s.

Fixpoint record_findings (fs : list Finding) (now : Z) (s : FindingsService)
  : FindingsService * list Finding :=
  match fs with
  | [] => (s, [])
  | f :: fs =>
      let '(s, assigned) := record_finding_locked f now s in
      let '(s, recorded) := record_findings fs now s in
      (s, assigned :: recorded)
  end.

Fixpoint record_new_findings (fs : list Finding) (now : Z) (s : FindingsService)
  : FindingsService * list Finding :=
  match fs with
  | [] => (s, [])
  | f :: fs =>
      if dhas (finding_id f) (fs_findings s) then record_new_findings fs now s
      else
        let '(s, assigned) := record_finding_locked f now s in
        let '(s, recorded) := record_new_findings fs now s in
        (s, assigned :: recorded)
  end.

(** ** Queries *)

Definition get_finding (id : string) (s : FindingsService) : option Finding :=
  dget id (fs_findings s).

Definition recorded_at (id : string) (s : FindingsService) : option Z :=
  dget id (fs_recorded_at s).

(** [if x is not None: results = [f for f in results if g(f) == x]] *)
Definition keep_if {A} `{EqDecision A} (g : Finding -> A) (x : option A) (l : list Finding)
  : list Finding :=
  match x with
  | None => l
  | Some x => List.filter (fun f => bool_decide (g f = x)) l
  end.

Definition recorded_strictly_after (s : FindingsService) (at_ : Z) (f : Finding) : bool :=
  match recorded_at (finding_id f) s with Some r => at_ <? r | None => false end.

Definition list_findings (session_id agent_id : option string) (severity : option Severity)
    (category : option FindingCategory) (status : option FindingStatus)
    (rule_id : option string) (recorded_after : option Z) (s : FindingsService)
  : list Finding :=
  let results := dvalues (fs_findings s) in
  let results :=
    match recorded_after with
    | None => results
    | Some at_ => List.filter (recorded_strictly_after s at_) results
    end in
  let results := keep_if f_session_id session_id results in
  let results := keep_if f_agent_id agent_id results in
  let results := keep_if f_severity severity results in
  let results := keep_if f_category category results in
  let results := keep_if f_status status results in
  keep_if f_rule_id rule_id results.

(** [list_findings(agent_id=a)], the query the risk projection is rebuilt from. *)
Definition agent_findings (a : string) (s : FindingsService) : list Finding :=
  list_findings None (Some a) None None None None None s.

Definition capture_evidence_baseline_sequence (agent : string) (baseline_at : option Z)
    (now : Z) (s : FindingsService) : Z :=
  let at_ := default now baseline_at in
  let seqs :=
    f_evidence_sequence <$>
      List.filter
        (fun f => default at_ (recorded_at (finding_id f) s) <=? at_)
        (List.filter (fun f => bool_decide (f_agent_id f = agent)) (dvalues (fs_findings s))) in
  max_default 0 seqs.

Definition clear (s : FindingsService) : FindingsService := empty_findings.

(** ** Histories of calls *)

Inductive FindingsCall :=
| CRecord (f : Finding)
| CRecordMany (fs : list Finding)
| CRecordNew (fs : list Finding)
| CBootstrap
| CClear.

Definition call_findings (c : FindingsCall) : list Finding :=
  match c with
  | CRecord f => [f]
  | CRecordMany fs | CRecordNew fs => fs
  | CBootstrap | CClear => []
  end.

Definition findings_step (now : Z) (c : FindingsCall) (s : FindingsService) : FindingsService :=
  match c with
  | CRecord f => (record_finding f now s).1
  | CRecordMany fs => (record_findings fs now s).1
  | CRecordNew fs => (record_new_findings fs now s).1
  | CBootstrap => bootstrap_sequences s
  | CClear => clear s
  end.

Definition findings_run (h : list (Z * FindingsCall)) (s : FindingsService) : FindingsService :=
  foldl (fun s c => findings_step c.1 c.2 s) s h.

(** ** Well-formed stores

    [owner] says which agent a finding identifier belongs to: identifiers are derived from
    the session and agent, so no two agents share one. *)

Record fs_inv (owner : string -> string) (s : FindingsService) : Prop := {
  fsi_wf : dwf (fs_findings s);
  fsi_key : forall k f, dget k (fs_findings s) = Some f ->
              finding_id f = k /\ f_agent_id f = owner k;
  fsi_nonneg : forall a, 0 <= get_agent_sequence a s;
  fsi_seqs : forall a, f_evidence_sequence <$> in_group f_agent_id a (dvalues (fs_findings s))
                       ≡ₚ seqZ 1 (get_agent_sequence a s);
}.

Definition owned (owner : string -> string) (f : Finding) : Prop :=
  f_agent_id f = owner (finding_id f).

Lemma agent_findings_group a s :
  agent_findings a s = in_group f_agent_id a (dvalues (fs_findings s)).
Proof. done. Qed.

(** Replacing a finding by one of the same agent. *)
Lemma in_group_replace a (id : string) (f f0 : Finding) (d : pydict string Finding) :
  dget id d = Some f0 -> f_agent_id f0 = f_agent_id f ->
  exists l1 l2,
    in_group f_agent_id a (dvalues d) =
      l1 ++ (if decide (f_agent_id f = a) then [f0] else []) ++ l2 /\
    in_group f_agent_id a (dvalues (dset id f d)) =
      l1 ++ (if decide (f_agent_id f = a) then [f] else []) ++ l2.
Proof.
  intros Hget Hag. destruct (dvalues_dset_over id f f0 d Hget) as (l1 & l2 & -> & ->).
  exists (in_group f_agent_id a l1), (in_group f_agent_id a l2).
  rewrite !in_group_app, !in_group_cons, Hag. by case_decide.
Qed.

Lemma get_agent_sequence_dset a b n s :
  get_agent_sequence a (set_agent_sequences (dset b n (fs_agent_sequences s)) s) =
  if decide (a = b) then n else get_agent_sequence a s.
Proof. unfold get_agent_sequence; simpl. rewrite dget_dset. by case_decide. Qed.

Lemma seqZ_snoc n : 0 <= n -> seqZ 1 (n + 1) = seqZ 1 n ++ [n + 1].
Proof.
  intros Hn. rewrite seqZ_app by lia. f_equal.
  rewrite seqZ_cons, seqZ_nil by lia. f_equal. lia.
Qed.

Lemma inv_positive owner s k f :
  fs_inv owner s -> dget k (fs_findings s) = Some f -> 1 <= f_evidence_sequence f.
Proof.
  intros Hi Hk. assert (f_evidence_sequence f ∈ seqZ 1 (get_agent_sequence (f_agent_id f) s)) as H.
  { rewrite <- fsi_seqs by done. apply list_elem_of_fmap. exists f. split; [done|].
    apply in_group_elem. split; [by eapply dget_values|done]. }
  apply elem_of_seqZ in H. lia.
Qed.

(** *** Recording preserves it *)

(** A finding already stored keeps its sequence and its position. *)
Lemma record_existing_seqs owner s f now f0 :
  fs_inv owner s -> owned owner f -> dget (finding_id f) (fs_findings s) = Some f0 ->
  let s' := (record_finding_locked f now s).1 in
  (forall a, f_evidence_sequence <$> in_group f_agent_id a (dvalues (fs_findings s')) =
             f_evidence_sequence <$> in_group f_agent_id a (dvalues (fs_findings s))) /\
  fs_agent_sequences s' = fs_agent_sequences s /\
  (exists r, fs_findings s' =
             dset (finding_id f) (with_sequence (f_evidence_sequence f0) r f) (fs_findings s)) /\
  fs_recorded_at s' = dsetdefault (finding_id f) now (fs_recorded_at s).
Proof.
  intros Hi Hown Hget s'. subst s'. unfold record_finding_locked. rewrite Hget.
  pose proof (inv_positive _ _ _ _ Hi Hget) as Hpos.
  destruct (fsi_key _ _ Hi _ _ Hget) as [Hid Hag].
  assert (UNASSIGNED_SEQUENCE <? f_evidence_sequence f0 = true) as ->
    by (unfold UNASSIGNED_SEQUENCE; lia).
  simpl. split_and!; [|done|by eexists|done]. intros a.
  edestruct (in_group_replace a (finding_id f)
    (with_sequence (f_evidence_sequence f0) (default now (dget (finding_id f0) (fs_recorded_at s))) f)
    f0 _ Hget) as (l1 & l2 & -> & ->).
  { simpl. unfold owned in Hown. congruence. }
  rewrite !fmap_app. f_equal. f_equal. by case_decide.
Qed.

(** A finding not yet stored takes the agent's next sequence, at the end. *)
Lemma record_fresh_seqs s f now :
  dget (finding_id f) (fs_findings s) = None ->
  let s' := (record_finding_locked f now s).1 in
  let n := get_agent_sequence (f_agent_id f) s + 1 in
  fs_findings s' = fs_findings s ++ [(finding_id f, with_sequence n now f)] /\
  fs_recorded_at s' = dset (finding_id f) now (fs_recorded_at s) /\
  (forall a, get_agent_sequence a s' =
     if decide (a = f_agent_id f) then n else get_agent_sequence a s).
Proof.
  intros Hget. unfold record_finding_locked. rewrite Hget. simpl. split_and!; [|done|].
  - by apply dset_fresh.
  - intros a. apply (get_agent_sequence_dset a (f_agent_id f)).
Qed.

Lemma record_fresh_group s f now a :
  dget (finding_id f) (fs_findings s) = None ->
  in_group f_agent_id a (dvalues (fs_findings (record_finding_locked f now s).1)) =
  in_group f_agent_id a (dvalues (fs_findings s)) ++
    (if decide (f_agent_id f = a)
     then [with_sequence (get_agent_sequence a s + 1) now f] else []).
Proof.
  intros Hget. destruct (record_fresh_seqs s f now Hget) as (Hf & _ & _).
  rewrite Hf, <- (dset_fresh _ _ _ Hget), dvalues_dset_new, in_group_app by done. f_equal.
  rewrite in_group_cons. change (f_agent_id (with_sequence _ _ _)) with (f_agent_id f).
  by case_decide; subst.
Qed.

Lemma record_locked_inv owner s f now :
  fs_inv owner s -> owned owner f -> fs_inv owner (record_finding_locked f now s).1.
Proof.
  intros Hi Hown. destruct (dget (finding_id f) (fs_findings s)) as [f0|] eqn:Hget.
  - destruct (record_existing_seqs owner s f now f0) as (Hseq & Hag & (r & Hf) & Hr); [done..|].
    split.
    + rewrite Hf. apply dset_wf, Hi.
    + rewrite Hf. intros k g. rewrite dget_dset. case_decide; intros ?; simplify_eq; [done|].
      by apply Hi.
    + unfold get_agent_sequence. rewrite Hag. apply Hi.
    + intros a. rewrite Hseq. unfold get_agent_sequence. rewrite Hag. apply Hi.
  - pose proof (record_fresh_seqs s f now Hget) as (Hf & _ & Hag). split.
    + rewrite Hf, <- (dset_fresh _ _ _ Hget). apply dset_wf, Hi.
    + intros k g. rewrite Hf, <- (dset_fresh _ _ _ Hget), dget_dset.
      case_decide; intros ?; simplify_eq; [done|]. by apply Hi.
    + intros a. rewrite Hag. pose proof (fsi_nonneg _ _ Hi). case_decide; [|done].
      specialize (H (f_agent_id f)). lia.
    + intros a. rewrite record_fresh_group, fmap_app, Hag by done.
      pose proof (fsi_seqs _ _ Hi a) as Ha. pose proof (fsi_nonneg _ _ Hi a).
      case_decide as Hd; [|rewrite decide_False by congruence; by rewrite app_nil_r].
      subst. rewrite decide_True by done. rewrite seqZ_snoc, <- Ha by done. done.
Qed.

Lemma record_findings_inv owner fs now s :
  fs_inv owner s -> Forall (owned owner) fs -> fs_inv owner (record_findings fs now s).1.
Proof.
  revert s. induction fs as [|f fs IH]; intros s Hi Hf; [done|].
  apply Forall_cons in Hf as [Hf Hfs]. simpl.
  pose proof (record_locked_inv owner s f now Hi Hf) as H1.
  destruct (record_finding_locked f now s) as [s1 g]. specialize (IH s1 H1 Hfs).
  by destruct (record_findings fs now s1).
Qed.

Lemma record_new_inv owner fs now s :
  fs_inv owner s -> Forall (owned owner) fs -> fs_inv owner (record_new_findings fs now s).1.
Proof.
  revert s. induction fs as [|f fs IH]; intros s Hi Hf; [done|].
  apply Forall_cons in Hf as [Hf Hfs]. simpl. destruct (dhas _ _); [auto|].
  pose proof (record_locked_inv owner s f now Hi Hf) as H1.
  destruct (record_finding_locked f now s) as [s1 g]. specialize (IH s1 H1 Hfs).
  by destruct (record_new_findings fs now s1).
Qed.

(** *** Bootstrap *)

(** What assigning numbers from [m] to the findings [l] of one agent does to the store. *)
Record assigned_from (a : string) (m : Z) (l : list Finding) (s : FindingsService)
    (r : FindingsService * Z) : Prop := {
  asg_max : r.2 = m + Z.of_nat (length l);
  asg_rec : fs_recorded_at r.1 = fs_recorded_at s;
  asg_cur : fs_agent_sequences r.1 = fs_agent_sequences s;
  asg_wf : dwf (fs_findings r.1);
  asg_hit : forall (i : nat) f, l !! i = Some f ->
    dget (finding_id f) (fs_findings r.1) =
    Some (with_sequence (m + 1 + Z.of_nat i) (recording_time s f) f);
  asg_miss : forall k, k ∉ finding_id <$> l ->
    dget k (fs_findings r.1) = dget k (fs_findings s);
  asg_other : forall b, b <> a ->
    in_group f_agent_id b (dvalues (fs_findings r.1)) =
    in_group f_agent_id b (dvalues (fs_findings s));
  asg_seqs : forall R, in_group f_agent_id a (dvalues (fs_findings s)) ≡ₚ l ++ R ->
    f_evidence_sequence <$> in_group f_agent_id a (dvalues (fs_findings r.1)) ≡ₚ
    seqZ (m + 1) (Z.of_nat (length l)) ++ (f_evidence_sequence <$> R);
}.

Lemma assign_all_spec a l s m :
  dwf (fs_findings s) ->
  NoDup (finding_id <$> l) ->
  (forall f, f ∈ l -> dget (finding_id f) (fs_findings s) = Some f /\ f_agent_id f = a) ->
  assigned_from a m l s (foldl assign_next (s, m) l).
Proof.
  revert s m. induction l as [|f l IH]; intros s m Hwf Hnd Hl.
  { simpl. split; simpl; try done; [lia|]. by intros R ->. }
  csimpl in *. apply NoDup_cons in Hnd as [Hni Hnd].
  destruct (Hl f) as [Hf Ha]; [set_solver|].
  set (f' := with_sequence (m + 1) (recording_time s f) f).
  set (s1 := set_findings (dset (finding_id f) f' (fs_findings s)) s).
  assert (assigned_from a (m + 1) l s1 (foldl assign_next (s1, m + 1) l)) as Hr.
  { apply IH; [by apply dset_wf|done|]. intros g Hg. simpl. rewrite dget_dset.
    rewrite decide_False; [apply Hl; set_solver|].
    intros He. apply Hni. apply list_elem_of_fmap. by exists g. }
  destruct Hr as [H1 H2 H3 H4 H5 H6 H7 H8]. split; try done.
  - rewrite H1. simpl. lia.
  - intros [|i] g Hi; simpl in Hi; simplify_eq.
    + rewrite H6 by done. simpl. rewrite dget_dset_eq. f_equal. unfold f'. f_equal. lia.
    + rewrite (H5 i g Hi). do 2 f_equal. lia.
  - intros k Hk. apply not_elem_of_cons in Hk as [Hk1 Hk2].
    rewrite H6 by done. simpl. by rewrite dget_dset_ne.
  - intros b Hb. rewrite H7 by done. simpl.
    destruct (in_group_replace b (finding_id f) f' f _ Hf) as (l1 & l2 & -> & ->); [done|].
    by rewrite !decide_False by (simpl; congruence).
  - intros R HR. rewrite (H8 (f' :: R)).
    + csimpl. change (f_evidence_sequence f') with (m + 1).
      rewrite (seqZ_cons (m + 1)) by lia. rewrite <- Permutation_middle. simpl.
      replace (Z.pred (Z.of_nat (S (length l)))) with (Z.of_nat (length l)) by lia.
      by replace (Z.succ (m + 1)) with (m + 1 + 1) by lia.
    + simpl in HR |- *.
      destruct (in_group_replace a (finding_id f) f' f _ Hf) as (l1 & l2 & He & Hd); [done|].
      rewrite He in HR. rewrite Hd. rewrite decide_True in HR |- * by done.
      simpl in *. rewrite <- !Permutation_middle in *. apply Permutation_cons_inv in HR.
      by rewrite HR.
Qed.

Definition unassigned (f : Finding) : bool := f_evidence_sequence f =? UNASSIGNED_SEQUENCE.

(** The highest number an agent's findings carry, and its unassigned findings in the order
    they are numbered. *)
Definition assigned_max (a : string) (s : FindingsService) : Z :=
  max_default 0 (List.filter (fun n => UNASSIGNED_SEQUENCE <? n)
                   (f_evidence_sequence <$> agent_findings a s)).
Definition legacy_order (a : string) (s : FindingsService) : list Finding :=
  sort_by (bootstrap_leb s) (List.filter unassigned (agent_findings a s)).

Record store_ok (s : FindingsService) : Prop := {
  so_wf : dwf (fs_findings s);
  so_key : forall k f, dget k (fs_findings s) = Some f ->
             finding_id f = k /\ 0 <= f_evidence_sequence f;
}.

(** What bootstrapping agent [a] promises about that agent. *)
Record booted (a : string) (s s' : FindingsService) : Prop := {
  bt_max : get_agent_sequence a s' = assigned_max a s + Z.of_nat (length (legacy_order a s));
  bt_seqs : f_evidence_sequence <$> agent_findings a s' ≡ₚ
    seqZ (assigned_max a s + 1) (Z.of_nat (length (legacy_order a s))) ++
    List.filter (fun n => UNASSIGNED_SEQUENCE <? n) (f_evidence_sequence <$> agent_findings a s);
  bt_hit : forall (i : nat) f, legacy_order a s !! i = Some f ->
    dget (finding_id f) (fs_findings s') =
    Some (with_sequence (assigned_max a s + 1 + Z.of_nat i) (recording_time s f) f);
  bt_keep : forall k f, dget k (fs_findings s) = Some f -> f_agent_id f = a ->
    unassigned f = false -> dget k (fs_findings s') = Some f;
}.

(** What it promises about everything else. *)
Record boot_frame (agents : list string) (s s' : FindingsService) : Prop := {
  bf_ok : store_ok s';
  bf_rec : fs_recorded_at s' = fs_recorded_at s;
  bf_group : forall b, b ∉ agents -> agent_findings b s' = agent_findings b s;
  bf_cursor : forall b, b ∉ agents -> get_agent_sequence b s' = get_agent_sequence b s;
  bf_get : forall k f, dget k (fs_findings s) = Some f -> f_agent_id f ∉ agents ->
    dget k (fs_findings s') = Some f;
  bf_same : forall k f', dget k (fs_findings s') = Some f' ->
    exists f, dget k (fs_findings s) = Some f /\ finding_id f' = finding_id f /\
              f_agent_id f' = f_agent_id f;
}.

Lemma agent_findings_elem a s f :
  store_ok s -> f ∈ agent_findings a s <->
  dget (finding_id f) (fs_findings s) = Some f /\ f_agent_id f = a.
Proof.
  intros [Hwf Hk]. rewrite agent_findings_group, in_group_elem. split.
  - intros [Hin Ha]. split; [|done]. apply values_dget in Hin as [k Hin]; [|done].
    by destruct (Hk k f Hin) as [-> _].
  - intros [Hin Ha]. split; [by eapply dget_values|done].
Qed.

Lemma legacy_order_elem a s f :
  store_ok s -> f ∈ legacy_order a s <->
  (dget (finding_id f) (fs_findings s) = Some f /\ f_agent_id f = a) /\ unassigned f = true.
Proof.
  intros Hok. unfold legacy_order. rewrite sort_by_elem, filter_elem.
  by rewrite agent_findings_elem.
Qed.

(** The values of a store have distinct identifiers. *)
Lemma store_ids s : store_ok s -> finding_id <$> dvalues (fs_findings s) = dkeys (fs_findings s).
Proof.
  intros [Hwf Hk]. unfold dvalues, dkeys. rewrite <- list_fmap_compose.
  apply list_fmap_ext. intros i [k f] Hi. simpl. apply Hk. apply elem_dget; [done|].
  by eapply list_elem_of_lookup_2.
Qed.

Lemma legacy_order_nodup a s : store_ok s -> NoDup (finding_id <$> legacy_order a s).
Proof.
  intros Hok. unfold legacy_order. rewrite sort_by_perm, agent_findings_group.
  apply NoDup_fmap_filter, NoDup_fmap_filter. rewrite store_ids by done. apply Hok.
Qed.

Lemma assigned_max_nonneg a s : 0 <= assigned_max a s.
Proof.
  unfold assigned_max. set (l := List.filter _ _).
  destruct (max_default_in 0 l) as [[-> _]|Hm]; [lia|].
  unfold l in Hm at 2. apply filter_elem in Hm as [_ Hm].
  apply Z.ltb_lt in Hm. unfold UNASSIGNED_SEQUENCE in Hm. lia.
Qed.

Lemma bootstrap_agent_spec a s :
  store_ok s ->
  booted a s (bootstrap_agent s (a, agent_findings a s)) /\
  boot_frame [a] s (bootstrap_agent s (a, agent_findings a s)).
Proof.
  intros Hok. unfold bootstrap_agent. fold unassigned.
  change (max_default 0 _) with (assigned_max a s).
  change (sort_by _ _) with (legacy_order a s).
  pose proof (assign_all_spec a (legacy_order a s) s (assigned_max a s)) as [H1 H2 H3 H4 H5 H6 H7 H8].
  { apply Hok. } { by apply legacy_order_nodup. } { intros f Hf. by apply legacy_order_elem. }
  destruct (foldl assign_next _ _) as [s' n]; simpl in *.
  assert (forall k f', dget k (fs_findings s') = Some f' ->
    exists f, dget k (fs_findings s) = Some f /\
      (f' = f \/ f ∈ legacy_order a s /\
         exists m, 0 <= m /\ f' = with_sequence m (recording_time s f) f)) as Hinv.
  { intros k f' Hk. destruct (decide (k ∈ finding_id <$> legacy_order a s)) as [Hin|Hin].
    - apply list_elem_of_fmap in Hin as (f & -> & Hin). pose proof Hin as Hl.
      apply list_elem_of_lookup_1 in Hin as [i Hi]. rewrite (H5 i f Hi) in Hk.
      apply legacy_order_elem in Hl as Hl'; [|done]. exists f. split; [apply Hl'|]. right.
      split; [done|]. simplify_eq. eexists. split; [|done].
      pose proof (assigned_max_nonneg a s). lia.
    - rewrite H6 in Hk by done. eauto. }
  split; split.
  - rewrite <- H1. unfold get_agent_sequence; simpl. by rewrite dget_dset_eq.
  - change (agent_findings a (set_agent_sequences _ s'))
      with (in_group f_agent_id a (dvalues (fs_findings s'))).
    rewrite (H8 (List.filter (fun f => negb (unassigned f)) (agent_findings a s))).
    + apply Permutation_app_head. rewrite filter_fmap. apply reflexive_eq. f_equal. apply List.filter_ext_in. intros f Hf%list_elem_of_In.
      apply agent_findings_elem in Hf; [|done]. destruct Hf as [Hf _].
      apply Hok in Hf as [_ Hf]. unfold unassigned, UNASSIGNED_SEQUENCE.
      destruct (Z.eqb_spec (f_evidence_sequence f) 0), (Z.ltb_spec 0 (f_evidence_sequence f)); simpl; try done; lia.
    + unfold legacy_order. rewrite sort_by_perm. apply filter_partition.
  - intros i f Hi. apply (H5 i f Hi).
  - intros k f Hk Ha Hu. rewrite <- Hk. apply H6. intros (g & Hg & Hin)%list_elem_of_fmap.
    apply legacy_order_elem in Hin as [[Hin _] Hg']; [|done]. subst k. congruence.
  - split; [done|]. intros k f' Hk. destruct (Hinv k f' Hk) as (f & Hf & Hor).
    destruct (so_key _ Hok _ _ Hf) as [Hid Hn].
    destruct Hor as [->|[_ (m & Hm & ->)]]; simpl; done.
  - done.
  - intros b Hb. apply H7. set_solver.
  - intros b Hb. unfold get_agent_sequence; simpl. rewrite dget_dset_ne by set_solver.
    by rewrite H3.
  - intros k f Hk Ha. simpl. rewrite <- Hk. apply H6. intros (g & Hg & Hin)%list_elem_of_fmap.
    apply legacy_order_elem in Hin as [[Hin Hag] _]; [|done]. subst k.
    rewrite Hin in Hk. simplify_eq. set_solver.
  - intros k f' Hk. destruct (Hinv k f' Hk) as (f & Hf & Hor). exists f. split; [done|].
    by destruct Hor as [->|[_ (m & Hm & ->)]].
Qed.

Lemma boot_frame_trans P Q s s1 s' :
  boot_frame P s s1 -> boot_frame Q s1 s' -> boot_frame (P ++ Q) s s'.
Proof.
  intros [A1 A2 A3 A4 A5 A6] [B1 B2 B3 B4 B5 B6]. split; [done|congruence|..].
  - intros b Hb. rewrite B3, A3; set_solver.
  - intros b Hb. rewrite B4, A4; set_solver.
  - intros k f Hk Hb. apply B5; [apply A5|]; set_solver.
  - intros k f'' Hk. destruct (B6 k f'' Hk) as (f' & Hf' & ? & ?).
    destruct (A6 k f' Hf') as (f & ? & ? & ?). exists f. split_and!; congruence.
Qed.

Lemma booted_then_frame a Q s s1 s' :
  a ∉ Q -> booted a s s1 -> boot_frame Q s1 s' ->
  (forall f, f ∈ legacy_order a s -> f_agent_id f = a) -> booted a s s'.
Proof.
  intros Ha [A1 A2 A3 A4] Hf Hl. split.
  - by rewrite (bf_cursor _ _ _ Hf).
  - by rewrite (bf_group _ _ _ Hf).
  - intros i f Hi. apply (bf_get _ _ _ Hf); [by apply A3|]. simpl.
    rewrite Hl; [done|]. by eapply list_elem_of_lookup_2.
  - intros k f Hk Hag Hu. apply (bf_get _ _ _ Hf); [by apply A4|congruence].
Qed.

Lemma frame_then_booted a Q s s1 s' :
  a ∉ Q -> boot_frame Q s s1 -> booted a s1 s' -> booted a s s'.
Proof.
  intros Ha Hf [A1 A2 A3 A4].
  assert (assigned_max a s1 = assigned_max a s) as E1
    by (unfold assigned_max; by rewrite (bf_group _ _ _ Hf)).
  assert (forall f, recording_time s1 f = recording_time s f) as E2
    by (intros f; unfold recording_time; by rewrite (bf_rec _ _ _ Hf)).
  assert (legacy_order a s1 = legacy_order a s) as E3.
  { unfold legacy_order, bootstrap_leb, recording_time.
    by rewrite (bf_rec _ _ _ Hf), (bf_group _ _ _ Hf). }
  rewrite E1, E3 in A1, A2, A3. rewrite (bf_group _ _ _ Hf) in A2 by done. split; [done..| |].
  - intros i f Hi. rewrite <- E2. by apply A3.
  - intros k f Hk Hag Hu. apply A4; [|done..]. apply (bf_get _ _ _ Hf); [done|congruence].
Qed.

Lemma bootstrap_fold_spec items s :
  store_ok s -> NoDup (dkeys items) ->
  (forall a l, (a, l) ∈ items -> l = agent_findings a s) ->
  boot_frame (dkeys items) s (foldl bootstrap_agent s items) /\
  forall a, a ∈ dkeys items -> booted a s (foldl bootstrap_agent s items).
Proof.
  revert s. induction items as [|[a l] items IH]; intros s Hok Hnd Hl; cbn [foldl].
  { split; [|set_solver]. split; eauto. }
  change (dkeys ((a, l) :: items)) with (a :: dkeys items) in *.
  apply NoDup_cons in Hnd as [Hni Hnd].
  rewrite (Hl a l) by set_solver.
  destruct (bootstrap_agent_spec a s Hok) as [Hb Hf].
  destruct (IH (bootstrap_agent s (a, agent_findings a s))) as [Hf' Hb'].
  { apply Hf. } { done. }
  { intros b g Hin. rewrite (Hl b g) by set_solver. symmetry. apply (bf_group _ _ _ Hf).
    apply elem_dkeys in Hin. set_solver. }
  split; [exact (boot_frame_trans [a] _ _ _ _ Hf Hf')|]. intros b [->|Hin]%elem_of_cons.
  - eapply booted_then_frame; [exact Hni|done|done|]. intros f Hin.
    by apply legacy_order_elem in Hin as [[_ ?] _].
  - eapply frame_then_booted; [|exact Hf|by apply Hb']. set_solver.
Qed.

(** Bootstrapping the whole store: every agent with findings is numbered, nothing else
    changes. *)
Lemma bootstrap_spec s :
  store_ok s ->
  boot_frame (f_agent_id <$> dvalues (fs_findings s)) s (bootstrap_sequences s) /\
  forall a, agent_findings a s <> [] -> booted a s (bootstrap_sequences s).
Proof.
  intros Hok. unfold bootstrap_sequences.
  destruct (bootstrap_fold_spec (group_by f_agent_id (dvalues (fs_findings s))) s Hok)
    as [Hf Hb].
  - apply group_by_wf.
  - intros a l Hin. by apply group_by_elem in Hin as [-> _].
  - split.
    + assert (forall b, b ∉ f_agent_id <$> dvalues (fs_findings s) <->
                        b ∉ dkeys (group_by f_agent_id (dvalues (fs_findings s)))) as He.
      { intros b. rewrite group_by_keys, list_elem_of_fmap. naive_solver. }
      destruct Hf as [A1 A2 A3 A4 A5 A6]. split; [done..| | | |done]; intros b; rewrite ?He; auto.
      intros f Hk. rewrite He. auto.
    + intros a Ha. apply Hb. apply (elem_dkeys a (agent_findings a s)). by apply group_by_elem.
Qed.

(** A store that satisfies the invariant is already bootstrapped. *)
Lemma legacy_order_none owner a s : fs_inv owner s -> legacy_order a s = [].
Proof.
  intros Hi. unfold legacy_order.
  assert (List.filter unassigned (agent_findings a s) = []) as ->; [|done].
  apply filter_none. intros f Hf. rewrite agent_findings_group, in_group_elem in Hf.
  destruct Hf as [Hin _]. apply values_dget in Hin as [k Hk]; [|apply Hi].
  pose proof (inv_positive _ _ _ _ Hi Hk). unfold unassigned, UNASSIGNED_SEQUENCE. lia.
Qed.

Lemma seqZ_max n : 0 <= n ->
  max_default 0 (List.filter (fun m => UNASSIGNED_SEQUENCE <? m) (seqZ 1 n)) = n.
Proof.
  intros Hn. set (l := List.filter _ _).
  assert (forall x, x ∈ l <-> 1 <= x <= n) as Hl.
  { intros x. unfold l. rewrite filter_elem, elem_of_seqZ. unfold UNASSIGNED_SEQUENCE.
    rewrite Z.ltb_lt. lia. }
  destruct (max_default_in 0 l) as [[-> He]|Hm].
  - destruct (decide (n = 0)); [done|]. assert (n ∈ l) as Hin by (apply Hl; lia).
    rewrite He in Hin. set_solver.
  - apply Hl in Hm. destruct (decide (n = 0)); [lia|].
    assert (n <= max_default 0 l); [|lia]. apply max_default_ge, Hl. lia.
Qed.

Lemma assigned_max_inv owner a s :
  fs_inv owner s -> assigned_max a s = get_agent_sequence a s.
Proof.
  intros Hi. unfold assigned_max.
  rewrite (max_default_perm 0 _ (List.filter (fun m => UNASSIGNED_SEQUENCE <? m)
    (seqZ 1 (get_agent_sequence a s)))).
  - apply seqZ_max, Hi.
  - apply List_filter_perm. rewrite agent_findings_group. apply Hi.
Qed.

Lemma inv_store_ok owner s : fs_inv owner s -> store_ok s.
Proof.
  intros Hi. split; [apply Hi|]. intros k f Hk. split; [by apply (fsi_key _ _ Hi)|].
  pose proof (inv_positive _ _ _ _ Hi Hk). lia.
Qed.

Lemma bootstrap_agent_noop owner a s :
  fs_inv owner s ->
  bootstrap_agent s (a, agent_findings a s) =
  set_agent_sequences (dset a (get_agent_sequence a s) (fs_agent_sequences s)) s.
Proof.
  intros Hi. unfold bootstrap_agent. fold unassigned.
  change (max_default 0 _) with (assigned_max a s).
  change (sort_by _ _) with (legacy_order a s).
  by rewrite (legacy_order_none owner a s Hi), (assigned_max_inv owner a s Hi).
Qed.

Lemma reset_cursor_inv owner a s :
  fs_inv owner s ->
  fs_inv owner (set_agent_sequences (dset a (get_agent_sequence a s) (fs_agent_sequences s)) s).
Proof.
  intros [I1 I2 I3 I4]. split; [done..| |].
  - intros b. rewrite get_agent_sequence_dset. case_decide; apply I3.
  - intros b. rewrite get_agent_sequence_dset. case_decide; subst; apply I4.
Qed.

Lemma bootstrap_fold_noop owner items s0 s :
  fs_inv owner s0 -> fs_findings s0 = fs_findings s ->
  (forall a l, (a, l) ∈ items -> l = agent_findings a s) ->
  fs_findings (foldl bootstrap_agent s0 items) = fs_findings s.
Proof.
  revert s0. induction items as [|[a l] items IH]; intros s0 Hi0 He Hl; [done|].
  cbn [foldl]. rewrite (Hl a l) by set_solver.
  assert (agent_findings a s = agent_findings a s0) as ->
    by (rewrite !agent_findings_group; by rewrite He).
  rewrite (bootstrap_agent_noop owner) by done.
  apply IH; [by apply reset_cursor_inv|done|set_solver].
Qed.

(** Re-running the bootstrap changes no finding and no cursor. *)
Lemma bootstrap_idempotent owner s :
  fs_inv owner s ->
  fs_findings (bootstrap_sequences s) = fs_findings s /\
  fs_recorded_at (bootstrap_sequences s) = fs_recorded_at s /\
  forall a, get_agent_sequence a (bootstrap_sequences s) = get_agent_sequence a s.
Proof.
  intros Hi. destruct (bootstrap_spec s (inv_store_ok _ _ Hi)) as [Hf Hb].
  split_and!; [|apply (bf_rec _ _ _ Hf)|].
  - apply (bootstrap_fold_noop owner); [done..|].
    intros a l Hin. by apply group_by_elem in Hin as [-> _].
  - intros a. destruct (decide (agent_findings a s = [])) as [Hn|Hn].
    + apply (bf_cursor _ _ _ Hf). intros (f & Hfa & Hin)%list_elem_of_fmap.
      assert (f ∈ agent_findings a s) as Hx; [|rewrite Hn in Hx; set_solver].
      rewrite agent_findings_group. by apply in_group_elem.
    + rewrite (bt_max _ _ _ (Hb a Hn)), (legacy_order_none owner a s Hi).
      rewrite (assigned_max_inv owner a s Hi). simpl. lia.
Qed.

Lemma bootstrap_inv owner s : fs_inv owner s -> fs_inv owner (bootstrap_sequences s).
Proof.
  intros Hi. destruct (bootstrap_idempotent owner s Hi) as (Hf & _ & Hc).
  split; rewrite ?Hf; [apply Hi..| |].
  - intros a. rewrite Hc. apply Hi.
  - intros a. rewrite Hc. apply Hi.
Qed.

Lemma empty_inv owner : fs_inv owner empty_findings.
Proof. split; [apply dwf_nil|done|done|done]. Qed.

Lemma findings_step_inv owner now c s :
  fs_inv owner s -> Forall (owned owner) (call_findings c) -> fs_inv owner (findings_step now c s).
Proof.
  intros Hi Hc. destruct c as [f|fs|fs| |]; simpl in *.
  - apply record_locked_inv; [done|by apply Forall_cons in Hc as [? _]].
  - by apply record_findings_inv.
  - by apply record_new_inv.
  - by apply bootstrap_inv.
  - apply empty_inv.
Qed.

Lemma findings_run_inv owner h s :
  fs_inv owner s -> Forall (fun c => Forall (owned owner) (call_findings c.2)) h ->
  fs_inv owner (findings_run h s).
Proof.
  revert s. induction h as [|[now c] h IH]; intros s Hi Hh; [done|].
  apply Forall_cons in Hh as [Hc Hh]. apply IH; [|done]. by apply findings_step_inv.
Qed.

(** *** Construction from a legacy store *)

(** Before its bootstrap a store built from unassigned findings holds only those. *)
Lemma seed_ok l ira s :
  store_ok s -> (forall f, f ∈ l -> f_evidence_sequence f = 0) ->
  (forall f, f ∈ dvalues (fs_findings s) -> f_evidence_sequence f = 0) ->
  let s' := foldl (seed_finding ira) s l in
  store_ok s' /\ (forall f, f ∈ dvalues (fs_findings s') ->
                   f_evidence_sequence f = 0 /\ (f ∈ l \/ f ∈ dvalues (fs_findings s))) /\
  fs_agent_sequences s' = fs_agent_sequences s.
Proof.
  revert s. induction l as [|f l IH]; intros s Hok Hl Hs; cbn [foldl].
  { split_and!; [done| |done]. intros f Hf. auto. }
  assert (fs_findings (seed_finding ira s f) = dset (finding_id f) f (fs_findings s)) as Hf
    by (unfold seed_finding; repeat case_match; done).
  assert (fs_agent_sequences (seed_finding ira s f) = fs_agent_sequences s) as Hc
    by (unfold seed_finding; repeat case_match; done).
  assert (forall g, g ∈ dvalues (fs_findings (seed_finding ira s f)) ->
                    g = f \/ g ∈ dvalues (fs_findings s)) as Hv.
  { rewrite Hf. intros g Hg. apply values_dget in Hg as [k Hg]; [|apply dset_wf, Hok].
    rewrite dget_dset in Hg. case_decide; simplify_eq; [by left|right].
    by eapply dget_values. }
  destruct (IH (seed_finding ira s f)) as (H1 & H2 & H3).
  - split; rewrite Hf; [apply dset_wf, Hok|]. intros k g. rewrite dget_dset.
    case_decide; intros Hg; simplify_eq; [|by apply Hok].
    split; [done|]. rewrite Hl; [done|set_solver].
  - set_solver.
  - intros g Hg. apply Hv in Hg as [->|Hg]; [apply Hl; set_solver|by apply Hs].
  - split_and!; [done| |congruence]. intros g Hg. apply H2 in Hg as [Hz [Hg|Hg]];
      [set_solver|]. split; [done|]. apply Hv in Hg as [->|Hg]; set_solver.
Qed.

Definition legacy (owner : string -> string) (f : Finding) : Prop :=
  owned owner f /\ f_evidence_sequence f = 0.

Lemma max_default_zero l : (forall n, n ∈ l -> n = 0) ->
  List.filter (fun n => UNASSIGNED_SEQUENCE <? n) l = [].
Proof. intros H. apply filter_none. intros x Hx. by rewrite (H x Hx). Qed.

(** Bootstrapping a store of unassigned findings. *)
Lemma legacy_boot owner s :
  store_ok s -> fs_agent_sequences s = [] ->
  (forall f, f ∈ dvalues (fs_findings s) -> legacy owner f) ->
  fs_inv owner (bootstrap_sequences s) /\
  forall a, assigned_max a s = 0.
Proof.
  intros Hok Hc Hl. destruct (bootstrap_spec s Hok) as [Hf Hb].
  assert (forall a, List.filter (fun n => UNASSIGNED_SEQUENCE <? n)
            (f_evidence_sequence <$> agent_findings a s) = []) as Hz.
  { intros a. apply max_default_zero. intros n (f & -> & Hin)%list_elem_of_fmap.
    rewrite agent_findings_group, in_group_elem in Hin.
    destruct Hin as [Hin _]. by destruct (Hl f Hin). }
  assert (forall a, assigned_max a s = 0) as Hm by (intros a; unfold assigned_max; by rewrite Hz).
  assert (forall a, agent_findings a s = [] -> get_agent_sequence a (bootstrap_sequences s) = 0 /\
            agent_findings a (bootstrap_sequences s) = []) as Hnone.
  { intros a Ha. assert (a ∉ f_agent_id <$> dvalues (fs_findings s)) as Hni.
    { intros (f & -> & Hin)%list_elem_of_fmap.
      assert (f ∈ agent_findings (f_agent_id f) s) as Hx; [|rewrite Ha in Hx; set_solver].
      rewrite agent_findings_group. by apply in_group_elem. }
    rewrite (bf_cursor _ _ _ Hf), (bf_group _ _ _ Hf) by done.
    unfold get_agent_sequence. by rewrite Hc. }
  split; [|done]. split.
  - apply Hf.
  - intros k f' Hk. destruct (bf_same _ _ _ Hf k f' Hk) as (f & Hk' & Hid & Hag).
    destruct (so_key _ Hok _ _ Hk') as [<- _]. rewrite Hid, Hag. split; [done|].
    apply (Hl f). by eapply dget_values.
  - intros a. destruct (decide (agent_findings a s = [])) as [Ha|Ha].
    + by destruct (Hnone a Ha) as [-> _].
    + rewrite (bt_max _ _ _ (Hb a Ha)), Hm. lia.
  - intros a. rewrite <- agent_findings_group.
    destruct (decide (agent_findings a s = [])) as [Ha|Ha].
    + by destruct (Hnone a Ha) as [-> ->].
    + rewrite (bt_max _ _ _ (Hb a Ha)), (bt_seqs _ _ _ (Hb a Ha)), Hm, Hz. by rewrite app_nil_r.
Qed.

Lemma seeded_legacy owner l ira :
  Forall (legacy owner) l ->
  let s := foldl (seed_finding ira) empty_findings l in
  store_ok s /\ fs_agent_sequences s = [] /\
  (forall f, f ∈ dvalues (fs_findings s) -> legacy owner f).
Proof.
  intros Hl. rewrite Forall_forall in Hl.
  destruct (seed_ok l ira empty_findings) as (H1 & H2 & H3).
  - split; [apply dwf_nil|done].
  - intros f Hf. by apply Hl.
  - set_solver.
  - split_and!; [done..|]. intros f Hf. apply H2 in Hf as [_ [Hf|Hf]]; [by apply Hl|set_solver].
Qed.

Lemma new_service_inv owner l ira :
  Forall (legacy owner) l -> fs_inv owner (new_findings_service l ira).
Proof.
  intros Hl. unfold new_findings_service. destruct l as [|f l]; [apply empty_inv|].
  destruct (seeded_legacy owner (f :: l) ira Hl) as (H1 & H2 & H3). by apply legacy_boot.
Qed.

(** ** Order of legacy evidence *)

Lemma bootstrap_leb_spec s f g :
  bootstrap_leb s f g = true <->
  recording_time s f < recording_time s g \/
  recording_time s f = recording_time s g /\
  (f_created_at f < f_created_at g \/
   f_created_at f = f_created_at g /\ str_leb (finding_id f) (finding_id g) = true).
Proof.
  unfold bootstrap_leb, pair_leb; simpl.
  destruct (Z.ltb_spec (recording_time s f) (recording_time s g));
  destruct (Z.ltb_spec (recording_time s g) (recording_time s f));
  destruct (Z.ltb_spec (f_created_at f) (f_created_at g));
  destruct (Z.ltb_spec (f_created_at g) (f_created_at f));
  intuition (congruence || lia).
Qed.

Lemma bootstrap_leb_total s f g : bootstrap_leb s f g = true \/ bootstrap_leb s g f = true.
Proof.
  rewrite !bootstrap_leb_spec. destruct (str_leb_total (finding_id f) (finding_id g)) as [H|H];
  rewrite H; destruct (Z.lt_trichotomy (recording_time s f) (recording_time s g)) as [?|[?|?]];
  destruct (Z.lt_trichotomy (f_created_at f) (f_created_at g)) as [?|[?|?]]; intuition lia.
Qed.

Lemma bootstrap_leb_trans s f g h :
  bootstrap_leb s f g = true -> bootstrap_leb s g h = true -> bootstrap_leb s f h = true.
Proof.
  rewrite !bootstrap_leb_spec. intros [?|[? [?|[? H1]]]] [?|[? [?|[? H2]]]];
    try (left; lia); right; (split; [lia|]); try (left; lia); right; split; try lia.
  by eapply str_leb_trans.
Qed.

Lemma bootstrap_leb_antisym s f g :
  bootstrap_leb s f g = true -> bootstrap_leb s g f = true -> finding_id f = finding_id g.
Proof.
  rewrite !bootstrap_leb_spec. intros [?|[? [?|[? H1]]]] [?|[? [?|[? H2]]]]; try lia.
  by apply str_leb_antisym.
Qed.

(** Where the bootstrap puts a legacy finding. *)
Lemma legacy_position owner s a f :
  store_ok s -> (forall g, g ∈ dvalues (fs_findings s) -> legacy owner g) ->
  (forall b, assigned_max b s = 0) ->
  f ∈ agent_findings a (bootstrap_sequences s) ->
  exists (i : nat) f0, legacy_order a s !! i = Some f0 /\
    finding_id f = finding_id f0 /\ f_created_at f = f_created_at f0 /\
    f_evidence_sequence f = 1 + Z.of_nat i.
Proof.
  intros Hok Hl Hm Hf. destruct (bootstrap_spec s Hok) as [Hfr Hb].
  apply agent_findings_elem in Hf as [Hf Ha]; [|apply Hfr].
  destruct (bf_same _ _ _ Hfr _ _ Hf) as (f0 & Hf0 & Hid & Hag).
  assert (f0 ∈ agent_findings a s) as Hin0.
  { apply agent_findings_elem; [done|]. split; [|congruence]. by rewrite <- Hid. }
  assert (f0 ∈ legacy_order a s) as Hin.
  { unfold legacy_order. rewrite sort_by_elem, filter_elem. split; [done|].
    destruct (Hl f0) as [_ Hz]; [by eapply dget_values|]. unfold unassigned. by rewrite Hz. }
  apply list_elem_of_lookup_1 in Hin as [i Hi].
  assert (agent_findings a s <> []) as Hne by (intros Hn; rewrite Hn in Hin0; set_solver).
  pose proof (bt_hit _ _ _ (Hb a Hne) i f0 Hi) as Hhit. rewrite <- Hid, Hf in Hhit.
  rewrite Hm in Hhit. simplify_eq. exists i, f0. split_and!; [done..|simpl; lia].
Qed.

Lemma legacy_order_sorted a s :
  StronglySorted (fun f g => bootstrap_leb s f g = true) (legacy_order a s).
Proof. apply sort_by_sorted; [apply bootstrap_leb_total|apply bootstrap_leb_trans]. Qed.

(** The bootstrap of a store of findings that predate sequence numbers numbers each
    agent's findings in the order of (recording time, creation time, finding id): of two
    findings of one agent the one that sorts first gets the smaller number. *)
Theorem legacy_evidence_ordered (owner : string -> string) (initial : list Finding)
    (initial_recorded_at : option (pydict string Z)) (a : string) (f g : Finding) :
  Forall (legacy owner) initial ->
  f ∈ agent_findings a (new_findings_service initial initial_recorded_at) ->
  g ∈ agent_findings a (new_findings_service initial initial_recorded_at) ->
  f_evidence_sequence f <= f_evidence_sequence g <->
  bootstrap_leb (new_findings_service initial initial_recorded_at) f g = true.
Proof.
  intros Hl. unfold new_findings_service. destruct initial as [|x l]; [set_solver|].
  destruct (seeded_legacy owner (x :: l) initial_recorded_at Hl) as (Hok & Hc & Hs).
  set (s := foldl _ _ _) in *. clearbody s. clear Hl x l.
  destruct (legacy_boot owner s Hok Hc Hs) as [_ Hm].
  intros Hf Hg.
  destruct (legacy_position owner s a f) as (i & f0 & Hi & Hif & Hcf & ->); [done..|].
  destruct (legacy_position owner s a g) as (j & g0 & Hj & Hig & Hcg & ->); [done..|].
  destruct (bootstrap_spec s Hok) as [Hfr _].
  assert (bootstrap_leb (bootstrap_sequences s) f g = bootstrap_leb s f0 g0) as ->.
  { unfold bootstrap_leb, recording_time.
    by rewrite (bf_rec _ _ _ Hfr), Hif, Hig, Hcf, Hcg. }
  pose proof (legacy_order_sorted a s) as Hso. split.
  - intros Hij. destruct (decide (i = j)) as [->|Hne].
    + simplify_eq. destruct (bootstrap_leb_total s f0 f0); done.
    + apply (StronglySorted_lookup _ _ i j _ _ Hso Hi Hj). lia.
  - intros Hle. destruct (decide (i <= j)%nat); [lia|]. exfalso.
    assert (bootstrap_leb s g0 f0 = true) as Hgf
      by (apply (StronglySorted_lookup _ _ j i _ _ Hso Hj Hi); lia).
    pose proof (bootstrap_leb_antisym s _ _ Hle Hgf) as He.
    pose proof (legacy_order_nodup a s Hok) as Hnd.
    assert (i = j); [|lia].
    eapply NoDup_lookup; [exact Hnd|by rewrite list_lookup_fmap, Hi|].
    rewrite list_lookup_fmap, Hj. simpl. by rewrite He.
Qed.

(** Whatever sequence of recording calls, bootstraps and clears the store receives,
    starting empty or from findings that predate sequence numbers, the evidence sequences
    of every agent's findings are exactly 1, 2, ..., up to the agent's cursor, each once
    (identifiers are never shared by two agents). *)
Theorem evidence_sequences_contiguous (owner : string -> string) (initial : list Finding)
    (initial_recorded_at : option (pydict string Z)) (h : list (Z * FindingsCall)) (a : string) :
  Forall (legacy owner) initial ->
  Forall (fun c => Forall (owned owner) (call_findings c.2)) h ->
  let s := findings_run h (new_findings_service initial initial_recorded_at) in
  f_evidence_sequence <$> agent_findings a s ≡ₚ seqZ 1 (get_agent_sequence a s).
Proof.
  intros Hl Hh s. apply (fsi_seqs owner). apply findings_run_inv; [|done].
  by apply new_service_inv.
Qed.

Lemma record_new_all_known fs now s :
  (forall id, id ∈ finding_id <$> fs -> get_finding id s <> None) ->
  record_new_findings fs now s = (s, []).
Proof.
  induction fs as [|f fs IH]; intros Hk; [done|]. csimpl.
  destruct (dhas (finding_id f) (fs_findings s)) eqn:Hh.
  - apply IH. intros id Hin. apply Hk. set_solver.
  - apply dhas_false in Hh. exfalso. apply (Hk (finding_id f)); [set_solver|done].
Qed.

Lemma record_fresh_result f now s :
  get_finding (finding_id f) s = None ->
  finding_id (record_finding_locked f now s).2 = finding_id f /\
  forall id, get_finding id (record_finding_locked f now s).1 =
    if decide (id = finding_id f) then Some (record_finding_locked f now s).2
    else get_finding id s.
Proof.
  unfold get_finding, record_finding_locked. intros ->. simpl. split; [done|].
  intros id. apply dget_dset.
Qed.

Lemma record_new_spec fs now s :
  let '(s1, recorded) := record_new_findings fs now s in
  (forall id f, get_finding id s = Some f -> get_finding id s1 = Some f) /\
  NoDup (finding_id <$> recorded) /\
  (forall id, id ∈ finding_id <$> recorded <->
              id ∈ finding_id <$> fs /\ get_finding id s = None) /\
  (forall id, id ∈ finding_id <$> fs -> get_finding id s1 <> None).
Proof.
  revert s. induction fs as [|f fs IH]; intros s; cbn [record_new_findings].
  { split_and!; [done|constructor|set_solver|set_solver]. }
  destruct (dhas (finding_id f) (fs_findings s)) eqn:Hh.
  - specialize (IH s). destruct (record_new_findings fs now s) as [s1 r].
    destruct IH as (H1 & H2 & H3 & H4). apply dhas_true in Hh as [g Hg].
    split_and!; [done..| |]; intros id; csimpl; rewrite elem_of_cons.
    + rewrite H3. split; [naive_solver|]. intros [[->|?] Hn]; [|done].
      unfold get_finding in Hn. congruence.
    + intros [->|Hid]; [|by apply H4]. by rewrite (H1 _ g Hg).
  - apply dhas_false in Hh. destruct (record_fresh_result f now s Hh) as [Hid Hget].
    destruct (record_finding_locked f now s) as [s0 g]. simpl in Hid, Hget.
    specialize (IH s0). destruct (record_new_findings fs now s0) as [s1 r].
    destruct IH as (H1 & H2 & H3 & H4). setoid_rewrite Hget in H1. setoid_rewrite Hget in H3.
    assert (get_finding (finding_id f) s1 = Some g) as Hs1
      by (apply H1; by rewrite decide_True).
    split_and!.
    + intros id x Hx. apply H1. rewrite decide_False; [done|].
      intros ->. unfold get_finding in Hx. congruence.
    + csimpl. apply NoDup_cons. split; [|done]. rewrite Hid, H3, decide_True by done. naive_solver.
    + intros id. csimpl. rewrite !elem_of_cons, H3, Hid. case_decide; subst; naive_solver.
    + intros id. csimpl. rewrite elem_of_cons. intros [->|Hi]; [congruence|by apply H4].
Qed.

(** [record_new_findings] keeps every stored finding as it is, adds exactly the
    findings whose identifier was not stored, each once, and repeating the call adds
    nothing and changes nothing. *)
Theorem record_new_findings_idempotent (fs : list Finding) (now now' : Z)
    (s : FindingsService) :
  let '(s1, recorded) := record_new_findings fs now s in
  (forall id f, get_finding id s = Some f -> get_finding id s1 = Some f) /\
  NoDup (finding_id <$> recorded) /\
  (forall id, id ∈ finding_id <$> recorded <->
              id ∈ finding_id <$> fs /\ get_finding id s = None) /\
  record_new_findings fs now' s1 = (s1, []).
Proof.
  pose proof (record_new_spec fs now s) as H.
  destruct (record_new_findings fs now s) as [s1 recorded].
  destruct H as (H1 & H2 & H3 & H4). split_and!; [done..|]. by apply record_new_all_known.
Qed.

(** ** The evidence baseline *)

Definition rec_of (s : FindingsService) (id : string) : Z := default 0 (recorded_at id s).

(** A store whose findings were recorded under a clock that never went back, last at [t]. *)
Record chronological (owner : string -> string) (t : Z) (s : FindingsService) : Prop := {
  ch_inv : fs_inv owner s;
  ch_order : forall a, f_evidence_sequence <$> agent_findings a s =
                       seqZ 1 (get_agent_sequence a s);
  ch_rec : forall id, id ∈ dkeys (fs_findings s) ->
             exists r, recorded_at id s = Some r /\ r <= t;
  ch_sorted : StronglySorted (fun k k' => rec_of s k <= rec_of s k') (dkeys (fs_findings s));
}.

Lemma chronological_later owner t t' s :
  t <= t' -> chronological owner t s -> chronological owner t' s.
Proof.
  intros Ht [H1 H2 H3 H4]. split; [done..| |done].
  intros id Hid. destruct (H3 id Hid) as (r & ? & ?). exists r. split; [done|lia].
Qed.

Lemma record_chronological owner s f t :
  chronological owner t s -> owned owner f ->
  chronological owner t (record_finding_locked f t s).1.
Proof.
  intros Hch Hown. pose proof Hch as [Hi Ho Hr Hs].
  destruct (dget (finding_id f) (fs_findings s)) as [f0|] eqn:Hget.
  - destruct (record_existing_seqs owner s f t f0 Hi Hown Hget) as (Hseq & Hag & (r & Hf) & Hrec).
    assert (dhas (finding_id f) (fs_findings s) = true) as Hh by (unfold dhas; by rewrite Hget).
    assert (finding_id f ∈ dkeys (fs_findings s)) as Hk
      by (eapply elem_dkeys, dget_elem, Hget).
    assert (dkeys (fs_findings (record_finding_locked f t s).1) = dkeys (fs_findings s)) as Hkeys
      by (rewrite Hf, dset_keys; by rewrite Hh).
    assert (fs_recorded_at (record_finding_locked f t s).1 = fs_recorded_at s) as Hrec'.
    { rewrite Hrec. unfold dsetdefault, dhas. destruct (Hr _ Hk) as (x & Hx & _).
      unfold recorded_at in Hx. by rewrite Hx. }
    unfold rec_of, recorded_at in *.
    split; [by apply record_locked_inv| | |].
    + intros a. rewrite agent_findings_group, Hseq, <- agent_findings_group, Ho.
      unfold get_agent_sequence. by rewrite Hag.
    + rewrite Hkeys. unfold recorded_at. by rewrite Hrec'.
    + rewrite Hkeys. unfold rec_of, recorded_at. by rewrite Hrec'.
  - destruct (record_fresh_seqs s f t Hget) as (Hf & Hrec & Hag).
    assert (dkeys (fs_findings (record_finding_locked f t s).1) =
            dkeys (fs_findings s) ++ [finding_id f]) as Hkeys
      by (rewrite Hf; unfold dkeys; by rewrite fmap_app).
    assert (finding_id f ∉ dkeys (fs_findings s)) as Hni by (by apply dget_None).
    assert (forall k, recorded_at k (record_finding_locked f t s).1 =
              if decide (k = finding_id f) then Some t else recorded_at k s) as Hra.
    { intros k. unfold recorded_at. rewrite Hrec. apply dget_dset. }
    split; [by apply record_locked_inv|..].
    + intros a. rewrite agent_findings_group, record_fresh_group, fmap_app, Hag by done.
      rewrite <- agent_findings_group, Ho. pose proof (fsi_nonneg _ _ Hi a).
      case_decide as Hd; [|rewrite decide_False by congruence; by rewrite app_nil_r].
      subst. rewrite decide_True by done. by rewrite seqZ_snoc.
    + intros k. rewrite Hkeys, elem_of_app, list_elem_of_singleton, Hra.
      intros [Hk|Hk]; [|subst; rewrite decide_True by done; eexists; split; [done|lia]].
      rewrite decide_False by congruence. by apply Hr.
    + rewrite Hkeys. unfold rec_of. apply StronglySorted_snoc.
      * eapply StronglySorted_ext; [|exact Hs]. intros x y Hx Hy. unfold rec_of.
        by rewrite !Hra, !decide_False by congruence.
      * intros y Hy. rewrite !Hra, decide_False, decide_True by congruence.
        destruct (Hr y Hy) as (r & -> & ?). done.
Qed.

Lemma record_findings_chronological owner fs t s :
  chronological owner t s -> Forall (owned owner) fs ->
  chronological owner t (record_findings fs t s).1.
Proof.
  revert s. induction fs as [|f fs IH]; intros s Hi Hf; [done|].
  apply Forall_cons in Hf as [Hf Hfs]. simpl.
  pose proof (record_chronological owner s f t Hi Hf) as H1.
  destruct (record_finding_locked f t s) as [s1 g]. specialize (IH s1 H1 Hfs).
  by destruct (record_findings fs t s1).
Qed.

Lemma record_new_chronological owner fs t s :
  chronological owner t s -> Forall (owned owner) fs ->
  chronological owner t (record_new_findings fs t s).1.
Proof.
  revert s. induction fs as [|f fs IH]; intros s Hi Hf; [done|].
  apply Forall_cons in Hf as [Hf Hfs]. simpl. destruct (dhas _ _); [auto|].
  pose proof (record_chronological owner s f t Hi Hf) as H1.
  destruct (record_finding_locked f t s) as [s1 g]. specialize (IH s1 H1 Hfs).
  by destruct (record_new_findings fs t s1).
Qed.

Lemma empty_chronological owner t : chronological owner t empty_findings.
Proof. split; [apply empty_inv|done|set_solver|constructor]. Qed.

Lemma step_chronological owner t c s :
  chronological owner t s -> Forall (owned owner) (call_findings c) ->
  chronological owner t (findings_step t c s).
Proof.
  intros Hi Hc. destruct c as [f|fs|fs| |]; simpl in *.
  - apply record_chronological; [done|by apply Forall_cons in Hc as [? _]].
  - by apply record_findings_chronological.
  - by apply record_new_chronological.
  - destruct Hi as [H1 H2 H3 H4]. destruct (bootstrap_idempotent owner s H1) as (Hf & Hr & Hc').
    split; [by apply bootstrap_inv|..]; unfold rec_of, recorded_at, agent_findings, list_findings in *;
      rewrite ?Hf, ?Hr; try done.
    intros a. rewrite Hc'. apply H2.
  - apply empty_chronological.
Qed.

Lemma run_chronological owner h t s :
  chronological owner t s -> StronglySorted Z.le (t :: h.*1) ->
  Forall (fun c => Forall (owned owner) (call_findings c.2)) h ->
  exists t', chronological owner t' (findings_run h s).
Proof.
  revert t s. induction h as [|[now c] h IH]; intros t s Hi Hs Hh; [by exists t|].
  apply Forall_cons in Hh as [Hc Hh]. apply StronglySorted_inv in Hs as [Hs Ht].
  apply Forall_cons in Ht as [Ht _]. apply (IH now); [|done..].
  apply step_chronological; [|done]. by eapply chronological_later.
Qed.

(** Among one agent's findings, a smaller sequence means recorded no later. *)
Lemma chronological_order owner t s a f g :
  chronological owner t s -> f ∈ agent_findings a s -> g ∈ agent_findings a s ->
  f_evidence_sequence f <= f_evidence_sequence g ->
  rec_of s (finding_id f) <= rec_of s (finding_id g).
Proof.
  intros [Hi Ho _ Hs] Hf Hg Hle. pose proof (inv_store_ok _ _ Hi) as Hok.
  apply list_elem_of_lookup_1 in Hf as [i Hf], Hg as [j Hg].
  assert (forall k x, agent_findings a s !! k = Some x ->
            f_evidence_sequence x = 1 + Z.of_nat k) as Hseq.
  { intros k x Hx. pose proof (Ho a) as Hoa. apply (f_equal (fun l => l !! k)) in Hoa.
    rewrite list_lookup_fmap, Hx in Hoa. simpl in Hoa. symmetry in Hoa.
    apply lookup_seqZ in Hoa as [? _]. done. }
  rewrite (Hseq i f Hf), (Hseq j g Hg) in Hle.
  destruct (decide (i = j)) as [->|Hne]; [by simplify_eq|].
  assert (StronglySorted (fun k k' => rec_of s k <= rec_of s k')
            (finding_id <$> agent_findings a s)) as Hs'.
  { rewrite <- (store_ids s Hok), agent_findings_group in *. unfold in_group. revert Hs.
    generalize (dvalues (fs_findings s)). induction l as [|x l IH]; csimpl; intros Hs; [done|].
    apply StronglySorted_inv in Hs as [Hs Hall]. case_match; csimpl; [|auto].
    constructor; [auto|]. rewrite Forall_forall in Hall |- *. intros y (z & -> & Hz)%list_elem_of_fmap.
    apply Hall. apply list_elem_of_fmap. exists z. split; [done|]. by apply filter_elem in Hz as [? _]. }
  apply (StronglySorted_lookup _ _ i j _ _ Hs'); rewrite ?list_lookup_fmap, ?Hf, ?Hg; [done..|lia].
Qed.

Lemma recorded_rec_of owner t s a f :
  chronological owner t s -> f ∈ agent_findings a s ->
  recorded_at (finding_id f) s = Some (rec_of s (finding_id f)).
Proof.
  intros Hch Hf. apply agent_findings_elem in Hf as [Hf _];
    [|by eapply inv_store_ok, (ch_inv _ _ _ Hch)].
  destruct (ch_rec _ _ _ Hch (finding_id f)) as (r & Hr & _); [by eapply elem_dkeys, dget_elem|].
  unfold rec_of. by rewrite Hr.
Qed.

Lemma baseline_iff owner t s a baseline_at now f :
  chronological owner t s -> f ∈ agent_findings a s ->
  rec_of s (finding_id f) <= default now baseline_at <->
  f_evidence_sequence f <= capture_evidence_baseline_sequence a baseline_at now s.
Proof.
  intros Hch Hf. unfold capture_evidence_baseline_sequence. set (at_ := default now baseline_at).
  change (List.filter (fun f => bool_decide (f_agent_id f = a)) (dvalues (fs_findings s)))
    with (agent_findings a s).
  set (sel := List.filter (fun g => default at_ (recorded_at (finding_id g) s) <=? at_)
                (agent_findings a s)).
  assert (forall g, g ∈ sel <-> g ∈ agent_findings a s /\ rec_of s (finding_id g) <= at_) as Hsel.
  { intros g. unfold sel. rewrite filter_elem. split; intros [Hg Hle]; (split; [done|]);
      rewrite (recorded_rec_of _ _ _ _ _ Hch Hg) in *; simpl in *; lia. }
  split.
  - intros Hle. apply max_default_ge. apply list_elem_of_fmap. exists f. split; [done|]. by apply Hsel.
  - intros Hle. destruct (max_default_in 0 (f_evidence_sequence <$> sel)) as [[He _]|Hm].
    + rewrite He in Hle. apply agent_findings_elem in Hf as [Hf _];
        [|by eapply inv_store_ok, (ch_inv _ _ _ Hch)].
      pose proof (inv_positive _ _ _ _ (ch_inv _ _ _ Hch) Hf). lia.
    + apply list_elem_of_fmap in Hm as (g & Hm & Hg). rewrite Hm in Hle. apply Hsel in Hg as [Hg ?].
      pose proof (chronological_order _ _ _ _ _ _ Hch Hf Hg Hle). lia.
Qed.

Lemma history_chronological owner h :
  StronglySorted Z.le (h.*1) ->
  Forall (fun c => Forall (owned owner) (call_findings c.2)) h ->
  exists t, chronological owner t (findings_run h (new_findings_service [] None)).
Proof.
  intros Hs Hh. destruct h as [|[n c] h]; [exists 0; apply empty_chronological|].
  apply (run_chronological owner _ n); [apply empty_chronological| |done].
  change (StronglySorted Z.le (n :: h.*1)) in Hs.
  change (StronglySorted Z.le (n :: n :: h.*1)). constructor; [done|]. constructor; [lia|].
  by apply StronglySorted_inv in Hs as [_ ?].
Qed.

(** When the clock never goes back, the sequence captured as an agent's evidence
    baseline separates its evidence exactly as the baseline time does: the findings
    recorded strictly after the baseline are those numbered above the captured sequence. *)
Theorem baseline_splits_evidence (owner : string -> string) (h : list (Z * FindingsCall))
    (a : string) (baseline_at : option Z) (now : Z) :
  StronglySorted Z.le (h.*1) ->
  Forall (fun c => Forall (owned owner) (call_findings c.2)) h ->
  let s := findings_run h (new_findings_service [] None) in
  list_findings None (Some a) None None None None (Some (default now baseline_at)) s =
  List.filter (fun f => capture_evidence_baseline_sequence a baseline_at now s
                        <? f_evidence_sequence f) (agent_findings a s).
Proof.
  intros Hs Hh s. destruct (history_chronological owner h Hs Hh) as [t Hch].
  fold s in Hch. clearbody s. unfold agent_findings, list_findings, keep_if. rewrite filter_comm.
  change (List.filter (fun f => bool_decide (f_agent_id f = a)) (dvalues (fs_findings s)))
    with (agent_findings a s).
  apply List.filter_ext_in. intros f Hf%list_elem_of_In.
  unfold recorded_strictly_after. rewrite (recorded_rec_of _ _ _ _ _ Hch Hf).
  pose proof (baseline_iff _ _ _ _ baseline_at now _ Hch Hf) as Hb.
  destruct (Z.ltb_spec (default now baseline_at) (rec_of s (finding_id f)));
  destruct (Z.ltb_spec (capture_evidence_baseline_sequence a baseline_at now s)
              (f_evidence_sequence f)); try done; lia.
Qed.

(** ** Witnesses *)

Definition demo_owner (id : string) : string :=
  if str_contains "b" id then "bob" else "alice".
Definition demo_finding (id : string) (at_ : Z) : Finding :=
  sample_finding id "s" (demo_owner id) "R" SEV_HIGH at_.
Definition demo_history : list (Z * FindingsCall) :=
  [(10, CRecord (demo_finding "f1" 5)); (20, CRecordNew [demo_finding "f1" 6; demo_finding "b1" 6]);
   (30, CRecordMany [demo_finding "f2" 7; demo_finding "f1" 7]); (30, CBootstrap)].

Lemma legacy_evidence_ordered_witness :
  let s := new_findings_service [demo_finding "f2" 9; demo_finding "f1" 5] None in
  get_finding "f1" s = Some (with_sequence 1 5 (demo_finding "f1" 5)) /\
  get_finding "f2" s = Some (with_sequence 2 9 (demo_finding "f2" 9)) /\
  (2 <= 1 <-> bootstrap_leb s (with_sequence 2 9 (demo_finding "f2" 9))
                (with_sequence 1 5 (demo_finding "f1" 5)) = true).
Proof.
  split_and!; [by vm_compute|by vm_compute|].
  apply (legacy_evidence_ordered demo_owner [demo_finding "f2" 9; demo_finding "f1" 5] None "alice"
           (with_sequence 2 9 (demo_finding "f2" 9)) (with_sequence 1 5 (demo_finding "f1" 5))).
  - repeat constructor.
  - vm_compute. set_solver.
  - vm_compute. set_solver.
Defined.

Lemma evidence_sequences_contiguous_witness :
  let s := findings_run demo_history (new_findings_service [demo_finding "f0" 1] None) in
  get_agent_sequence "alice" s = 3 /\
  f_evidence_sequence <$> agent_findings "alice" s ≡ₚ seqZ 1 (get_agent_sequence "alice" s).
Proof.
  split; [by vm_compute|].
  apply (evidence_sequences_contiguous demo_owner); repeat constructor.
Defined.

Lemma baseline_splits_evidence_witness :
  let s := findings_run demo_history (new_findings_service [] None) in
  capture_evidence_baseline_sequence "alice" (Some 20) 40 s = 1 /\
  list_findings None (Some "alice"%string) None None None None (Some 20) s =
  List.filter (fun f => capture_evidence_baseline_sequence "alice" (Some 20) 40 s
                        <? f_evidence_sequence f) (agent_findings "alice" s).
Proof.
  split; [by vm_compute|].
  apply (baseline_splits_evidence demo_owner demo_history "alice" (Some 20) 40);
    [repeat (constructor; try (vm_compute; congruence))|repeat constructor].
Defined.
