(* ===== verification/Risk.v ===== *)
(** * Risk (risk_service.py, agent_risk_aggregate.py, risk_aggregator.py)

    Risk is derived from the findings store twice: [RiskService] derives session-scoped
    assessments on demand, and [RiskAggregator] keeps one materialised posture per agent
    that the runtime updates finding by finding and rebuilds from the store when it went
    stale.  Clock readings are [now] arguments; a posture's [assessed_at] is the last one
    used.  The aggregate's methods run under its own lock, so a call is one step. *)

From S2P Require Import Prelude.
From S2P Require Import PyDict.
From S2P Require Import Models.
From S2P Require Import Findings.

Open Scope Z_scope.

(** ** Scores *)

Definition SEVERITY_WEIGHTS (s : Severity) : Z :=
  match s with SEV_LOW => 10 | SEV_MEDIUM => 25 | SEV_HIGH => 50 | SEV_CRITICAL => 100 end.

Definition score_findings (fs : list Finding) : Z :=
  sum_of (fun f => SEVERITY_WEIGHTS (f_severity f)) fs.

Definition level_for_score (risk_score : Z) : RiskLevel :=
  if 100 <=? risk_score then RISK_CRITICAL
  else if 50 <=? risk_score then RISK_HIGH
  else if 25 <=? risk_score then RISK_MEDIUM
  else RISK_LOW.

(** ** Session-scoped assessments *)

Record RiskAssessment := mkRiskAssessment {
  ra_session_id : string;
  ra_agent_id : string;
  ra_risk_score : Z;
  ra_risk_level : RiskLevel;
  ra_finding_count : Z;
  ra_assessed_at : Z;
}.

(** [finding.recorded_at or finding.created_at] *)
Definition observed_at (f : Finding) : Z := default (f_created_at f) (f_recorded_at f).

Definition derive (now : Z) (session agent : string) (fs : list Finding) : RiskAssessment :=
  let risk_score := score_findings fs in
  mkRiskAssessment session agent risk_score (level_for_score risk_score)
    (Z.of_nat (length fs)) (max_default now (observed_at <$> fs)).

Definition in_scope (session agent : string) (f : Finding) : bool :=
  bool_decide (f_session_id f = session) && bool_decide (f_agent_id f = agent).

Definition assess_session (now : Z) (session agent : string) (fs : list Finding)
  : result RiskAssessment :=
  if forallb (in_scope session agent) fs then Ok (derive now session agent fs)
  else Err ValueError.

Definition assess (now : Z) (fs : list Finding) : result RiskAssessment :=
  match fs with
  | [] => Err ValueError
  | f :: _ => assess_session now (f_session_id f) (f_agent_id f) fs
  end.

Definition scope_of (f : Finding) : string * string := (f_session_id f, f_agent_id f).

Definition reconstruct (now : Z) (fs : list Finding) : list RiskAssessment :=
  let grouped := group_by scope_of fs in
  (fun k => derive now k.1 k.2 (default [] (dget k grouped)))
    <$> sort_by str_pair_leb (dkeys grouped).

Definition reconstruct_for_session (now : Z) (fs : list Finding) (session : string)
    (agent : option string) : result (option RiskAssessment) :=
  let scoped := List.filter (fun f => bool_decide (f_session_id f = session)) fs in
  match agent with
  | Some a =>
      let scoped := List.filter (fun f => bool_decide (f_agent_id f = a)) scoped in
      Ok (match scoped with [] => None | _ => Some (derive now session a scoped) end)
  | None =>
      match remove_dups (f_agent_id <$> scoped) with
      | [] => Ok None
      | [a] => Ok (Some (derive now session a scoped))
      | _ => Err AmbiguousAssessmentScopeError
      end
  end.

(** ** The materialised posture of one agent *)

(** [DEFAULT_RULE_VOCABULARY], [ACTIVE_STATUSES] *)
Definition DEFAULT_RULE_VOCABULARY : gset string :=
  {[ "PROMPT_INJECTION"; "SENSITIVE_FILE_ACCESS"; "DATA_EXFILTRATION"; "EXCESSIVE_DENIALS" ]}.

Definition active_status (st : FindingStatus) : bool :=
  match st with OPEN | ACKNOWLEDGED => true | RESOLVED | FALSE_POSITIVE => false end.

Inductive PostureState := UNINITIALIZED | HEALTHY | STALE.

#[global] Instance PostureState_eq_dec : EqDecision PostureState.
Proof. solve_decision. Defined.

(** [{s: 0 for s in Severity}]: the dict always holds exactly the four severities. *)
Record SeverityCounts := mkSeverityCounts { n_low : Z; n_medium : Z; n_high : Z; n_critical : Z }.

Definition no_counts : SeverityCounts := mkSeverityCounts 0 0 0 0.

Definition severity_count (c : SeverityCounts) (s : Severity) : Z :=
  match s with
  | SEV_LOW => n_low c | SEV_MEDIUM => n_medium c
  | SEV_HIGH => n_high c | SEV_CRITICAL => n_critical c
  end.

(** [counts[s] += 1] *)
Definition count_severity (s : Severity) (c : SeverityCounts) : SeverityCounts :=
  match s with
  | SEV_LOW => mkSeverityCounts (n_low c + 1) (n_medium c) (n_high c) (n_critical c)
  | SEV_MEDIUM => mkSeverityCounts (n_low c) (n_medium c + 1) (n_high c) (n_critical c)
  | SEV_HIGH => mkSeverityCounts (n_low c) (n_medium c) (n_high c + 1) (n_critical c)
  | SEV_CRITICAL => mkSeverityCounts (n_low c) (n_medium c) (n_high c) (n_critical c + 1)
  end.

Definition all_severities : list Severity := [SEV_LOW; SEV_MEDIUM; SEV_HIGH; SEV_CRITICAL].

Record AgentRiskAggregate := mkAggregate {
  ag_agent_id : string;
  ag_baseline_at : option Z;
  ag_baseline_evidence_sequence : Z;
  ag_last_applied_sequence : Z;
  ag_rule_vocabulary : gset string;
  ag_counts_by_severity : SeverityCounts;
  ag_counts_by_rule : gmap string Z;
  ag_finding_count : Z;
  ag_risk_score : Z;
  ag_risk_level : RiskLevel;
  ag_state : PostureState;
  ag_posture_version : Z;
  ag_assessed_at : Z;
}.

(** Updates of the attributes a method assigns. *)
Definition set_state (st : PostureState) (now : Z) (a : AgentRiskAggregate) : AgentRiskAggregate :=
  mkAggregate (ag_agent_id a) (ag_baseline_at a) (ag_baseline_evidence_sequence a)
    (ag_last_applied_sequence a) (ag_rule_vocabulary a) (ag_counts_by_severity a)
    (ag_counts_by_rule a) (ag_finding_count a) (ag_risk_score a) (ag_risk_level a)
    st (ag_posture_version a) now.
Definition set_cursor (n : Z) (a : AgentRiskAggregate) : AgentRiskAggregate :=
  mkAggregate (ag_agent_id a) (ag_baseline_at a) (ag_baseline_evidence_sequence a)
    n (ag_rule_vocabulary a) (ag_counts_by_severity a)
    (ag_counts_by_rule a) (ag_finding_count a) (ag_risk_score a) (ag_risk_level a)
    (ag_state a) (ag_posture_version a) (ag_assessed_at a).
Definition set_baseline (w : BaselineWatermark) (a : AgentRiskAggregate) : AgentRiskAggregate :=
  mkAggregate (ag_agent_id a) (wm_baseline_at w) (wm_baseline_evidence_sequence w)
    (ag_last_applied_sequence a) (ag_rule_vocabulary a) (ag_counts_by_severity a)
    (ag_counts_by_rule a) (ag_finding_count a) (ag_risk_score a) (ag_risk_level a)
    (ag_state a) (ag_posture_version a) (ag_assessed_at a).
Definition set_counts (sev : SeverityCounts) (rules : gmap string Z) (n : Z)
    (a : AgentRiskAggregate) : AgentRiskAggregate :=
  mkAggregate (ag_agent_id a) (ag_baseline_at a) (ag_baseline_evidence_sequence a)
    (ag_last_applied_sequence a) (ag_rule_vocabulary a) sev rules n
    (ag_risk_score a) (ag_risk_level a) (ag_state a) (ag_posture_version a) (ag_assessed_at a).
Definition set_risk (score : Z) (level : RiskLevel) (a : AgentRiskAggregate) : AgentRiskAggregate :=
  mkAggregate (ag_agent_id a) (ag_baseline_at a) (ag_baseline_evidence_sequence a)
    (ag_last_applied_sequence a) (ag_rule_vocabulary a) (ag_counts_by_severity a)
    (ag_counts_by_rule a) (ag_finding_count a) score level
    (ag_state a) (ag_posture_version a) (ag_assessed_at a).
Definition bump_version (a : AgentRiskAggregate) : AgentRiskAggregate :=
  mkAggregate (ag_agent_id a) (ag_baseline_at a) (ag_baseline_evidence_sequence a)
    (ag_last_applied_sequence a) (ag_rule_vocabulary a) (ag_counts_by_severity a)
    (ag_counts_by_rule a) (ag_finding_count a) (ag_risk_score a) (ag_risk_level a)
    (ag_state a) (ag_posture_version a + 1) (ag_assessed_at a).

(** [_assert_cursor_invariant] (CI-1) *)
Definition assert_cursor_invariant (a : AgentRiskAggregate) : result unit :=
  if ag_last_applied_sequence a <? ag_baseline_evidence_sequence a
  then Err ProjectionInvariantError else Ok tt.

Definition new_aggregate (now : Z) (w : BaselineWatermark) (vocabulary : gset string)
  : result AgentRiskAggregate :=
  let a := mkAggregate (wm_agent_id w) (wm_baseline_at w) (wm_baseline_evidence_sequence w)
             (wm_baseline_evidence_sequence w) vocabulary no_counts ∅ 0 0 RISK_LOW HEALTHY 1
             (default now (wm_baseline_at w)) in
  _ ← assert_cursor_invariant a; mret a.

(** [_recalculate_score_and_level] *)
Definition recalculate (a : AgentRiskAggregate) : AgentRiskAggregate :=
  let score := sum_of (fun s => severity_count (ag_counts_by_severity a) s * SEVERITY_WEIGHTS s)
                 all_severities in
  set_risk score (level_for_score score) a.

(** The body of [if f.status in ACTIVE_STATUSES] that both [apply_finding] and
    [rebuild_from_findings] run, without the recalculation. *)
Definition contribute (f : Finding) (a : AgentRiskAggregate) : AgentRiskAggregate :=
  if active_status (f_status f) then
    let rules :=
      if str_nonempty (f_rule_id f) && bool_decide (f_rule_id f ∈ ag_rule_vocabulary a)
      then <[f_rule_id f := default 0 (ag_counts_by_rule a !! f_rule_id f) + 1]> (ag_counts_by_rule a)
      else ag_counts_by_rule a in
    set_counts (count_severity (f_severity f) (ag_counts_by_severity a)) rules
      (ag_finding_count a + 1) a
  else a.

Definition at_or_before (t : option Z) (r : Z) : bool :=
  match t with Some b => r <=? b | None => false end.

Definition apply_finding (now : Z) (f : Finding) : Comp AgentRiskAggregate bool := fun a =>
  if bool_decide (f_agent_id f <> ag_agent_id a) then (a, Err ValueError)
  else if f_evidence_sequence f <=? UNASSIGNED_SEQUENCE then (a, Err ValueError)
  else if f_evidence_sequence f <=? ag_baseline_evidence_sequence a then (a, Ok false)
  else if f_evidence_sequence f <=? ag_last_applied_sequence a then (a, Ok false)
  else if at_or_before (ag_baseline_at a) (observed_at f) then (set_state STALE now a, Ok false)
  else if ag_last_applied_sequence a + 1 <? f_evidence_sequence f
       then (set_state STALE now a, Ok false)
  else
    let a := set_cursor (f_evidence_sequence f) a in
    match assert_cursor_invariant a with
    | Err e => (a, Err e)
    | Ok _ =>
        let a := if active_status (f_status f) then recalculate (contribute f a) else a in
        (set_state (ag_state a) now (bump_version a), Ok true)
    end.

(** The filter loop of [rebuild_from_findings]. *)
Definition post_baseline (agent : string) (w : BaselineWatermark) (fs : list Finding)
  : list Finding :=
  List.filter (fun f =>
    bool_decide (f_agent_id f = agent)
    && negb (f_evidence_sequence f <=? wm_baseline_evidence_sequence w)
    && negb (at_or_before (wm_baseline_at w) (observed_at f))) fs.

Definition rebuild_from_findings (now : Z) (fs : list Finding) (w : BaselineWatermark)
  : Comp AgentRiskAggregate unit := fun a =>
  let a := set_counts no_counts ∅ 0 (set_baseline w a) in
  let pb := post_baseline (ag_agent_id a) w fs in
  let a := set_cursor (max_default (wm_baseline_evidence_sequence w)
                         (f_evidence_sequence <$> pb)) a in
  let a := recalculate (foldl (fun a f => contribute f a) a pb) in
  let a := set_state HEALTHY now (bump_version a) in
  (a, assert_cursor_invariant a).

Definition reset_to_baseline (now : Z) (w : BaselineWatermark) : Comp AgentRiskAggregate unit :=
  fun a =>
  let a := set_cursor (wm_baseline_evidence_sequence w) (set_baseline w a) in
  let a := set_risk 0 RISK_LOW (set_counts no_counts ∅ 0 a) in
  let a := set_state HEALTHY (default now (wm_baseline_at w)) (bump_version a) in
  (a, assert_cursor_invariant a).

Definition mark_stale (now : Z) (a : AgentRiskAggregate) : AgentRiskAggregate :=
  bump_version (set_state STALE now a).

(** [AgentRiskPosture] (agent_risk_posture.py) *)
Record AgentRiskPosture := mkPosture {
  p_agent_id : string;
  p_state : PostureState;
  p_risk_score : Z;
  p_risk_level : RiskLevel;
  p_finding_count : Z;
  p_baseline_at : option Z;
  p_baseline_evidence_sequence : Z;
  p_last_applied_sequence : Z;
  p_counts_by_severity : SeverityCounts;
  p_counts_by_rule : gmap string Z;
  p_posture_version : Z;
  p_assessed_at : Z;
}.

Definition snapshot (a : AgentRiskAggregate) : result AgentRiskPosture :=
  _ ← assert_cursor_invariant a;
  mret (mkPosture (ag_agent_id a) (ag_state a) (ag_risk_score a) (ag_risk_level a)
    (ag_finding_count a) (ag_baseline_at a) (ag_baseline_evidence_sequence a)
    (ag_last_applied_sequence a) (ag_counts_by_severity a) (ag_counts_by_rule a)
    (ag_posture_version a) (ag_assessed_at a)).

(** ** The aggregator *)

Record RiskAggregator := mkAggregator {
  rg_projections : gmap string AgentRiskAggregate;
  rg_rule_vocabulary : gset string;
}.

Definition new_aggregator (vocabulary : option (gset string)) : RiskAggregator :=
  mkAggregator ∅ (default DEFAULT_RULE_VOCABULARY vocabulary).

Definition put_projection (agent : string) (a : AgentRiskAggregate) (s : RiskAggregator)
  : RiskAggregator := mkAggregator (<[agent := a]> (rg_projections s)) (rg_rule_vocabulary s).

Definition uninitialized_posture (now : Z) (agent : string) : AgentRiskPosture :=
  mkPosture agent UNINITIALIZED 0 RISK_LOW 0 None 0 0 no_counts ∅ 1 now.

Definition get_posture (now : Z) (agent : string) (s : RiskAggregator)
  : result AgentRiskPosture :=
  match rg_projections s !! agent with
  | None => Ok (uninitialized_posture now agent)
  | Some a => snapshot a
  end.

Definition ingest_finding (now : Z) (f : Finding) : Comp RiskAggregator bool := fun s =>
  match rg_projections s !! f_agent_id f with
  | None => (s, Ok false)
  | Some a =>
      match apply_finding now f a with
      | (a, Ok b) => (put_projection (f_agent_id f) a s, Ok b)
      | (a, Err e) => (put_projection (f_agent_id f) (mark_stale now a) s, Err e)
      end
  end.

Definition aggregator_mark_stale (now : Z) (agent : string) (s : RiskAggregator)
  : RiskAggregator :=
  match rg_projections s !! agent with
  | None => s
  | Some a => put_projection agent (mark_stale now a) s
  end.

(** [self._projections.get(agent)], created from the watermark when missing. *)
Definition ensure_projection (now : Z) (agent : string) (w : BaselineWatermark)
  : Comp RiskAggregator AgentRiskAggregate := fun s =>
  match rg_projections s !! agent with
  | Some a => (s, Ok a)
  | None =>
      match new_aggregate now w (rg_rule_vocabulary s) with
      | Ok a => (put_projection agent a s, Ok a)
      | Err e => (s, Err e)
      end
  end.

(** Run a method of the agent's aggregate, write its state back, take the snapshot. *)
Definition update_projection (agent : string) (m : Comp AgentRiskAggregate unit)
    (a : AgentRiskAggregate) : Comp RiskAggregator AgentRiskPosture := fun s =>
  let '(a, r) := m a in
  (put_projection agent a s, match r with Ok _ => snapshot a | Err e => Err e end).

Definition reconcile_agent (now : Z) (agent : string) (fs : list Finding)
    (w : BaselineWatermark) : Comp RiskAggregator AgentRiskPosture :=
  a ← ensure_projection now agent w;
  update_projection agent (rebuild_from_findings now fs w) a.

Definition aggregator_reset (now : Z) (w : BaselineWatermark)
  : Comp RiskAggregator AgentRiskPosture :=
  a ← ensure_projection now (wm_agent_id w) w;
  update_projection (wm_agent_id w) (reset_to_baseline now w) a.

Definition has_projection (agent : string) (s : RiskAggregator) : bool :=
  bool_decide (is_Some (rg_projections s !! agent)).

Definition aggregator_clear (s : RiskAggregator) : RiskAggregator :=
  mkAggregator ∅ (rg_rule_vocabulary s).

(** ** Histories of aggregator calls *)

Inductive RiskCall :=
| RIngest (f : Finding)
| RMarkStale (agent : string)
| RReconcile (agent : string) (fs : list Finding) (w : BaselineWatermark)
| RReset (w : BaselineWatermark)
| RClear.

Definition risk_step (now : Z) (c : RiskCall) (s : RiskAggregator) : RiskAggregator :=
  match c with
  | RIngest f => (ingest_finding now f s).1
  | RMarkStale agent => aggregator_mark_stale now agent s
  | RReconcile agent fs w => (reconcile_agent now agent fs w s).1
  | RReset w => (aggregator_reset now w s).1
  | RClear => aggregator_clear s
  end.

Definition risk_run (h : list (Z * RiskCall)) (s : RiskAggregator) : RiskAggregator :=
  foldl (fun s c => risk_step c.1 c.2 s) s h.

(** A reconciliation names the agent its watermark belongs to. *)
Definition call_consistent (c : RiskCall) : bool :=
  match c with RReconcile agent _ w => bool_decide (wm_agent_id w = agent) | _ => true end.

(** ** Levels and scores *)

Lemma level_monotone x y : x <= y -> risk_rank (level_for_score x) <= risk_rank (level_for_score y).
Proof. intros H. unfold level_for_score. repeat case_match; simpl; lia. Qed.

Definition weighted (c : SeverityCounts) : Z :=
  sum_of (fun s => severity_count c s * SEVERITY_WEIGHTS s) all_severities.

Definition total (c : SeverityCounts) : Z := n_low c + n_medium c + n_high c + n_critical c.

Lemma weighted_eq c :
  weighted c = n_low c * 10 + n_medium c * 25 + n_high c * 50 + n_critical c * 100.
Proof. unfold weighted; simpl. lia. Qed.

Lemma count_severity_weighted s c : weighted (count_severity s c) = weighted c + SEVERITY_WEIGHTS s.
Proof. rewrite !weighted_eq. destruct s; simpl; lia. Qed.

Lemma count_severity_total s c : total (count_severity s c) = total c + 1.
Proof. unfold total. destruct s; simpl; lia. Qed.

(** ** Invariant of a projection *)

Record agg_inv (a : AgentRiskAggregate) : Prop := {
  ai_cursor : ag_baseline_evidence_sequence a <= ag_last_applied_sequence a;
  ai_score : ag_risk_score a = weighted (ag_counts_by_severity a);
  ai_level : ag_risk_level a = level_for_score (ag_risk_score a);
  ai_count : ag_finding_count a = total (ag_counts_by_severity a);
  ai_nonneg : forall s, 0 <= severity_count (ag_counts_by_severity a) s;
  ai_rules : forall r n, ag_counts_by_rule a !! r = Some n ->
               r ∈ ag_rule_vocabulary a /\ 1 <= n <= ag_finding_count a;
  ai_version : 1 <= ag_posture_version a;
}.

(** The part of it that contributions preserve on their own. *)
Record counts_inv (a : AgentRiskAggregate) : Prop := {
  ci_count : ag_finding_count a = total (ag_counts_by_severity a);
  ci_nonneg : forall s, 0 <= severity_count (ag_counts_by_severity a) s;
  ci_rules : forall r n, ag_counts_by_rule a !! r = Some n ->
               r ∈ ag_rule_vocabulary a /\ 1 <= n <= ag_finding_count a;
}.

Lemma total_nonneg c : (forall s, 0 <= severity_count c s) -> 0 <= total c.
Proof.
  intros H. pose proof (H SEV_LOW). pose proof (H SEV_MEDIUM). pose proof (H SEV_HIGH).
  pose proof (H SEV_CRITICAL). unfold total; simpl in *. lia.
Qed.

Lemma contribute_counts f a : counts_inv a -> counts_inv (contribute f a).
Proof.
  intros [H1 H2 H3]. unfold contribute. destruct (active_status _); [|by split].
  pose proof (total_nonneg _ H2). split; simpl.
  - rewrite count_severity_total. lia.
  - intros s. specialize (H2 s). destruct (f_severity f), s; simpl in *; lia.
  - intros r n. case_match eqn:Hv.
    + apply andb_prop in Hv as [_ Hv]. apply bool_decide_eq_true in Hv.
      rewrite lookup_insert_Some. intros [[<- <-]|[_ Hr]].
      * split; [done|]. destruct (ag_counts_by_rule a !! f_rule_id f) as [m|] eqn:Hm; simpl; [|lia].
        destruct (H3 _ _ Hm). lia.
      * destruct (H3 _ _ Hr). split; [done|lia].
    + intros Hr. destruct (H3 _ _ Hr). split; [done|lia].
Qed.

(** Contributions leave the identity, the baseline, the cursor and the state alone. *)
Definition frame_of (a : AgentRiskAggregate) :=
  (ag_agent_id a, ag_baseline_at a, ag_baseline_evidence_sequence a, ag_last_applied_sequence a,
   ag_rule_vocabulary a, ag_state a, ag_posture_version a).

Lemma contribute_frame f a : frame_of (contribute f a) = frame_of a.
Proof. unfold contribute. by case_match. Qed.

Lemma contribute_all_frame fs a : frame_of (foldl (fun a f => contribute f a) a fs) = frame_of a.
Proof. revert a. induction fs as [|f fs IH]; intros a; [done|]. simpl. by rewrite IH, contribute_frame. Qed.

Lemma contribute_all_counts fs a :
  counts_inv a -> counts_inv (foldl (fun a f => contribute f a) a fs).
Proof.
  revert a. induction fs as [|f fs IH]; intros a H; [done|]. simpl. auto using contribute_counts.
Qed.

Lemma recalculate_inv a :
  counts_inv a -> ag_baseline_evidence_sequence a <= ag_last_applied_sequence a ->
  1 <= ag_posture_version a -> agg_inv (recalculate a).
Proof. intros [H1 H2 H3] Hc Hv. by split. Qed.

Lemma inv_counts a : agg_inv a -> counts_inv a.
Proof. intros [? ? ? ? ? ?]. by split. Qed.

Lemma set_state_inv st now a : agg_inv a -> agg_inv (set_state st now a).
Proof. by intros []; split. Qed.

Lemma bump_inv a : agg_inv a -> agg_inv (bump_version a).
Proof. intros []; split; try done. simpl. lia. Qed.

Lemma mark_stale_inv now a : agg_inv a -> agg_inv (mark_stale now a).
Proof. intros H. by apply bump_inv, set_state_inv. Qed.

#[local] Hint Resolve set_state_inv bump_inv mark_stale_inv contribute_counts inv_counts : core.

(** What one application does: either nothing but possibly going stale, or the finding is
    the next one and is counted. *)
Definition applied (now : Z) (f : Finding) (a : AgentRiskAggregate) : AgentRiskAggregate :=
  let a1 := set_cursor (f_evidence_sequence f) a in
  let a1 := if active_status (f_status f) then recalculate (contribute f a1) else a1 in
  set_state (ag_state a) now (bump_version a1).

Lemma apply_finding_cases now f a :
  agg_inv a ->
  let '(a', r) := apply_finding now f a in
  (a' = a /\ r = Err ValueError /\
     (f_agent_id f <> ag_agent_id a \/ f_evidence_sequence f <= 0)) \/
  (a' = a /\ r = Ok false /\ f_agent_id f = ag_agent_id a /\
     f_evidence_sequence f <= ag_last_applied_sequence a) \/
  (a' = set_state STALE now a /\ r = Ok false /\ f_agent_id f = ag_agent_id a /\
     ag_last_applied_sequence a < f_evidence_sequence f) \/
  (a' = applied now f a /\ r = Ok true /\ f_agent_id f = ag_agent_id a /\
     f_evidence_sequence f = ag_last_applied_sequence a + 1 /\
     at_or_before (ag_baseline_at a) (observed_at f) = false).
Proof.
  intros Hi. pose proof (ai_cursor _ Hi) as Hc. unfold apply_finding.
  case_bool_decide as Ha; [left; split_and!; [done|done|by left]|].
  assert (f_agent_id f = ag_agent_id a) as Ha'
    by (by destruct (decide (f_agent_id f = ag_agent_id a))).
  destruct (Z.leb_spec (f_evidence_sequence f) UNASSIGNED_SEQUENCE) as [Hu|Hu];
    [left; split_and!; [done|done|by right]|].
  destruct (Z.leb_spec (f_evidence_sequence f) (ag_baseline_evidence_sequence a));
    [right; left; split_and!; [done..|lia]|].
  destruct (Z.leb_spec (f_evidence_sequence f) (ag_last_applied_sequence a));
    [right; left; split_and!; done|].
  destruct (at_or_before _ _) eqn:Hb; [right; right; left; split_and!; done|].
  destruct (Z.ltb_spec (ag_last_applied_sequence a + 1) (f_evidence_sequence f));
    [right; right; left; split_and!; done|].
  unfold assert_cursor_invariant; simpl.
  destruct (Z.ltb_spec (f_evidence_sequence f) (ag_baseline_evidence_sequence a)); [lia|].
  right; right; right. split_and!; [|done|done|lia|done].
  unfold applied, contribute. by case_match.
Qed.

Lemma applied_inv now f a :
  agg_inv a -> f_evidence_sequence f = ag_last_applied_sequence a + 1 -> agg_inv (applied now f a).
Proof.
  intros Hi Hs. pose proof (ai_cursor _ Hi). unfold applied.
  apply set_state_inv, bump_inv. case_match.
  - set (a1 := set_cursor _ _).
    pose proof (contribute_frame f a1) as Hf. unfold frame_of in Hf. simplify_eq.
    apply recalculate_inv.
    + apply contribute_counts. destruct (inv_counts _ Hi). by split.
    + simpl in *. lia.
    + replace (ag_posture_version (contribute f a1)) with (ag_posture_version a1) by done.
      apply (ai_version _ Hi).
  - destruct Hi. split; try done. simpl. lia.
Qed.

Lemma apply_finding_inv now f a : agg_inv a -> agg_inv (apply_finding now f a).1.
Proof.
  intros Hi. pose proof (apply_finding_cases now f a Hi) as Hc.
  destruct (apply_finding now f a) as [a' r]; simpl.
  destruct Hc as [(-> & _)|[(-> & _)|[(-> & _)|(-> & _ & _ & Hs & _)]]]; auto.
  by apply applied_inv.
Qed.

Lemma post_baseline_elem agent w fs f :
  f ∈ post_baseline agent w fs <->
  f ∈ fs /\ f_agent_id f = agent /\ wm_baseline_evidence_sequence w < f_evidence_sequence f /\
  at_or_before (wm_baseline_at w) (observed_at f) = false.
Proof.
  unfold post_baseline. rewrite filter_elem, !andb_true_iff, bool_decide_eq_true, !negb_true_iff.
  rewrite Z.leb_gt. naive_solver.
Qed.

Lemma rebuild_inv now fs w a : agg_inv a -> agg_inv (rebuild_from_findings now fs w a).1.
Proof.
  intros Hi. unfold rebuild_from_findings; simpl. apply set_state_inv, bump_inv.
  match goal with |- agg_inv (recalculate (foldl ?g ?a0 ?l)) =>
    pose proof (contribute_all_frame l a0) as Hf; set (r := foldl g a0 l) in * end.
  unfold frame_of in Hf. simplify_eq. apply recalculate_inv.
  - unfold r. apply contribute_all_counts. split; simpl; [done|by intros []|done].
  - destruct (max_default_in (wm_baseline_evidence_sequence w)
      (f_evidence_sequence <$> post_baseline (ag_agent_id a) w fs)) as [[Hm _]|Hm].
    + simpl in *. lia.
    + apply list_elem_of_fmap in Hm as (f & Hm & Hin). apply post_baseline_elem in Hin.
      simpl in *. lia.
  - simpl in *. pose proof (ai_version _ Hi). lia.
Qed.

Lemma reset_inv now w a : agg_inv a -> agg_inv (reset_to_baseline now w a).1.
Proof.
  intros Hi. unfold reset_to_baseline; simpl. apply set_state_inv, bump_inv.
  split; simpl; [lia|done|done|done|by intros []|done|apply (ai_version _ Hi)].
Qed.

Lemma inv_assert a : agg_inv a -> assert_cursor_invariant a = Ok tt.
Proof.
  intros Hi. unfold assert_cursor_invariant. pose proof (ai_cursor _ Hi).
  destruct (Z.ltb_spec (ag_last_applied_sequence a) (ag_baseline_evidence_sequence a)); [lia|done].
Qed.

Lemma new_aggregate_ok now w v :
  exists a, new_aggregate now w v = Ok a /\ agg_inv a /\ ag_agent_id a = wm_agent_id w /\
            ag_rule_vocabulary a = v.
Proof.
  unfold new_aggregate, assert_cursor_invariant; simpl. rewrite Z.ltb_irrefl.
  eexists. split; [done|]. split; [|done]. split; simpl; [lia|done|done|done|by intros []|done|done].
Qed.

(** ** Invariant of the aggregator *)

Definition ident (a : AgentRiskAggregate) : string * gset string :=
  (ag_agent_id a, ag_rule_vocabulary a).

Lemma contribute_all_ident fs a : ident (foldl (fun a f => contribute f a) a fs) = ident a.
Proof.
  pose proof (contribute_all_frame fs a) as H. unfold frame_of in H. unfold ident. congruence.
Qed.

Lemma apply_finding_ident now f a : agg_inv a -> ident (apply_finding now f a).1 = ident a.
Proof.
  intros Hi. pose proof (apply_finding_cases now f a Hi) as Hc.
  destruct (apply_finding now f a) as [a' r]; simpl.
  destruct Hc as [(-> & _)|[(-> & _)|[(-> & _)|(-> & _)]]]; try done.
  unfold applied, contribute. by repeat case_match.
Qed.

Lemma rebuild_ident now fs w a : ident (rebuild_from_findings now fs w a).1 = ident a.
Proof.
  unfold rebuild_from_findings; simpl.
  match goal with |- ident (set_state _ _ (bump_version (recalculate ?x))) = _ =>
    change (ident x = ident a) end.
  by rewrite contribute_all_ident.
Qed.

(** Every projection is sound and uses the aggregator's vocabulary; under consistent calls
    it is filed under its own agent. *)
Record rg_inv (keyed : bool) (s : RiskAggregator) : Prop := {
  rgi : forall k a, rg_projections s !! k = Some a ->
          agg_inv a /\ ag_rule_vocabulary a = rg_rule_vocabulary s /\
          (keyed = true -> ag_agent_id a = k);
}.

Lemma rg_inv_put keyed s k a :
  rg_inv keyed s -> agg_inv a -> ag_rule_vocabulary a = rg_rule_vocabulary s ->
  (keyed = true -> ag_agent_id a = k) -> rg_inv keyed (put_projection k a s).
Proof.
  intros [Hs] Ha Hv Hk. split. intros k' a'. simpl. rewrite lookup_insert_Some.
  intros [[<- <-]|[_ H]]; [done|by apply Hs].
Qed.

Lemma ensure_projection_spec keyed now agent w s :
  rg_inv keyed s -> (keyed = true -> wm_agent_id w = agent) ->
  exists s' a, ensure_projection now agent w s = (s', Ok a) /\ rg_inv keyed s' /\
    rg_projections s' !! agent = Some a /\ rg_rule_vocabulary s' = rg_rule_vocabulary s.
Proof.
  intros Hs Hw. unfold ensure_projection.
  destruct (rg_projections s !! agent) as [a|] eqn:Hl; [by exists s, a|].
  destruct (new_aggregate_ok now w (rg_rule_vocabulary s)) as (a & -> & Ha & Hid & Hv).
  exists (put_projection agent a s), a. split_and!; [done| | |done].
  - apply rg_inv_put; [done..|]. intros Hk. by rewrite Hid, Hw.
  - simpl. apply lookup_insert_eq.
Qed.

Lemma risk_step_inv keyed now c s :
  rg_inv keyed s -> (keyed = true -> call_consistent c = true) ->
  rg_inv keyed (risk_step now c s).
Proof.
  intros Hs Hc. destruct c as [f|agent|agent fs w|w|]; simpl in *.
  - unfold ingest_finding. destruct (rg_projections s !! f_agent_id f) as [a|] eqn:Hl; [|done].
    destruct (rgi _ _ Hs _ _ Hl) as (Ha & Hv & Hk).
    pose proof (apply_finding_inv now f a Ha) as Ha'.
    pose proof (apply_finding_ident now f a Ha) as Hid. unfold ident in Hid.
    destruct (apply_finding now f a) as [a' [b|e]]; simpl in *; simplify_eq;
      apply rg_inv_put; simpl; try done; try congruence; try (apply mark_stale_inv, Ha');
      intros ?; rewrite <- Hk by done; congruence.
  - unfold aggregator_mark_stale. destruct (rg_projections s !! agent) as [a|] eqn:Hl; [|done].
    destruct (rgi _ _ Hs _ _ Hl) as (Ha & Hv & Hk). apply rg_inv_put; auto.
  - rewrite bool_decide_eq_true in Hc. unfold reconcile_agent, mbind, comp_bind, update_projection.
    destruct (ensure_projection_spec keyed now agent w s Hs Hc) as (s' & a & -> & Hs' & Hl & _).
    destruct (rgi _ _ Hs' _ _ Hl) as (Ha & Hv & Hk).
    pose proof (rebuild_inv now fs w a Ha). pose proof (rebuild_ident now fs w a) as Hid.
    unfold ident in Hid. destruct (rebuild_from_findings now fs w a) as [a' r]; simpl in *.
    apply rg_inv_put; [done|done|congruence|]. intros. rewrite <- Hk by done. congruence.
  - unfold aggregator_reset, mbind, comp_bind, update_projection.
    destruct (ensure_projection_spec keyed now (wm_agent_id w) w s Hs) as (s' & a & -> & Hs' & Hl & _);
      [done|].
    destruct (rgi _ _ Hs' _ _ Hl) as (Ha & Hv & Hk). pose proof (reset_inv now w a Ha).
    apply rg_inv_put; done.
  - by split.
Qed.

Lemma new_aggregator_inv keyed v : rg_inv keyed (new_aggregator v).
Proof. by split. Qed.

Lemma risk_run_inv keyed h s :
  rg_inv keyed s -> (keyed = true -> Forall (fun c => call_consistent c.2 = true) h) ->
  rg_inv keyed (risk_run h s).
Proof.
  revert s. induction h as [|[now c] h IH]; intros s Hs Hh; [done|].
  apply IH; [apply risk_step_inv; [done|]|]; intros Hk; by apply Forall_cons in Hh as [? ?].
Qed.

Lemma risk_step_vocabulary now c s : rg_rule_vocabulary (risk_step now c s) = rg_rule_vocabulary s.
Proof.
  destruct c; simpl; unfold ingest_finding, aggregator_mark_stale, reconcile_agent,
    aggregator_reset, update_projection, ensure_projection, mbind, comp_bind;
    repeat case_match; simplify_eq/=; done.
Qed.

Lemma risk_run_vocabulary h s : rg_rule_vocabulary (risk_run h s) = rg_rule_vocabulary s.
Proof.
  revert s. induction h as [|[now c] h IH]; intros s; [done|].
  change (risk_run ((now, c) :: h) s) with (risk_run h (risk_step now c s)).
  by rewrite IH, risk_step_vocabulary.
Qed.

Lemma snapshot_inv a :
  agg_inv a ->
  snapshot a = Ok (mkPosture (ag_agent_id a) (ag_state a) (ag_risk_score a) (ag_risk_level a)
    (ag_finding_count a) (ag_baseline_at a) (ag_baseline_evidence_sequence a)
    (ag_last_applied_sequence a) (ag_counts_by_severity a) (ag_counts_by_rule a)
    (ag_posture_version a) (ag_assessed_at a)).
Proof. intros Hi. unfold snapshot. by rewrite inv_assert. Qed.

(** After any history of aggregator calls every agent's posture can be read (the cursor
    invariant never fails), its cursor is not below its baseline, its score is the weighted
    sum of its severity counts, its level is the one of that score, the counts add up to
    the finding count, and rule counts are kept for registered rules only. *)
Theorem projection_invariant (h : list (Z * RiskCall)) (v : option (gset string)) (now : Z)
    (agent : string) :
  exists p, get_posture now agent (risk_run h (new_aggregator v)) = Ok p /\
    p_baseline_evidence_sequence p <= p_last_applied_sequence p /\
    p_risk_score p = sum_of (fun s => severity_count (p_counts_by_severity p) s * SEVERITY_WEIGHTS s)
                       all_severities /\
    p_risk_level p = level_for_score (p_risk_score p) /\
    p_finding_count p = total (p_counts_by_severity p) /\
    (forall s, 0 <= severity_count (p_counts_by_severity p) s) /\
    (forall r n, p_counts_by_rule p !! r = Some n ->
       r ∈ default DEFAULT_RULE_VOCABULARY v /\ 1 <= n <= p_finding_count p).
Proof.
  pose proof (risk_run_inv false h (new_aggregator v) (new_aggregator_inv _ _)) as Hs.
  specialize (Hs ltac:(done)). pose proof (risk_run_vocabulary h (new_aggregator v)) as Hv.
  unfold get_posture. destruct (rg_projections _ !! agent) as [a|] eqn:Hl.
  - destruct (rgi _ _ Hs _ _ Hl) as (Ha & Hva & _). rewrite (snapshot_inv a Ha).
    eexists. split; [done|]; simpl. destruct Ha as [A1 A2 A3 A4 A5 A6 A7].
    split_and!; [done..|]. intros r n Hr.
    change (default DEFAULT_RULE_VOCABULARY v) with (rg_rule_vocabulary (new_aggregator v)).
    rewrite <- Hv, <- Hva. by apply A6.
  - eexists. split; [done|]. simpl. split_and!; [lia|done..|by intros []|done].
Qed.

(** ** Contributions do not depend on their order *)

Definition counts_of (a : AgentRiskAggregate) : SeverityCounts * gmap string Z * Z :=
  (ag_counts_by_severity a, ag_counts_by_rule a, ag_finding_count a).

Lemma count_severity_comm s t c :
  count_severity s (count_severity t c) = count_severity t (count_severity s c).
Proof. by destruct s, t. Qed.

Lemma bump_rule_comm (r r' : string) (m : gmap string Z) :
  <[r := default 0 (<[r' := default 0 (m !! r') + 1]> m !! r) + 1]> (<[r' := default 0 (m !! r') + 1]> m) =
  <[r' := default 0 (<[r := default 0 (m !! r) + 1]> m !! r') + 1]> (<[r := default 0 (m !! r) + 1]> m).
Proof.
  destruct (decide (r = r')) as [->|Hne]; [done|].
  rewrite !lookup_insert_ne by done. by apply insert_insert_ne.
Qed.

Lemma contribute_comm f g a : contribute f (contribute g a) = contribute g (contribute f a).
Proof.
  unfold contribute.
  destruct (active_status (f_status f)), (active_status (f_status g)); try done; simpl.
  unfold set_counts; simpl. rewrite (count_severity_comm (f_severity f)).
  f_equal. repeat case_match; try done. apply bump_rule_comm.
Qed.

Lemma contribute_all_perm l1 l2 a :
  l1 ≡ₚ l2 ->
  foldl (fun a f => contribute f a) a l1 = foldl (fun a f => contribute f a) a l2.
Proof.
  intros H. revert a. induction H as [| | |l1 l2 l3 _ IH1 _ IH2]; intros a; simpl; [done|auto| |].
  - by rewrite contribute_comm.
  - by rewrite IH1, IH2.
Qed.

(** The counts a list of findings amounts to, under a vocabulary. *)
Lemma contribute_counts_of f a b :
  counts_of a = counts_of b -> ag_rule_vocabulary a = ag_rule_vocabulary b ->
  counts_of (contribute f a) = counts_of (contribute f b).
Proof.
  intros H Hv. unfold contribute. case_match; [|done].
  injection H as H1 H2 H3. unfold counts_of; simpl. by rewrite H1, H2, H3, Hv.
Qed.

Lemma contribute_all_counts_of fs a b :
  counts_of a = counts_of b -> ag_rule_vocabulary a = ag_rule_vocabulary b ->
  counts_of (foldl (fun a f => contribute f a) a fs) =
  counts_of (foldl (fun a f => contribute f a) b fs).
Proof.
  revert a b. induction fs as [|f fs IH]; intros a b H Hv; [done|]. simpl. apply IH.
  - by apply contribute_counts_of.
  - unfold contribute. by case_match.
Qed.

(** ** Incremental ingestion against the rebuild *)

Definition ingest_all (ds : list (Z * Finding)) (s : RiskAggregator) : RiskAggregator :=
  foldl (fun s d => (ingest_finding d.1 d.2 s).1) s ds.

(** What a posture says about risk: everything but its state, version and timestamp. *)
Definition posture_content (p : AgentRiskPosture) :=
  (p_agent_id p, p_risk_score p, p_risk_level p, p_finding_count p, p_baseline_at p,
   p_baseline_evidence_sequence p, p_last_applied_sequence p, p_counts_by_severity p,
   p_counts_by_rule p).

(** The aggregate of [w], fed from the evidence [ev]: unless it went stale it has counted
    exactly the findings numbered from the baseline to its cursor. *)
Record fed_from (ev : list Finding) (w : BaselineWatermark) (a : AgentRiskAggregate) : Prop := {
  ff_inv : agg_inv a;
  ff_agent : ag_agent_id a = wm_agent_id w;
  ff_at : ag_baseline_at a = wm_baseline_at w;
  ff_base : ag_baseline_evidence_sequence a = wm_baseline_evidence_sequence w;
  ff_state : ag_state a = HEALTHY \/ ag_state a = STALE;
  ff_counted : ag_state a = HEALTHY -> exists l,
    (forall f, f ∈ l -> f ∈ ev /\ f_agent_id f = wm_agent_id w /\
                        at_or_before (wm_baseline_at w) (observed_at f) = false) /\
    f_evidence_sequence <$> l =
      seqZ (wm_baseline_evidence_sequence w + 1)
           (ag_last_applied_sequence a - wm_baseline_evidence_sequence w) /\
    counts_of a = counts_of (foldl (fun a f => contribute f a) (set_counts no_counts ∅ 0 a) l);
}.

Lemma fed_stale ev w now a : fed_from ev w a -> fed_from ev w (set_state STALE now a).
Proof. intros [H1 H2 H3 H4 H5 H6]. split; try done; [by apply set_state_inv|by right]. Qed.

Lemma fed_mark_stale ev w now a : fed_from ev w a -> fed_from ev w (mark_stale now a).
Proof.
  intros [H1 H2 H3 H4 H5 H6]. split; try done; [by apply mark_stale_inv|by right].
Qed.

Lemma applied_fields now f a :
  ident (applied now f a) = ident a /\ ag_baseline_at (applied now f a) = ag_baseline_at a /\
  ag_baseline_evidence_sequence (applied now f a) = ag_baseline_evidence_sequence a /\
  ag_state (applied now f a) = ag_state a /\
  ag_last_applied_sequence (applied now f a) = f_evidence_sequence f /\
  counts_of (applied now f a) = counts_of (contribute f a).
Proof.
  unfold applied, contribute. by destruct (active_status (f_status f)).
Qed.

Lemma seqZ_extend m n : 0 <= n -> seqZ m (n + 1) = seqZ m n ++ [m + n].
Proof.
  intros Hn. by rewrite seqZ_app by lia.
Qed.

Lemma fed_applied ev w now f a :
  fed_from ev w a -> f ∈ ev -> f_agent_id f = ag_agent_id a ->
  f_evidence_sequence f = ag_last_applied_sequence a + 1 ->
  at_or_before (ag_baseline_at a) (observed_at f) = false ->
  fed_from ev w (applied now f a).
Proof.
  intros [H1 H2 H3 H4 H5 H6] Hf Ha Hs Hb.
  destruct (applied_fields now f a) as (Hid & Hat & Hbase & Hst & Hcur & Hct).
  pose proof (f_equal fst Hid : ag_agent_id (applied now f a) = ag_agent_id a) as Hid1.
  pose proof (f_equal snd Hid : ag_rule_vocabulary (applied now f a) = ag_rule_vocabulary a) as Hv.
  split; [by apply applied_inv|congruence|congruence|congruence|by rewrite Hst|]. rewrite Hst.
  intros Hh. destruct (H6 Hh) as (l & Hl & Hseq & Hcnt). exists (l ++ [f]). split_and!.
  - intros g [Hg|Hg%list_elem_of_singleton]%elem_of_app; [by apply Hl|]. subst g.
    split_and!; [done|congruence|by rewrite <- H3].
  - rewrite fmap_app, Hseq, Hcur, Hs. pose proof (ai_cursor _ H1).
    replace (ag_last_applied_sequence a + 1 - wm_baseline_evidence_sequence w)
      with (ag_last_applied_sequence a - wm_baseline_evidence_sequence w + 1) by lia.
    rewrite seqZ_extend by lia. csimpl. rewrite Hs. do 2 f_equal. lia.
  - rewrite Hct, foldl_app. simpl. apply contribute_counts_of.
    + rewrite Hcnt. apply contribute_all_counts_of; [done|exact (eq_sym Hv)].
    + pose proof (contribute_all_ident l (set_counts no_counts ∅ 0 (applied now f a))) as Hi.
      apply (f_equal snd) in Hi. unfold ident, snd in Hi. rewrite Hi. exact (eq_sym Hv).
Qed.

Lemma fed_apply ev w now f a :
  fed_from ev w a -> f ∈ ev -> fed_from ev w (apply_finding now f a).1.
Proof.
  intros Hf Hin. pose proof (apply_finding_cases now f a (ff_inv _ _ _ Hf)) as Hc.
  destruct (apply_finding now f a) as [a' r]; simpl.
  destruct Hc as [(-> & _)|[(-> & _)|[(-> & _)|(-> & _ & Ha & Hs & Hb)]]]; [done..| |].
  - by apply fed_stale.
  - by apply fed_applied.
Qed.

Lemma ingest_fed ev w now f s a :
  rg_projections s !! wm_agent_id w = Some a -> fed_from ev w a -> f ∈ ev ->
  exists a', rg_projections (ingest_finding now f s).1 !! wm_agent_id w = Some a' /\
             fed_from ev w a'.
Proof.
  intros Hl Hfed Hin. unfold ingest_finding.
  destruct (rg_projections s !! f_agent_id f) as [b|] eqn:Hb; [|by exists a].
  destruct (decide (f_agent_id f = wm_agent_id w)) as [He|Hne].
  - rewrite He in *. simplify_eq. pose proof (fed_apply ev w now f _ Hfed Hin) as Ha.
    destruct (apply_finding now f _) as [a' [r|e]]; simpl in *; rewrite lookup_insert_eq;
      eexists; split; [done..|by apply fed_mark_stale].
  - exists a. split; [|done].
    by destruct (apply_finding now f b) as [b' [r|e]]; simpl; rewrite lookup_insert_ne.
Qed.

Lemma ingest_all_fed ev w ds s a :
  rg_projections s !! wm_agent_id w = Some a -> fed_from ev w a ->
  Forall (fun d => d.2 ∈ ev) ds ->
  exists a', rg_projections (ingest_all ds s) !! wm_agent_id w = Some a' /\ fed_from ev w a'.
Proof.
  revert s a. induction ds as [|[now f] ds IH]; intros s a Hl Hf Hd; [by exists a|].
  apply Forall_cons in Hd as [Hd Hds].
  destruct (ingest_fed ev w now f s a Hl Hf Hd) as (a' & Hl' & Hf'). by eapply IH.
Qed.

(** The findings a HEALTHY aggregate counted are the ones its rebuild would count. *)
Lemma counted_perm ev w n l :
  NoDup (f_evidence_sequence <$> in_group f_agent_id (wm_agent_id w) ev) ->
  (forall f, f ∈ l -> f ∈ ev /\ f_agent_id f = wm_agent_id w /\
                      at_or_before (wm_baseline_at w) (observed_at f) = false) ->
  f_evidence_sequence <$> l = seqZ (wm_baseline_evidence_sequence w + 1)
                                   (n - wm_baseline_evidence_sequence w) ->
  post_baseline (wm_agent_id w) w (List.filter (fun f => f_evidence_sequence f <=? n) ev) ≡ₚ l.
Proof.
  intros Hnd Hl Hseq.
  assert (forall f g, f ∈ ev -> g ∈ ev -> f_agent_id f = wm_agent_id w ->
            f_agent_id g = wm_agent_id w -> f_evidence_sequence f = f_evidence_sequence g ->
            f = g) as Hu.
  { intros f g Hf Hg Haf Hag He.
    assert (f ∈ in_group f_agent_id (wm_agent_id w) ev) as Hf' by (by apply in_group_elem).
    assert (g ∈ in_group f_agent_id (wm_agent_id w) ev) as Hg' by (by apply in_group_elem).
    apply list_elem_of_lookup_1 in Hf' as [i Hi]. apply list_elem_of_lookup_1 in Hg' as [j Hj].
    assert (i = j); [|by simplify_eq]. eapply NoDup_lookup; [exact Hnd|..];
      rewrite list_lookup_fmap, ?Hi, ?Hj; simpl; [done|by rewrite He]. }
  apply NoDup_Permutation.
  - apply (NoDup_fmap_1 f_evidence_sequence). unfold post_baseline.
    rewrite !filter_andb, (filter_comm _ _ ev). by do 3 apply NoDup_fmap_filter.
  - apply (NoDup_fmap_1 f_evidence_sequence). rewrite Hseq. apply NoDup_seqZ.
  - intros f. rewrite post_baseline_elem, filter_elem, Z.leb_le. split.
    + intros ((Hf & Hn) & Ha & Hb & Ho).
      assert (f_evidence_sequence f ∈ f_evidence_sequence <$> l) as Hin
        by (rewrite Hseq; apply elem_of_seqZ; lia).
      apply list_elem_of_fmap in Hin as (g & He & Hg). destruct (Hl g Hg) as (? & ? & ?).
      by rewrite (Hu f g).
    + intros Hf. destruct (Hl f Hf) as (? & ? & ?).
      assert (f_evidence_sequence f ∈ f_evidence_sequence <$> l) as Hin
        by (apply list_elem_of_fmap; by exists f).
      rewrite Hseq, elem_of_seqZ in Hin. split_and!; [done|lia|done|lia|done].
Qed.

Lemma seqZ_cursor b n : b <= n -> max_default b (seqZ (b + 1) (n - b)) = n.
Proof.
  intros Hn. destruct (max_default_in b (seqZ (b + 1) (n - b))) as [[-> He]|Hm].
  - apply (f_equal length) in He. rewrite length_seqZ in He. simpl in He. lia.
  - pose proof Hm as Hm'. apply elem_of_seqZ in Hm.
    assert (n <= max_default b (seqZ (b + 1) (n - b))); [|lia].
    apply max_default_ge, elem_of_seqZ. lia.
Qed.

(** A HEALTHY fed aggregate and its rebuild agree on everything they say about risk. *)
Lemma fed_rebuild ev w now a :
  NoDup (f_evidence_sequence <$> in_group f_agent_id (wm_agent_id w) ev) ->
  fed_from ev w a -> ag_state a = HEALTHY ->
  let fs := List.filter (fun f => f_evidence_sequence f <=? ag_last_applied_sequence a) ev in
  let a' := (rebuild_from_findings now fs w a).1 in
  ag_last_applied_sequence a' = ag_last_applied_sequence a /\ counts_of a' = counts_of a /\
  ag_baseline_at a' = wm_baseline_at w /\
  ag_baseline_evidence_sequence a' = wm_baseline_evidence_sequence w.
Proof.
  intros Hnd [H1 H2 H3 H4 _ H6] Hh. destruct (H6 Hh) as (l & Hl & Hseq & Hcnt).
  pose proof (counted_perm ev w _ l Hnd Hl Hseq) as Hp.
  unfold rebuild_from_findings; simpl. rewrite H2.
  set (pb := post_baseline _ _ _) in *.
  set (a0 := set_cursor _ _).
  pose proof (contribute_all_frame pb a0) as Hf. unfold frame_of in Hf.
  set (r := foldl _ a0 pb) in *. injection Hf as _ Hat Hb Hc _ _ _. split_and!.
  - etrans; [exact Hc|]. unfold a0; simpl.
    rewrite (max_default_perm _ _ (f_evidence_sequence <$> l)) by (by rewrite Hp).
    rewrite Hseq. apply seqZ_cursor. rewrite <- H4. apply H1.
  - change (counts_of r = counts_of a). unfold r. rewrite Hcnt, (contribute_all_perm _ _ _ Hp).
    by apply contribute_all_counts_of.
  - exact Hat.
  - exact Hb.
Qed.

Lemma reset_fed ev w now a :
  agg_inv a -> ag_agent_id a = wm_agent_id w -> fed_from ev w (reset_to_baseline now w a).1.
Proof.
  intros Hi Ha. split; [by apply reset_inv|done|done|done|by left|]. intros _. exists [].
  split_and!; [set_solver| |done]. simpl. by rewrite Z.sub_diag.
Qed.

Lemma aggregator_reset_fed ev now w s :
  rg_inv true s ->
  exists a, rg_projections (aggregator_reset now w s).1 !! wm_agent_id w = Some a /\
            fed_from ev w a.
Proof.
  intros Hs. unfold aggregator_reset, mbind, comp_bind, update_projection.
  destruct (ensure_projection_spec true now (wm_agent_id w) w s Hs) as (s' & a & -> & Hs' & Hl & _);
    [done|].
  destruct (rgi _ _ Hs' _ _ Hl) as (Ha & _ & Hk).
  pose proof (reset_fed ev w now a Ha (Hk eq_refl)) as Hf.
  destruct (reset_to_baseline now w a) as [a' r]. exists a'. split; [|done].
  apply lookup_insert_eq.
Qed.

(** Reconciling an agent that has a projection rebuilds it and cannot fail. *)
Lemma reconcile_existing now agent fs w s a :
  rg_projections s !! agent = Some a -> agg_inv a ->
  (reconcile_agent now agent fs w s).2 = snapshot (rebuild_from_findings now fs w a).1.
Proof.
  intros Hl Ha. unfold reconcile_agent, ensure_projection, update_projection, mbind, comp_bind.
  rewrite Hl. pose proof (rebuild_inv now fs w a Ha) as Hi.
  assert ((rebuild_from_findings now fs w a).2 = Ok tt) as Hr
    by (exact (inv_assert _ Hi)).
  destruct (rebuild_from_findings now fs w a) as [a' r]. simpl in *. by subst.
Qed.

(** C16. A projection reset to a watermark and then fed findings one at a time, in any order
    and with repetitions, from evidence with distinct sequence numbers, either reports
    itself STALE or says about risk exactly what a rebuild from that evidence, up to the
    projection's cursor, says. *)
Theorem incremental_matches_rebuild (h : list (Z * RiskCall)) (v : option (gset string))
    (ev : list Finding) (w : BaselineWatermark) (ds : list (Z * Finding)) (now0 now : Z) :
  Forall (fun c => call_consistent c.2 = true) h ->
  NoDup (f_evidence_sequence <$> in_group f_agent_id (wm_agent_id w) ev) ->
  Forall (fun d => d.2 ∈ ev) ds ->
  let s := ingest_all ds (aggregator_reset now0 w (risk_run h (new_aggregator v))).1 in
  exists p, get_posture now (wm_agent_id w) s = Ok p /\
    (p_state p = STALE \/
     exists p', p_state p = HEALTHY /\
       (reconcile_agent now (wm_agent_id w)
          (List.filter (fun f => f_evidence_sequence f <=? p_last_applied_sequence p) ev) w s).2
       = Ok p' /\
       p_state p' = HEALTHY /\ posture_content p' = posture_content p).
Proof.
  intros Hc Hnd Hds s.
  pose proof (risk_run_inv true h (new_aggregator v) (new_aggregator_inv _ _) (fun _ => Hc)) as Hs.
  destruct (aggregator_reset_fed ev now0 w _ Hs) as (a0 & Hl0 & Hf0).
  destruct (ingest_all_fed ev w ds _ a0 Hl0 Hf0 Hds) as (a & Hl & Hf). fold s in Hl.
  pose proof (ff_inv _ _ _ Hf) as Ha. clearbody s.
  unfold get_posture. rewrite Hl, snapshot_inv by done. eexists. split; [done|]. simpl.
  destruct (ff_state _ _ _ Hf) as [Hh|Hst]; [right|by left].
  destruct (fed_rebuild ev w now a Hnd Hf Hh) as (R1 & R2 & R3 & R4).
  rewrite (reconcile_existing _ _ _ _ _ a Hl Ha).
  set (fs := List.filter _ ev) in *. pose proof (rebuild_inv now fs w a Ha) as Hi.
  pose proof (rebuild_ident now fs w a) as Hid. apply (f_equal fst) in Hid.
  assert (ag_state (rebuild_from_findings now fs w a).1 = HEALTHY) as Hst by done.
  set (a' := (rebuild_from_findings now fs w a).1) in *. clearbody a'.
  rewrite snapshot_inv by done. eexists. split_and!; [done|done|done|].
  unfold counts_of in R2. injection R2 as E1 E2 E3. destruct Hi as [_ S L _ _ _ _].
  destruct Ha as [_ S' L' _ _ _ _]. destruct Hf as [_ F2 F3 F4 _ _]. unfold ident, fst in Hid.
  unfold posture_content; simpl. rewrite L, L', S, S'. congruence.
Qed.

(** ** One ingestion *)

Lemma contribute_score f a :
  weighted (ag_counts_by_severity a) <= weighted (ag_counts_by_severity (contribute f a)).
Proof.
  unfold contribute. case_match; simpl; [|done]. rewrite count_severity_weighted.
  destruct (f_severity f); simpl; lia.
Qed.

Lemma applied_score now f a :
  agg_inv a -> f_evidence_sequence f = ag_last_applied_sequence a + 1 ->
  ag_risk_score a <= ag_risk_score (applied now f a).
Proof.
  intros Ha Hs. pose proof (applied_inv now f a Ha Hs) as Ha'.
  destruct (applied_fields now f a) as (_ & _ & _ & _ & _ & Hc).
  apply (f_equal (fun x => x.1.1)) in Hc. unfold counts_of, fst in Hc.
  rewrite (ai_score _ Ha), (ai_score _ Ha'), Hc. apply contribute_score.
Qed.

(** Ingesting a finding never lets evidence slip by: afterwards the finding is covered by
    the cursor or the posture is STALE.  A STALE posture stays STALE, the cursor advances
    by at most one, and neither the score nor the level ever falls. *)
Theorem ingest_never_drops_evidence (h : list (Z * RiskCall)) (v : option (gset string))
    (now now' : Z) (f : Finding) :
  Forall (fun c => call_consistent c.2 = true) h ->
  let s := risk_run h (new_aggregator v) in
  has_projection (f_agent_id f) s = true ->
  exists p p', get_posture now (f_agent_id f) s = Ok p /\
    get_posture now' (f_agent_id f) (ingest_finding now f s).1 = Ok p' /\
    (p_state p' = STALE \/ f_evidence_sequence f <= p_last_applied_sequence p') /\
    (p_state p = STALE -> p_state p' = STALE) /\
    p_last_applied_sequence p <= p_last_applied_sequence p' <= p_last_applied_sequence p + 1 /\
    p_risk_score p <= p_risk_score p' /\
    risk_rank (p_risk_level p) <= risk_rank (p_risk_level p').
Proof.
  intros Hc s Hp.
  pose proof (risk_run_inv true h (new_aggregator v) (new_aggregator_inv _ _) (fun _ => Hc)) as Hs.
  fold s in Hs. clearbody s. apply bool_decide_eq_true in Hp as [a Hl].
  destruct (rgi _ _ Hs _ _ Hl) as (Ha & _ & Hk). specialize (Hk eq_refl).
  assert (exists a', rg_projections (ingest_finding now f s).1 !! f_agent_id f = Some a' /\
    agg_inv a' /\
    (ag_state a' = STALE \/ f_evidence_sequence f <= ag_last_applied_sequence a') /\
    (ag_state a = STALE -> ag_state a' = STALE) /\
    ag_last_applied_sequence a <= ag_last_applied_sequence a' <= ag_last_applied_sequence a + 1 /\
    ag_risk_score a <= ag_risk_score a') as (a' & Hl' & Ha' & H1 & H2 & H3 & H4).
  { unfold ingest_finding. rewrite Hl. pose proof (apply_finding_cases now f a Ha) as Hcases.
    destruct (apply_finding now f a) as [a1 r].
    destruct Hcases as [(-> & -> & _)|[(-> & -> & _ & Hle)|[(-> & -> & _)|(-> & -> & _ & Hs1 & _)]]];
      simpl; rewrite lookup_insert_eq; eexists; (split; [done|]).
    - split_and!; [by apply mark_stale_inv|by left|done|simpl; lia|simpl; lia|done].
    - split_and!; [done|by right|done|lia|lia|done].
    - split_and!; [by apply set_state_inv|by left|done|simpl; lia|simpl; lia|done].
    - destruct (applied_fields now f a) as (_ & _ & _ & Hst & Hcur & _).
      rewrite Hcur, Hst. split_and!; [by apply applied_inv|right; lia|done|lia|lia|by apply applied_score]. }
  unfold get_posture. rewrite Hl, Hl', !snapshot_inv by done.
  do 2 eexists. do 2 (split; [done|]). simpl. split_and!; [done..|lia|lia|done|].
  rewrite (ai_level _ Ha), (ai_level _ Ha'). by apply level_monotone.
Qed.

(** ** Session assessments *)

Lemma remove_dups_elem (l : list string) a : a ∈ remove_dups l <-> a ∈ l.
Proof. apply elem_of_remove_dups. Qed.

Lemma in_group_scope session agent fs :
  in_group scope_of (session, agent) fs =
  List.filter (fun f => bool_decide (f_agent_id f = agent))
    (List.filter (fun f => bool_decide (f_session_id f = session)) fs).
Proof.
  rewrite <- filter_andb. unfold in_group. apply List.filter_ext. intros f. unfold scope_of.
  repeat case_bool_decide; naive_solver.
Qed.

Lemma reconstruct_elem now fs r :
  r ∈ reconstruct now fs <->
  exists k, in_group scope_of k fs <> [] /\ r = derive now k.1 k.2 (in_group scope_of k fs).
Proof.
  unfold reconstruct. rewrite list_elem_of_fmap. setoid_rewrite sort_by_elem. split.
  - intros (k & -> & Hk). apply group_by_keys in Hk as (f & Hf & Hk).
    assert (f ∈ in_group scope_of k fs) as Hin by (by apply in_group_elem).
    exists k. assert (in_group scope_of k fs <> []) as Hne by (intros He; rewrite He in Hin; set_solver).
    split; [done|]. rewrite group_by_get. by destruct (in_group scope_of k fs).
  - intros (k & Hne & ->). exists k. rewrite group_by_get. split.
    + by destruct (in_group scope_of k fs).
    + apply (elem_dkeys k (in_group scope_of k fs)). by apply group_by_elem.
Qed.

Lemma reconstruct_scopes now fs :
  (fun r => (ra_session_id r, ra_agent_id r)) <$> reconstruct now fs =
  sort_by str_pair_leb (dkeys (group_by scope_of fs)).
Proof.
  unfold reconstruct. rewrite <- list_fmap_compose. rewrite <- (list_fmap_id (sort_by _ _)) at 2.
  apply list_fmap_ext. by intros i [session agent] _.
Qed.

Lemma reconstruct_agent now fs session agent r :
  reconstruct_for_session now fs session (Some agent) = Ok (Some r) <->
  r ∈ reconstruct now fs /\ ra_session_id r = session /\ ra_agent_id r = agent.
Proof.
  unfold reconstruct_for_session. rewrite <- in_group_scope, reconstruct_elem. split.
  - destruct (in_group scope_of (session, agent) fs) as [|f l] eqn:Hg; intros ?; simplify_eq.
    split_and!; [|done|done]. exists (session, agent). by rewrite Hg.
  - intros (([s a] & Hne & ->) & Hs & Ha). simpl in *. subst.
    by destruct (in_group scope_of (session, agent) fs).
Qed.

(** The agents of a session, each once. *)
Definition session_agents (session : string) (fs : list Finding) : list string :=
  remove_dups (f_agent_id <$> List.filter (fun f => bool_decide (f_session_id f = session)) fs).

Lemma session_agents_elem session fs a :
  a ∈ session_agents session fs <-> exists f, f ∈ fs /\ f_session_id f = session /\ f_agent_id f = a.
Proof.
  unfold session_agents. rewrite elem_of_remove_dups, list_elem_of_fmap.
  setoid_rewrite filter_elem. setoid_rewrite bool_decide_eq_true. naive_solver.
Qed.

Lemma reconstruct_single now fs session a :
  session_agents session fs = [a] ->
  reconstruct_for_session now fs session None = reconstruct_for_session now fs session (Some a).
Proof.
  intros Ha. unfold reconstruct_for_session. fold (session_agents session fs). rewrite Ha.
  assert (forall f, f ∈ List.filter (fun f => bool_decide (f_session_id f = session)) fs ->
            f_agent_id f = a) as Hall.
  { intros f [Hf Hs]%filter_elem. apply bool_decide_eq_true in Hs.
    assert (f_agent_id f ∈ session_agents session fs) as Hin
      by (apply session_agents_elem; by exists f).
    rewrite Ha in Hin. set_solver. }
  rewrite (filter_all (fun f => bool_decide (f_agent_id f = a)))
    by (intros f Hf; apply bool_decide_eq_true; auto).
  assert (a ∈ session_agents session fs) as Hin by (rewrite Ha; set_solver).
  apply session_agents_elem in Hin as (f & Hf & Hs & _).
  destruct (List.filter _ fs) as [|g l] eqn:Hg; [|done]. exfalso.
  assert (f ∈ List.filter (fun f => bool_decide (f_session_id f = session)) fs) as Hx; [|rewrite Hg in Hx; set_solver].
  apply filter_elem. by rewrite bool_decide_eq_true.
Qed.

Lemma reconstruct_unscoped now fs session :
  match session_agents session fs with
  | [] => reconstruct_for_session now fs session None = Ok None
  | [a] => exists r, reconstruct_for_session now fs session None = Ok (Some r) /\
             r ∈ reconstruct now fs /\ ra_session_id r = session
  | _ => reconstruct_for_session now fs session None = Err AmbiguousAssessmentScopeError
  end.
Proof.
  destruct (session_agents session fs) as [|a [|b l]] eqn:Ha.
  - unfold reconstruct_for_session. fold (session_agents session fs). by rewrite Ha.
  - assert (reconstruct_for_session now fs session None = Ok (Some (derive now session a
        (List.filter (fun f => bool_decide (f_session_id f = session)) fs)))) as Hr.
    { unfold reconstruct_for_session. fold (session_agents session fs). by rewrite Ha. }
    eexists. split; [exact Hr|]. rewrite (reconstruct_single _ _ _ _ Ha) in Hr.
    by apply reconstruct_agent in Hr as (? & ? & _).
  - unfold reconstruct_for_session. fold (session_agents session fs). by rewrite Ha.
Qed.

Lemma session_agents_several session fs :
  (exists f g, f ∈ fs /\ g ∈ fs /\ f_session_id f = session /\ f_session_id g = session /\
               f_agent_id f <> f_agent_id g) <->
  exists a b l, session_agents session fs = a :: b :: l.
Proof.
  split.
  - intros (f & g & Hf & Hg & Hs & Hs' & Hne).
    assert (f_agent_id f ∈ session_agents session fs) as H1 by (apply session_agents_elem; by exists f).
    assert (f_agent_id g ∈ session_agents session fs) as H2 by (apply session_agents_elem; by exists g).
    destruct (session_agents session fs) as [|a [|b l]]; [set_solver|set_solver|by do 3 eexists].
  - intros (a & b & l & Hl).
    assert (NoDup (session_agents session fs)) as Hnd by apply NoDup_remove_dups.
    rewrite Hl in Hnd. apply NoDup_cons in Hnd as [Hab _].
    assert (a ∈ session_agents session fs) as H1 by (rewrite Hl; set_solver).
    assert (b ∈ session_agents session fs) as H2 by (rewrite Hl; set_solver).
    apply session_agents_elem in H1 as (f & ? & ? & ?), H2 as (g & ? & ? & ?).
    exists f, g. split_and!; [done..|]. set_solver.
Qed.

Lemma session_agents_none session fs :
  session_agents session fs = [] <-> forall f, f ∈ fs -> f_session_id f <> session.
Proof.
  split.
  - intros Hn f Hf Hs. assert (f_agent_id f ∈ session_agents session fs) as Hx
      by (apply session_agents_elem; by exists f). rewrite Hn in Hx. set_solver.
  - intros H. destruct (session_agents session fs) as [|a l] eqn:Ha; [done|].
    assert (a ∈ session_agents session fs) as Hx by (rewrite Ha; set_solver).
    apply session_agents_elem in Hx as (f & Hf & Hs & _). by apply H in Hf.
Qed.

(** An assessment exists exactly for the (session, agent) pairs that have findings: the
    collection lists each such pair once, in ascending order, with the score, level and
    count of exactly its findings, and the single-session query returns that very entry,
    [None] without evidence, and refuses a session with several agents and no agent named. *)
Theorem assessments_are_evidence_defined (now : Z) (fs : list Finding) (session : string) :
  (forall r, r ∈ reconstruct now fs <->
     exists k, in_group scope_of k fs <> [] /\ r = derive now k.1 k.2 (in_group scope_of k fs)) /\
  StronglySorted (fun k k' => str_pair_leb k k' = true /\ k <> k')
    ((fun r => (ra_session_id r, ra_agent_id r)) <$> reconstruct now fs) /\
  (forall agent r, reconstruct_for_session now fs session (Some agent) = Ok (Some r) <->
     r ∈ reconstruct now fs /\ ra_session_id r = session /\ ra_agent_id r = agent) /\
  (reconstruct_for_session now fs session None = Ok None <->
     forall f, f ∈ fs -> f_session_id f <> session) /\
  (reconstruct_for_session now fs session None = Err AmbiguousAssessmentScopeError <->
     exists f g, f ∈ fs /\ g ∈ fs /\ f_session_id f = session /\ f_session_id g = session /\
                 f_agent_id f <> f_agent_id g) /\
  (forall r, reconstruct_for_session now fs session None = Ok (Some r) ->
     r ∈ reconstruct now fs /\ ra_session_id r = session).
Proof.
  pose proof (reconstruct_unscoped now fs session) as Hu.
  pose proof (session_agents_none session fs) as Hn.
  pose proof (session_agents_several session fs) as Hm.
  split_and!.
  - apply reconstruct_elem.
  - rewrite reconstruct_scopes. apply StronglySorted_NoDup.
    + apply sort_by_sorted; [apply str_pair_leb_total|apply str_pair_leb_trans].
    + rewrite sort_by_perm. apply group_by_wf.
  - intros agent r. apply reconstruct_agent.
  - rewrite <- Hn. destruct (session_agents session fs) as [|a [|b l]]; [done| |by rewrite Hu].
    destruct Hu as (r & -> & _). done.
  - rewrite Hm. destruct (session_agents session fs) as [|a [|b l]].
    + rewrite Hu. naive_solver.
    + destruct Hu as (r & -> & _). naive_solver.
    + rewrite Hu. naive_solver.
  - intros r Hr. destruct (session_agents session fs) as [|a [|b l]];
      [congruence| |congruence]. destruct Hu as (r' & Hr' & ? & ?). rewrite Hr in Hr'. by simplify_eq.
Qed.

(** ** Witnesses *)

Definition demo_watermark : BaselineWatermark := mkWatermark "alice" (Some 0) 0 0.
Definition demo_evidence : list Finding :=
  [with_sequence 1 10 (sample_finding "f1" "s" "alice" "PROMPT_INJECTION" SEV_HIGH 10);
   with_sequence 2 20 (sample_finding "f2" "s" "alice" "CUSTOM" SEV_MEDIUM 20)].

Lemma incremental_matches_rebuild_witness :
  let s := ingest_all ((fun f => (30, f)) <$> demo_evidence)
             (aggregator_reset 5 demo_watermark (risk_run [] (new_aggregator None))).1 in
  get_posture 40 "alice" s =
    Ok (mkPosture "alice" HEALTHY 75 RISK_HIGH 2 (Some 0) 0 2 (mkSeverityCounts 0 1 1 0)
          {[ "PROMPT_INJECTION"%string := 1 ]} 4 30) /\
  exists p, get_posture 40 (wm_agent_id demo_watermark) s = Ok p /\
    (p_state p = STALE \/
     exists p', p_state p = HEALTHY /\
       (reconcile_agent 40 (wm_agent_id demo_watermark)
          (List.filter (fun f => f_evidence_sequence f <=? p_last_applied_sequence p) demo_evidence)
          demo_watermark s).2 = Ok p' /\
       p_state p' = HEALTHY /\ posture_content p' = posture_content p).
Proof.
  split; [by vm_compute|].
  apply (incremental_matches_rebuild [] None demo_evidence demo_watermark
           ((fun f => (30, f)) <$> demo_evidence) 5 40); [constructor| |].
  - apply (bool_decide_unpack _). by vm_compute.
  - apply (bool_decide_unpack _). by vm_compute.
Defined.

Lemma ingest_never_drops_evidence_witness :
  let s := risk_run [(5, RReset demo_watermark)] (new_aggregator None) in
  let f := with_sequence 3 20 (sample_finding "f3" "s" "alice" "CUSTOM" SEV_LOW 20) in
  exists p p', get_posture 30 "alice" s = Ok p /\
    get_posture 30 "alice" (ingest_finding 30 f s).1 = Ok p' /\
    (p_state p' = STALE \/ f_evidence_sequence f <= p_last_applied_sequence p') /\
    (p_state p = STALE -> p_state p' = STALE) /\
    p_last_applied_sequence p <= p_last_applied_sequence p' <= p_last_applied_sequence p + 1 /\
    p_risk_score p <= p_risk_score p' /\
    risk_rank (p_risk_level p) <= risk_rank (p_risk_level p').
Proof.
  apply (ingest_never_drops_evidence [(5, RReset demo_watermark)] None 30 30
    (with_sequence 3 20 (sample_finding "f3" "s" "alice" "CUSTOM" SEV_LOW 20)));
    [by repeat constructor|by vm_compute].
Defined.
