(* ===== verification/Sessions.v ===== *)
(** * Sessions (repositories/in_memory session repository, services/session_service.py)

    Session ownership, terminal tombstones and the behavioural event log.  Every repository
    method runs under the repository's lock and is one step; a service method is the
    sequence of repository steps its body makes.  Durations given in seconds as floats are
    microseconds here, the resolution of [datetime] arithmetic. *)

From S2P Require Import Prelude.
From S2P Require Import PyDict.
From S2P Require Import Models.
From S2P Require Import Findings.

Open Scope Z_scope.

(** ** Data (models/session.py, models/session_event.py, models/detection_retention.py) *)

Inductive TerminalReason := EXPLICIT_END | IDLE_TIMEOUT.

Record TerminalSessionTombstone := mkTombstone {
  t_session_id : string;
  t_agent_id : string;
  t_terminated_at : Z;
  t_terminal_reason : TerminalReason;
}.

Record Session := mkSession {
  s_session_id : string;
  s_agent_id : string;
  s_started_at : Z;
  s_last_activity_at : Z;
}.

Inductive AggregationScope := SCOPE_SESSION | SCOPE_AGENT.

#[global] Instance AggregationScope_eq_dec : EqDecision AggregationScope.
Proof. solve_decision. Defined.

Record HorizonQuery := mkQuery {
  q_agent_id : string;
  q_scope : AggregationScope;
  q_session_id : option string;
  q_window : Z;
  q_evaluation_time : Z;
  q_baseline_agent_sequence : Z;
}.

(** [validate_scope_parameters] and the field bounds. *)
Definition new_query (agent : string) (scope : AggregationScope) (session : option string)
    (window evaluation_time baseline : Z) : result HorizonQuery :=
  if (window <=? 0) || (baseline <? 0) then Err ValueError
  else
    match scope, session with
    | SCOPE_SESSION, None => Err ValueError
    | SCOPE_SESSION, Some s =>
        if str_nonempty s then Ok (mkQuery agent scope session window evaluation_time baseline)
        else Err ValueError
    | SCOPE_AGENT, Some _ => Err ValueError
    | SCOPE_AGENT, None => Ok (mkQuery agent scope session window evaluation_time baseline)
    end.

Record SessionEvent := mkEvent {
  e_session_id : string;
  e_agent_id : string;
  e_tool_id : string;
  e_tool_version : option string;
  e_decision : Decision;
  e_sequence_number : Z;
  e_agent_sequence : Z;
  e_final_decision : option Decision;
  e_timestamp : Z;
}.

(** [event.model_copy(update={"sequence_number": n, "agent_sequence": a})] *)
Definition with_positions (n a : Z) (e : SessionEvent) : SessionEvent :=
  mkEvent (e_session_id e) (e_agent_id e) (e_tool_id e) (e_tool_version e) (e_decision e)
    n a (e_final_decision e) (e_timestamp e).
(** [ev.final_decision = d] *)
Definition with_final (d : Decision) (e : SessionEvent) : SessionEvent :=
  mkEvent (e_session_id e) (e_agent_id e) (e_tool_id e) (e_tool_version e) (e_decision e)
    (e_sequence_number e) (e_agent_sequence e) (Some d) (e_timestamp e).
(** [session.last_activity_at = t] *)
Definition touch (t : Z) (s : Session) : Session :=
  mkSession (s_session_id s) (s_agent_id s) (s_started_at s) t.

Record DetectionRetentionPolicy := mkRetention {
  rp_retention_window : Z;
  rp_late_arrival_grace : Z;
}.

Definition total_retention (p : DetectionRetentionPolicy) : Z :=
  rp_retention_window p + rp_late_arrival_grace p.

(** ** Repository *)

Record SessionRepo := mkSessionRepo {
  sr_sessions : pydict string Session;
  sr_tombstones : gmap string TerminalSessionTombstone;
  sr_events : list SessionEvent;
  sr_session_sequences : gmap string Z;
  sr_agent_sequences : gmap string Z;
}.

Definition empty_session_repo : SessionRepo := mkSessionRepo [] ∅ [] ∅ ∅.

Definition set_sessions (d : pydict string Session) (r : SessionRepo) : SessionRepo :=
  mkSessionRepo d (sr_tombstones r) (sr_events r) (sr_session_sequences r) (sr_agent_sequences r).
Definition set_events (l : list SessionEvent) (r : SessionRepo) : SessionRepo :=
  mkSessionRepo (sr_sessions r) (sr_tombstones r) l (sr_session_sequences r) (sr_agent_sequences r).

Definition repo_get_session (sid : string) (r : SessionRepo) : option Session :=
  dget sid (sr_sessions r).
Definition repo_list_sessions (r : SessionRepo) : list Session := dvalues (sr_sessions r).
Definition repo_get_tombstone (sid : string) (r : SessionRepo) : option TerminalSessionTombstone :=
  sr_tombstones r !! sid.

Definition repo_save_session (s : Session) (r : SessionRepo) : SessionRepo :=
  set_sessions (dset (s_session_id s) s (sr_sessions r)) r.

Definition repo_create_session (s : Session) : Comp SessionRepo Session := fun r =>
  match sr_tombstones r !! s_session_id s with
  | Some t => (r, Err (SessionTerminalError (s_session_id s) (t_agent_id t) (s_agent_id s)))
  | None =>
      if dhas (s_session_id s) (sr_sessions r) then (r, Err SessionAlreadyExistsError)
      else (set_sessions (dset (s_session_id s) s (sr_sessions r)) r, Ok s)
  end.

Definition repo_bind_or_create_session (sid agent : string) (now : Z)
  : Comp SessionRepo Session := fun r =>
  match sr_tombstones r !! sid with
  | Some t => (r, Err (SessionTerminalError sid (t_agent_id t) agent))
  | None =>
      match dget sid (sr_sessions r) with
      | None =>
          let session := mkSession sid agent now now in
          (set_sessions (dset sid session (sr_sessions r)) r, Ok session)
      | Some existing =>
          if bool_decide (s_agent_id existing <> agent)
          then (r, Err (SessionBindingError sid (s_agent_id existing) agent))
          else
            let existing := touch now existing in
            (set_sessions (dset sid existing (sr_sessions r)) r, Ok existing)
      end
  end.

Definition repo_terminalize_session (sid : string) (t : TerminalSessionTombstone)
    (r : SessionRepo) : SessionRepo * bool :=
  if negb (dhas sid (sr_sessions r)) then (r, false)
  else if bool_decide (is_Some (sr_tombstones r !! sid)) then (r, false)
  else (mkSessionRepo (ddel sid (sr_sessions r)) (<[sid := t]> (sr_tombstones r)) (sr_events r)
          (sr_session_sequences r) (sr_agent_sequences r), true).

Definition repo_record_event (e : SessionEvent) : Comp SessionRepo SessionEvent := fun r =>
  match sr_tombstones r !! e_session_id e with
  | Some t => (r, Err (SessionTerminalError (e_session_id e) (t_agent_id t) (e_agent_id e)))
  | None =>
      match dget (e_session_id e) (sr_sessions r) with
      | None => (r, Err SessionNotFoundError)
      | Some active =>
          if bool_decide (s_agent_id active <> e_agent_id e)
          then (r, Err (SessionBindingError (e_session_id e) (s_agent_id active) (e_agent_id e)))
          else if negb (e_sequence_number e =? 0) then (r, Err ValueError)
          else if negb (e_agent_sequence e =? 0) then (r, Err ValueError)
          else
            let next_seq := default 0 (sr_session_sequences r !! e_session_id e) + 1 in
            let next_agent_seq := default 0 (sr_agent_sequences r !! e_agent_id e) + 1 in
            let persisted := with_positions next_seq next_agent_seq e in
            (mkSessionRepo
               (dset (e_session_id e) (touch (e_timestamp e) active) (sr_sessions r))
               (sr_tombstones r) (sr_events r ++ [persisted])
               (<[e_session_id e := next_seq]> (sr_session_sequences r))
               (<[e_agent_id e := next_agent_seq]> (sr_agent_sequences r)), Ok persisted)
      end
  end.

Definition eligible (q : HorizonQuery) (e : SessionEvent) : bool :=
  let cutoff := q_evaluation_time q - q_window q in
  bool_decide (e_agent_id e = q_agent_id q)
  && negb (bool_decide (q_scope q = SCOPE_SESSION)
           && bool_decide (Some (e_session_id e) <> q_session_id q))
  && negb (e_agent_sequence e <=? q_baseline_agent_sequence q)
  && negb ((e_timestamp e <? cutoff) || (q_evaluation_time q <? e_timestamp e)).

Definition position_leb (scope : AggregationScope) (e f : SessionEvent) : bool :=
  match scope with
  | SCOPE_AGENT => e_agent_sequence e <=? e_agent_sequence f
  | SCOPE_SESSION => e_sequence_number e <=? e_sequence_number f
  end.

Definition repo_list_eligible_events (q : HorizonQuery) (r : SessionRepo) : list SessionEvent :=
  sort_by (position_leb (q_scope q)) (List.filter (eligible q) (sr_events r)).

(** The key [(timestamp, sequence_number)] of a session's history. *)
Definition history_leb (e f : SessionEvent) : bool :=
  if e_timestamp e <? e_timestamp f then true
  else if e_timestamp f <? e_timestamp e then false
  else e_sequence_number e <=? e_sequence_number f.

Definition repo_list_events (sid : string) (r : SessionRepo) : list SessionEvent :=
  sort_by history_leb (List.filter (fun e => bool_decide (e_session_id e = sid)) (sr_events r)).

Definition repo_prune_events (cutoff : Z) (r : SessionRepo) : SessionRepo * Z :=
  let kept := List.filter (fun e => cutoff <=? e_timestamp e) (sr_events r) in
  (set_events kept r, Z.of_nat (length (sr_events r)) - Z.of_nat (length kept)).

Definition repo_current_agent_sequence (agent : string) (r : SessionRepo) : Z :=
  default 0 (sr_agent_sequences r !! agent).

Definition event_at (sid : string) (n : Z) (e : SessionEvent) : bool :=
  bool_decide (e_session_id e = sid) && (e_sequence_number e =? n).

(** The loop of [update_event_final_decision]: the first event at the position. *)
Fixpoint finalize_first (sid : string) (n : Z) (d : Decision) (l : list SessionEvent)
  : result (list SessionEvent) :=
  match l with
  | [] => Err ValueError
  | e :: l =>
      if event_at sid n e then
        if bool_decide (e_final_decision e <> None) && bool_decide (e_final_decision e <> Some d)
        then Err ValueError
        else Ok (with_final d e :: l)
      else l' ← finalize_first sid n d l; mret (e :: l')
  end.

Definition repo_update_final_decision (sid : string) (n : Z) (d : Decision)
  : Comp SessionRepo unit := fun r =>
  match sr_tombstones r !! sid with
  | Some t => (r, Err (SessionTerminalError sid (t_agent_id t) (t_agent_id t)))
  | None =>
      if negb (dhas sid (sr_sessions r)) then (r, Err SessionNotFoundError)
      else
        match finalize_first sid n d (sr_events r) with
        | Ok l => (set_events l r, Ok tt)
        | Err e => (r, Err e)
        end
  end.

(** ** Service *)

Definition create_session (s : Session) : Comp SessionRepo Session := repo_create_session s.

Definition get_session (sid : string) (r : SessionRepo) : result Session :=
  of_option SessionNotFoundError (repo_get_session sid r).

Definition bind_or_validate (sid agent : string) (now : Z) : Comp SessionRepo Session :=
  repo_bind_or_create_session sid agent now.

(** The tail of [end_session]: write the tombstone, re-check when that failed. *)
Definition end_session_commit (sid agent : string) (now : Z) : Comp SessionRepo unit := fun r =>
  match repo_terminalize_session sid (mkTombstone sid agent now EXPLICIT_END) r with
  | (r, true) => (r, Ok tt)
  | (r, false) =>
      match repo_get_tombstone sid r with
      | Some t =>
          if bool_decide (t_agent_id t <> agent)
          then (r, Err (SessionBindingError sid (t_agent_id t) agent))
          else (r, Ok tt)
      | None => (r, Err SessionNotFoundError)
      end
  end.

Definition end_session (sid agent : string) (now : Z) : Comp SessionRepo unit := fun r =>
  match repo_get_tombstone sid r with
  | Some t =>
      if bool_decide (t_agent_id t <> agent)
      then (r, Err (SessionBindingError sid (t_agent_id t) agent))
      else (r, Ok tt)
  | None =>
      match repo_get_session sid r with
      | None => (r, Err SessionNotFoundError)
      | Some existing =>
          if bool_decide (s_agent_id existing <> agent)
          then (r, Err (SessionBindingError sid (s_agent_id existing) agent))
          else end_session_commit sid agent now r
      end
  end.

Fixpoint expire_each (threshold now : Z) (l : list Session) (r : SessionRepo)
  : SessionRepo * list string :=
  match l with
  | [] => (r, [])
  | s :: l =>
      if threshold <=? now - s_last_activity_at s then
        let '(r, done) := repo_terminalize_session (s_session_id s)
                            (mkTombstone (s_session_id s) (s_agent_id s) now IDLE_TIMEOUT) r in
        let '(r, expired) := expire_each threshold now l r in
        (r, if done then s_session_id s :: expired else expired)
      else expire_each threshold now l r
  end.

Definition expire_idle_sessions (threshold now : Z) : Comp SessionRepo (list string) := fun r =>
  if threshold <=? 0 then (r, Err ValueError)
  else let '(r, expired) := expire_each threshold now (repo_list_sessions r) r in (r, Ok expired).

Definition session_is_terminal (sid : string) (r : SessionRepo) : bool :=
  bool_decide (is_Some (repo_get_tombstone sid r)).

Definition prune_expired (policy : option DetectionRetentionPolicy) (now : Z) (r : SessionRepo)
  : SessionRepo * Z :=
  match policy with
  | None => (r, 0)
  | Some p => repo_prune_events (now - total_retention p) r
  end.

Definition record_event (policy : option DetectionRetentionPolicy) (e : SessionEvent)
  : Comp SessionRepo SessionEvent := fun r =>
  match repo_record_event e r with
  | (r, Ok recorded) => ((prune_expired policy (e_timestamp recorded) r).1, Ok recorded)
  | (r, Err x) => (r, Err x)
  end.

Definition current_agent_sequence (agent : string) (r : SessionRepo) : Z :=
  repo_current_agent_sequence agent r.
Definition list_events (sid : string) (r : SessionRepo) : list SessionEvent :=
  repo_list_events sid r.
Definition list_eligible_events (q : HorizonQuery) (r : SessionRepo) : list SessionEvent :=
  repo_list_eligible_events q r.
Definition update_event_final_decision (sid : string) (n : Z) (d : Decision)
  : Comp SessionRepo unit := repo_update_final_decision sid n d.

(** ** Histories of service calls *)

Inductive SessionCall :=
| SCreate (s : Session)
| SBind (sid agent : string) (now : Z)
| SEnd (sid agent : string) (now : Z)
| SExpire (threshold now : Z)
| SRecord (e : SessionEvent)
| SPrune (now : Z)
| SFinalize (sid : string) (n : Z) (d : Decision).

Definition session_step (policy : option DetectionRetentionPolicy) (c : SessionCall)
    (r : SessionRepo) : SessionRepo :=
  match c with
  | SCreate s => (create_session s r).1
  | SBind sid agent now => (bind_or_validate sid agent now r).1
  | SEnd sid agent now => (end_session sid agent now r).1
  | SExpire threshold now => (expire_idle_sessions threshold now r).1
  | SRecord e => (record_event policy e r).1
  | SPrune now => (prune_expired policy now r).1
  | SFinalize sid n d => (update_event_final_decision sid n d r).1
  end.

Definition session_run (policy : option DetectionRetentionPolicy) (h : list SessionCall)
    (r : SessionRepo) : SessionRepo := foldl (fun r c => session_step policy c r) r h.

(** ** Ownership *)

(** The agent a session identifier belongs to, active or terminal. *)
Definition owner_of (sid : string) (r : SessionRepo) : option string :=
  match sr_tombstones r !! sid with
  | Some t => Some (t_agent_id t)
  | None => s_agent_id <$> dget sid (sr_sessions r)
  end.

Record sr_inv (r : SessionRepo) : Prop := {
  si_wf : dwf (sr_sessions r);
  si_key : forall k s, dget k (sr_sessions r) = Some s -> s_session_id s = k;
  si_disjoint : forall k, is_Some (sr_tombstones r !! k) -> dget k (sr_sessions r) = None;
  si_owned : forall e, e ∈ sr_events r -> owner_of (e_session_id e) r = Some (e_agent_id e);
  si_session_pos : forall e, e ∈ sr_events r ->
    1 <= e_sequence_number e <= default 0 (sr_session_sequences r !! e_session_id e);
  si_agent_pos : forall e, e ∈ sr_events r ->
    1 <= e_agent_sequence e <= default 0 (sr_agent_sequences r !! e_agent_id e);
  si_counters : forall k, 0 <= default 0 (sr_session_sequences r !! k) /\
                          0 <= default 0 (sr_agent_sequences r !! k);
  si_session_order : StronglySorted (fun e f => e_session_id e = e_session_id f ->
    e_sequence_number e < e_sequence_number f) (sr_events r);
  si_agent_order : StronglySorted (fun e f => e_agent_id e = e_agent_id f ->
    e_agent_sequence e < e_agent_sequence f) (sr_events r);
}.

(** What every step keeps: owners, tombstones and counters never go back. *)
Record extends (r r' : SessionRepo) : Prop := {
  ex_owner : forall k a, owner_of k r = Some a -> owner_of k r' = Some a;
  ex_tomb : forall k t, sr_tombstones r !! k = Some t -> sr_tombstones r' !! k = Some t;
  ex_counter : forall a, current_agent_sequence a r <= current_agent_sequence a r';
}.

Lemma extends_refl r : extends r r.
Proof. split; auto. intros; lia. Qed.

Lemma extends_trans r1 r2 r3 : extends r1 r2 -> extends r2 r3 -> extends r1 r3.
Proof. intros [A1 A2 A3] [B1 B2 B3]. split; auto. intros a. specialize (A3 a). specialize (B3 a). lia. Qed.

#[local] Hint Resolve extends_refl : core.

(** An event without its final decision, which alone may change after recording. *)
Definition position (e : SessionEvent) : string * string * Z * Z * Z :=
  (e_session_id e, e_agent_id e, e_sequence_number e, e_agent_sequence e, e_timestamp e).

(** Two logs with the same positions satisfy the same order and ownership facts. *)
Lemma StronglySorted_position (R : string * string * Z * Z * Z -> string * string * Z * Z * Z -> Prop) l l' :
  position <$> l = position <$> l' ->
  StronglySorted (fun e f => R (position e) (position f)) l ->
  StronglySorted (fun e f => R (position e) (position f)) l'.
Proof.
  revert l'. induction l as [|e l IH]; intros [|e' l'] He Hs; try done.
  change (position e :: (position <$> l) = position e' :: (position <$> l')) in He.
  apply (inj2 cons) in He as [Hp Hl]. apply StronglySorted_inv in Hs as [Hs Hall]. constructor; [by apply IH|].
  rewrite Forall_forall in Hall |- *. intros f Hf.
  assert (position f ∈ position <$> l) as Hin by (rewrite Hl; apply list_elem_of_fmap; by exists f).
  apply list_elem_of_fmap in Hin as (g & Hg & Hin). rewrite Hg.
  rewrite <- Hp. by apply Hall.
Qed.

Definition sess_lt (p q : string * string * Z * Z * Z) : Prop :=
  p.1.1.1.1 = q.1.1.1.1 -> p.1.1.2 < q.1.1.2.
Definition agent_lt (p q : string * string * Z * Z * Z) : Prop :=
  p.1.1.1.2 = q.1.1.1.2 -> p.1.2 < q.1.2.

Lemma set_events_inv l r :
  sr_inv r -> position <$> l = position <$> sr_events r -> sr_inv (set_events l r).
Proof.
  intros [H1 H2 H3 H4 H5 H6 H7 H8 H9] Hl.
  assert (forall e, e ∈ l -> exists f, f ∈ sr_events r /\ position e = position f) as Hex.
  { intros e He. assert (position e ∈ position <$> sr_events r) as Hin
      by (rewrite <- Hl; apply list_elem_of_fmap; by exists e).
    apply list_elem_of_fmap in Hin as (f & ? & ?). by exists f. }
  split; simpl; try done.
  - intros e (f & Hf & Hp)%Hex. injection Hp as P1 P2 P3 P4 P5. rewrite P1, P2. by apply H4.
  - intros e (f & Hf & Hp)%Hex. injection Hp as P1 P2 P3 P4 P5. rewrite P1, P3. by apply H5.
  - intros e (f & Hf & Hp)%Hex. injection Hp as P1 P2 P3 P4 P5. rewrite P2, P4. by apply H6.
  - by apply (StronglySorted_position sess_lt (sr_events r)).
  - by apply (StronglySorted_position agent_lt (sr_events r)).
Qed.

Lemma filter_events_inv (p : SessionEvent -> bool) r :
  sr_inv r -> sr_inv (set_events (List.filter p (sr_events r)) r).
Proof.
  intros [H1 H2 H3 H4 H5 H6 H7 H8 H9].
  split; simpl; [done|done|done| | | |done|by apply StronglySorted_filter|by apply StronglySorted_filter];
    intros e [He _]%filter_elem; [by apply H4|by apply H5|by apply H6].
Qed.

Lemma filter_events_extends l r : extends r (set_events l r).
Proof. by split. Qed.

(** Adding a session, or touching one: the owner of every identifier is kept. *)
Lemma put_session_inv sid s r :
  sr_inv r -> sr_tombstones r !! sid = None -> s_session_id s = sid ->
  (forall s0, dget sid (sr_sessions r) = Some s0 -> s_agent_id s = s_agent_id s0) ->
  sr_inv (set_sessions (dset sid s (sr_sessions r)) r) /\
  extends r (set_sessions (dset sid s (sr_sessions r)) r).
Proof.
  intros [H1 H2 H3 H4 H5 H6 H7 H8 H9] Ht Hid Hown.
  assert (extends r (set_sessions (dset sid s (sr_sessions r)) r)) as Hx.
  { split; [|done|done]. intros k a. unfold owner_of; simpl.
    destruct (sr_tombstones r !! k) as [t|]; [done|]. rewrite dget_dset.
    case_decide as Hk; [|done]. rewrite Hk.
    destruct (dget sid (sr_sessions r)) as [s0|] eqn:Hs; [|done].
    simpl. rewrite (Hown s0); done. }
  split; [|done]. split; simpl; try done.
  - by apply dset_wf.
  - intros k x. rewrite dget_dset. case_decide; intros ?; simplify_eq; auto.
  - intros k Hk. rewrite dget_dset, decide_False; [auto|]. intros ->. rewrite Ht in Hk. by destruct Hk.
  - intros e He. apply Hx. by apply H4.
Qed.

Lemma terminalize_inv sid t r :
  sr_inv r -> (forall s, dget sid (sr_sessions r) = Some s -> t_agent_id t = s_agent_id s) ->
  sr_inv (repo_terminalize_session sid t r).1 /\ extends r (repo_terminalize_session sid t r).1.
Proof.
  intros Hi Ht. unfold repo_terminalize_session.
  destruct (dhas sid (sr_sessions r)) eqn:Hh; simpl; [|done].
  case_bool_decide as Hn; simpl; [done|]. apply eq_None_not_Some in Hn.
  apply dhas_true in Hh as [s Hs]. specialize (Ht s Hs).
  set (r' := mkSessionRepo _ _ _ _ _).
  assert (forall k a, owner_of k r = Some a -> owner_of k r' = Some a) as Ho.
  { intros k a. unfold owner_of, r'; simpl. destruct (decide (k = sid)) as [->|Hne].
    - rewrite Hn, Hs, lookup_insert_eq. simpl. congruence.
    - rewrite lookup_insert_ne by done. destruct (sr_tombstones r !! k); [done|].
      by rewrite dget_ddel, decide_False. }
  destruct Hi as [H1 H2 H3 H4 H5 H6 H7 H8 H9]. split.
  - split; simpl; try done.
    + by apply ddel_wf.
    + intros k x. rewrite dget_ddel. case_decide; [done|]. apply H2.
    + intros k Hk. rewrite dget_ddel. case_decide; [done|].
      rewrite lookup_insert_ne in Hk by done. by apply H3.
    + intros e He. by apply Ho, H4.
  - split; [done| |done]. intros k t' Hk. simpl. rewrite lookup_insert_ne; [done|].
    intros ->. congruence.
Qed.

(** Appending an event at the next positions of its session and agent. *)
Definition append_event (e : SessionEvent) (r : SessionRepo) : SessionRepo :=
  let n := default 0 (sr_session_sequences r !! e_session_id e) + 1 in
  let a := default 0 (sr_agent_sequences r !! e_agent_id e) + 1 in
  mkSessionRepo (sr_sessions r) (sr_tombstones r) (sr_events r ++ [with_positions n a e])
    (<[e_session_id e := n]> (sr_session_sequences r))
    (<[e_agent_id e := a]> (sr_agent_sequences r)).

Lemma default_insert (k k' : string) (n : Z) (m : gmap string Z) :
  default 0 (<[k := n]> m !! k') = if decide (k' = k) then n else default 0 (m !! k').
Proof. case_decide as H; subst; by rewrite ?lookup_insert_eq, ?lookup_insert_ne. Qed.

Lemma append_event_inv e r :
  sr_inv r -> owner_of (e_session_id e) r = Some (e_agent_id e) ->
  sr_inv (append_event e r) /\ extends r (append_event e r).
Proof.
  intros [H1 H2 H3 H4 H5 H6 H7 H8 H9] Hown.
  pose proof (H7 (e_session_id e)) as [Hs _]. pose proof (H7 (e_agent_id e)) as [_ Ha]. split.
  - split; simpl; try done.
    + intros f [Hf|Hf%list_elem_of_singleton]%elem_of_app; [by apply H4|by subst].
    + intros f [Hf|Hf%list_elem_of_singleton]%elem_of_app; rewrite default_insert.
      * specialize (H5 f Hf). case_decide as He; [rewrite He in H5|]; lia.
      * subst f; simpl. rewrite decide_True by done. lia.
    + intros f [Hf|Hf%list_elem_of_singleton]%elem_of_app; rewrite default_insert.
      * specialize (H6 f Hf). case_decide as He; [rewrite He in H6|]; lia.
      * subst f; simpl. rewrite decide_True by done. lia.
    + intros k. rewrite !default_insert. specialize (H7 k). repeat case_decide; lia.
    + apply StronglySorted_snoc; [done|]. intros f Hf Hff. simpl in *. specialize (H5 f Hf).
      rewrite Hff in H5. lia.
    + apply StronglySorted_snoc; [done|]. intros f Hf Hff. simpl in *. specialize (H6 f Hf).
      rewrite Hff in H6. lia.
  - split; [done|done|]. intros a. unfold current_agent_sequence, repo_current_agent_sequence; simpl.
    rewrite default_insert. case_decide as He; [subst; lia|lia].
Qed.

(** Recording is touching the session, then appending. *)
Lemma record_event_repo e r :
  match repo_record_event e r with
  | (r', Ok p) => exists s,
      sr_tombstones r !! e_session_id e = None /\ dget (e_session_id e) (sr_sessions r) = Some s /\
      s_agent_id s = e_agent_id e /\
      r' = append_event e (set_sessions (dset (e_session_id e) (touch (e_timestamp e) s)
                                           (sr_sessions r)) r) /\
      sr_events r' = sr_events r ++ [p] /\ position p = position (with_positions
        (default 0 (sr_session_sequences r !! e_session_id e) + 1)
        (current_agent_sequence (e_agent_id e) r + 1) e)
  | (r', Err _) => r' = r
  end.
Proof.
  unfold repo_record_event. destruct (sr_tombstones r !! _) eqn:Ht; [done|].
  destruct (dget (e_session_id e) _) as [s|] eqn:Hs; [|done].
  case_bool_decide as Ha; [done|].
  destruct (negb (e_sequence_number e =? 0)); [done|].
  destruct (negb (e_agent_sequence e =? 0)); [done|].
  exists s. by split_and!.
Qed.

Lemma repo_record_event_inv e r :
  sr_inv r -> sr_inv (repo_record_event e r).1 /\ extends r (repo_record_event e r).1.
Proof.
  intros Hi. pose proof (record_event_repo e r) as He.
  destruct (repo_record_event e r) as [r' [p|x]]; simpl; [|by subst].
  destruct He as (s & Ht & Hs & Ha & -> & _).
  destruct (put_session_inv (e_session_id e) (touch (e_timestamp e) s) r) as [Hp Hx]; [done|done| | |].
  - exact (si_key _ Hi _ _ Hs).
  - intros s0 Hs0. rewrite Hs in Hs0. by simplify_eq.
  - destruct (append_event_inv e (set_sessions (dset (e_session_id e) (touch (e_timestamp e) s)
      (sr_sessions r)) r) Hp) as [H1 H2].
    + unfold owner_of; simpl. by rewrite Ht, dget_dset_eq, <- Ha.
    + split; [done|]. by eapply extends_trans.
Qed.

Lemma prune_expired_inv policy now r :
  sr_inv r -> sr_inv (prune_expired policy now r).1 /\ extends r (prune_expired policy now r).1.
Proof.
  intros Hi. destruct policy as [p|]; simpl; [|done].
  split; [by apply filter_events_inv|apply filter_events_extends].
Qed.

Lemma finalize_positions sid n d l l' :
  finalize_first sid n d l = Ok l' -> position <$> l' = position <$> l.
Proof.
  revert l'. induction l as [|e l IH]; intros l'; cbn [finalize_first]; [done|].
  destruct (event_at sid n e).
  - case_match; [done|]. intros ?; by simplify_eq.
  - destruct (finalize_first sid n d l) as [l1|]; [|done].
    cbv [mbind result_bind mret result_ret]. intros ?; simplify_eq. csimpl. by rewrite (IH l1).
Qed.

Lemma expire_each_inv threshold now l r :
  sr_inv r -> (forall s s', s ∈ l -> dget (s_session_id s) (sr_sessions r) = Some s' ->
                 s_agent_id s = s_agent_id s') ->
  sr_inv (expire_each threshold now l r).1 /\ extends r (expire_each threshold now l r).1.
Proof.
  revert r. induction l as [|s l IH]; intros r Hi Hl; cbn [expire_each]; [done|].
  destruct (threshold <=? now - s_last_activity_at s); [|apply IH; [done|set_solver]].
  set (t := mkTombstone _ _ _ _).
  destruct (terminalize_inv (s_session_id s) t r Hi) as [H1 H2].
  { intros s' Hs'. simpl. apply Hl; [set_solver|done]. }
  pose proof (IH (repo_terminalize_session (s_session_id s) t r).1 H1) as H3.
  assert (forall k x, dget k (sr_sessions (repo_terminalize_session (s_session_id s) t r).1) = Some x ->
            dget k (sr_sessions r) = Some x) as Hsub.
  { intros k x. unfold repo_terminalize_session. repeat case_match; simpl; try done.
    rewrite dget_ddel. by case_decide. }
  destruct (repo_terminalize_session _ _ r) as [r1 b]; simpl in *.
  destruct H3 as [H3 H4].
  { intros x x' Hx Hx'. apply Hl; [set_solver|]. by apply Hsub. }
  destruct (expire_each threshold now l r1) as [r2 ids]. simpl in *.
  split; [done|]. by eapply extends_trans.
Qed.

Lemma end_session_commit_inv sid agent now r :
  sr_inv r -> (forall s, dget sid (sr_sessions r) = Some s -> agent = s_agent_id s) ->
  sr_inv (end_session_commit sid agent now r).1 /\ extends r (end_session_commit sid agent now r).1.
Proof.
  intros Hi Ha. unfold end_session_commit.
  pose proof (terminalize_inv sid (mkTombstone sid agent now EXPLICIT_END) r Hi Ha) as [H1 H2].
  destruct (repo_terminalize_session _ _ r) as [r1 [|]]; simpl in *; [done|].
  destruct (repo_get_tombstone sid r1); [by case_bool_decide|done].
Qed.

Lemma session_step_inv policy c r :
  sr_inv r -> sr_inv (session_step policy c r) /\ extends r (session_step policy c r).
Proof.
  intros Hi. destruct c as [s|sid agent now|sid agent now|threshold now|e|now|sid n d]; simpl.
  - unfold create_session, repo_create_session. destruct (sr_tombstones r !! _) eqn:Ht; [done|].
    destruct (dhas _ _) eqn:Hh; [done|]. apply dhas_false in Hh. apply put_session_inv; try done.
    by rewrite Hh.
  - unfold bind_or_validate, repo_bind_or_create_session.
    destruct (sr_tombstones r !! _) eqn:Ht; [done|].
    destruct (dget sid _) as [s|] eqn:Hs; [case_bool_decide; [done|]|]; apply put_session_inv; try done.
    + exact (si_key _ Hi _ _ Hs).
    + intros s0. rewrite Hs. intros ?; by simplify_eq.
    + by rewrite Hs.
  - unfold end_session. destruct (repo_get_tombstone sid r); [by case_bool_decide|].
    destruct (repo_get_session sid r) as [s|] eqn:Hs; [|done].
    case_bool_decide as Ha; [done|]. apply end_session_commit_inv; [done|].
    unfold repo_get_session in Hs. intros s0 Hs0. rewrite Hs in Hs0. injection Hs0 as <-.
    by destruct (decide (s_agent_id s = agent)).
  - unfold expire_idle_sessions. case_match; [done|].
    pose proof (expire_each_inv threshold now (repo_list_sessions r) r Hi) as H1.
    destruct (expire_each _ _ _ _) as [r1 ids]. simpl in *. apply H1.
    intros s s' Hs Hs'. apply values_dget in Hs as [k Hs]; [|apply Hi].
    rewrite (si_key _ Hi _ _ Hs) in Hs'. by simplify_eq.
  - unfold record_event. pose proof (repo_record_event_inv e r Hi) as [H1 H2].
    destruct (repo_record_event e r) as [r1 [p|x]]; simpl in *; [|done].
    destruct (prune_expired_inv policy (e_timestamp p) r1 H1) as [H3 H4].
    split; [done|]. by eapply extends_trans.
  - by apply prune_expired_inv.
  - unfold update_event_final_decision, repo_update_final_decision.
    destruct (sr_tombstones r !! sid); [done|]. case_match; [done|].
    destruct (finalize_first sid n d (sr_events r)) as [l|x] eqn:Hf; simpl; [|done].
    split; [|by split]. apply set_events_inv; [done|]. by apply finalize_positions in Hf.
Qed.

Lemma empty_repo_inv : sr_inv empty_session_repo.
Proof.
  split; simpl; try done; try set_solver; try constructor.
  all: intros; rewrite ?lookup_empty in *; try done; by destruct H.
Qed.

Lemma session_run_inv policy h r :
  sr_inv r -> sr_inv (session_run policy h r) /\ extends r (session_run policy h r).
Proof.
  revert r. induction h as [|c h IH]; intros r Hi; [done|].
  destruct (session_step_inv policy c r Hi) as [H1 H2].
  destruct (IH (session_step policy c r) H1) as [H3 H4]. split; [done|]. by eapply extends_trans.
Qed.

(** Ownership is established once and is final.  After any history of service calls, in
    every later state: a session identifier keeps its owner; a terminal identifier keeps
    its tombstone, has no active session and refuses every binding and every event; an
    agent other than the owner can neither bind, end, nor record into the session, and
    leaves the state unchanged trying; every retained event names its session's owner. *)
Theorem session_ownership_is_final (policy : option DetectionRetentionPolicy)
    (h h' : list SessionCall) :
  let r := session_run policy h empty_session_repo in
  let r' := session_run policy h' r in
  (forall sid a, owner_of sid r = Some a -> owner_of sid r' = Some a) /\
  (forall sid t, repo_get_tombstone sid r = Some t ->
     repo_get_tombstone sid r' = Some t /\ get_session sid r' = Err SessionNotFoundError /\
     (forall agent now, bind_or_validate sid agent now r' =
                        (r', Err (SessionTerminalError sid (t_agent_id t) agent))) /\
     (forall e, e_session_id e = sid -> record_event policy e r' =
                        (r', Err (SessionTerminalError sid (t_agent_id t) (e_agent_id e))))) /\
  (forall sid a b now, owner_of sid r = Some a -> b <> a ->
     (exists x, bind_or_validate sid b now r' = (r', Err x)) /\
     (exists x, end_session sid b now r' = (r', Err x)) /\
     (forall e, e_session_id e = sid -> e_agent_id e = b ->
        exists x, record_event policy e r' = (r', Err x))) /\
  (forall e, e ∈ sr_events r' -> owner_of (e_session_id e) r' = Some (e_agent_id e)).
Proof.
  intros r r'. destruct (session_run_inv policy h empty_session_repo empty_repo_inv) as [Hr _].
  destruct (session_run_inv policy h' r Hr) as [Hr' Hx]. fold r' in Hr', Hx.
  split_and!; [apply Hx| | |apply Hr'].
  - intros sid t Ht. pose proof (ex_tomb _ _ Hx _ _ Ht) as Ht'.
    split_and!; [done| | |].
    + unfold get_session, repo_get_session. by rewrite (si_disjoint _ Hr') by (by rewrite Ht').
    + intros agent now. unfold bind_or_validate, repo_bind_or_create_session. by rewrite Ht'.
    + intros e <-. unfold record_event, repo_record_event. by rewrite Ht'.
  - intros sid a b now Ha Hb. apply (ex_owner _ _ Hx) in Ha. unfold owner_of in Ha.
    unfold bind_or_validate, end_session, record_event, repo_bind_or_create_session,
      repo_record_event, repo_get_tombstone, repo_get_session.
    destruct (sr_tombstones r' !! sid) as [t|] eqn:Ht.
    + simplify_eq. split_and!; [by eexists|by rewrite bool_decide_true by done; eexists|].
      intros e <- _. rewrite Ht. by eexists.
    + destruct (dget sid (sr_sessions r')) as [s|] eqn:Hs; [|done]. simpl in Ha. injection Ha as Ha.
      split_and!; [by rewrite bool_decide_true by congruence; eexists..|].
      intros e <- He. rewrite Ht, Hs, bool_decide_true by congruence. by eexists.
Qed.

(** ** Positions *)

(** The events a history of calls accepted, as returned to the caller. *)
Fixpoint recorded (policy : option DetectionRetentionPolicy) (h : list SessionCall)
    (r : SessionRepo) : list SessionEvent :=
  match h with
  | [] => []
  | c :: h =>
      match c with
      | SRecord e => match (record_event policy e r).2 with Ok p => [p] | Err _ => [] end
      | _ => []
      end ++ recorded policy h (session_step policy c r)
  end.

Lemma prune_expired_events policy now r e :
  e ∈ sr_events (prune_expired policy now r).1 -> e ∈ sr_events r.
Proof. destruct policy as [p|]; simpl; [|done]. by intros [? _]%filter_elem. Qed.

Lemma terminalize_events sid t r : sr_events (repo_terminalize_session sid t r).1 = sr_events r.
Proof. unfold repo_terminalize_session. by repeat case_match. Qed.

Lemma expire_each_events threshold now l r :
  sr_events (expire_each threshold now l r).1 = sr_events r.
Proof.
  revert r. induction l as [|s l IH]; intros r; cbn [expire_each]; [done|].
  case_match; [|done].
  pose proof (terminalize_events (s_session_id s)
    (mkTombstone (s_session_id s) (s_agent_id s) now IDLE_TIMEOUT) r) as Ht.
  destruct (repo_terminalize_session _ _ r) as [r1 b]. specialize (IH r1).
  destruct (expire_each threshold now l r1). simpl in *. congruence.
Qed.

Lemma end_session_events sid agent now r : sr_events (end_session sid agent now r).1 = sr_events r.
Proof.
  unfold end_session, end_session_commit.
  destruct (repo_get_tombstone sid r); [by case_bool_decide|].
  destruct (repo_get_session sid r); [|done]. case_bool_decide; [done|].
  pose proof (terminalize_events sid (mkTombstone sid agent now EXPLICIT_END) r) as Ht.
  destruct (repo_terminalize_session _ _ r) as [r1 [|]]; simpl in *; [done|].
  destruct (repo_get_tombstone sid r1); [by case_bool_decide|done].
Qed.

(** A step keeps or drops events, finalises one, or appends the one it records. *)
Lemma session_step_events policy c r e :
  e ∈ sr_events (session_step policy c r) ->
  position e ∈ position <$> sr_events r \/ position e ∈ position <$> recorded policy [c] r.
Proof.
  assert (e ∈ sr_events r -> position e ∈ position <$> sr_events r) as Hin
    by (intros; apply list_elem_of_fmap; by exists e).
  destruct c as [s|sid agent now|sid agent now|threshold now|x|now|sid n d]; simpl; intros He.
  - left. apply Hin. unfold create_session, repo_create_session in He. by repeat case_match.
  - left. apply Hin. unfold bind_or_validate, repo_bind_or_create_session in He. by repeat case_match.
  - left. apply Hin. by rewrite end_session_events in He.
  - left. apply Hin. unfold expire_idle_sessions in He. case_match; [done|].
    pose proof (expire_each_events threshold now (repo_list_sessions r) r) as Hx.
    destruct (expire_each _ _ _ _). simpl in *. by rewrite <- Hx.
  - unfold record_event in *. pose proof (record_event_repo x r) as Hx.
    destruct (repo_record_event x r) as [r1 [p|y]]; simpl in *; [|subst; by left; apply Hin].
    destruct Hx as (s & _ & _ & _ & _ & Hev & _). apply prune_expired_events in He.
    rewrite Hev in He. apply elem_of_app in He as [He|He%list_elem_of_singleton]; [left; by apply Hin|].
    right. subst. csimpl. set_solver.
  - left. apply Hin. by eapply prune_expired_events.
  - left. unfold update_event_final_decision, repo_update_final_decision in He.
    destruct (sr_tombstones r !! sid); [by apply Hin|]. case_match; [by apply Hin|].
    destruct (finalize_first sid n d (sr_events r)) as [l|y] eqn:Hf; [|by apply Hin]. simpl in He.
    apply finalize_positions in Hf. rewrite <- Hf. apply list_elem_of_fmap. by exists e.
Qed.

Lemma session_run_events policy h r e :
  e ∈ sr_events (session_run policy h r) ->
  position e ∈ position <$> sr_events r \/ position e ∈ position <$> recorded policy h r.
Proof.
  revert r. induction h as [|c h IH]; intros r He; [left; apply list_elem_of_fmap; by exists e|].
  apply IH in He as [He|He].
  - apply list_elem_of_fmap in He as (f & Hp & Hf). rewrite Hp.
    apply session_step_events in Hf as [Hf|Hf]; [by left|right].
    cbn [recorded] in Hf |- *. rewrite app_nil_r in Hf. rewrite fmap_app. apply elem_of_app. by left.
  - right. cbn [recorded]. rewrite fmap_app. apply elem_of_app. by right.
Qed.

Lemma recorded_after policy h r p :
  sr_inv r -> p ∈ recorded policy h r ->
  current_agent_sequence (e_agent_id p) r < e_agent_sequence p.
Proof.
  revert r. induction h as [|c h IH]; intros r Hi Hp; [set_solver|].
  destruct (session_step_inv policy c r Hi) as [Hi' Hx].
  cbn [recorded] in Hp. apply elem_of_app in Hp as [Hp|Hp].
  - destruct c as [s|sid agent now|sid agent now|threshold now|x|now|sid n d]; try set_solver.
    unfold record_event in Hp. pose proof (record_event_repo x r) as He.
    destruct (repo_record_event x r) as [r1 [q|y]]; simpl in Hp; [|set_solver].
    apply list_elem_of_singleton in Hp. subst q.
    destruct He as (s & _ & _ & _ & _ & _ & Hpos). injection Hpos as P1 P2 P3 P4 P5.
    rewrite P2, P4. simpl. lia.
  - pose proof (ex_counter _ _ Hx (e_agent_id p)). pose proof (IH _ Hi' Hp). lia.
Qed.

Lemma StronglySorted_lt_NoDup {A} (g : A -> Z) l :
  StronglySorted (fun e f => g e < g f) l -> NoDup (g <$> l).
Proof.
  induction 1 as [|e l Hs IH Hall]; csimpl; [constructor|]. apply NoDup_cons. split; [|done].
  rewrite Forall_forall in Hall. intros (f & Hf & Hin)%list_elem_of_fmap. specialize (Hall f Hin). lia.
Qed.

(** Event positions serve as watermarks.  After any history no two retained events of
    an agent share an agent position and no two of a session share a session position; and
    for a position captured at any moment, the agent's later retained events above it are
    exactly those recorded after that moment, whatever was pruned or finalised. *)
Theorem agent_watermark_separates_events (policy : option DetectionRetentionPolicy)
    (h h' : list SessionCall) (agent sid : string) :
  let r := session_run policy h empty_session_repo in
  let r' := session_run policy h' r in
  NoDup (e_agent_sequence <$> in_group e_agent_id agent (sr_events r')) /\
  NoDup (e_sequence_number <$> in_group e_session_id sid (sr_events r')) /\
  (forall e, e ∈ sr_events r' -> e_agent_id e = agent ->
     e_agent_sequence e <= current_agent_sequence agent r' /\
     (current_agent_sequence agent r < e_agent_sequence e <->
      position e ∈ position <$> recorded policy h' r)).
Proof.
  intros r r'. destruct (session_run_inv policy h empty_session_repo empty_repo_inv) as [Hr _].
  fold r in Hr. destruct (session_run_inv policy h' r Hr) as [Hr' Hx]. fold r' in Hr', Hx.
  split_and!.
  - apply StronglySorted_lt_NoDup. eapply StronglySorted_ext;
      [|apply (StronglySorted_filter _ _ _ (si_agent_order _ Hr'))].
    intros x y [_ Hxa]%in_group_elem [_ Hya]%in_group_elem H. apply H. congruence.
  - apply StronglySorted_lt_NoDup. eapply StronglySorted_ext;
      [|apply (StronglySorted_filter _ _ _ (si_session_order _ Hr'))].
    intros x y [_ Hxa]%in_group_elem [_ Hya]%in_group_elem H. apply H. congruence.
  - intros e He <-. split; [apply (si_agent_pos _ Hr' e He)|]. split.
    + intros Hlt. apply session_run_events in He as [He|He]; [|done].
      apply list_elem_of_fmap in He as (f & Hp & Hf). injection Hp as P1 P2 P3 P4 P5.
      pose proof (si_agent_pos _ Hr f Hf). unfold current_agent_sequence, repo_current_agent_sequence in Hlt.
      rewrite P2, P4 in Hlt. lia.
    + intros (p & Hp & Hin)%list_elem_of_fmap. pose proof (recorded_after _ _ _ _ Hr Hin) as Hlt.
      injection Hp as P1 P2 P3 P4 P5. by rewrite P2, P4.
Qed.

(** ** Retention and the detection horizon *)

(** The clock readings a call prunes at. *)
Definition call_times (c : SessionCall) : list Z :=
  match c with SRecord e => [e_timestamp e] | SPrune now => [now] | _ => [] end.

(** The two stores differ only in events older than [lo]. *)
Definition same_since (lo : Z) (r1 r2 : SessionRepo) : Prop :=
  exists l, r2 = set_events l r1 /\
    List.filter (fun e => lo <=? e_timestamp e) l =
    List.filter (fun e => lo <=? e_timestamp e) (sr_events r1).

Lemma set_events_same r : set_events (sr_events r) r = r.
Proof. by destruct r. Qed.

Lemma terminalize_set_events sid t l r :
  repo_terminalize_session sid t (set_events l r) =
  (set_events l (repo_terminalize_session sid t r).1, (repo_terminalize_session sid t r).2).
Proof. unfold repo_terminalize_session, set_events; simpl. by repeat case_match. Qed.

Lemma expire_set_events threshold now ss l r :
  expire_each threshold now ss (set_events l r) =
  (set_events l (expire_each threshold now ss r).1, (expire_each threshold now ss r).2).
Proof.
  revert r. induction ss as [|s ss IH]; intros r; cbn [expire_each]; [done|].
  case_match; [|done]. rewrite terminalize_set_events.
  destruct (repo_terminalize_session _ _ r) as [r1 b]. simpl. rewrite IH.
  by destruct (expire_each threshold now ss r1).
Qed.

(** Calls that do not touch the log behave the same whatever the log holds. *)
Lemma session_step_set_events policy policy' c l r :
  match c with SRecord _ | SPrune _ | SFinalize _ _ _ => False | _ => True end ->
  session_step policy' c (set_events l r) = set_events l (session_step policy c r) /\
  sr_events (session_step policy c r) = sr_events r.
Proof.
  destruct c as [s|sid agent now|sid agent now|threshold now|x|now|sid n d]; intros Hc; try done; simpl.
  - unfold create_session, repo_create_session, set_events, set_sessions; simpl. by repeat case_match.
  - unfold bind_or_validate, repo_bind_or_create_session, set_events, set_sessions; simpl.
    by repeat case_match.
  - split; [|apply end_session_events]. unfold end_session, end_session_commit.
    change (repo_get_tombstone sid (set_events l r)) with (repo_get_tombstone sid r).
    change (repo_get_session sid (set_events l r)) with (repo_get_session sid r).
    destruct (repo_get_tombstone sid r); [by case_bool_decide|].
    destruct (repo_get_session sid r); [|done]. case_bool_decide; [done|].
    rewrite terminalize_set_events. destruct (repo_terminalize_session _ _ r) as [r1 [|]]; simpl; [done|].
    change (repo_get_tombstone sid (set_events l r1)) with (repo_get_tombstone sid r1).
    destruct (repo_get_tombstone sid r1); [by case_bool_decide|done].
  - unfold expire_idle_sessions. case_match; [done|].
    change (repo_list_sessions (set_events l r)) with (repo_list_sessions r).
    rewrite expire_set_events.
    pose proof (expire_each_events threshold now (repo_list_sessions r) r).
    by destruct (expire_each _ _ _ r).
Qed.

Lemma filter_later_cutoff (lo cut : Z) (l : list SessionEvent) :
  cut <= lo ->
  List.filter (fun e => lo <=? e_timestamp e) (List.filter (fun e => cut <=? e_timestamp e) l) =
  List.filter (fun e => lo <=? e_timestamp e) l.
Proof.
  intros H. rewrite <- filter_andb. apply List.filter_ext. intros e.
  destruct (Z.leb_spec cut (e_timestamp e)), (Z.leb_spec lo (e_timestamp e)); simpl; try done; lia.
Qed.

(** The finalising update as a function of the log. *)
Definition finalized (sid : string) (n : Z) (d : Decision) (l : list SessionEvent)
  : list SessionEvent := match finalize_first sid n d l with Ok l' => l' | Err _ => l end.

Lemma finalized_cons sid n d e l :
  finalized sid n d (e :: l) =
  if event_at sid n e
  then (if bool_decide (e_final_decision e <> None) && bool_decide (e_final_decision e <> Some d)
        then e else with_final d e) :: l
  else e :: finalized sid n d l.
Proof.
  unfold finalized. cbn [finalize_first]. destruct (event_at sid n e).
  - by destruct (bool_decide (e_final_decision e <> None) &&
                 bool_decide (e_final_decision e <> Some d)).
  - by destruct (finalize_first sid n d l).
Qed.

Lemma finalized_none sid n d l :
  (forall e, e ∈ l -> event_at sid n e = false) -> finalized sid n d l = l.
Proof.
  induction l as [|e l IH]; intros H; [done|]. rewrite finalized_cons, (H e) by set_solver.
  f_equal. apply IH. set_solver.
Qed.

(** Finalising commutes with dropping old events when positions are unique. *)
Lemma filter_finalized lo sid n d l :
  StronglySorted (fun e f => e_session_id e = e_session_id f ->
    e_sequence_number e < e_sequence_number f) l ->
  List.filter (fun e => lo <=? e_timestamp e) (finalized sid n d l) =
  finalized sid n d (List.filter (fun e => lo <=? e_timestamp e) l).
Proof.
  induction 1 as [|e l Hs IH Hall]; [done|]. rewrite finalized_cons. cbn [List.filter].
  destruct (event_at sid n e) eqn:He.
  - destruct (lo <=? e_timestamp e) eqn:Ht.
    + rewrite finalized_cons, He. cbn [List.filter].
      destruct (bool_decide _ && _); simpl; by rewrite Ht.
    + rewrite finalized_none.
      * cbn [List.filter]. destruct (bool_decide _ && _); simpl; by rewrite Ht.
      * intros f [Hf _]%filter_elem. rewrite Forall_forall in Hall. specialize (Hall f Hf).
        unfold event_at in *. apply andb_prop in He as [H1%bool_decide_eq_true H2%Z.eqb_eq].
        case_bool_decide as Hfs; [|done]. simpl. apply Z.eqb_neq. rewrite <- H1 in Hfs.
        specialize (Hall (eq_sym Hfs)). lia.
  - cbn [List.filter]. destruct (lo <=? e_timestamp e); [|done].
    rewrite finalized_cons, He. by f_equal.
Qed.

Lemma finalize_step policy sid n d r :
  session_step policy (SFinalize sid n d) r =
  match sr_tombstones r !! sid with
  | Some _ => r
  | None => if dhas sid (sr_sessions r) then set_events (finalized sid n d (sr_events r)) r else r
  end.
Proof.
  simpl. unfold update_event_final_decision, repo_update_final_decision, finalized.
  destruct (sr_tombstones r !! sid); [done|]. destruct (dhas sid (sr_sessions r)); simpl; [|done].
  destruct (finalize_first sid n d (sr_events r)); simpl; [done|]. by rewrite set_events_same.
Qed.

Lemma record_set_events e l r :
  match repo_record_event e r with
  | (r', Ok p) => repo_record_event e (set_events l r) = (set_events (l ++ [p]) r', Ok p)
  | (r', Err x) => repo_record_event e (set_events l r) = (set_events l r', Err x)
  end.
Proof.
  unfold repo_record_event, set_events; simpl.
  destruct (sr_tombstones r !! e_session_id e); [done|].
  destruct (dget (e_session_id e) (sr_sessions r)); [|done].
  case_bool_decide; [done|]. destruct (negb (e_sequence_number e =? 0)); [done|].
  by destruct (negb (e_agent_sequence e =? 0)).
Qed.

Lemma same_since_step p lo c r1 r2 :
  sr_inv r1 -> sr_inv r2 -> same_since lo r1 r2 ->
  (forall t, t ∈ call_times c -> t - total_retention p <= lo) ->
  same_since lo (session_step (Some p) c r1) (session_step None c r2).
Proof.
  intros H1 H2 (l & -> & Hl) Ht.
  destruct c as [s|sid agent now|sid agent now|threshold now|x|now|sid n d];
    try (match goal with |- same_since _ (session_step _ ?c _) _ =>
           destruct (session_step_set_events (Some p) None c l r1 I) as [-> He]; exists l;
           split; [done|by rewrite He] end).
  - simpl. unfold record_event. pose proof (record_set_events x l r1) as Hx.
    pose proof (record_event_repo x r1) as Hr.
    destruct (repo_record_event x r1) as [r' [q|y]]; rewrite Hx; simpl; [|by exists l; subst].
    destruct Hr as (s & _ & _ & _ & _ & Hev & Hpos). injection Hpos as _ _ _ _ P5.
    exists (l ++ [q]). split; [done|]. simpl. rewrite filter_later_cutoff.
    + by rewrite Hev, !List.filter_app, Hl.
    + apply Ht. simpl. rewrite P5. set_solver.
  - simpl. exists l. split; [done|]. simpl. rewrite filter_later_cutoff; [done|].
    apply Ht. simpl. set_solver.
  - rewrite !finalize_step. simpl. destruct (sr_tombstones r1 !! sid); [by exists l|].
    destruct (dhas sid (sr_sessions r1)); [|by exists l].
    exists (finalized sid n d l). split; [done|]. simpl.
    rewrite !filter_finalized; [by rewrite Hl|apply H1|apply (si_session_order _ H2)].
Qed.

Lemma same_since_run p lo h r1 r2 :
  sr_inv r1 -> sr_inv r2 -> same_since lo r1 r2 ->
  (forall t, t ∈ h ≫= call_times -> t - total_retention p <= lo) ->
  same_since lo (session_run (Some p) h r1) (session_run None h r2).
Proof.
  revert r1 r2. induction h as [|c h IH]; intros r1 r2 H1 H2 Hs Ht; [done|].
  csimpl in Ht. simpl. apply IH.
  - by apply session_step_inv.
  - by apply session_step_inv.
  - apply same_since_step; [done..|]. intros t Hin. apply Ht. set_solver.
  - intros t Hin. apply Ht. set_solver.
Qed.

(** C38. Retention never hides evidence from detection: a horizon query whose window the
    retention covers returns the same events from the pruned store as from one that never
    prunes, as long as no recorded timestamp or pruning clock ran ahead of the evaluation
    time by more than the late-arrival grace. *)
Theorem pruning_invisible_to_detection (p : DetectionRetentionPolicy) (h : list SessionCall)
    (q : HorizonQuery) :
  q_window q <= rp_retention_window p ->
  (forall t, t ∈ h ≫= call_times -> t <= q_evaluation_time q + rp_late_arrival_grace p) ->
  list_eligible_events q (session_run (Some p) h empty_session_repo) =
  list_eligible_events q (session_run None h empty_session_repo).
Proof.
  intros Hw Ht. set (lo := q_evaluation_time q - q_window q).
  destruct (same_since_run p lo h empty_session_repo empty_session_repo) as (l & -> & Hl).
  - apply empty_repo_inv.
  - apply empty_repo_inv.
  - by exists [].
  - intros t Hin. specialize (Ht t Hin). unfold total_retention, lo. lia.
  - unfold list_eligible_events, repo_list_eligible_events. f_equal. simpl.
    assert (forall ev, List.filter (eligible q) ev =
      List.filter (eligible q) (List.filter (fun e => lo <=? e_timestamp e) ev)) as Hf.
    { intros ev. rewrite <- filter_andb. apply List.filter_ext. intros e.
      destruct (Z.leb_spec lo (e_timestamp e)) as [Hlo|Hlo]; [done|].
      unfold eligible. fold lo. apply Z.ltb_lt in Hlo. rewrite Hlo. simpl. by rewrite !andb_false_r. }
    by rewrite Hf, <- Hl, <- Hf.
Qed.

(** ** Witnesses *)

Definition demo_event (sid agent : string) (d : Decision) (at_ : Z) : SessionEvent :=
  mkEvent sid agent "tool" None d 0 0 None at_.
Definition demo_calls : list SessionCall :=
  [SBind "s1" "alice" 0; SRecord (demo_event "s1" "alice" DENY 10); SBind "s2" "alice" 15;
   SRecord (demo_event "s2" "alice" DENY 90); SFinalize "s2" 1 DENY; SPrune 105].

Lemma pruning_invisible_to_detection_witness :
  let p := mkRetention 50 10 in
  let q := mkQuery "alice" SCOPE_AGENT None 50 100 0 in
  length (sr_events (session_run (Some p) demo_calls empty_session_repo)) = 1%nat /\
  length (sr_events (session_run None demo_calls empty_session_repo)) = 2%nat /\
  length (list_eligible_events q (session_run None demo_calls empty_session_repo)) = 1%nat /\
  list_eligible_events q (session_run (Some p) demo_calls empty_session_repo) =
  list_eligible_events q (session_run None demo_calls empty_session_repo).
Proof.
  split_and!; [by vm_compute..|].
  apply (pruning_invisible_to_detection (mkRetention 50 10) demo_calls
           (mkQuery "alice" SCOPE_AGENT None 50 100 0)); [by vm_compute|].
  simpl. intros t Ht. set_unfold. lia.
Defined.
