(* ===== verification/Detection.v ===== *)
(** * Detection (app/detection, services/detection_service.py)

    Content rules look at one request's texts; the behavioural rule counts an agent's
    denials in the detection horizon.  Both turn what they see into findings whose
    identifiers are name-based UUIDs, so that the findings store recognises a repeat.
    [uuid5] is a parameter: identifiers depend on it only as a function of a namespace and
    a name.  [str.casefold] is ASCII lower-casing here. *)

From stdpp Require Import pretty.
From S2P Require Import Prelude.
From S2P Require Import PyDict.
From S2P Require Import Json.
From S2P Require Import Models.
From S2P Require Import Findings.
From S2P Require Import Sessions.

Open Scope Z_scope.

(** ** Data *)

Inductive DetectionCategory :=
| PROMPT_SECURITY | DATA_SECURITY | TOOL_SECURITY | IDENTITY_SECURITY
| BEHAVIORAL_SECURITY | POLICY_SECURITY.

Record DetectionContext := mkContext {
  c_session_id : string;
  c_agent_id : string;
  c_user_prompt : string;
  c_model_output : string;
  c_tool_output : string;
  c_triggering_event_sequence : Z;
  c_metadata : pydict string string;
}.

(** The field constraints of [DetectionContext]. *)
Definition new_context (c : DetectionContext) : result DetectionContext :=
  if str_nonempty (c_session_id c) && str_nonempty (c_agent_id c)
     && (0 <=? c_triggering_event_sequence c)
  then Ok c else Err ValueError.

Definition text_inputs (c : DetectionContext) : list string :=
  [c_user_prompt c; c_model_output c; c_tool_output c].

(** A rule: its metadata's name and category, and its evaluation. *)
Record DetectionRule := mkRule {
  rule_name : string;
  rule_category : DetectionCategory;
  rule_evaluate : DetectionContext -> list Finding;
}.

(** [for x in xs: if x in text: return x] *)
Definition first_in (indicators : list string) (text : string) : option string :=
  List.find (fun i => str_contains i text) indicators.

(** ** Content rules *)

Definition str_of_Z (n : Z) : string := pretty n.

Section rules.
Context (uuid5 : string -> string -> string).

Definition NAMESPACE_URL : string := "6ba7b811-9dad-11d1-80b4-00c04fd430c8".

(** [datetime(1970, 1, 1, tzinfo=timezone.utc)] *)
Definition RULE_CREATED_AT : Z := 0.

(** The finding a content rule reports. *)
Definition content_finding (name id : string) (cat : FindingCategory) (description : string)
    (c : DetectionContext) : Finding :=
  mkFinding id (c_session_id c) (c_agent_id c) (default_rule_id name name) name SEV_HIGH cat OPEN
    description RULE_CREATED_AT None [c_triggering_event_sequence c] 0 UNASSIGNED_SEQUENCE.

Definition PROMPT_INJECTION_INDICATORS : list string :=
  ["ignore previous instructions"; "system prompt"; "you are now"; "act as system";
   "developer message"; "forget your instructions"; "override your instructions"; "new role"].

Definition prompt_injection_indicator (c : DetectionContext) : option string :=
  first_in PROMPT_INJECTION_INDICATORS (join " " (str_lower <$> text_inputs c)).

Definition prompt_injection_id (c : DetectionContext) (indicator : string) : string :=
  uuid5 NAMESPACE_URL (join "|" ["PROMPT_INJECTION"%string; c_session_id c; c_agent_id c; indicator;
                                 str_of_Z (c_triggering_event_sequence c)]).

Definition evaluate_prompt_injection (c : DetectionContext) : list Finding :=
  match prompt_injection_indicator c with
  | None => []
  | Some i =>
      [content_finding "PROMPT_INJECTION" (prompt_injection_id c i) CAT_PROMPT_INJECTION
         ("Prompt injection indicator detected: " +:+ i) c]
  end.

Definition PromptInjectionRule : DetectionRule :=
  mkRule "PROMPT_INJECTION" PROMPT_SECURITY evaluate_prompt_injection.

(** [context.metadata.get("resource", "").strip().casefold()] *)
Definition context_resource (c : DetectionContext) : string :=
  str_lower (str_strip (default EmptyString (dget "resource"%string (c_metadata c)))).

Definition EXFILTRATION_ACTIONS : list string :=
  ["upload"; "send"; "email"; "post"; "push"; "copy"; "export"; "transfer"; "sync"; "publish";
   "share"].

Definition SENSITIVE_DATA_INDICATORS : list string :=
  ["password"; "credentials"; "token"; "api key"; "secret"; "ssh key"; ".env"; "private key";
   "kubeconfig"; "service account key"].

Definition data_exfiltration_id (c : DetectionContext) (action indicator : string) : string :=
  uuid5 NAMESPACE_URL (join "|" ["DATA_EXFILTRATION"%string; c_session_id c; c_agent_id c; action;
                                 indicator; str_of_Z (c_triggering_event_sequence c)]).

Definition evaluate_data_exfiltration (c : DetectionContext) : list Finding :=
  let search_content :=
    str_strip (str_lower (c_user_prompt c) +:+ " " +:+ context_resource c) in
  match first_in EXFILTRATION_ACTIONS search_content,
        first_in SENSITIVE_DATA_INDICATORS search_content with
  | Some action, Some indicator =>
      [content_finding "DATA_EXFILTRATION" (data_exfiltration_id c action indicator)
         CAT_DATA_EXFILTRATION
         ("Data exfiltration attempt detected: action '" +:+ action
          +:+ "' combined with sensitive indicator '" +:+ indicator +:+ "'") c]
  | _, _ => []
  end.

Definition DataExfiltrationRule : DetectionRule :=
  mkRule "DATA_EXFILTRATION" DATA_SECURITY evaluate_data_exfiltration.

Definition SENSITIVE_INDICATORS : list string :=
  [".env"; ".git/config"; ".ssh/id_rsa"; ".aws/credentials"; "/etc/passwd"; "/etc/shadow";
   "kubernetes secrets"; "kubernetes secret"; "k8s secrets"; "k8s secret";
   "service account keys"; "service account key"; "service_account_keys"; "service_account_key"].

Definition sensitive_file_id (c : DetectionContext) (indicator : string) : string :=
  uuid5 NAMESPACE_URL (join "|" ["SENSITIVE_FILE_ACCESS"%string; c_session_id c; c_agent_id c;
                                 indicator; str_of_Z (c_triggering_event_sequence c)]).

Definition sensitive_indicator (c : DetectionContext) : option string :=
  let resource := context_resource c in
  let user_prompt := str_lower (c_user_prompt c) in
  let in_resource := if str_nonempty resource then first_in SENSITIVE_INDICATORS resource else None in
  match in_resource with
  | Some i => Some i
  | None => if str_nonempty user_prompt then first_in SENSITIVE_INDICATORS user_prompt else None
  end.

Definition evaluate_sensitive_file_access (c : DetectionContext) : list Finding :=
  match sensitive_indicator c with
  | None => []
  | Some i =>
      [content_finding "SENSITIVE_FILE_ACCESS" (sensitive_file_id c i) CAT_SENSITIVE_FILE_ACCESS
         ("Sensitive file access attempt detected: " +:+ i) c]
  end.

Definition SensitiveFileAccessRule : DetectionRule :=
  mkRule "SENSITIVE_FILE_ACCESS" DATA_SECURITY evaluate_sensitive_file_access.

(** ** Engine and registry *)

Definition engine_evaluate (rules : list DetectionRule) (c : DetectionContext) : list Finding :=
  rules ≫= (fun r => rule_evaluate r c).

Definition engine_rule_names (rules : list DetectionRule) : gset string :=
  list_to_set (rule_name <$> rules).

Definition registry_register (r : DetectionRule) : Comp (pydict string DetectionRule) DetectionRule :=
  fun d => if dhas (rule_name r) d then (d, Err ValueError) else (dset (rule_name r) r d, Ok r).

Definition registry_get (name : string) (d : pydict string DetectionRule) : result DetectionRule :=
  of_option KeyError (dget name d).

Definition registry_rules (d : pydict string DetectionRule) : list DetectionRule := dvalues d.

(** ** Excessive denials *)

Definition EXCESSIVE_DENIAL_THRESHOLD : Z := 3.
Definition DEFAULT_EXCESSIVE_DENIALS_WINDOW : Z := 1800 * 1000000.
Definition EXCESSIVE_DENIALS_RULE_NAME : string := "EXCESSIVE_DENIALS".

Definition SESSION_FINDING_NAMESPACE : string :=
  uuid5 NAMESPACE_URL "https://enterprise-agent-security-platform/findings/session".

Definition session_finding_id (rule session agent : string) (threshold : Z)
    (evidence : list Z) (recovery_generation : Z) : string :=
  uuid5 SESSION_FINDING_NAMESPACE
    (join "|" [rule; session; agent; str_of_Z threshold; join "," (str_of_Z <$> evidence);
               str_of_Z recovery_generation]).

(** [DetectionService]: the window is its only state. *)
Definition new_detection_service (window : Z) : result Z :=
  if window <=? 0 then Err ValueError else Ok window.

Record DetectionRuleDescriptor := mkDescriptor {
  d_name : string;
  d_scope : AggregationScope;
  d_horizon : Z;
}.

Definition get_rule_descriptor (window : Z) (name : string) : result DetectionRuleDescriptor :=
  if bool_decide (name = EXCESSIVE_DENIALS_RULE_NAME)
  then Ok (mkDescriptor EXCESSIVE_DENIALS_RULE_NAME SCOPE_AGENT window)
  else Err KeyError.

Definition get_rule_horizon (window : Z) (name : string) : result Z :=
  d ← get_rule_descriptor window name; mret (d_horizon d).

Definition has_agent_positions (ds : list SessionEvent) : bool :=
  existsb (fun e => 0 <? e_agent_sequence e) ds.

(** The positions of the current denials, in the namespace the crossing is identified in. *)
Definition in_window (ds : list SessionEvent) : list Z :=
  if has_agent_positions ds
  then e_agent_sequence <$> List.filter (fun e => 0 <? e_agent_sequence e) ds
  else e_sequence_number <$> ds.

(** The prior finding of the same agent and generation whose evidence is still in view. *)
Definition same_crossing (ds : list SessionEvent) (agent : string) (generation : Z)
    (p : Finding) : bool :=
  bool_decide (f_rule_name p = EXCESSIVE_DENIALS_RULE_NAME)
  && bool_decide (f_agent_id p = agent)
  && (f_recovery_generation p =? generation)
  && bool_decide (f_evidence_event_sequences p <> [])
  && existsb (fun n => bool_decide (n ∈ in_window ds)) (f_evidence_event_sequences p).

Definition crossing_evidence (ds : list SessionEvent) (prior : list Finding) (agent : string)
    (generation : Z) : list Z :=
  match List.find (same_crossing ds agent generation) prior with
  | Some p => f_evidence_event_sequences p
  | None =>
      if has_agent_positions ds
      then e_agent_sequence <$>
             take (Z.to_nat EXCESSIVE_DENIAL_THRESHOLD) (sort_by (position_leb SCOPE_AGENT) ds)
      else e_sequence_number <$>
             take (Z.to_nat EXCESSIVE_DENIAL_THRESHOLD) (sort_by history_leb ds)
  end.

Definition denied_in_window (window evaluation_time : Z) (e : SessionEvent) : bool :=
  match e_decision e with DENY => true | _ => false end
  && (evaluation_time - window <=? e_timestamp e) && (e_timestamp e <=? evaluation_time).

Definition denial_finding (now : Z) (prior : list Finding) (generation : Z) (agent : string)
    (ds : list SessionEvent) : Finding :=
  let latest_session := from_option e_session_id EmptyString (last ds) in
  let evidence := crossing_evidence ds prior agent generation in
  let first_session := from_option e_session_id EmptyString (head ds) in
  let n := str_of_Z (Z.of_nat (length ds)) in
  let description :=
    if forallb (fun e => bool_decide (e_session_id e = first_session)) ds
    then "Session contains " +:+ n +:+ " denied actions"
    else "Agent contains " +:+ n +:+ " denied actions across sessions" in
  mkFinding
    (session_finding_id EXCESSIVE_DENIALS_RULE_NAME latest_session agent EXCESSIVE_DENIAL_THRESHOLD
       evidence generation)
    latest_session agent (default_rule_id EmptyString EXCESSIVE_DENIALS_RULE_NAME)
    EXCESSIVE_DENIALS_RULE_NAME SEV_MEDIUM CAT_UNKNOWN OPEN description now None evidence
    generation UNASSIGNED_SEQUENCE.

Definition denial_findings (now : Z) (prior : list Finding) (generation : Z)
    (groups : pydict string (list SessionEvent)) : list Finding :=
  groups ≫= (fun g =>
    if Z.of_nat (length g.2) <? EXCESSIVE_DENIAL_THRESHOLD then []
    else [denial_finding now prior generation g.1 g.2]).

Definition detect_excessive_denials (window now : Z) (events : list SessionEvent)
    (evaluation_time : Z) (prior : list Finding) (generation : Z) : list Finding :=
  denial_findings now prior generation
    (group_by e_agent_id (List.filter (denied_in_window window evaluation_time) events)).

Definition registered_rule_names : gset string := {[ EXCESSIVE_DENIALS_RULE_NAME ]}.

(** ** What the behavioural rule reports *)

(** The denials of one agent in the window. *)
Definition agent_denials (window evaluation_time : Z) (events : list SessionEvent)
    (agent : string) : list SessionEvent :=
  in_group e_agent_id agent (List.filter (denied_in_window window evaluation_time) events).

Lemma detect_elem window now events t prior generation f :
  f ∈ detect_excessive_denials window now events t prior generation <->
  exists agent, EXCESSIVE_DENIAL_THRESHOLD <= Z.of_nat (length (agent_denials window t events agent)) /\
    f = denial_finding now prior generation agent (agent_denials window t events agent).
Proof.
  unfold detect_excessive_denials, denial_findings. rewrite list_elem_of_bind. split.
  - intros ([agent ds] & Hf & Hg). apply group_by_elem in Hg as [-> Hne]. simpl in Hf.
    fold (agent_denials window t events agent) in Hf.
    destruct (Z.ltb_spec (Z.of_nat (length (agent_denials window t events agent)))
                EXCESSIVE_DENIAL_THRESHOLD); [set_solver|].
    exists agent. split; [done|]. set_solver.
  - intros (agent & Hlen & ->). exists (agent, agent_denials window t events agent). split.
    + simpl. destruct (Z.ltb_spec (Z.of_nat (length (agent_denials window t events agent)))
                EXCESSIVE_DENIAL_THRESHOLD); [lia|set_solver].
    + apply group_by_elem. split; [done|]. intros He.
      fold (agent_denials window t events agent) in He. rewrite He in Hlen.
      unfold EXCESSIVE_DENIAL_THRESHOLD in Hlen. simpl in Hlen. lia.
Qed.

Lemma bind_nodup_fst {B} (l : pydict string B) (c : string * B -> bool)
    (g : string * B -> Finding) :
  (forall x, f_agent_id (g x) = x.1) -> dwf l ->
  NoDup (f_agent_id <$> (l ≫= (fun x => if c x then [] else [g x]))).
Proof.
  intros Hg. induction l as [|[k b] l IH]; csimpl; [constructor|].
  intros [Hk Hwf]%dwf_cons. rewrite fmap_app. destruct (c (k, b)); csimpl; [auto|].
  apply NoDup_cons. split; [|auto]. rewrite Hg. simpl. intros (f & Hf & Hin)%list_elem_of_fmap.
  apply list_elem_of_bind in Hin as ([k' b'] & Hin & Hx).
  destruct (c (k', b')); [set_solver|]. apply list_elem_of_singleton in Hin. subst f.
  rewrite Hg in Hf. simpl in Hf. subst k'. apply Hk. by eapply elem_dkeys.
Qed.

Lemma in_window_positive ds :
  (forall e, e ∈ ds -> 0 < e_agent_sequence e) -> ds <> [] ->
  has_agent_positions ds = true /\ in_window ds = e_agent_sequence <$> ds.
Proof.
  intros Hpos Hne. assert (has_agent_positions ds = true) as H.
  { destruct ds as [|e ds]; [done|]. unfold has_agent_positions; simpl.
    assert (0 <? e_agent_sequence e = true) as -> by (apply Z.ltb_lt, Hpos; set_solver). done. }
  split; [done|]. unfold in_window. rewrite H. f_equal. apply filter_all.
  intros e He. by apply Z.ltb_lt, Hpos.
Qed.

(** The evidence of a report always meets the window it was reported for. *)
Lemma crossing_evidence_meets ds prior agent generation :
  (forall e, e ∈ ds -> 0 < e_agent_sequence e) -> ds <> [] ->
  crossing_evidence ds prior agent generation <> [] /\
  existsb (fun n => bool_decide (n ∈ in_window ds)) (crossing_evidence ds prior agent generation)
  = true.
Proof.
  intros Hpos Hne. unfold crossing_evidence.
  destruct (List.find _ prior) as [p|] eqn:Hf.
  - apply List.find_some in Hf as [_ Hm]. unfold same_crossing in Hm.
    rewrite !andb_true_iff in Hm. destruct Hm as [[_ Hn] Hm]. by apply bool_decide_eq_true in Hn.
  - destruct (in_window_positive ds Hpos Hne) as [-> ->].
    destruct (sort_by (position_leb SCOPE_AGENT) ds) as [|e l] eqn:Hs.
    + exfalso. pose proof (sort_by_perm (position_leb SCOPE_AGENT) ds) as Hp. rewrite Hs in Hp.
      by apply Permutation_nil_l in Hp.
    + change (take (Z.to_nat EXCESSIVE_DENIAL_THRESHOLD) (e :: l)) with (e :: take 2 l).
      csimpl. split; [done|]. rewrite bool_decide_true; [done|]. apply list_elem_of_fmap.
      exists e. split; [done|]. apply (sort_by_elem (position_leb SCOPE_AGENT)). rewrite Hs. set_solver.
Qed.

(** The behavioural rule reports exactly the agents with at least three denials in the
    window, each once, and (event positions being assigned) every report carries evidence
    by which the same window's crossing is recognised again. *)
Theorem excessive_denials_reported_iff (window now : Z) (events : list SessionEvent) (t : Z)
    (prior : list Finding) (generation : Z) :
  let fs := detect_excessive_denials window now events t prior generation in
  NoDup (f_agent_id <$> fs) /\
  (forall a, a ∈ f_agent_id <$> fs <->
     EXCESSIVE_DENIAL_THRESHOLD <= Z.of_nat (length (agent_denials window t events a))) /\
  (forall f, f ∈ fs -> (forall e, e ∈ events -> 0 < e_agent_sequence e) ->
     same_crossing (agent_denials window t events (f_agent_id f)) (f_agent_id f) generation f = true).
Proof.
  intros fs. split_and!.
  - unfold fs, detect_excessive_denials, denial_findings.
    apply (bind_nodup_fst _ (fun g => Z.of_nat (length g.2) <? EXCESSIVE_DENIAL_THRESHOLD)
             (fun g => denial_finding now prior generation g.1 g.2)); [done|apply group_by_wf].
  - intros a. rewrite list_elem_of_fmap. split.
    + intros (f & -> & Hf). apply detect_elem in Hf as (agent & Hlen & ->). done.
    + intros Hlen. exists (denial_finding now prior generation a (agent_denials window t events a)).
      split; [done|]. apply detect_elem. by exists a.
  - intros f Hf Hpos. apply detect_elem in Hf as (agent & Hlen & ->). simpl.
    set (ds := agent_denials window t events agent) in *.
    assert (ds <> []) as Hne.
    { intros He. rewrite He in Hlen. unfold EXCESSIVE_DENIAL_THRESHOLD in Hlen. simpl in Hlen. lia. }
    destruct (crossing_evidence_meets ds prior agent generation) as [H1 H2]; [|done|].
    { intros e He. apply Hpos. apply in_group_elem in He as [He _]. by apply filter_elem in He as [? _]. }
    unfold same_crossing. cbn [denial_finding f_rule_name f_agent_id f_recovery_generation
      f_evidence_event_sequences]. fold ds. rewrite H2, Z.eqb_refl.
    by rewrite !bool_decide_true by done.
Qed.

(** A crossing is recorded once: while evidence of an already stored crossing of the
    same session, agent and enforcement generation is still in the window, what a new
    evaluation in that session reports is known to the store and adds nothing. *)
Theorem crossing_recorded_once (st : FindingsService) (window now now' t generation : Z)
    (events : list SessionEvent) (sid agent : string) (g p : Finding) :
  let prior := list_findings (Some sid) (Some agent) None None None None None st in
  store_ok st ->
  (forall q, q ∈ prior -> f_rule_name q = EXCESSIVE_DENIALS_RULE_NAME ->
     finding_id q = session_finding_id EXCESSIVE_DENIALS_RULE_NAME (f_session_id q) (f_agent_id q)
       EXCESSIVE_DENIAL_THRESHOLD (f_evidence_event_sequences q) (f_recovery_generation q)) ->
  p ∈ prior -> same_crossing (agent_denials window t events agent) agent generation p = true ->
  g ∈ detect_excessive_denials window now events t prior generation ->
  f_agent_id g = agent -> f_session_id g = sid ->
  record_new_findings [g] now' st = (st, []).
Proof.
  intros prior Hok Hid Hp Hsame Hg Ha Hs.
  apply detect_elem in Hg as (agent' & _ & ->). simpl in Ha. subst agent'.
  set (ds := agent_denials window t events agent) in *. simpl in Hs.
  destruct (List.find (same_crossing ds agent generation) prior) as [q|] eqn:Hf.
  - apply record_new_all_known. csimpl. intros id [->|?]%elem_of_cons; [|set_solver].
    pose proof Hf as Hf'. apply List.find_some in Hf' as [Hq Hm]. apply list_elem_of_In in Hq.
    unfold same_crossing in Hm. rewrite !andb_true_iff, !bool_decide_eq_true, Z.eqb_eq in Hm.
    destruct Hm as [[[[Hr Hag] Hgen] _] _].
    assert (q ∈ dvalues (fs_findings st) /\ f_session_id q = sid) as [Hqv Hqs].
    { unfold prior, list_findings, keep_if in Hq.
      apply filter_elem in Hq as [Hq _]. apply filter_elem in Hq as [Hq Hx].
      by apply bool_decide_eq_true in Hx. }
    specialize (Hid q Hq Hr). rewrite Hs.
    assert (crossing_evidence ds prior agent generation = f_evidence_event_sequences q) as ->
      by (unfold crossing_evidence; by rewrite Hf).
    rewrite <- Hqs, <- Hag, <- Hgen, <- Hid.
    apply values_dget in Hqv as [k Hk]; [|apply Hok].
    destruct (so_key _ Hok _ _ Hk) as [-> _]. unfold get_finding. by rewrite Hk.
  - exfalso. apply list_elem_of_In in Hp.
    pose proof (List.find_none _ _ Hf p Hp) as Hn. congruence.
Qed.
End rules.

(** ** Witness *)

Definition demo_uuid5 (ns name : string) : string := ns +:+ ":" +:+ name.
Definition demo_denial (n at_ : Z) : SessionEvent :=
  mkEvent "s1" "alice" "tool" None DENY n n None at_.
Lemma crossing_recorded_once_witness :
  let events := [demo_denial 2 11; demo_denial 3 12; demo_denial 4 13; demo_denial 5 14] in
  let fs := detect_excessive_denials demo_uuid5 100 5
              [demo_denial 1 10; demo_denial 2 11; demo_denial 3 12] 20 [] 0 in
  let st := (record_new_findings fs 20 (new_findings_service [] None)).1 in
  let prior := list_findings (Some "s1"%string) (Some "alice"%string) None None None None None st in
  let gs := detect_excessive_denials demo_uuid5 100 30 events 30 prior 0 in
  length prior = 1%nat /\ length gs = 1%nat /\
  exists g, gs = [g] /\ record_new_findings [g] 30 st = (st, []).
Proof.
  split_and!; [by vm_compute..|]. eexists. split; [by vm_compute|].
  eapply (crossing_recorded_once demo_uuid5
    (record_new_findings (detect_excessive_denials demo_uuid5 100 5
       [demo_denial 1 10; demo_denial 2 11; demo_denial 3 12] 20 [] 0) 20
       (new_findings_service [] None)).1 100 30 30 30 0
    [demo_denial 2 11; demo_denial 3 12; demo_denial 4 13; demo_denial 5 14] "s1" "alice").
  - apply (inv_store_ok (fun _ => "alice")), record_new_inv;
      [apply new_service_inv; constructor|by repeat constructor].
  - vm_compute. intros q Hq _. apply list_elem_of_singleton in Hq. by subst.
  - vm_compute. left.
  - by vm_compute.
  - vm_compute. left.
  - by vm_compute.
  - by vm_compute.
Defined.
