(* ===== verification/Coordinator.v ===== *)
(** * Recovery from containment (app/services/enforcement_coordinator.py)

    The coordinator drives four stores in sequence: it captures a baseline from the findings
    and session stores, clears the agent's suspension, resets the risk projection to the
    baseline and reopens grant issuance on the enforcement plane.  The stores cannot roll
    back together, so the state after each step is kept; the three optional collaborators
    are options here as they are in the constructor.  The per-agent lock makes one call one
    sequence of steps for that agent. *)

From S2P Require Import Prelude.
From S2P Require Import PyDict.
From S2P Require Import Models.
From S2P Require Import Lifecycle.
From S2P Require Import Planes.
From S2P Require Import Agents.
From S2P Require Import Authority.
From S2P Require Import Findings.
From S2P Require Import Risk.
From S2P Require Import Sessions.

Open Scope Z_scope.

Definition Agents_ : Type :=
  AgentWorld InMemoryAdministrativeStateRepository InMemoryEnforcementStateRepository.

Record CoordWorld := mkCoordWorld {
  cw_agents : Agents_;
  cw_authority : ExecutionAuthority;
  cw_findings : option FindingsService;
  cw_risk : option RiskAggregator;
  cw_sessions : option SessionRepo;
}.

Definition on_agents {A} (m : Comp Agents_ A) : Comp CoordWorld A :=
  zoom cw_agents (fun x w => mkCoordWorld x (cw_authority w) (cw_findings w) (cw_risk w)
                               (cw_sessions w)) m.
Definition on_authority {A} (m : Comp ExecutionAuthority A) : Comp CoordWorld A :=
  zoom cw_authority (fun x w => mkCoordWorld (cw_agents w) x (cw_findings w) (cw_risk w)
                                  (cw_sessions w)) m.
(** [if self._risk_aggregator is not None: self._risk_aggregator.m(...)] *)
Definition on_risk {A} (m : Comp RiskAggregator A) : Comp CoordWorld unit := fun w =>
  match cw_risk w with
  | None => (w, Ok tt)
  | Some r =>
      let '(r, x) := m r in
      (mkCoordWorld (cw_agents w) (cw_authority w) (cw_findings w) (Some r) (cw_sessions w),
       match x with Ok _ => Ok tt | Err e => Err e end)
  end.

(** The watermark composed from the two allocation authorities. *)
Definition compose_watermark (a : string) (baseline_at : Z) (w : CoordWorld) : BaselineWatermark :=
  mkWatermark a (Some baseline_at)
    (from_option (capture_evidence_baseline_sequence a (Some baseline_at) baseline_at) 0
       (cw_findings w))
    (from_option (current_agent_sequence a) 0 (cw_sessions w)).

Definition still_contained (a : string) : Comp CoordWorld bool := fun w =>
  match get_enforcement_state a (cw_agents w) with
  | (x, Ok e) => (w, Ok (bool_decide (es_suspended_at e <> None)))
  | (x, Err e) => (w, Err e)
  end.

(** [coordinator.reinstate]; [baseline_at] is the clock reading it starts with and [env]
    what the agent service reads. *)
Definition reinstate_finish (a : string) (ag : Agent) (contained : bool)
  : Comp CoordWorld Agent := fun w =>
  if contained || bool_decide (ENFORCEMENT ∈ closed_planes a (cw_authority w))
  then (w, Err ReinstatementIncompleteError) else (w, Ok ag).

Definition reinstate (a actor reason : string) (baseline_at : Z) (env : CallEnv)
  : Comp CoordWorld Agent := fun w =>
  let watermark := compose_watermark a baseline_at w in
  (ag ← on_agents (reinstate_agent a actor reason (Some watermark) env);
   _ ← on_risk (aggregator_reset baseline_at watermark);
   _ ← on_authority (resume_issuance a ENFORCEMENT);
   contained ← still_contained a;
   reinstate_finish a ag contained) w.

Definition repair_watermark (a : string) : Comp CoordWorld BaselineWatermark := fun w =>
  match get_enforcement_state a (cw_agents w) with
  | (_, Ok e) => (w, Ok (mkWatermark a (es_baseline_at e) (es_baseline_evidence_sequence e)
                           (es_baseline_agent_sequence e)))
  | (_, Err e) => (w, Err e)
  end.

(** The projection reset of [repair], which reads the stored baseline only when there is an
    aggregator to reset. *)
Definition repair_projection (a : string) (now : Z) : Comp CoordWorld unit := fun w =>
  match cw_risk w with
  | None => (w, Ok tt)
  | Some _ => (wm ← repair_watermark a; on_risk (aggregator_reset now wm)) w
  end.

Definition repair_finish (a : string) (ag : Agent) : Comp CoordWorld Agent := fun w =>
  if issuance_suspended a (cw_authority w) then (w, Err ReinstatementIncompleteError)
  else (w, Ok ag).

Definition repair (a : string) (now : Z) : Comp CoordWorld Agent :=
  ag ← on_agents (get_agent a);
  contained ← still_contained a;
  if (contained : bool) then raise ReinstatementIncompleteError
  else
    _ ← repair_projection a now;
    _ ← on_authority (resume_issuance a ENFORCEMENT);
    repair_finish a ag.

(** ** Facts about the steps *)

Section facts.
Context (a : string) (ag : Agent) (w : CoordWorld).
Context (Hinv : aw_inv (cw_agents w)) (Hag : agent_get a (aw_agents (cw_agents w)) = Some ag).

Lemma get_agent_run (x : Agents_) :
  agent_get a (aw_agents x) = Some ag ->
  get_agent a x = (x, Ok (with_status (project_status (ar_states (aw_adm x) !! a)
                                         (er_states (aw_enf x) !! a)) ag)).
Proof.
  intros Hx. unfold get_agent, reads, on_enf, zoom, of_option, try_except, raise.
  cbv [mbind comp_bind mret comp_ret]. by rewrite Hx.
Qed.

Lemma get_enforcement_state_run (x : Agents_) :
  agent_get a (aw_agents x) = Some ag ->
  get_enforcement_state a x =
  (x, Ok (default (initial_enforcement_state a) (er_states (aw_enf x) !! a))).
Proof.
  intros Hx. unfold get_enforcement_state, mbind, comp_bind. rewrite (get_agent_run x Hx). done.
Qed.

Lemma still_contained_run (x : CoordWorld) :
  agent_get a (aw_agents (cw_agents x)) = Some ag ->
  still_contained a x = (x, Ok (is_suspended (er_states (aw_enf (cw_agents x)) !! a))).
Proof.
  intros Hx. unfold still_contained. rewrite (get_enforcement_state_run _ Hx).
  do 2 f_equal. destruct (er_states _ !! a) as [e|]; simpl; [|done].
  by destruct (es_suspended_at e).
Qed.
End facts.

(** The posture of a projection just reset to a watermark. *)
Definition baseline_posture (wm : BaselineWatermark) (version : Z) (at_ : Z) : AgentRiskPosture :=
  mkPosture (wm_agent_id wm) HEALTHY 0 RISK_LOW 0 (wm_baseline_at wm)
    (wm_baseline_evidence_sequence wm) (wm_baseline_evidence_sequence wm) no_counts ∅ version at_.

Lemma aggregator_reset_run now wm r :
  rg_inv true r ->
  exists r' p, aggregator_reset now wm r = (r', Ok p) /\
    (forall now', get_posture now' (wm_agent_id wm) r' = Ok p) /\
    (exists v, p = baseline_posture wm v (default now (wm_baseline_at wm))) /\
    (forall b, b <> wm_agent_id wm -> rg_projections r' !! b = rg_projections r !! b).
Proof.
  intros Hr. unfold aggregator_reset, mbind, comp_bind.
  destruct (ensure_projection_spec true now (wm_agent_id wm) wm r Hr) as (s & x & He & Hs & Hl & _);
    [done|].
  rewrite He. destruct (rgi _ _ Hs _ _ Hl) as (Hx & _ & Hk). specialize (Hk eq_refl).
  unfold update_projection. pose proof (reset_inv now wm x Hx) as Hi.
  assert ((reset_to_baseline now wm x).2 = Ok tt) as Hr2 by (exact (inv_assert _ Hi)).
  assert (snapshot (reset_to_baseline now wm x).1 =
    Ok (baseline_posture wm (ag_posture_version x + 1) (default now (wm_baseline_at wm)))) as Hsn.
  { rewrite snapshot_inv by done. unfold baseline_posture. by rewrite <- Hk. }
  destruct (reset_to_baseline now wm x) as [y u]. simpl in *. subst u.
  eexists _, _. split_and!; [by rewrite Hsn| |by eexists|].
  - intros now'. unfold get_posture. simpl. by rewrite lookup_insert_eq.
  - intros b Hb. simpl. rewrite lookup_insert_ne by done.
    unfold ensure_projection in He. repeat case_match; simplify_eq/=; [done|].
    by rewrite lookup_insert_ne.
Qed.

(** What a projection reset leaves in an optional aggregator. *)
Definition risk_at_baseline (wm : BaselineWatermark) (risk risk' : option RiskAggregator) : Prop :=
  match risk, risk' with
  | None, None => True
  | Some r, Some r' =>
      (exists v t, forall now, get_posture now (wm_agent_id wm) r' = Ok (baseline_posture wm v t)) /\
      (forall b, b <> wm_agent_id wm -> rg_projections r' !! b = rg_projections r !! b)
  | _, _ => False
  end.

Definition risk_ok (risk : option RiskAggregator) : Prop :=
  match risk with Some r => rg_inv true r | None => True end.

Lemma on_risk_reset now wm w :
  risk_ok (cw_risk w) ->
  exists risk', on_risk (aggregator_reset now wm) w =
    (mkCoordWorld (cw_agents w) (cw_authority w) (cw_findings w) risk' (cw_sessions w), Ok tt) /\
    risk_at_baseline wm (cw_risk w) risk'.
Proof.
  intros Hr. unfold on_risk. destruct w as [ags auth f [r|] s]; simpl in *.
  - destruct (aggregator_reset_run now wm r Hr) as (r' & p & -> & Hp & (v & ->) & Ho).
    exists (Some r'). split; [done|]. split; [|done]. by exists v, (default now (wm_baseline_at wm)).
  - exists None. done.
Qed.

Lemma on_authority_resume a w :
  exists auth', on_authority (resume_issuance a ENFORCEMENT) w =
    (mkCoordWorld (cw_agents w) auth' (cw_findings w) (cw_risk w) (cw_sessions w), Ok tt) /\
    (forall b, closed_planes b auth' =
       if decide (b = a) then closed_planes a (cw_authority w) ∖ {[ENFORCEMENT]}
       else closed_planes b (cw_authority w)) /\
    ea_outstanding auth' = ea_outstanding (cw_authority w) /\
    ea_revoked auth' = ea_revoked (cw_authority w).
Proof.
  pose proof (resume_spec a ENFORCEMENT (cw_authority w)) as (H1 & H2 & H3 & _).
  exists (resume_issuance a ENFORCEMENT (cw_authority w)).1.
  split_and!; [|done..]. unfold on_authority, zoom, resume_issuance.
  by destruct (dget a (ea_closed (cw_authority w))).
Qed.

(** ** Reinstatement *)

(** Reinstatement through the coordinator, completely.  It fails only for a blank actor
    or reason (checked first) or an agent that is not suspended, and then no store has
    changed.  Otherwise it succeeds: the suspension is cleared and the epoch and recovery
    generation advance by one, the stored baseline and the risk projection are both the
    watermark captured at the start (posture HEALTHY with no risk), the enforcement plane
    and only it is reopened, no grant becomes outstanding again, and the findings, the
    sessions, the administrative plane and every other agent's posture are untouched. *)
Theorem coordinator_reinstate_spec (a actor reason : string) (ag : Agent) (baseline_at : Z)
    (env : CallEnv) (w : CoordWorld) :
  aw_inv (cw_agents w) -> risk_ok (cw_risk w) ->
  agent_get a (aw_agents (cw_agents w)) = Some ag ->
  let wm := compose_watermark a baseline_at w in
  let enf := er_states (aw_enf (cw_agents w)) !! a in
  match reinstate a actor reason baseline_at env w with
  | (w', Err e) =>
      w' = w /\
      ((str_nonempty (str_strip actor) && str_nonempty (str_strip reason) = false /\ e = ValueError) \/
       (str_nonempty (str_strip actor) && str_nonempty (str_strip reason) = true /\
        is_suspended enf = false /\ e = AgentNotSuspendedError))
  | (w', Ok r) =>
      str_nonempty (str_strip actor) && str_nonempty (str_strip reason) = true /\
      is_suspended enf = true /\
      er_states (aw_enf (cw_agents w')) =
        <[a := reinstated a (Some wm) (env_now env) (default (initial_enforcement_state a) enf)]>
          (er_states (aw_enf (cw_agents w))) /\
      is_suspended (er_states (aw_enf (cw_agents w')) !! a) = false /\
      aw_adm (cw_agents w') = aw_adm (cw_agents w) /\
      r = with_status (project_status (ar_states (aw_adm (cw_agents w)) !! a)
                         (er_states (aw_enf (cw_agents w')) !! a)) ag /\
      risk_at_baseline wm (cw_risk w) (cw_risk w') /\
      (forall b, closed_planes b (cw_authority w') =
         if decide (b = a) then closed_planes a (cw_authority w) ∖ {[ENFORCEMENT]}
         else closed_planes b (cw_authority w)) /\
      ea_outstanding (cw_authority w') = ea_outstanding (cw_authority w) /\
      ea_revoked (cw_authority w') = ea_revoked (cw_authority w) /\
      cw_findings w' = cw_findings w /\ cw_sessions w' = cw_sessions w
  end.
Proof.
  intros Hinv Hr Hag wm enf. unfold reinstate. fold wm. unfold mbind, comp_bind, on_agents, zoom at 1.
  rewrite (reinstate_agent_run (cw_agents w) a ag actor reason (Some wm) env Hinv Hag). fold enf.
  destruct (str_nonempty (str_strip actor)), (str_nonempty (str_strip reason));
    cbn [negb orb andb]; try (split; [by destruct w|by left]).
  destruct (is_suspended enf) eqn:Hs; cbn [negb orb andb]; [|split; [by destruct w|right; done]].
  match goal with |- context [on_risk _ ?x] =>
    destruct (on_risk_reset baseline_at wm x Hr) as (risk' & -> & Hrisk) end.
  match goal with |- context [on_authority _ ?x] =>
    destruct (on_authority_resume a x) as (auth' & -> & Hcl & Ho & Hrev) end.
  rewrite (still_contained_run a ag) by done. simpl.
  rewrite lookup_insert_eq. simpl. unfold reinstate_finish; simpl in *.
  rewrite bool_decide_false.
  - simpl. rewrite lookup_insert_eq. done.
  - rewrite Hcl, decide_True by done. set_solver.
Qed.

(** ** Repair *)

(** Repair, completely.  A suspended agent is refused without effect.  Otherwise the
    enforcement plane is reopened and the call succeeds unless another plane still closes
    issuance, whatever the outcome the risk projection is reset to the stored baseline:
    HEALTHY with no risk, even when the findings store, which is untouched, holds evidence
    numbered above that baseline. *)
Theorem coordinator_repair_spec (a : string) (ag : Agent) (now : Z) (w : CoordWorld) :
  risk_ok (cw_risk w) -> agent_get a (aw_agents (cw_agents w)) = Some ag ->
  let enf := er_states (aw_enf (cw_agents w)) !! a in
  let e := default (initial_enforcement_state a) enf in
  let wm := mkWatermark a (es_baseline_at e) (es_baseline_evidence_sequence e)
              (es_baseline_agent_sequence e) in
  let '(w', r) := repair a now w in
  if is_suspended enf then w' = w /\ r = Err ReinstatementIncompleteError
  else
    r = (if bool_decide (closed_planes a (cw_authority w) ⊆ {[ENFORCEMENT]})
         then Ok (with_status (project_status (ar_states (aw_adm (cw_agents w)) !! a) enf) ag)
         else Err ReinstatementIncompleteError) /\
    cw_agents w' = cw_agents w /\ cw_findings w' = cw_findings w /\ cw_sessions w' = cw_sessions w /\
    risk_at_baseline wm (cw_risk w) (cw_risk w') /\
    closed_planes a (cw_authority w') = closed_planes a (cw_authority w) ∖ {[ENFORCEMENT]} /\
    ea_outstanding (cw_authority w') = ea_outstanding (cw_authority w).
Proof.
  intros Hr Hag enf e wm. unfold repair, on_agents, zoom, mbind, comp_bind.
  rewrite (get_agent_run a ag _ Hag). fold enf.
  assert (mkCoordWorld (cw_agents w) (cw_authority w) (cw_findings w) (cw_risk w) (cw_sessions w) = w)
    as -> by (by destruct w).
  rewrite (still_contained_run a ag _ Hag). fold enf. destruct (is_suspended enf); [done|].
  assert (exists risk', repair_projection a now w =
    (mkCoordWorld (cw_agents w) (cw_authority w) (cw_findings w) risk' (cw_sessions w), Ok tt) /\
    risk_at_baseline wm (cw_risk w) risk') as (risk' & -> & Hrisk).
  { unfold repair_projection. destruct (cw_risk w) as [r|] eqn:Hw.
    - unfold mbind, comp_bind, repair_watermark. rewrite (get_enforcement_state_run a ag _ Hag).
      fold enf e wm. rewrite <- Hw. apply on_risk_reset. by rewrite Hw.
    - exists None. split; [|done]. rewrite <- Hw. by destruct w. }
  match goal with |- context [on_authority _ ?x] =>
    destruct (on_authority_resume a x) as (auth' & -> & Hcl & Ho & Hrev) end.
  simpl in *. specialize (Hcl a). rewrite decide_True in Hcl by done.
  unfold repair_finish, issuance_suspended; simpl. rewrite Hcl.
  assert (closed_planes a (cw_authority w) ∖ {[ENFORCEMENT]} = ∅ <->
          closed_planes a (cw_authority w) ⊆ {[ENFORCEMENT]}) as Hiff.
  { split; [apply empty_difference_subseteq_L|apply subseteq_empty_difference_L]. }
  rewrite (bool_decide_ext _ _ Hiff). by case_bool_decide.
Qed.

(** ** Witnesses *)

Definition demo_findings : FindingsService :=
  (record_findings [sample_finding "f1" "s" "a" "R" SEV_CRITICAL 4] 4 (new_findings_service [] None)).1.
Definition demo_authority : ExecutionAuthority :=
  (suspend_issuance "a" ENFORCEMENT (mkAuthority "key" "authority-1" 30 [] [] [])).1.
Definition demo_world : CoordWorld :=
  mkCoordWorld (run_calls suspended_history empty_world) demo_authority (Some demo_findings)
    (Some (new_aggregator None)) None.

Lemma coordinator_reinstate_spec_witness :
  exists w' r, reinstate "a" "op-1" "cleared" 5 (env_at 9 "u9") demo_world = (w', Ok r) /\
    closed_planes "a" (cw_authority demo_world) = {[ENFORCEMENT]} /\
    closed_planes "a" (cw_authority w') = ∅ /\
    risk_at_baseline (mkWatermark "a" (Some 5) 1 0) (cw_risk demo_world) (cw_risk w').
Proof.
  pose proof (coordinator_reinstate_spec "a" "op-1" "cleared" (sample_agent "a") 5 (env_at 9 "u9")
    demo_world (run_calls_inv suspended_history empty_world empty_world_inv)
    (new_aggregator_inv true None) eq_refl) as H.
  destruct (reinstate "a" "op-1" "cleared" 5 (env_at 9 "u9") demo_world) as [w' [r|e]] eqn:Hr;
    [|vm_compute in Hr; discriminate].
  destruct H as (_ & _ & _ & _ & _ & _ & Hrisk & Hcl & _). exists w', r.
  split; [done|]. split; [by vm_compute|]. split; [|exact Hrisk].
  rewrite Hcl. by vm_compute.
Defined.

(** A contained agent's evidence, accumulated after its reinstatement, disappears from its
    posture when the agent is repaired. *)
Definition demo_repair_world : CoordWorld :=
  let w := (reinstate "a" "op-1" "cleared" 5 (env_at 9 "u9") demo_world).1 in
  let f := with_sequence 2 12 (sample_finding "f2" "s" "a" "R" SEV_CRITICAL 12) in
  mkCoordWorld (cw_agents w) (cw_authority w) (cw_findings w)
    ((fun r => (ingest_finding 12 f r).1) <$> cw_risk w) (cw_sessions w).

Definition demo_repair_calls : list (Z * RiskCall) :=
  [(5, RReset (mkWatermark "a" (Some 5) 1 0));
   (12, RIngest (with_sequence 2 12 (sample_finding "f2" "s" "a" "R" SEV_CRITICAL 12)))].

Lemma coordinator_repair_spec_witness :
  (exists p, (get_posture 13 "a" <$> cw_risk demo_repair_world) = Some (Ok p) /\
             p_risk_level p = RISK_CRITICAL) /\
  exists w' r, repair "a" 14 demo_repair_world = (w', Ok r) /\
    risk_at_baseline (mkWatermark "a" (Some 5) 1 0) (cw_risk demo_repair_world) (cw_risk w').
Proof.
  split; [eexists; split; by vm_compute|].
  assert (risk_ok (cw_risk demo_repair_world)) as Hok.
  { assert (cw_risk demo_repair_world = Some (risk_run demo_repair_calls (new_aggregator None)))
      as -> by (vm_compute; reflexivity).
    apply risk_run_inv; [apply new_aggregator_inv|by repeat constructor]. }
  pose proof (coordinator_repair_spec "a" (sample_agent "a") 14 demo_repair_world Hok eq_refl) as H.
  destruct (repair "a" 14 demo_repair_world) as [w' r] eqn:Hr.
  vm_compute in Hr. simplify_eq. vm_compute in H.
  eexists _, _. split; [by vm_compute|]. destruct H as (_ & _ & _ & _ & H & _). exact H.
Defined.
