(* ===== verification/ResourceIdentity.v ===== *)
(** * Filesystem resource identity (app/runtime/filesystem_resource_identity.py)

    The canonical, workspace-relative name of what a filesystem request targets.  The
    filesystem itself is a parameter: which paths exist, what they resolve to, what a
    directory lists and which names are the same file.  The walks up the ancestors are
    structural on the components of the path, so they end at the root. *)

From S2P Require Import Prelude PyDict Json Paths.
Local Open Scope Z_scope.

(** [pathlib.PureWindowsPath(path).is_absolute()] for a text without backslashes: a drive
    letter followed by a root, or a UNC-style double slash. *)
Definition windows_is_absolute (s : string) : bool :=
  match s with
  | String "/" (String "/" _) => true
  | String "/" rel =>
      match List.filter kept_component (str_split SLASH rel) with
      | x :: _ :: _ => bool_decide (x = ":"%string)
      | _ => false
      end
  | String _ (String ":" (String "/" _)) => true
  | _ => false
  end.

(** [_validate_relative_parent_segments], over the components. *)
Fixpoint validate_segments (depth : Z) (components : list string) : result unit :=
  match components with
  | [] => Ok tt
  | c :: cs =>
      if bool_decide (c = EmptyString) || bool_decide (c = "."%string)
      then validate_segments depth cs
      else if bool_decide (c = ".."%string)
      then if depth =? 0 then Err FilesystemResourceIdentityError
           else validate_segments (depth - 1) cs
      else validate_segments (depth + 1) cs
  end.

Definition validate_relative_parent_segments (path : string) : result unit :=
  validate_segments 0 (str_split SLASH path).

Definition casefold_eq (x y : string) : bool := bool_decide (str_lower x = str_lower y).

(** [all(components[i].casefold() == root[i].casefold() for i in range(comparable))] *)
Fixpoint same_casefold_prefix (components root : list string) : bool :=
  match components, root with
  | c :: cs, r :: rs => casefold_eq c r && same_casefold_prefix cs rs
  | _, _ => true
  end.

Definition validate_absolute_parent_segments (path : string) (root : Path) : result unit :=
  let components := path_parts (parse_path path) in
  let root_components := path_parts root in
  if same_casefold_prefix components root_components
     && (length root_components <=? length components)%nat
  then validate_relative_parent_segments
         (join "/" (drop (length root_components) components))
  else if bool_decide (".."%string ∈ components) then Err FilesystemResourceIdentityError
  else Ok tt.

(** [except (OSError, RuntimeError, ValueError)]: which exceptions the last clause catches. *)
Definition is_value_error (e : exn) : bool :=
  match e with ValueError | FilesystemResourceIdentityError => true | _ => false end.

Section resolver.
(** [exists], [is_symlink], [resolve(strict=True)], [samefile] and the names [scandir]
    yields; [None] is an [OSError]. *)
Context (path_exists path_is_symlink path_is_dir : Path -> bool)
        (realpath : Path -> result Path)
        (samefile : Path -> Path -> option bool)
        (scandir : Path -> option (list string)).

(** [__init__] *)
Definition new_resolver (workspace_root : string) : result Path :=
  match realpath (parse_path workspace_root) with
  | Ok root => if path_is_dir root then Ok root else Err FilesystemResourceIdentityError
  | Err e =>
      match e with
      | RuntimeError | FilesystemResourceIdentityError => Err FilesystemResourceIdentityError
      | _ => if is_os_error e then Err FilesystemResourceIdentityError else Err e
      end
  end.

Section at_root.
Context (workspace_root : Path).

Definition present (p : Path) : bool := path_exists p || path_is_symlink p.

Definition require_inside (p : Path) : result Path :=
  if is_relative_to p workspace_root then Ok p else Err FilesystemResourceIdentityError.

(** The first loop of [_filesystem_spelling]: the paths below the workspace root, from the
    target upwards.  [rev_parts] are the components still above, last first. *)
Fixpoint spelling_ancestors (root : string) (rev_parts : list string) : result (list Path) :=
  let current := mkPath root (reverse rev_parts) in
  match samefile current workspace_root with
  | None => Err FilesystemResourceIdentityError
  | Some true => Ok []
  | Some false =>
      match rev_parts with
      | [] => Err FilesystemResourceIdentityError
      | _ :: up => ancestors ← spelling_ancestors root up; mret (current :: ancestors)
      end
  end.

(** One iteration of the second loop. *)
Definition spell_component (current requested : Path) : result Path :=
  let component := path_name requested in
  match scandir current with
  | None => Err FilesystemResourceIdentityError
  | Some entries =>
      match List.filter (fun n => bool_decide (n = component)) entries with
      | exact :: _ => Ok (joinpath current [exact])
      | [] =>
          match List.filter (fun n =>
                  default false (samefile requested (joinpath current [n]))) entries with
          | [matching] => Ok (joinpath current [matching])
          | _ => Err FilesystemResourceIdentityError
          end
      end
  end.

Fixpoint spell_all (current : Path) (requested : list Path) : result Path :=
  match requested with
  | [] => Ok current
  | r :: rs => next ← spell_component current r; spell_all next rs
  end.

Definition filesystem_spelling (p : Path) : result Path :=
  ancestors ← spelling_ancestors (p_root p) (reverse (p_parts p));
  spell_all workspace_root (reverse ancestors).

Definition resolve_existing (p : Path) : result Path :=
  resolved ← realpath p; filesystem_spelling resolved.

(** The [while] loop: the nearest present ancestor and the components below it. *)
Fixpoint nearest_ancestor (root : string) (rev_parts : list string) (suffix : list string)
  : result (Path * list string) :=
  let ancestor := mkPath root (reverse rev_parts) in
  if present ancestor then Ok (ancestor, suffix)
  else match rev_parts with
       | [] => Err FilesystemResourceIdentityError
       | name :: up => nearest_ancestor root up (name :: suffix)
       end.

(** One iteration over the missing suffix. *)
Definition extend_missing (current : Path) (component : string) : result Path :=
  if bool_decide (component = EmptyString) || bool_decide (component = "."%string)
  then Ok current
  else if bool_decide (component = ".."%string) then require_inside (path_parent current)
  else
    let next_path := joinpath current [component] in
    if present next_path then resolved ← resolve_existing next_path; require_inside resolved
    else require_inside next_path.

Fixpoint extend_all (current : Path) (suffix : list string) : result Path :=
  match suffix with
  | [] => Ok current
  | c :: cs => next ← extend_missing current c; extend_all next cs
  end.

Definition resolve_existing_or_missing (candidate : Path) : result Path :=
  if present candidate then resolve_existing candidate
  else
    '(ancestor, suffix) ← nearest_ancestor (p_root candidate) (reverse (p_parts candidate)) [];
    resolved ← resolve_existing ancestor;
    current ← require_inside resolved;
    extend_all current suffix.

(** The [try] of [canonicalize]: every failure it catches becomes a refusal. *)
Definition resolved_relative (candidate : Path) : result (list string) :=
  match (resolved ← resolve_existing_or_missing candidate;
         relative_to resolved workspace_root) with
  | Ok relative => Ok relative
  | Err e =>
      if is_os_error e || is_value_error e || bool_decide (e = RuntimeError)
      then Err FilesystemResourceIdentityError else Err e
  end.

Definition identity_of (relative : list string) : string :=
  match relative with [] => "." | parts => join "/" parts end.

Definition canonicalize (path : string) : result string :=
  if negb (str_nonempty path) then Err FilesystemResourceIdentityError
  else if has_char "000"%char path then Err FilesystemResourceIdentityError
  else if has_char "092"%char path || windows_is_absolute path
  then Err FilesystemResourceIdentityError
  else
    let request_path := parse_path path in
    candidate ←
      (if is_absolute request_path
       then _ ← validate_absolute_parent_segments path workspace_root; mret request_path
       else _ ← validate_relative_parent_segments path;
            mret (joinpath workspace_root (path_parts request_path)));
    relative ← resolved_relative candidate;
    mret (identity_of relative).

Definition resolve_for_execution (identity : string) : result Path :=
  current ← canonicalize identity;
  if bool_decide (current <> identity) then Err FilesystemResourceIdentityError
  else resolve_existing (joinpath workspace_root (path_parts (parse_path identity))).
End at_root.
End resolver.

(** ** Lexical validation *)

(** How far a list of components ends up below where it started. *)
Definition step_depth (c : string) : Z :=
  if bool_decide (c = EmptyString) || bool_decide (c = "."%string) then 0
  else if bool_decide (c = ".."%string) then -1 else 1.

Lemma validate_segments_iff depth cs :
  0 <= depth ->
  validate_segments depth cs = Ok tt <-> forall n, 0 <= depth + sum_of step_depth (take n cs).
Proof.
  revert depth. induction cs as [|c cs IH]; intros depth Hd; cbn [validate_segments].
  - split; [|done]. intros _ n. rewrite take_nil. simpl. lia.
  - assert (Hs : (forall n, 0 <= depth + sum_of step_depth (take n (c :: cs))) <->
                 forall n, 0 <= depth + (step_depth c + sum_of step_depth (take n cs))).
    { split; [intros H n; exact (H (S n))|]. intros H [|n]; [simpl; lia|exact (H n)]. }
    rewrite Hs. clear Hs. unfold step_depth at 1.
    destruct (bool_decide (c = EmptyString) || bool_decide (c = "."%string)).
    { rewrite IH by done. split; intros Hb k; specialize (Hb k); lia. }
    destruct (bool_decide (c = ".."%string)); [destruct (Z.eqb_spec depth 0) as [->|]|].
    + split; [done|]. intros Hb. specialize (Hb 0%nat). simpl in Hb. lia.
    + rewrite IH by lia. split; intros Hb k; specialize (Hb k); lia.
    + rewrite IH by lia. split; intros Hb k; specialize (Hb k); lia.
Qed.

Lemma validate_segments_result depth cs :
  validate_segments depth cs = Ok tt \/
  validate_segments depth cs = Err FilesystemResourceIdentityError.
Proof.
  revert depth. induction cs as [|c cs IH]; intros depth; simpl; [by left|].
  repeat case_match; auto.
Qed.

(** ** Containment *)

Lemma component_proper c :
  kept_component c = true -> has_char SLASH c = false -> c <> ".."%string -> proper_name c.
Proof.
  unfold kept_component. rewrite andb_true_iff, negb_true_iff, bool_decide_eq_false.
  intros [Hn Hd] Hs Hu. split_and!; try done. by intros ->.
Qed.

(** A component as [parse_path] leaves it. *)
Definition parsed_component (c : string) : Prop :=
  kept_component c = true /\ has_char SLASH c = false.

Lemma proper_parsed c : proper_name c -> parsed_component c.
Proof.
  intros (H1 & H2 & _ & H4). split; [|done]. unfold kept_component.
  rewrite bool_decide_false by done. by destruct c.
Qed.

Lemma parse_path_components s : Forall parsed_component (p_parts (parse_path s)).
Proof.
  unfold parse_path. destruct (split_root s) as [root rel]. simpl.
  rewrite Forall_forall. intros c [Hc Hk]%filter_elem. split; [done|].
  by eapply str_split_no_sep.
Qed.

Lemma require_inside_Ok root p q : require_inside root p = Ok q <-> q = p /\ is_relative_to p root = true.
Proof. unfold require_inside. destruct (is_relative_to p root); naive_solver. Qed.

Lemma nearest_ancestor_suffix path_exists path_is_symlink r rev suffix a s :
  nearest_ancestor path_exists path_is_symlink r rev suffix = Ok (a, s) ->
  Forall parsed_component rev -> Forall parsed_component suffix -> Forall parsed_component s.
Proof.
  revert suffix. induction rev as [|x rev IH]; intros suffix; simpl;
    (destruct (present _ _ _); [by intros [= _ <-]|]); [done|].
  intros Hn Hr Hs. apply Forall_cons in Hr as [? ?]. apply (IH _ Hn); [done|]. by constructor.
Qed.

Section containment.
Context (path_exists path_is_symlink : Path -> bool)
        (realpath : Path -> result Path)
        (samefile : Path -> Path -> option bool)
        (scandir : Path -> option (list string)).
(** [os.scandir] yields directory entries, never "." or "..". *)
Context (scandir_names : forall p names n, scandir p = Some names -> n ∈ names -> proper_name n).
Context (root : Path) (root_proper : Forall proper_name (p_parts root)).

Local Abbreviation spelling := (filesystem_spelling samefile scandir root).
Local Abbreviation existing := (resolve_existing realpath samefile scandir root).
Local Abbreviation extend :=
  (extend_missing path_exists path_is_symlink realpath samefile scandir root).
Local Abbreviation extends_all :=
  (extend_all path_exists path_is_symlink realpath samefile scandir root).
Local Abbreviation canonical :=
  (canonicalize path_exists path_is_symlink realpath samefile scandir root).

(** A path the workspace contains, named by proper components below its root. *)
Definition below (p : Path) : Prop :=
  exists names, p = joinpath root names /\ Forall proper_name names.

Lemma below_root : below root.
Proof. exists []. split; [|done]. unfold joinpath. rewrite app_nil_r. by destruct root. Qed.

Lemma below_join p names : below p -> Forall proper_name names -> below (joinpath p names).
Proof.
  intros (l & -> & Hl) Hn. exists (l ++ names). split; [|by apply Forall_app].
  unfold joinpath. simpl. by rewrite app_assoc.
Qed.

Lemma below_inside p : below p -> is_relative_to p root = true.
Proof. intros (names & -> & _). apply is_relative_to_join. Qed.

Lemma below_relative p names : below p -> relative_to p root = Ok names -> Forall proper_name names.
Proof.
  intros (l & -> & Hl) (_ & Hp)%relative_to_Ok. simpl in Hp. by apply app_inv_head in Hp as <-.
Qed.

Lemma spell_component_below current requested p :
  below current -> spell_component samefile scandir current requested = Ok p -> below p.
Proof.
  intros Hc. unfold spell_component. destruct (scandir current) as [names|] eqn:Hn; [|done].
  assert (forall n f l, List.filter f names = n :: l -> below (joinpath current [n])) as Hin.
  { intros n f l Hf. apply below_join; [done|]. constructor; [|done].
    apply (scandir_names _ _ _ Hn). assert (n ∈ List.filter f names) as Hm by (rewrite Hf; set_solver).
    by apply filter_elem in Hm as [? _]. }
  case_match eqn:He; [clear He; case_match eqn:Hm; [done|]; case_match; [|done]|];
    intros [= <-]; by eapply Hin.
Qed.

Lemma spell_all_below requested current p :
  below current -> spell_all samefile scandir current requested = Ok p -> below p.
Proof.
  revert current. induction requested as [|r rs IH]; intros current Hc; simpl; [by intros [= <-]|].
  destruct (spell_component samefile scandir current r) as [next|] eqn:Hs; simpl; [|done].
  apply IH. by eapply spell_component_below.
Qed.

Lemma spelling_below p q : spelling p = Ok q -> below q.
Proof.
  unfold filesystem_spelling. destruct (spelling_ancestors _ _ _ _) as [a|]; simpl; [|done].
  apply spell_all_below, below_root.
Qed.

Lemma existing_below p q : existing p = Ok q -> below q.
Proof.
  unfold resolve_existing. destruct (realpath p) as [r|]; simpl; [|done]. apply spelling_below.
Qed.

Lemma below_parent p q : below p -> require_inside root (path_parent p) = Ok q -> below q.
Proof.
  intros (names & -> & Hn) (-> & Hi)%require_inside_Ok. unfold path_parent, joinpath in *. simpl in *.
  destruct (decide (names = [])) as [->|Hne].
  - apply is_relative_to_iff in Hi as (_ & r & Hr). simpl in Hr. rewrite app_nil_r in *.
    exists r. split; [|].
    + unfold joinpath. by rewrite <- Hr.
    + assert (length (removelast (p_parts root)) = (length (p_parts root) + length r)%nat) as Hl
        by (rewrite Hr, length_app; done).
      assert (length (removelast (p_parts root)) <= length (p_parts root))%nat as Hle.
      { clear. induction (p_parts root) as [|x [|y l] IH]; simpl in *; lia. }
      destruct r; [constructor|simpl in Hl; lia].
  - exists (removelast names). split; [|].
    + unfold joinpath. by rewrite removelast_app.
    + rewrite (app_removelast_last EmptyString Hne) in Hn. by apply Forall_app in Hn as [? _].
Qed.

Lemma extend_below current c p :
  below current -> parsed_component c -> extend current c = Ok p -> below p.
Proof.
  intros Hc [Hk Hs]. unfold extend_missing. repeat case_bool_decide; simpl; try by intros [= <-].
  - by apply below_parent.
  - case_match.
    + destruct (resolve_existing _ _ _ _ _) as [q|] eqn:Hq; simpl; [|done].
      intros (-> & _)%require_inside_Ok. by eapply existing_below.
    + intros (-> & _)%require_inside_Ok. apply below_join; [done|].
      constructor; [|done]. by apply component_proper.
Qed.

Lemma extend_all_below suffix current p :
  below current -> Forall parsed_component suffix -> extends_all current suffix = Ok p -> below p.
Proof.
  revert current. induction suffix as [|c cs IH]; intros current Hc Hs; simpl; [by intros [= <-]|].
  apply Forall_cons in Hs as [Hp Hs].
  destruct (extend current c) as [next|] eqn:He; simpl; [|done].
  apply IH; [|done]. by eapply extend_below.
Qed.

Lemma resolve_any_below candidate p :
  Forall parsed_component (p_parts candidate) ->
  resolve_existing_or_missing path_exists path_is_symlink realpath samefile scandir root candidate
  = Ok p -> below p.
Proof.
  intros Hc. unfold resolve_existing_or_missing. case_match; [apply existing_below|].
  destruct (nearest_ancestor _ _ _ _ _) as [[a s]|] eqn:Hn; simpl; [|done].
  destruct (existing a) as [q|] eqn:Hq; simpl; [|done].
  destruct (require_inside root q) as [q'|] eqn:Hi; simpl; [|done].
  apply require_inside_Ok in Hi as [-> _]. apply extend_all_below; [by eapply existing_below|].
  eapply nearest_ancestor_suffix; [exact Hn|by apply Forall_reverse|constructor].
Qed.

Lemma canonical_names path id :
  canonical path = Ok id ->
  exists names, id = identity_of names /\ Forall proper_name names /\
    (is_absolute (parse_path path) = false -> validate_relative_parent_segments path = Ok tt).
Proof.
  unfold canonicalize. do 3 (case_match; [done|]). cbv zeta.
  assert (forall c, Forall parsed_component (p_parts c) ->
    (relative ← resolved_relative path_exists path_is_symlink realpath samefile scandir root c;
     mret (identity_of relative)) = Ok id ->
    exists names, id = identity_of names /\ Forall proper_name names) as Hgo.
  { intros c Hc. unfold resolved_relative.
    destruct (resolve_existing_or_missing _ _ _ _ _ _ c) as [p|] eqn:Hp; simpl;
      [|by case_match].
    destruct (relative_to p root) as [names|] eqn:Hr; simpl; [|by case_match].
    intros [= <-]. exists names. split; [done|]. eapply below_relative; [|exact Hr].
    by eapply resolve_any_below. }
  destruct (is_absolute (parse_path path)) eqn:Ha.
  - destruct (validate_absolute_parent_segments path root) as [[]|]; simpl; [|done].
    intros Hid. destruct (Hgo _ (parse_path_components path) Hid) as (names & ? & ?). by exists names.
  - destruct (validate_relative_parent_segments path) as [[]|] eqn:Hv; simpl; [|done].
    intros Hid. destruct (Hgo (joinpath root (path_parts (parse_path path)))) as (names & ? & ?); [|done|by exists names].
    simpl. unfold path_parts. rewrite Ha. apply Forall_app. split; [|apply parse_path_components].
    eapply Forall_impl; [exact root_proper|apply proper_parsed].
Qed.
End containment.

(** ** Stability *)

Lemma path_eta p : mkPath (p_root p) (p_parts p) = p.
Proof. by destruct p. Qed.

Lemma reverse_joined (root : Path) l x :
  reverse (p_parts root ++ (l ++ [x])) = x :: reverse (p_parts root ++ l).
Proof. by rewrite app_assoc, reverse_snoc. Qed.

Lemma path_parent_join p l x : path_parent (joinpath p (l ++ [x])) = joinpath p l.
Proof.
  unfold path_parent, joinpath; simpl. by rewrite app_assoc, removelast_last.
Qed.

Lemma path_name_join p l x : path_name (joinpath p (l ++ [x])) = x.
Proof. unfold path_name, joinpath; simpl. by rewrite app_assoc, last_last. Qed.

Lemma joinpath_app p l1 l2 : joinpath (joinpath p l1) l2 = joinpath p (l1 ++ l2).
Proof. unfold joinpath; simpl. by rewrite app_assoc. Qed.

Lemma joinpath_nil p : joinpath p [] = p.
Proof. unfold joinpath. rewrite app_nil_r. by destruct p. Qed.

Lemma joinpath_inj p l1 l2 : joinpath p l1 = joinpath p l2 -> l1 = l2.
Proof. unfold joinpath. intros [= H]. by apply app_inv_head in H. Qed.

Lemma spell_all_snoc samefile scandir current l r :
  spell_all samefile scandir current (l ++ [r]) =
  (next ← spell_all samefile scandir current l; spell_component samefile scandir next r).
Proof.
  revert current. induction l as [|x l IH]; intros current; simpl.
  - by destruct (spell_component _ _ _ _).
  - destruct (spell_component samefile scandir current x); simpl; [apply IH|done].
Qed.

Section stability.
Context (path_exists path_is_symlink : Path -> bool)
        (realpath : Path -> result Path)
        (samefile : Path -> Path -> option bool)
        (scandir : Path -> option (list string))
        (root : Path).

(** A filesystem that does not change while it is asked, with case-sensitive names: a
    resolved path resolves to itself and is present, so is its parent, which lists it; only
    the workspace root is the same file as itself among the resolved paths below it; an
    entry is present only in a present directory. *)
Record StableFilesystem : Prop := {
  fs_names : forall p names n, scandir p = Some names -> n ∈ names -> proper_name n;
  fs_resolved : forall p q, realpath p = Ok q ->
    realpath q = Ok q /\ present path_exists path_is_symlink q = true;
  fs_parent : forall p x, realpath (joinpath p [x]) = Ok (joinpath p [x]) -> realpath p = Ok p;
  fs_listed : forall l x, realpath (joinpath root (l ++ [x])) = Ok (joinpath root (l ++ [x])) ->
    exists names, scandir (joinpath root l) = Some names /\ x ∈ names;
  fs_samefile : forall p, realpath p = Ok p -> samefile p root = Some (bool_decide (p = root));
  fs_child : forall p c, present path_exists path_is_symlink (joinpath p [c]) = true ->
    present path_exists path_is_symlink p = true;
  fs_root : realpath root = Ok root;
  fs_root_proper : Forall proper_name (p_parts root);
}.

Context (fs : StableFilesystem).

Local Abbreviation existing := (resolve_existing realpath samefile scandir root).
Local Abbreviation extend :=
  (extend_missing path_exists path_is_symlink realpath samefile scandir root).
Local Abbreviation extends_all :=
  (extend_all path_exists path_is_symlink realpath samefile scandir root).
Local Abbreviation resolve_any :=
  (resolve_existing_or_missing path_exists path_is_symlink realpath samefile scandir root).
Local Abbreviation canonical :=
  (canonicalize path_exists path_is_symlink realpath samefile scandir root).
Local Abbreviation is_present := (present path_exists path_is_symlink).

Definition resolved (p : Path) : Prop := realpath p = Ok p.

Lemma resolved_parent l x :
  resolved (joinpath root (l ++ [x])) -> resolved (joinpath root l).
Proof. intros Hr. rewrite <- joinpath_app in Hr. exact (fs_parent fs _ _ Hr). Qed.

Lemma resolved_spelling l :
  resolved (joinpath root l) ->
  filesystem_spelling samefile scandir root (joinpath root l) = Ok (joinpath root l).
Proof.
  unfold filesystem_spelling. change (p_root (joinpath root l)) with (p_root root).
  change (p_parts (joinpath root l)) with (p_parts root ++ l).
  induction l as [|x l IH] using rev_ind; intros Hr.
  - rewrite joinpath_nil in *. rewrite app_nil_r.
    destruct (reverse (p_parts root)) as [|y ys] eqn:Hrev; cbn [spelling_ancestors];
      rewrite <- Hrev, reverse_involutive.
    all: rewrite path_eta.
    all: by rewrite (fs_samefile fs _ Hr), bool_decide_true.
  - destruct (fs_listed fs _ _ Hr) as (names & Hn & Hx). specialize (IH (resolved_parent _ _ Hr)).
    rewrite reverse_joined. cbn [spelling_ancestors].
    rewrite reverse_cons, reverse_involutive, <- app_assoc.
    change (mkPath (p_root root) (p_parts root ++ l ++ [x])) with (joinpath root (l ++ [x])).
    rewrite (fs_samefile fs _ Hr), bool_decide_false.
    2: { intros He. rewrite <- (joinpath_nil root) in He at 2. apply joinpath_inj in He.
         by destruct l. }
    destruct (spelling_ancestors _ _ _ _) as [a|] eqn:Ha; simpl in *; [|done].
    rewrite reverse_cons, spell_all_snoc, IH. simpl.
    unfold spell_component. rewrite Hn, path_name_join.
    destruct (List.filter (fun n => bool_decide (n = x)) names) as [|y ys] eqn:Hf.
    + exfalso. assert (x ∈ List.filter (fun n => bool_decide (n = x)) names) as Hin;
        [|by rewrite Hf in Hin; set_solver].
      apply filter_elem. by rewrite bool_decide_eq_true.
    + assert (y ∈ List.filter (fun n => bool_decide (n = x)) names) as Hin
        by (rewrite Hf; set_solver).
      apply filter_elem in Hin as [_ ->%bool_decide_eq_true]. by rewrite joinpath_app.
Qed.

Lemma existing_of_resolved l :
  resolved (joinpath root l) -> existing (joinpath root l) = Ok (joinpath root l).
Proof. intros Hr. unfold resolve_existing. rewrite Hr. simpl. by apply resolved_spelling. Qed.

(** Spelling a resolved path succeeds only below the root. *)
Lemma spelling_ancestors_below r parts a :
  resolved (mkPath r parts) -> spelling_ancestors samefile root r (reverse parts) = Ok a ->
  exists l, mkPath r parts = joinpath root l.
Proof.
  revert a. induction parts as [|x parts IH] using rev_ind; intros a Hr;
    rewrite ?reverse_snoc, ?reverse_nil; cbn [spelling_ancestors];
    rewrite ?reverse_nil, ?reverse_cons, ?reverse_involutive, (fs_samefile fs _ Hr).
  all: case_bool_decide as He; [intros _; exists []; by rewrite joinpath_nil|].
  { done. }
  destruct (spelling_ancestors _ _ _ _) as [a'|] eqn:Ha; simpl; [|done]. intros _.
  assert (resolved (mkPath r parts)) as Hp by exact (fs_parent fs (mkPath r parts) x Hr).
  destruct (IH _ Hp eq_refl) as (l & Hl). exists (l ++ [x]).
  change (mkPath r (parts ++ [x])) with (joinpath (mkPath r parts) [x]).
  by rewrite Hl, joinpath_app.
Qed.

Lemma existing_resolved p q :
  existing p = Ok q -> exists l, q = joinpath root l /\ resolved q /\ is_present q = true.
Proof.
  unfold resolve_existing. destruct (realpath p) as [r|] eqn:Hp; simpl; [|done].
  destruct (fs_resolved fs _ _ Hp) as [Hr Hpr]. destruct r as [rr parts]. intros Hs.
  destruct (spelling_ancestors samefile root rr (reverse parts)) as [a|] eqn:Ha.
  - destruct (spelling_ancestors_below _ _ _ Hr Ha) as (l & Hl). rewrite Hl in *.
    rewrite resolved_spelling in Hs by done. simplify_eq. by exists l.
  - unfold filesystem_spelling in Hs. simpl in Hs. by rewrite Ha in Hs.
Qed.

(** A canonical target: a resolved directory or file below the root, and below it names
    none of which is present. *)
Definition settled (q : Path) : Prop :=
  exists l s, q = joinpath root (l ++ s) /\ resolved (joinpath root l) /\
    Forall proper_name (l ++ s) /\
    forall k, (0 < k <= length s)%nat -> is_present (joinpath root (l ++ take k s)) = false.

Lemma settled_present l : resolved (joinpath root l) -> Forall proper_name l -> settled (joinpath root l).
Proof.
  intros Hr Hl. exists l, []. rewrite app_nil_r. split_and!; [done..|]. simpl. lia.
Qed.

Lemma absent_child p l c : is_present (joinpath p l) = false -> is_present (joinpath p (l ++ [c])) = false.
Proof.
  intros Ha. destruct (is_present (joinpath p (l ++ [c]))) eqn:Hc; [|done].
  rewrite <- joinpath_app in Hc. apply (fs_child fs) in Hc. congruence.
Qed.

Lemma resolved_is_present l : resolved (joinpath root l) -> is_present (joinpath root l) = true.
Proof. intros Hr. by apply (fs_resolved fs _ _ Hr). Qed.

Lemma existing_settled p q : existing p = Ok q -> settled q.
Proof.
  intros He. destruct (existing_resolved _ _ He) as (l & -> & Hr & _).
  apply settled_present; [done|].
  destruct (existing_below path_exists path_is_symlink realpath samefile scandir (fs_names fs)
    root (fs_root_proper fs) _ _ He) as (l' & Hl & Hp).
  by apply joinpath_inj in Hl as ->.
Qed.

Lemma settled_parent q p :
  settled q -> require_inside root (path_parent q) = Ok p -> settled p.
Proof.
  intros (l & s & -> & Hr & Hp & Hs). destruct s as [|x s _] using rev_ind.
  - rewrite app_nil_r in *. destruct l as [|x l _] using rev_ind.
    + intros (-> & Hi)%require_inside_Ok. rewrite joinpath_nil in *.
      apply is_relative_to_iff in Hi as (_ & r & Hl). unfold path_parent in Hl. simpl in Hl.
      destruct (p_parts root) as [|y ys] eqn:Hparts using rev_ind.
      * unfold path_parent. rewrite Hparts. simpl. rewrite <- Hparts.
        rewrite path_eta. pose proof (settled_present []) as Hset. rewrite joinpath_nil in Hset.
        by apply Hset.
      * rewrite removelast_last in Hl. apply (f_equal length) in Hl.
        rewrite !length_app in Hl. simpl in Hl. lia.
    + rewrite path_parent_join. intros (-> & _)%require_inside_Ok.
      apply Forall_app in Hp as [Hp _]. apply settled_present; [|done]. by eapply resolved_parent.
  - rewrite app_assoc, path_parent_join. intros (-> & _)%require_inside_Ok.
    exists l, s. rewrite app_assoc in Hp. apply Forall_app in Hp as [Hp _]. split_and!; [done..|].
    intros k Hk. specialize (Hs k). rewrite take_app_le in Hs by lia. apply Hs.
    rewrite length_app. lia.
Qed.

Lemma settled_absent l s :
  (forall k, (0 < k <= length s)%nat -> is_present (joinpath root (l ++ take k s)) = false) ->
  s <> [] -> is_present (joinpath root (l ++ s)) = false.
Proof.
  intros Hs Hn. specialize (Hs (length s)). rewrite firstn_all in Hs. apply Hs.
  destruct s; simpl in *; [done|lia].
Qed.

Lemma extend_settled current c p :
  settled current -> parsed_component c -> extend current c = Ok p -> settled p.
Proof.
  intros Hc [Hk Hsl]. unfold extend_missing.
  repeat case_bool_decide; simpl; try (by intros [= <-]); try (by apply settled_parent).
  destruct (is_present (joinpath current [c])) eqn:Hpr.
  - destruct (resolve_existing _ _ _ _ _) as [q|] eqn:Hq; simpl; [|done].
    intros (-> & _)%require_inside_Ok. by eapply existing_settled.
  - intros (-> & _)%require_inside_Ok. destruct Hc as (l & s & -> & Hr & Hp & Hs).
    rewrite joinpath_app, <- app_assoc in *. exists l, (s ++ [c]). split_and!; [done..| |].
    + rewrite app_assoc. apply Forall_app. split; [done|]. constructor; [|done].
      by apply component_proper.
    + intros k Hkk. rewrite length_app in Hkk. simpl in Hkk.
      destruct (decide (k = length s + 1)%nat) as [->|].
      * by rewrite take_ge by (rewrite length_app; simpl; lia).
      * rewrite take_app_le by lia. apply Hs. lia.
Qed.

Lemma extend_all_settled suffix current p :
  settled current -> Forall parsed_component suffix -> extends_all current suffix = Ok p -> settled p.
Proof.
  revert current. induction suffix as [|c cs IH]; intros current Hc Hs; simpl; [by intros [= <-]|].
  apply Forall_cons in Hs as [Hp Hs]. destruct (extend current c) as [next|] eqn:He; simpl; [|done].
  apply IH; [|done]. by eapply extend_settled.
Qed.

Lemma resolve_any_settled candidate p :
  Forall parsed_component (p_parts candidate) -> resolve_any candidate = Ok p -> settled p.
Proof.
  intros Hc. unfold resolve_existing_or_missing. destruct (is_present candidate).
  { apply existing_settled. }
  destruct (nearest_ancestor _ _ _ _ _) as [[a s]|] eqn:Hn; simpl; [|done].
  destruct (existing a) as [q|] eqn:Hq; simpl; [|done].
  destruct (require_inside root q) as [q'|] eqn:Hi; simpl; [|done].
  apply require_inside_Ok in Hi as [-> _]. apply extend_all_settled; [by eapply existing_settled|].
  eapply nearest_ancestor_suffix; [exact Hn|by apply Forall_reverse|constructor].
Qed.

(** The walk up from an absent settled target stops at its resolved part. *)
Lemma nearest_settled l s suffix :
  is_present (joinpath root l) = true ->
  (forall k, (0 < k <= length s)%nat -> is_present (joinpath root (l ++ take k s)) = false) ->
  nearest_ancestor path_exists path_is_symlink (p_root root) (reverse (p_parts root ++ (l ++ s)))
    suffix = Ok (joinpath root l, s ++ suffix).
Proof.
  intros Hl. revert suffix. induction s as [|x s IH] using rev_ind; intros suffix Hs.
  - rewrite app_nil_r. simpl. destruct (reverse (p_parts root ++ l)) eqn:Hrev;
      cbn [nearest_ancestor]; rewrite <- Hrev, reverse_involutive;
      change (mkPath (p_root root) (p_parts root ++ l)) with (joinpath root l); by rewrite Hl.
  - rewrite (app_assoc l), reverse_joined. cbn [nearest_ancestor].
    rewrite reverse_cons, reverse_involutive, <- !app_assoc.
    change (mkPath (p_root root) (p_parts root ++ l ++ s ++ [x])) with (joinpath root (l ++ s ++ [x])).
    rewrite (settled_absent l (s ++ [x]) Hs) by (by destruct s).
    rewrite IH; [done|]. intros k Hk. specialize (Hs k).
    rewrite take_app_le in Hs by lia. apply Hs. rewrite length_app. simpl. lia.
Qed.

Lemma extend_absent l s t :
  resolved (joinpath root l) -> Forall proper_name t ->
  (forall k, (0 < k <= length (s ++ t))%nat ->
     is_present (joinpath root (l ++ take k (s ++ t))) = false) ->
  extends_all (joinpath root (l ++ s)) t = Ok (joinpath root (l ++ s ++ t)).
Proof.
  intros Hr. revert s. induction t as [|c t IH]; intros s Ht Hs; simpl; [by rewrite app_nil_r|].
  apply Forall_cons in Ht as [Hc Ht]. unfold extend_missing. destruct Hc as (H1 & H2 & H3 & H4).
  rewrite !bool_decide_false by done. simpl. rewrite joinpath_app, <- app_assoc.
  assert (is_present (joinpath root (l ++ s ++ [c])) = false) as ->.
  { specialize (Hs (S (length s))). rewrite take_app, take_ge in Hs by lia.
    replace (S (length s) - length s)%nat with 1%nat in Hs by lia. simpl in Hs. rewrite take_0 in Hs.
    apply Hs. rewrite length_app. simpl. lia. }
  unfold require_inside. rewrite is_relative_to_join. simpl.
  rewrite cons_middle, app_assoc in Hs. specialize (IH (s ++ [c]) Ht Hs).
  rewrite IH. by rewrite <- app_assoc.
Qed.

Lemma settled_resolves q : settled q -> resolve_any q = Ok q.
Proof.
  intros (l & s & -> & Hr & Hp & Hs). unfold resolve_existing_or_missing.
  destruct (decide (s = [])) as [->|Hn].
  - rewrite app_nil_r. rewrite resolved_is_present by done. by apply existing_of_resolved.
  - rewrite (settled_absent l s Hs Hn). cbn [p_root p_parts joinpath].
    rewrite nearest_settled by (done || by apply resolved_is_present). simpl.
    rewrite existing_of_resolved by done. simpl. unfold require_inside.
    rewrite is_relative_to_join. simpl. rewrite app_nil_r.
    pose proof (extend_absent l [] s Hr) as He. rewrite app_nil_r in He. apply He; [|done].
    by apply Forall_app in Hp as [_ ?].
Qed.

Lemma canonical_settled path id :
  canonical path = Ok id ->
  exists names, id = identity_of names /\ Forall proper_name names /\
    settled (joinpath root names).
Proof.
  unfold canonicalize. do 3 (case_match; [done|]). cbv zeta.
  assert (forall c, Forall parsed_component (p_parts c) ->
    (relative ← resolved_relative path_exists path_is_symlink realpath samefile scandir root c;
     mret (identity_of relative)) = Ok id ->
    exists names, id = identity_of names /\ Forall proper_name names /\
      settled (joinpath root names)) as Hgo.
  { intros c Hc. unfold resolved_relative.
    destruct (resolve_any c) as [p|] eqn:Hp; simpl; [|by case_match].
    destruct (relative_to p root) as [names|] eqn:Hr; simpl; [|by case_match].
    intros [= <-]. exists names. pose proof (resolve_any_settled _ _ Hc Hp) as Hs.
    assert (p = joinpath root names) as ->.
    { apply relative_to_Ok in Hr as [Hroot Hparts]. destruct p. simpl in *. by subst. }
    split_and!; [done| |done]. destruct Hs as (l & s & Hl & _ & Hn & _).
    by apply joinpath_inj in Hl as ->. }
  destruct (is_absolute (parse_path path)) eqn:Ha.
  - destruct (validate_absolute_parent_segments path root) as [[]|]; simpl; [|done].
    apply Hgo, parse_path_components.
  - destruct (validate_relative_parent_segments path) as [[]|]; simpl; [|done].
    apply Hgo. simpl. unfold path_parts. rewrite Ha. apply Forall_app.
    split; [|apply parse_path_components].
    eapply Forall_impl; [exact (fs_root_proper fs)|apply proper_parsed].
Qed.
End stability.

(** ** Properties *)

Lemma identity_parse names :
  Forall proper_name names -> parse_path (identity_of names) = mkPath EmptyString names.
Proof.
  intros Hn. destruct names as [|x l]; [done|]. by apply parse_join.
Qed.

Lemma proper_depth names : Forall proper_name names -> forall n, 0 <= sum_of step_depth (take n names).
Proof.
  intros Hn n. assert (Forall proper_name (take n names)) as Ht by (by apply Forall_take).
  induction Ht as [|x l (H1 & H2 & H3 & _) Hl IH]; simpl; [done|]. unfold step_depth at 1.
  rewrite !bool_decide_false by done. simpl. lia.
Qed.

Lemma identity_validates names :
  Forall proper_name names -> validate_relative_parent_segments (identity_of names) = Ok tt.
Proof.
  intros Hn. unfold validate_relative_parent_segments. destruct names as [|x l]; [done|].
  unfold identity_of. rewrite str_split_join; [|done|].
  - apply validate_segments_iff; [done|]. intros n. simpl. by apply proper_depth.
  - eapply Forall_impl; [exact Hn|]. by intros y (_ & _ & _ & ?).
Qed.

(** C28. Whatever the filesystem answers, a request that is given an identity is given a
    workspace-relative one without traversal: "." or proper names joined by slashes, which
    parse back to exactly those names; and a relative request some prefix of which climbs
    above the workspace never gets one. *)
Theorem canonical_identity_contained (path_exists path_is_symlink : Path -> bool)
    (realpath : Path -> result Path) (samefile : Path -> Path -> option bool)
    (scandir : Path -> option (list string)) (root : Path) (path id : string) :
  (forall p names n, scandir p = Some names -> n ∈ names -> proper_name n) ->
  Forall proper_name (p_parts root) ->
  canonicalize path_exists path_is_symlink realpath samefile scandir root path = Ok id ->
  (exists names, id = identity_of names /\ Forall proper_name names /\
     parse_path id = mkPath EmptyString names) /\
  (is_absolute (parse_path path) = false ->
   forall n, 0 <= sum_of step_depth (take n (str_split SLASH path))).
Proof.
  intros Hs Hr Hc.
  destruct (canonical_names _ _ _ _ _ Hs _ Hr _ _ Hc) as (names & -> & Hn & Hrel). split.
  - exists names. split_and!; [done..|]. by apply identity_parse.
  - intros Ha n. pose proof (Hrel Ha) as Hv. unfold validate_relative_parent_segments in Hv.
    by pose proof (proj1 (validate_segments_iff 0 _ ltac:(done)) Hv n).
Qed.

(** An identity stays good on a filesystem that does not change: canonicalising it again
    gives the same identity, so the recheck before execution never refuses it as changed and
    returns the existing target, which lies inside the workspace. *)
Theorem identity_stable (path_exists path_is_symlink : Path -> bool)
    (realpath : Path -> result Path) (samefile : Path -> Path -> option bool)
    (scandir : Path -> option (list string)) (root : Path) (path id : string) :
  StableFilesystem path_exists path_is_symlink realpath samefile scandir root ->
  canonicalize path_exists path_is_symlink realpath samefile scandir root path = Ok id ->
  has_char "000"%char id = false -> has_char "092"%char id = false ->
  windows_is_absolute id = false ->
  let target := joinpath root (p_parts (parse_path id)) in
  canonicalize path_exists path_is_symlink realpath samefile scandir root id = Ok id /\
  is_relative_to target root = true /\
  resolve_for_execution path_exists path_is_symlink realpath samefile scandir root id =
    resolve_existing realpath samefile scandir root target /\
  (present path_exists path_is_symlink target = true ->
   resolve_for_execution path_exists path_is_symlink realpath samefile scandir root id = Ok target).
Proof.
  intros Hfs Hc H0 Hb Hw target.
  assert (exists names, id = identity_of names /\ Forall proper_name names /\
    settled path_exists path_is_symlink realpath root (joinpath root names)) as (names & -> & Hn & Hset).
  { by apply (canonical_settled _ _ _ _ _ _ Hfs path). }
  unfold target in *. rewrite identity_parse in * by done. simpl in *.
  assert (canonicalize path_exists path_is_symlink realpath samefile scandir root
            (identity_of names) = Ok (identity_of names)) as Hid.
  { unfold canonicalize. rewrite H0, Hb, Hw, identity_parse by done.
    assert (str_nonempty (identity_of names) = true) as ->.
    { destruct names as [|x l]; [done|]. apply Forall_cons in Hn as [Hx _].
      apply proper_name_head in Hx as (c & s & -> & _). by destruct l. }
    cbn [negb orb]. cbv zeta. unfold path_parts. simpl. rewrite identity_validates by done. simpl.
    unfold resolved_relative. rewrite (settled_resolves _ _ _ _ _ _ Hfs) by done. simpl.
    assert (relative_to (joinpath root names) root = Ok names) as -> by (by apply relative_to_Ok).
    done. }
  split; [done|]. split; [apply is_relative_to_join|].
  assert (resolve_for_execution path_exists path_is_symlink realpath samefile scandir root
    (identity_of names) = resolve_existing realpath samefile scandir root (joinpath root names)) as Hx.
  { unfold resolve_for_execution. rewrite Hid. simpl. rewrite bool_decide_false by naive_solver.
    by rewrite identity_parse. }
  split; [done|]. intros Hp. rewrite Hx.
  destruct Hset as (l & s & Hl & Hr & _ & Ha). apply joinpath_inj in Hl as ->.
  destruct (decide (s = [])) as [->|Hs].
  - rewrite app_nil_r. by apply (existing_of_resolved path_exists path_is_symlink).
  - rewrite (settled_absent path_exists path_is_symlink root l s Ha Hs) in Hp. done.
Qed.

(** ** Witnesses

    A workspace [/ws] with a directory [a], a file in it, and a symbolic link to [a]. *)

Definition demo_resolved : list (list string) := [[]; ["ws"]; ["ws"; "a"]; ["ws"; "a"; "b.txt"]].
Definition demo_link : list string := ["ws"; "link"].
Definition demo_exists (p : Path) : bool :=
  bool_decide (p_root p = "/"%string) && bool_decide (p_parts p ∈ demo_link :: demo_resolved).
Definition demo_is_symlink (p : Path) : bool :=
  bool_decide (p_root p = "/"%string) && bool_decide (p_parts p = demo_link).
Definition demo_realpath (p : Path) : result Path :=
  if negb (bool_decide (p_root p = "/"%string)) then Err FileNotFoundError
  else if bool_decide (p_parts p ∈ demo_resolved) then Ok p
  else if bool_decide (p_parts p = demo_link) then Ok (mkPath "/" ["ws"; "a"])
  else Err FileNotFoundError.
Definition demo_root : Path := mkPath "/" ["ws"].
Definition demo_samefile (p q : Path) : option bool := Some (bool_decide (p = q)).
Definition demo_scandir (p : Path) : option (list string) :=
  if bool_decide (p = demo_root) then Some ["link"; "a"]
  else if bool_decide (p = mkPath "/" ["ws"; "a"]) then Some ["b.txt"]
  else None.

Lemma demo_resolved_iff p : demo_realpath p = Ok p <-> p_root p = "/"%string /\ p_parts p ∈ demo_resolved.
Proof.
  unfold demo_realpath. split.
  - repeat (case_bool_decide; simpl); try done. intros [= Hp]. subst p. set_solver.
  - intros [Hr Hp]. by rewrite !bool_decide_true.
Qed.

Lemma demo_scandir_names p names n : demo_scandir p = Some names -> n ∈ names -> proper_name n.
Proof.
  unfold demo_scandir, proper_name. repeat case_bool_decide; intros [= <-] Hn; set_unfold in Hn.
  all: naive_solver.
Qed.

Lemma demo_snoc l x :
  l ++ [x] ∈ demo_link :: demo_resolved -> l ∈ demo_resolved /\
  (l = ["ws"] -> x = "a"%string \/ x = "link"%string) /\ (l = ["ws"; "a"] -> x = "b.txt"%string) /\
  (l = [] \/ l = ["ws"] \/ l = ["ws"; "a"]).
Proof.
  unfold demo_link, demo_resolved. rewrite !elem_of_cons, elem_of_nil.
  destruct l as [|y1 [|y2 [|y3 l]]]; simpl; intros Hl; destruct_or!; try done; simplify_eq; try (naive_solver).
  all: by destruct l.
Qed.

Lemma demo_filesystem :
  StableFilesystem demo_exists demo_is_symlink demo_realpath demo_samefile demo_scandir demo_root.
Proof.
  split.
  - apply demo_scandir_names.
  - intros p q Hq. assert (p_root q = "/"%string /\ p_parts q ∈ demo_resolved) as [Hr Hp].
    { unfold demo_realpath in Hq. repeat (case_bool_decide; simplify_eq/=); [done|]. set_solver. }
    split; [by apply demo_resolved_iff|]. unfold present, demo_exists. rewrite Hr.
    by rewrite (bool_decide_true (p_parts q ∈ _)) by (apply elem_of_cons; by right).
  - intros p x [Hr Hp]%demo_resolved_iff. apply demo_resolved_iff. split; [done|]. simpl in Hp.
    eapply demo_snoc. by apply elem_of_cons; right.
  - intros l x [_ Hp]%demo_resolved_iff. cbn [p_parts joinpath demo_root] in Hp.
    assert (("ws" :: l) ++ [x] ∈ demo_link :: demo_resolved) as Hd by (apply elem_of_cons; by right).
    apply demo_snoc in Hd as (_ & Hws & Ha & [?|[?|?]]); [done|..]; simplify_eq.
    + exists ["link"; "a"]. split; [done|]. set_unfold. naive_solver.
    + exists ["b.txt"]. split; [done|]. set_unfold. naive_solver.
  - done.
  - intros p c. unfold present, demo_exists, demo_is_symlink. cbn [p_root p_parts joinpath].
    case_bool_decide; [|done]. rewrite !andb_true_l, !orb_true_iff, !bool_decide_eq_true.
    intros [Hp|Hp]; left; apply elem_of_cons; right; apply (demo_snoc _ c); [done|].
    rewrite Hp. by apply elem_of_cons; left.
  - done.
  - repeat constructor; done.
Qed.

Local Abbreviation demo_canonicalize :=
  (canonicalize demo_exists demo_is_symlink demo_realpath demo_samefile demo_scandir demo_root).

Lemma canonical_identity_contained_witness :
  demo_canonicalize "link/../link/new.txt" = Ok "a/new.txt"%string /\
  demo_canonicalize "a/../../etc/passwd" = Err FilesystemResourceIdentityError /\
  (exists names, "a/new.txt"%string = identity_of names /\ Forall proper_name names /\
     parse_path "a/new.txt" = mkPath EmptyString names) /\
  (is_absolute (parse_path "link/../link/new.txt") = false ->
   forall n, 0 <= sum_of step_depth (take n (str_split SLASH "link/../link/new.txt"))).
Proof.
  split; [by vm_compute|]. split; [by vm_compute|].
  apply (canonical_identity_contained demo_exists demo_is_symlink demo_realpath demo_samefile
           demo_scandir demo_root "link/../link/new.txt").
  - apply demo_scandir_names.
  - repeat constructor; done.
  - by vm_compute.
Defined.

Lemma identity_stable_witness :
  let target := joinpath demo_root (p_parts (parse_path "a/b.txt")) in
  demo_canonicalize "a/b.txt" = Ok "a/b.txt"%string /\
  is_relative_to target demo_root = true /\
  resolve_for_execution demo_exists demo_is_symlink demo_realpath demo_samefile demo_scandir
    demo_root "a/b.txt" =
    resolve_existing demo_realpath demo_samefile demo_scandir demo_root target /\
  (present demo_exists demo_is_symlink target = true ->
   resolve_for_execution demo_exists demo_is_symlink demo_realpath demo_samefile demo_scandir
     demo_root "a/b.txt" = Ok target).
Proof.
  apply (identity_stable demo_exists demo_is_symlink demo_realpath demo_samefile demo_scandir
           demo_root "/ws/link/b.txt" "a/b.txt").
  - apply demo_filesystem.
  - by vm_compute.
  - by vm_compute.
  - by vm_compute.
  - by vm_compute.
Defined.
