(* ===== verification/SandboxRunner.v ===== *)
(** * The sandbox child

    [runtime/sandbox/runner.py] and [registry.py], with the two packaged tools
    ([tools/file_read_tool.py], [tools/directory_list_tool.py]): the descriptor is read, the
    implementation looked up, both guards built, and the tool runs while they are active.
    The filesystem is a parameter; every operation the interpreter audits goes through the
    filesystem guard first. *)

From S2P Require Import Prelude PyDict Json Paths PyInt Binding Authority Capabilities NetworkGuard.
From S2P Require Import FilesystemGuard Descriptor ResourceIdentity.
Local Open Scope Z_scope.

(** ** Messages *)

Definition path_char (c : ascii) : bool :=
  in_range "a" "z" c || in_range "A" "Z" c || in_range "0" "9" c
  || bool_decide (c ∈ ["_"; "."; "-"]%char).

(** The longest run of characters satisfying [p], and the rest. *)
Fixpoint span (p : ascii -> bool) (s : string) : string * string :=
  match s with
  | EmptyString => (EmptyString, EmptyString)
  | String c s' => if p c then let '(a, b) := span p s' in (String c a, b) else (EmptyString, s)
  end.

(** The rest after the longest match of [(?:[...]+/)+[...]+] at the head, if any: [fuel]
    bounds the components, [best] is the rest after the best match so far. *)
Fixpoint match_components (fuel : nat) (seen : bool) (s : string) (best : option string)
  : option string :=
  match fuel with
  | O => best
  | S fuel' =>
      let '(word, rest) := span path_char s in
      if negb (str_nonempty word) then best
      else
        let best := if seen then Some rest else best in
        match rest with
        | String c rest' => if bool_decide (c = SLASH) then match_components fuel' true rest' best else best
        | EmptyString => best
        end
  end.

(** [re.sub] of the absolute path pattern. *)
Fixpoint redact_paths (fuel : nat) (s : string) : string :=
  match fuel with
  | O => s
  | S fuel' =>
      match s with
      | EmptyString => EmptyString
      | String c s' =>
          match (if bool_decide (c = SLASH) then match_components (String.length s') false s' None
                 else None) with
          | Some rest => "[REDACTED_PATH]" +:+ redact_paths fuel' rest
          | None => String c (redact_paths fuel' s')
          end
      end
  end.

Definition SECRET_WORDS : list string := ["password"; "secret"; "token"; "key"; "pwd"].

Fixpoint str_drop (n : nat) (s : string) : string :=
  match n, s with
  | S n', String _ s' => str_drop n' s'
  | _, _ => s
  end.
Fixpoint str_take (n : nat) (s : string) : string :=
  match n, s with
  | S n', String c s' => String c (str_take n' s')
  | _, _ => EmptyString
  end.

Definition is_quote (c : ascii) : bool := bool_decide (c ∈ ["'"%char; "034"%char]).
Definition secret_char (c : ascii) : bool :=
  negb (is_space c || bool_decide (c = ","%char) || is_quote c).

(** The rest after [\s*[=:]\s*['"]?[^\s,'"]+], if it matches. *)
Definition match_assignment (s : string) : option string :=
  match str_lstrip s with
  | String c s1 =>
      if bool_decide (c ∈ ["="; ":"]%char) then
        let s2 := str_lstrip s1 in
        let s3 := match s2 with String q s' => if is_quote q then s' else s2 | _ => s2 end in
        let '(value, rest) := span secret_char s3 in
        if str_nonempty value then Some rest else None
      else None
  | EmptyString => None
  end.

(** The first alternative of the pattern that matches here, with the rest. *)
Fixpoint match_secret (words : list string) (s : string) : option (string * string) :=
  match words with
  | [] => None
  | w :: ws =>
      if String.prefix w (str_lower s) then
        match match_assignment (str_drop (String.length w) s) with
        | Some rest => Some (str_take (String.length w) s, rest)
        | None => match_secret ws s
        end
      else match_secret ws s
  end.

Fixpoint redact_secrets (fuel : nat) (s : string) : string :=
  match fuel with
  | O => s
  | S fuel' =>
      match s with
      | EmptyString => EmptyString
      | String c s' =>
          match match_secret SECRET_WORDS s with
          | Some (word, rest) => word +:+ "=[REDACTED]" +:+ redact_secrets fuel' rest
          | None => String c (redact_secrets fuel' s')
          end
      end
  end.

Definition sanitize_error_message (msg : string) : string :=
  if negb (str_nonempty msg) then "An internal tool execution error occurred."
  else
    let s := redact_paths (String.length msg) msg in
    str_strip (redact_secrets (String.length s) s).

(** ** The filesystem of the child *)

Record FileSystem := mkFileSystem {
  fs_exists : Path -> bool;
  fs_is_symlink : Path -> bool;
  fs_is_dir : Path -> bool;
  fs_is_file : Path -> bool;
  fs_realpath : Path -> result Path;       (** [resolve(strict=True)] *)
  fs_resolve : Path -> result Path;        (** [resolve()] *)
  fs_samefile : Path -> Path -> option bool;
  fs_scandir : Path -> option (list string);
  fs_read_text : Path -> result string;
}.

Section child.
Context (fs : FileSystem).

(** The audit event of an operation on a path; without a filesystem capability no guard is
    installed. *)
Definition audited (guard : option FilesystemSandboxGuard) (event : string) (args : list EventArg)
  : result unit :=
  match guard with
  | None => Ok tt
  | Some g => audit_filesystem (fs_resolve fs) g event args
  end.

Definition path_target (p : Path) : EventArg := ArgTarget (TargetText (path_str p)).

(** [os.scandir]: a refusal is a PermissionError, which is an OSError. *)
Definition guarded_scandir (guard : option FilesystemSandboxGuard) (p : Path) : option (list string) :=
  match audited guard "os.scandir" [path_target p] with
  | Ok _ => fs_scandir fs p
  | Err _ => None
  end.

Definition guarded_read_text (guard : option FilesystemSandboxGuard) (p : Path) : result string :=
  _ ← audited guard "open" [path_target p; ArgMode "r"; ArgFlags 0]; fs_read_text fs p.

(** [sorted(item.name for item in p.iterdir())] *)
Definition guarded_names (guard : option FilesystemSandboxGuard) (p : Path) : result (list string) :=
  _ ← audited guard "os.listdir" [path_target p];
  names ← of_option OSError (fs_scandir fs p);
  Ok (sort_by str_leb names).

Definition checked_identity (guard : option FilesystemSandboxGuard) (root : Path) (identity : string)
  : result Path :=
  resolve_for_execution (fs_exists fs) (fs_is_symlink fs) (fs_realpath fs) (fs_samefile fs)
    (guarded_scandir guard) root identity.

(** *** The tools *)

(** [FileReadTool(workspace)], [DirectoryListTool(workspace)]: the resolver's root. *)
Definition tool_root (workspace : string) : result Path :=
  root ← fs_resolve fs (parse_path workspace);
  new_resolver (fs_is_dir fs) (fs_realpath fs) (path_str root).

(** [parameters["path"]], as the resolver accepts it. *)
Definition path_parameter (parameters : list (string * json)) : result string :=
  match dget "path" parameters with
  | None => Err KeyError
  | Some (JStr s) => Ok s
  | Some _ => Err FilesystemResourceIdentityError
  end.

Definition file_read (guard : option FilesystemSandboxGuard) (workspace : string)
  (parameters : list (string * json)) : result json :=
  root ← tool_root workspace;
  relative_path ← path_parameter parameters;
  target_path ← checked_identity guard root relative_path;
  if negb (fs_exists fs target_path) then Err FileNotFoundError
  else if negb (fs_is_file fs target_path) then Err ValueError
  else text ← guarded_read_text guard target_path; Ok (JStr text).

Definition list_directory (guard : option FilesystemSandboxGuard) (workspace : string)
  (parameters : list (string * json)) : result json :=
  root ← tool_root workspace;
  relative_path ← path_parameter parameters;
  target_path ← checked_identity guard root relative_path;
  if negb (fs_exists fs target_path) then Err FileNotFoundError
  else if negb (fs_is_dir fs target_path) then Err ValueError
  else names ← guarded_names guard target_path; Ok (JArr (JStr <$> names)).

(** *** The registry *)

(** The execution context a routine is called with. *)
Record ChildContext := mkChildContext {
  cc_grant_id : option string;
  cc_session_id : option string;
  cc_agent_id : option string;
  cc_request_id : option string;
  cc_workspace_root : json;
  cc_scratch_dir : option string;
}.

(** A routine runs under the guard that is active. *)
Definition ToolImplementation : Type :=
  option FilesystemSandboxGuard -> list (string * json) -> ChildContext -> result json.

Definition SandboxExecutionRegistry := pydict string ToolImplementation.

Definition register_implementation (id : string) (fn : ToolImplementation)
  (r : SandboxExecutionRegistry) : SandboxExecutionRegistry := dset id fn r.
Definition resolve_implementation (id : string) (r : SandboxExecutionRegistry)
  : result ToolImplementation := of_option KeyError (dget id r).
Definition has_implementation (id : string) (r : SandboxExecutionRegistry) : bool := dhas id r.

Definition require_workspace_root (context : ChildContext) : result string :=
  match cc_workspace_root context with
  | JStr s => if str_nonempty s then Ok s else Err PermissionError
  | JNull => Err PermissionError
  | v => if truthy v then Err TypeError else Err PermissionError
  end.

Definition run_file_read : ToolImplementation := fun guard parameters context =>
  workspace ← require_workspace_root context; file_read guard workspace parameters.

Definition run_directory_list : ToolImplementation := fun guard parameters context =>
  workspace ← require_workspace_root context; list_directory guard workspace parameters.

Definition create_default_execution_registry : SandboxExecutionRegistry :=
  register_implementation "directory_list_v1" run_directory_list
    (register_implementation "file_read_v1" run_file_read []).

(** *** run_headless *)

Record Payload := mkPayload {
  pa_success : bool;
  pa_output : json;
  pa_exit_code : Z;
  pa_error_type : option string;
  pa_error_message : option string;
}.

(** The process prints a payload and exits, or dies of an exception nothing catches. *)
Inductive ChildOutcome := Printed (p : Payload) (exit : Z) | Uncaught (e : exn).

Context (lax_int : json -> option Z) (prefixes : list string).
(** [json.loads]; [str(exc)]; [exc.__class__.__name__]. *)
Context (loads : string -> option json) (message_of name_of : exn -> string).
(** The handlers [testing_registry] adds when the environment asks for them. *)
Context (testing : bool) (testing_handlers : SandboxExecutionRegistry).

Definition failure (error_type : string) (message : string) : ChildOutcome :=
  Printed (mkPayload false JNull 1 (Some error_type) (Some message)) 1.

Definition child_registry : SandboxExecutionRegistry :=
  if testing then fold_left (fun r '(id, fn) => register_implementation id fn r) testing_handlers
                    create_default_execution_registry
  else create_default_execution_registry.

Definition context_of (d : ToolExecutionDescriptor) : ChildContext :=
  mkChildContext (de_grant_id d) (de_session_id d) (de_agent_id d) (de_request_id d)
    (match de_filesystem d with
     | Some m => if bool_decide (m.*1 = []) then JNull else default JNull (dget "workspace_root" m)
     | None => JNull
     end) (de_scratch_dir d).

Definition build_fs_guard (d : ToolExecutionDescriptor) : result (option FilesystemSandboxGuard) :=
  match de_filesystem d with
  | None => Ok None
  | Some m =>
      data ← filesystem_dict m;
      g ← filesystem_from_dict (fs_resolve fs) prefixes data (de_scratch_dir d) None;
      Ok (Some (install_filesystem (g, 0%nat)).1)
  end.

Definition build_net_guard (d : ToolExecutionDescriptor) : result (option NetworkSandboxGuard) :=
  match de_network d with
  | None => Ok None
  | Some m => g ← network_from_dict lax_int m; Ok (Some (install_network (g, 0%nat)).1)
  end.

(** After parsing: look the implementation up, build the guards, run it while they are
    active.  The network guard restricts sockets; the packaged tools open none. *)
Definition run_descriptor (d : ToolExecutionDescriptor) : ChildOutcome :=
  match resolve_implementation (de_implementation_id d) child_registry with
  | Err e => failure "ImplementationNotFoundError" (sanitize_error_message (message_of e))
  | Ok fn =>
      match build_fs_guard d with
      | Err e => Uncaught e
      | Ok fs_guard =>
          match build_net_guard d with
          | Err e => Uncaught e
          | Ok _ =>
              match fn (activate_filesystem <$> fs_guard) (de_parameters d) (context_of d) with
              | Ok result => Printed (mkPayload true result 0 None None) 0
              | Err e => failure (name_of e) (sanitize_error_message (message_of e))
              end
          end
      end
  end.

Definition run_headless (raw_input : string) : ChildOutcome :=
  if negb (str_nonempty (str_strip raw_input))
  then failure "EmptyInputError" "No execution descriptor received on stdin."
  else match (v ← of_option ValueError (loads raw_input); descriptor_of_tree v) with
  | Err e => failure "DescriptorParseError" (sanitize_error_message (message_of e))
  | Ok d => run_descriptor d
  end.
End child.

(** ** What a successful answer is *)

Section child_facts.
Context (fs : FileSystem).
(** Directory entries are names, never "." or "..". *)
Context (scandir_names : forall p names n,
  fs_scandir fs p = Some names -> n ∈ names -> proper_name n).
(** A path resolved strictly has proper components only. *)
Context (realpath_proper : forall p q, fs_realpath fs p = Ok q -> Forall proper_name (p_parts q)).

Lemma guarded_scandir_names guard p names n :
  guarded_scandir fs guard p = Some names -> n ∈ names -> proper_name n.
Proof. unfold guarded_scandir. case_match; [|done]. apply scandir_names. Qed.

Lemma tool_root_proper ws root : tool_root fs ws = Ok root -> Forall proper_name (p_parts root).
Proof.
  unfold tool_root, new_resolver. destruct (fs_resolve fs (parse_path ws)); simpl; [|done].
  destruct (fs_realpath fs _) as [r|] eqn:Hr; [|by repeat case_match].
  case_match; intros [= <-]. by eapply realpath_proper.
Qed.

Lemma checked_identity_inside guard root identity target :
  Forall proper_name (p_parts root) ->
  checked_identity fs guard root identity = Ok target -> is_relative_to target root = true.
Proof.
  unfold checked_identity, resolve_for_execution. intros Hroot H.
  destruct (canonicalize _ _ _ _ _ _ identity) as [current|]; simpl in H; [|done].
  case_bool_decide; simplify_eq/=.
  apply below_inside. eapply (existing_below (fs_exists fs) (fs_is_symlink fs)); [|done|exact H].
  apply guarded_scandir_names.
Qed.

(** The guard let the operation on [target] go through. *)
Definition guard_allows (g : FilesystemSandboxGuard) (target : Path) : Prop :=
  exempt (path_str target) = true \/
  exists q, resolve_target (fs_resolve fs) g (path_str target) = Ok q /\ access_permitted g q false.

Lemma audited_read_allows g target event args :
  audited fs (Some (activate_filesystem g)) event (path_target target :: args) = Ok tt ->
  (event = "open"%string /\ open_writes (path_target target :: args) = false \/
   event = "os.listdir"%string) ->
  guard_allows (activate_filesystem g) target.
Proof.
  intros H He. unfold audited in H.
  apply (check_access_text_Ok (fs_resolve fs) (activate_filesystem g) (path_str target) false eq_refl).
  unfold audit_filesystem in H. destruct He as [[-> Hw]| ->].
  - rewrite Hw in H. exact H.
  - exact H.
Qed.

(** The answer of one of the two tools about [target]. *)
Definition answers (impl : string) (target : Path) (output : json) : Prop :=
  (impl = "file_read_v1"%string /\ exists text, fs_read_text fs target = Ok text /\ output = JStr text) \/
  (impl = "directory_list_v1"%string /\ exists names, fs_scandir fs target = Some names /\
     output = JArr (JStr <$> sort_by str_leb names)).

Lemma file_read_Ok g ws params output :
  file_read fs (Some (activate_filesystem g)) ws params = Ok output ->
  exists root identity target,
    tool_root fs ws = Ok root /\ dget "path"%string params = Some (JStr identity) /\
    checked_identity fs (Some (activate_filesystem g)) root identity = Ok target /\
    answers "file_read_v1" target output /\ guard_allows (activate_filesystem g) target.
Proof.
  unfold file_read. intros H.
  destruct (tool_root fs ws) as [root|] eqn:Hr; simpl in H; [|done].
  destruct (path_parameter params) as [identity|] eqn:Hp; simpl in H; [|done].
  destruct (checked_identity _ _ root identity) as [target|] eqn:Hc; simpl in H; [|done].
  destruct (negb (fs_exists fs target)); [done|]. destruct (negb (fs_is_file fs target)); [done|].
  unfold guarded_read_text in H.
  destruct (audited _ _ _ _) as [[]|] eqn:Ha; simpl in H; [|done].
  destruct (fs_read_text fs target) as [text|] eqn:Ht; simplify_eq/=.
  exists root, identity, target. split; [done|]. split.
  { unfold path_parameter in Hp. by repeat case_match; simplify_eq. }
  split; [done|]. split; [left; eauto|]. eapply audited_read_allows; [exact Ha|by left].
Qed.

Lemma list_directory_Ok g ws params output :
  list_directory fs (Some (activate_filesystem g)) ws params = Ok output ->
  exists root identity target,
    tool_root fs ws = Ok root /\ dget "path"%string params = Some (JStr identity) /\
    checked_identity fs (Some (activate_filesystem g)) root identity = Ok target /\
    answers "directory_list_v1" target output /\ guard_allows (activate_filesystem g) target.
Proof.
  unfold list_directory. intros H.
  destruct (tool_root fs ws) as [root|] eqn:Hr; simpl in H; [|done].
  destruct (path_parameter params) as [identity|] eqn:Hp; simpl in H; [|done].
  destruct (checked_identity _ _ root identity) as [target|] eqn:Hc; simpl in H; [|done].
  destruct (negb (fs_exists fs target)); [done|]. destruct (negb (fs_is_dir fs target)); [done|].
  unfold guarded_names in H.
  destruct (audited _ _ _ _) as [[]|] eqn:Ha; simpl in H; [|done].
  destruct (fs_scandir fs target) as [names|] eqn:Hn; simplify_eq/=.
  exists root, identity, target. split; [done|]. split.
  { unfold path_parameter in Hp. by repeat case_match; simplify_eq. }
  split; [done|]. split; [right; eauto|]. eapply audited_read_allows; [exact Ha|by right].
Qed.

Context (lax_int : json -> option Z) (prefixes : list string)
        (message_of name_of : exn -> string) (handlers : SandboxExecutionRegistry).

Lemma context_workspace d caps :
  de_filesystem d = Some (filesystem_dump caps) ->
  cc_workspace_root (context_of d) = JStr (fc_workspace_root caps).
Proof. unfold context_of. intros ->. done. Qed.

Lemma build_fs_guard_dump d caps g :
  de_filesystem d = Some (filesystem_dump caps) ->
  build_fs_guard fs prefixes d = Ok g -> exists g', g = Some g'.
Proof.
  unfold build_fs_guard. intros -> H. rewrite filesystem_dict_dump in H. simpl in H.
  destruct (filesystem_from_dict _ _ _ _ _); simplify_eq/=. eauto.
Qed.

(** C9. A production child that answers with success read exactly one file, or listed exactly
    one directory, of the workspace its capability names: the target is the one the path
    parameter canonically identifies, it lies below the tool's root, and the active
    filesystem guard of that capability permitted reading it; every other end is a payload
    without output and exit status 1, or a crash without a payload. *)
Theorem child_answers_from_workspace d caps :
  de_filesystem d = Some (filesystem_dump caps) ->
  match run_descriptor fs lax_int prefixes message_of name_of false handlers d with
  | Printed p exit =>
      if pa_success p then
        exit = 0 /\ exists g root identity target,
          build_fs_guard fs prefixes d = Ok (Some g) /\
          tool_root fs (fc_workspace_root caps) = Ok root /\
          dget "path"%string (de_parameters d) = Some (JStr identity) /\
          checked_identity fs (Some (activate_filesystem g)) root identity = Ok target /\
          is_relative_to target root = true /\
          guard_allows (activate_filesystem g) target /\
          answers (de_implementation_id d) target (pa_output p)
      else exit = 1 /\ pa_output p = JNull
  | Uncaught _ => True
  end.
Proof.
  intros Hfs. unfold run_descriptor, child_registry.
  destruct (resolve_implementation _ _) as [fn|e] eqn:Hres; [|done].
  destruct (build_fs_guard fs prefixes d) as [og|] eqn:Hg; [|done].
  destruct (build_fs_guard_dump d caps og Hfs Hg) as [g ->].
  destruct (build_net_guard lax_int d); [|done]. cbn [fmap option_fmap option_map].
  destruct (fn _ _ _) as [output|e] eqn:Hrun; [|done]. simpl. split; [done|].
  assert (Hroot : require_workspace_root (context_of d) = Ok (fc_workspace_root caps) \/
          exists e, require_workspace_root (context_of d) = Err e).
  { unfold require_workspace_root. rewrite (context_workspace d caps Hfs).
    destruct (str_nonempty _); eauto. }
  unfold resolve_implementation, create_default_execution_registry, register_implementation in Hres.
  rewrite !dget_dset in Hres. simpl in Hres.
  assert (exists root identity target, tool_root fs (fc_workspace_root caps) = Ok root /\
    dget "path"%string (de_parameters d) = Some (JStr identity) /\
    checked_identity fs (Some (activate_filesystem g)) root identity = Ok target /\
    answers (de_implementation_id d) target output /\ guard_allows (activate_filesystem g) target)
    as (root & identity & target & H1 & H2 & H3 & H4 & H5).
  { case_decide as Hd; [|case_decide as Hf; [|done]]; simplify_eq/=.
    - unfold run_directory_list in Hrun. destruct Hroot as [Hw|[e Hw]]; rewrite Hw in Hrun; [|done].
      simpl in Hrun. rewrite Hd. by apply list_directory_Ok.
    - unfold run_file_read in Hrun. destruct Hroot as [Hw|[e Hw]]; rewrite Hw in Hrun; [|done].
      simpl in Hrun. rewrite Hf. by apply file_read_Ok. }
  exists g, root, identity, target. do 4 (split; [done|]).
  split; [by eapply checked_identity_inside; [eapply tool_root_proper|]|]. done.
Qed.
End child_facts.

(** A workspace [/ws] holding [a/b.txt]. *)
Definition demo_fs : FileSystem :=
  mkFileSystem demo_exists demo_is_symlink
    (fun p => bool_decide (p_parts p ∈ [["ws"]; ["ws"; "a"]]%string))
    (fun p => bool_decide (p_parts p = ["ws"; "a"; "b.txt"]%string))
    demo_realpath sample_resolve demo_samefile demo_scandir (fun _ => Ok "hello"%string).

Definition demo_fs_caps : FilesystemCapability := mkFsCap "/ws" true [] false.

Definition demo_descriptor : ToolExecutionDescriptor :=
  mkExecDescriptor "file_read" (Some "1.0.0"%string) "file_read_v1" [("path", JStr "a/b.txt")]%string
    None None None None (Some (filesystem_dump demo_fs_caps)) None None.

Definition demo_child : ChildOutcome :=
  run_descriptor demo_fs (fun _ => None) [] (fun _ => EmptyString) (fun _ => "Exception"%string)
    false [] demo_descriptor.

Lemma demo_child_answers : demo_child = Printed (mkPayload true (JStr "hello") 0 None None) 0.
Proof. vm_compute. reflexivity. Qed.

Lemma demo_realpath_proper p q : demo_realpath p = Ok q -> Forall proper_name (p_parts q).
Proof.
  unfold demo_realpath. intros Hq. assert (p_parts q ∈ demo_resolved) as Hin.
  { revert Hq. case_bool_decide; simpl; [|done]. case_bool_decide as Hr; [by intros [= <-]|].
    case_bool_decide; [intros [= <-]; simpl; unfold demo_resolved; right; right; left|done]. }
  unfold demo_resolved in Hin. repeat (apply elem_of_cons in Hin as [->|Hin]); [..|set_solver];
    repeat constructor; repeat split; (discriminate || reflexivity).
Qed.

Lemma child_answers_from_workspace_witness :
  demo_child = Printed (mkPayload true (JStr "hello") 0 None None) 0 /\
  exists root target, tool_root demo_fs "/ws" = Ok root /\ is_relative_to target root = true
    /\ answers demo_fs "file_read_v1" target (JStr "hello").
Proof.
  assert (H : demo_child = Printed (mkPayload true (JStr "hello") 0 None None) 0)
    by (vm_compute; reflexivity).
  split; [exact H|].
  pose proof (child_answers_from_workspace demo_fs demo_scandir_names
    demo_realpath_proper (fun _ => None) []
    (fun _ => EmptyString) (fun _ => "Exception"%string) [] demo_descriptor demo_fs_caps eq_refl) as Ht.
  fold demo_child in Ht. rewrite H in Ht. cbn in Ht.
  destruct Ht as (_ & g & root & identity & target & _ & H1 & _ & _ & H2 & _ & H3).
  exists root, target. split; [exact H1|]. split; [exact H2|exact H3].
Defined.
