(* ===== verification/AuditTrail.v ===== *)
(** * Audit evidence and response recommendation

    [models/audit_event.py], [services/audit_service.py] with its in-memory repository, and
    [services/response_service.py].  The repository is append-only: its state is the list of
    events in the order they were appended. *)

From S2P Require Import Prelude Models Policy.
Local Open Scope Z_scope.

(** ** Audit events *)

Record AuditEvent := mkAudit {
  au_event_id : string;
  au_session_id : string;
  au_agent_id : string;
  au_requested_tool_id : string;
  au_tool_id : option string;
  au_tool_version : option string;
  au_decision : Decision;
  au_timestamp : Z;
}.

(** The model's validator: a version cannot resolve without the family it belongs to. *)
Definition new_audit_event (e : AuditEvent) : result AuditEvent :=
  match au_tool_version e, au_tool_id e with
  | Some _, None => Err ValueError
  | _, _ => Ok e
  end.

Abbreviation AuditLog := (list AuditEvent).

Definition audit_append (e : AuditEvent) (l : AuditLog) : AuditLog := l ++ [e].
Definition audit_get (id : string) (l : AuditLog) : option AuditEvent :=
  List.find (fun e => bool_decide (au_event_id e = id)) l.

(** The key [(timestamp, event_id)]. *)
Definition audit_leb (e f : AuditEvent) : bool :=
  pair_leb (au_timestamp e, au_event_id e) (au_timestamp f, au_event_id f).

(** Python's [l[a:b]]: negative bounds count from the end, bounds outside are clipped. *)
Definition slice_bound (n len : Z) : nat :=
  Z.to_nat (if n <? 0 then Z.max 0 (n + len) else Z.min n len).
Definition py_slice {A} (a b : Z) (l : list A) : list A :=
  let len := Z.of_nat (length l) in
  drop (slice_bound a len) (take (slice_bound b len) l).

Definition keep_audit (session agent : option string) (l : AuditLog) : AuditLog :=
  let l := match session with
           | Some s => List.filter (fun e => bool_decide (au_session_id e = s)) l
           | None => l end in
  match agent with
  | Some a => List.filter (fun e => bool_decide (au_agent_id e = a)) l
  | None => l
  end.

Definition audit_query (session agent : option string) (limit offset : Z) (l : AuditLog)
  : list AuditEvent :=
  py_slice offset (offset + limit) (sort_by audit_leb (keep_audit session agent l)).

(** ** AuditService *)

Definition record_audit_event (e : AuditEvent) (l : AuditLog) : AuditLog := audit_append e l.
Definition list_audit_events (session agent : option string) (limit offset : Z) (l : AuditLog)
  : list AuditEvent := audit_query session agent limit offset l.
Definition get_audit_event (id : string) (l : AuditLog) : option AuditEvent := audit_get id l.

(** ** ResponseService *)

Inductive ResponseType := MONITOR | ALERT | REQUIRE_APPROVAL | SUSPEND_AGENT.

#[global] Instance ResponseType_eq_dec : EqDecision ResponseType.
Proof. solve_decision. Defined.

Record ResponseAction := mkResponse {
  rs_session_id : string;
  rs_agent_id : string;
  rs_risk_level : RiskLevel;
  rs_response_type : ResponseType;
  rs_reason : string;
}.

Definition RESPONSE_TYPES (l : RiskLevel) : ResponseType :=
  match l with
  | RISK_LOW => MONITOR | RISK_MEDIUM => ALERT
  | RISK_HIGH => REQUIRE_APPROVAL | RISK_CRITICAL => SUSPEND_AGENT
  end.

Definition risk_level_value (l : RiskLevel) : string :=
  match l with
  | RISK_LOW => "LOW" | RISK_MEDIUM => "MEDIUM" | RISK_HIGH => "HIGH"
  | RISK_CRITICAL => "CRITICAL"
  end.

(** [response_type.value.lower().replace("_", " ")] *)
Definition response_words (t : ResponseType) : string :=
  match t with
  | MONITOR => "monitor" | ALERT => "alert" | REQUIRE_APPROVAL => "require approval"
  | SUSPEND_AGENT => "suspend agent"
  end.

Definition recommend_for_level (l : RiskLevel) (session agent : string) : ResponseAction :=
  mkResponse session agent l (RESPONSE_TYPES l)
    (risk_level_value l +:+ " risk requires " +:+ response_words (RESPONSE_TYPES l)).

(** ** Lemmas *)

Lemma pair_leb_total p q : pair_leb p q = true \/ pair_leb q p = true.
Proof.
  unfold pair_leb. destruct (Z.ltb_spec p.1 q.1), (Z.ltb_spec q.1 p.1); auto; try lia.
  apply str_leb_total.
Qed.

Lemma pair_leb_trans p q r : pair_leb p q = true -> pair_leb q r = true -> pair_leb p r = true.
Proof.
  unfold pair_leb. destruct (Z.ltb_spec p.1 q.1), (Z.ltb_spec q.1 p.1), (Z.ltb_spec q.1 r.1),
    (Z.ltb_spec r.1 q.1), (Z.ltb_spec p.1 r.1), (Z.ltb_spec r.1 p.1); try done; try lia.
  apply str_leb_trans.
Qed.

Lemma py_slice_nonneg {A} a b (l : list A) :
  0 <= a <= b -> py_slice a b l = take (Z.to_nat (b - a)) (drop (Z.to_nat a) l).
Proof.
  intros Hab. unfold py_slice, slice_bound.
  destruct (Z.ltb_spec a 0), (Z.ltb_spec b 0); try lia.
  destruct (decide (a <= Z.of_nat (length l))) as [Ha|Ha].
  - rewrite Z.min_l by done.
    destruct (decide (b <= Z.of_nat (length l))).
    + rewrite Z.min_l by lia. rewrite take_drop_commute. f_equal. f_equal. lia.
    + rewrite Z.min_r by lia. rewrite Nat2Z.id, take_ge by lia.
      rewrite take_ge; [done|]. rewrite length_drop. lia.
  - rewrite Z.min_r by lia. rewrite Nat2Z.id.
    rewrite (drop_ge l) by lia. rewrite take_nil.
    apply drop_ge. rewrite length_take. lia.
Qed.

(** Reading a log page by page reads exactly the ordered log. *)
Fixpoint audit_pages (session agent : option string) (limit : Z) (n : nat) (offset : Z)
    (l : AuditLog) : list AuditEvent :=
  match n with
  | O => []
  | S n => audit_query session agent limit offset l
             ++ audit_pages session agent limit n (offset + limit) l
  end.

Lemma audit_pages_drop session agent limit n offset l :
  0 < limit -> 0 <= offset ->
  audit_pages session agent limit n offset l =
  take (n * Z.to_nat limit) (drop (Z.to_nat offset) (sort_by audit_leb (keep_audit session agent l))).
Proof.
  intros Hl. revert offset. induction n as [|n IH]; intros offset Ho; [done|]. cbn [audit_pages].
  rewrite IH by lia. unfold audit_query. rewrite py_slice_nonneg by lia.
  replace (Z.to_nat (offset + limit - offset)) with (Z.to_nat limit) by lia.
  replace (Z.to_nat (offset + limit)) with (Z.to_nat offset + Z.to_nat limit)%nat by lia.
  rewrite <- drop_drop.
  replace (S n * Z.to_nat limit)%nat with (Z.to_nat limit + n * Z.to_nat limit)%nat by lia.
  by rewrite take_take_drop.
Qed.

(** ** Properties *)

(** Reading audit evidence page by page loses and repeats nothing: for a positive page
    size and enough pages, the pages together are exactly the matching events, in ascending
    (timestamp, event id) order, and no page is longer than the limit. *)
Theorem audit_pages_complete (session agent : option string) (limit : Z) (n : nat) (l : AuditLog) :
  0 < limit -> Z.of_nat (length l) <= Z.of_nat n * limit ->
  let pages := audit_pages session agent limit n 0 l in
  pages ≡ₚ keep_audit session agent l /\
  StronglySorted (fun e f => audit_leb e f = true) pages /\
  forall offset, 0 <= offset ->
    Z.of_nat (length (list_audit_events session agent limit offset l)) <= limit.
Proof.
  intros Hl Hn. cbv zeta. rewrite audit_pages_drop by lia. rewrite drop_0.
  assert (length (sort_by audit_leb (keep_audit session agent l)) <= length l)%nat as Hlen.
  { rewrite sort_by_perm. unfold keep_audit.
    destruct session, agent; rewrite ?List.filter_length_le; auto using List.filter_length_le. }
  rewrite take_ge by nia. split_and!.
  - apply sort_by_perm.
  - apply sort_by_sorted; intros; [apply pair_leb_total|by eapply pair_leb_trans].
  - intros offset Ho. unfold list_audit_events, audit_query. rewrite py_slice_nonneg by lia.
    rewrite length_take. lia.
Qed.

Definition demo_audit (id agent : string) (at_ : Z) : AuditEvent :=
  mkAudit id "s" agent "file_read" None None DENY at_.
Definition demo_log : AuditLog :=
  [demo_audit "e3" "a" 30; demo_audit "e1" "a" 10; demo_audit "e2" "b" 20; demo_audit "e4" "a" 10].

Lemma audit_pages_complete_witness :
  let pages := audit_pages None (Some "a"%string) 2 2 0 demo_log in
  au_event_id <$> pages = ["e1"; "e4"; "e3"]%string /\
  pages ≡ₚ keep_audit None (Some "a"%string) demo_log /\
  StronglySorted (fun e f => audit_leb e f = true) pages /\
  forall offset, 0 <= offset ->
    Z.of_nat (length (list_audit_events None (Some "a"%string) 2 offset demo_log)) <= 2.
Proof.
  split; [by vm_compute|].
  apply (audit_pages_complete None (Some "a"%string) 2 2 demo_log); by vm_compute.
Defined.
