(* ===== verification/Runtime.v ===== *)
(** * The runtime security pipeline (app/services/runtime_service.py)

    [RuntimeService.execute]: one request is bound to a concrete operation, its session,
    an authorization decision, detection evidence, a risk posture and a response, and ends
    in a final decision that may carry an execution grant.  The stores it drives are the
    components modelled elsewhere; the world below holds one state of each.  What a request
    reads from outside (clocks, identifiers, the hash of its parameters) is its environment.

    Two stores that never fail in memory may fail when durable.  Such a failure is an
    exception the environment supplies at the call: [re_horizon_error] for the detection
    horizon and [re_evidence_error] for the recording of findings. *)

From S2P Require Import Prelude PyDict Json Models Lifecycle Planes Agents ToolPlane Policy Binding Authority.
From S2P Require Import Capabilities Findings Risk Sessions Detection Paths ResourceIdentity AuditTrail.
Local Open Scope Z_scope.

(** ** Requests and results *)

(** The arguments of [execute] and what the pipeline reads of the caller's context. *)
Record RuntimeRequest := mkRuntimeRequest {
  rq_session_id : string;
  rq_agent_id : string;
  rq_tool_id : string;
  rq_resource : option string;
  rq_user_prompt : string;
  rq_model_output : string;
  rq_tool_output : string;
  rq_parameters : PyParams;
  rq_trace_id : option string;
  rq_principal : option string;
  rq_tenant_id : option string;
}.

Record RuntimeEnv := mkRuntimeEnv {
  re_param_hash : result (option string);
  re_bind_now : Z;
  re_event_now : Z;
  re_detect_now : Z;
  re_record_now : Z;
  re_risk_now : Z;
  re_horizon_error : option exn;
  re_evidence_error : option exn;
  re_grant_uuid : string;
  re_issue_now : Z;
  re_suspend_env : CallEnv;
  re_audit_uuid : string;
  re_audit_now : Z;
  re_elapsed_ms : Z;
}.

Record RuntimeResult := mkRuntimeResult {
  rr_event : SessionEvent;
  rr_findings : list Finding;
  rr_risk_assessment : option RiskAssessment;
  rr_enforcement_posture : option AgentRiskPosture;
  rr_response_action : option ResponseAction;
  rr_refusal_reason : option string;
  rr_authorization : option RuntimeExecutionGrant;
  rr_authorization_result : option AuthorizationResult;
  rr_audit_event_id : option string;
}.

Definition SESSION_BINDING_INVALID : string := "SESSION_BINDING_INVALID".
Definition POSTURE_RECONCILIATION_FAILED : string := "POSTURE_RECONCILIATION_FAILED".
Definition HORIZON_UNAVAILABLE : string := "HORIZON_UNAVAILABLE".
Definition EVIDENCE_RECORDING_FAILED : string := "EVIDENCE_RECORDING_FAILED".
Definition EXECUTION_BINDING_INVALID : string := "EXECUTION_BINDING_INVALID".

(** [RuntimeResult.authorized_binding] and [authorized_parameters]. *)
Definition authorized_binding (r : RuntimeResult) : option ExecutionBinding :=
  g_binding <$> rr_authorization r.
Definition authorized_parameters (r : RuntimeResult) : option (pydict string string) :=
  parameters_dict <$> authorized_binding r.

(** ** Telemetry of the pipeline *)

Inductive RuntimeTelemetryType :=
| TOOL_INVOCATION_REQUESTED | SECURITY_AUTHORIZATION_CHECKED | GOVERNANCE_DECISION_FINALIZED.

Record RuntimeTelemetry := mkRuntimeTelemetry {
  rt_type : RuntimeTelemetryType;
  rt_session_id : string;
  rt_agent_id : string;
  rt_trace_id : option string;
  rt_principal : option string;
  rt_tenant_id : option string;
  rt_tool_id : string;
  rt_resource_target : option string;
  rt_parameter_hash : option string;
  rt_decision : option Decision;
  rt_risk_level : option RiskLevel;
  rt_execution_time_ms : Z;
  rt_error_code : option string;
}.

(** ** The operation a request names

    What containment resolves and what the request canonicalises to, before anything is
    written. *)

Record Operation := mkOperation {
  op_tool_version : option string;
  op_resource : option string;
  op_binding : option ExecutionBinding;
  op_malformed : bool;
}.

(** [binding_error_code] *)
Definition op_error_code (op : Operation) : option string :=
  match op_binding op with Some _ => None | None => Some EXECUTION_BINDING_INVALID end.

Definition FILESYSTEM_TOOLS : list string := ["file_read"; "directory_list"].
Definition PATH_KEY : PyAny := PStr RESOURCE_PARAMETER.

(** [dict(parameters or {})] *)
Definition normalized_parameters (p : PyParams) : result (pydict PyAny PyAny) :=
  match p with
  | PNone => Ok []
  | PMapping m => Ok m
  | PNotMapping => Err TypeError
  end.

Section runtime.
Context (hmac : string -> string -> string) (float_repr : Z -> string)
        (sha256 : string -> string) (uuid5 : string -> string -> string).
Context {RA RE : Type} `{AdministrativeStateRepository RA} `{EnforcementStateRepository RE}.
Context {Tel : Type} (emit : RuntimeTelemetry -> Tel -> Tel * result unit).
Context (path_exists path_is_symlink path_is_dir : Path -> bool)
        (realpath : Path -> result Path)
        (samefile : Path -> Path -> option bool)
        (scandir : Path -> option (list string)).

(** How the service was composed; the collaborators the constructor requires are always
    there. *)
Record RuntimeConfig := mkRuntimeConfig {
  rc_has_tool_service : bool;
  rc_has_telemetry : bool;
  rc_rules : list DetectionRule;
  rc_window : Z;
  rc_retention : option DetectionRetentionPolicy;
}.

Record RuntimeWorld := mkRuntimeWorld {
  rw_agents : AgentWorld RA RE;
  rw_tools : ToolRepo;
  rw_registry : option ToolRegistry;
  rw_capabilities : CapabilityRegistry;
  rw_sessions : SessionRepo;
  rw_findings : FindingsService;
  rw_risk : RiskAggregator;
  rw_authority : option ExecutionAuthority;
  rw_audit : AuditLog;
  rw_telemetry : Tel;
  rw_last_result : option RuntimeResult;
}.

Context (cfg : RuntimeConfig).

(** [_version_is_enabled] *)
Definition version_is_enabled (tid version : string) (w : RuntimeWorld) : result bool :=
  if negb (rc_has_tool_service cfg) then Ok false
  else match get_tool tid version (rw_tools w) with
       | Ok t => Ok (tool_enabled t)
       | Err ToolNotFoundError => Ok false
       | Err e => Err e
       end.

Definition resolve_descriptor (tid : string) (w : RuntimeWorld) : result (option ToolDescriptor) :=
  match rw_registry w with
  | None => Ok None
  | Some reg =>
      match resolve tid None reg with
      | Ok d => Ok (Some d)
      | Err (ToolNotRegisteredError | ToolVersionMismatchError | AmbiguousToolVersionError) => Ok None
      | Err e => Err e
      end
  end.

Definition resolve_version (tid : string) (descriptor : option ToolDescriptor) (w : RuntimeWorld)
  : result (option string) :=
  match descriptor with
  | None => Ok None
  | Some d =>
      enabled ← version_is_enabled tid (td_version d) w;
      mret (if enabled : bool then Some (td_version d) else None)
  end.

Definition profile_id (tid : string) : string := "profile-" +:+ tid.

Definition canonicalize_operand (root : Path) (v : PyAny) : result (option string) :=
  match v with
  | PyNone => Ok None
  | PStr s =>
      id ← canonicalize path_exists path_is_symlink realpath samefile scandir root s; mret (Some id)
  | POther => Err FilesystemResourceIdentityError
  end.

(** The [try] of the filesystem branch: the one target the path parameter and the resource
    agree on. *)
Definition canonical_target (tid : string) (parameters : pydict PyAny PyAny)
    (resource : option string) (w : RuntimeWorld) : result (option string) :=
  if negb (profile_exists (profile_id tid) (rw_capabilities w))
  then Err FilesystemResourceIdentityError
  else
    capabilities ← resolve_profile (profile_id tid) (rw_capabilities w);
    root ← new_resolver path_is_dir realpath (fc_workspace_root (cap_filesystem capabilities));
    parameter ← canonicalize_operand root (default PyNone (dget PATH_KEY parameters));
    target ← canonicalize_operand root (match resource with Some r => PStr r | None => PyNone end);
    match parameter, target with
    | Some p, Some t =>
        if bool_decide (p <> t) then Err FilesystemResourceIdentityError
        else mret (if str_nonempty p then Some p else Some t)
    | Some p, None => mret (if str_nonempty p then Some p else None)
    | None, _ => mret target
    end.

(** The resource and parameters after the filesystem branch; [None] when it refuses. *)
Definition canonical_operands (rq : RuntimeRequest) (descriptor : option ToolDescriptor)
    (tool_version : option string) (parameters : pydict PyAny PyAny) (w : RuntimeWorld)
  : result (option (option string * pydict PyAny PyAny)) :=
  let is_filesystem_tool :=
    match descriptor with
    | Some d => bool_decide (tc_category (tm_capability (td_metadata d)) = "filesystem"%string)
    | None => false
    end || bool_decide (rq_tool_id rq ∈ FILESYSTEM_TOOLS) in
  let has_path_target := bool_decide (rq_resource rq <> None) || dhas PATH_KEY parameters in
  let available := profile_exists (profile_id (rq_tool_id rq)) (rw_capabilities w) in
  if is_filesystem_tool && has_path_target && (bool_decide (tool_version <> None) || available)
  then match canonical_target (rq_tool_id rq) parameters (rq_resource rq) w with
       | Err FilesystemResourceIdentityError => Ok None
       | Err e => Err e
       | Ok None => Ok (Some (rq_resource rq, parameters))
       | Ok (Some t) =>
           Ok (Some (Some t, if dhas PATH_KEY parameters then dset PATH_KEY (PStr t) parameters
                             else parameters))
       end
  else Ok (Some (rq_resource rq, parameters)).

Definition establish_operation (rq : RuntimeRequest) (w : RuntimeWorld) : result Operation :=
  descriptor ← resolve_descriptor (rq_tool_id rq) w;
  tool_version ← resolve_version (rq_tool_id rq) descriptor w;
  parameters ← normalized_parameters (rq_parameters rq);
  operands ← canonical_operands rq descriptor tool_version parameters w;
  match operands with
  | None => mret (mkOperation tool_version (rq_resource rq) None true)
  | Some (resource, parameters) =>
      match tool_version with
      | None => mret (mkOperation None resource None false)
      | Some v =>
          match from_operation (rq_tool_id rq) v (PMapping parameters) resource with
          | Ok b => mret (mkOperation tool_version (eb_resource b) (Some b) false)
          | Err ExecutionBindingValidationError => mret (mkOperation tool_version resource None true)
          | Err e => Err e
          end
      end
  end.

(** ** Calls into the stores *)

Definition on_agents {A} (m : Comp (AgentWorld RA RE) A) : Comp RuntimeWorld A :=
  zoom rw_agents (fun x w => mkRuntimeWorld x (rw_tools w) (rw_registry w) (rw_capabilities w)
    (rw_sessions w) (rw_findings w) (rw_risk w) (rw_authority w) (rw_audit w) (rw_telemetry w)
    (rw_last_result w)) m.
Definition on_sessions {A} (m : Comp SessionRepo A) : Comp RuntimeWorld A :=
  zoom rw_sessions (fun x w => mkRuntimeWorld (rw_agents w) (rw_tools w) (rw_registry w)
    (rw_capabilities w) x (rw_findings w) (rw_risk w) (rw_authority w) (rw_audit w)
    (rw_telemetry w) (rw_last_result w)) m.
Definition on_risk {A} (m : Comp RiskAggregator A) : Comp RuntimeWorld A :=
  zoom rw_risk (fun x w => mkRuntimeWorld (rw_agents w) (rw_tools w) (rw_registry w)
    (rw_capabilities w) (rw_sessions w) (rw_findings w) x (rw_authority w) (rw_audit w)
    (rw_telemetry w) (rw_last_result w)) m.
Definition on_telemetry {A} (m : Comp Tel A) : Comp RuntimeWorld A :=
  zoom rw_telemetry (fun x w => mkRuntimeWorld (rw_agents w) (rw_tools w) (rw_registry w)
    (rw_capabilities w) (rw_sessions w) (rw_findings w) (rw_risk w) (rw_authority w) (rw_audit w)
    x (rw_last_result w)) m.
Definition set_sessions_store (x : SessionRepo) (w : RuntimeWorld) : RuntimeWorld :=
  mkRuntimeWorld (rw_agents w) (rw_tools w) (rw_registry w) (rw_capabilities w) x (rw_findings w)
    (rw_risk w) (rw_authority w) (rw_audit w) (rw_telemetry w) (rw_last_result w).
Definition set_findings_store (x : FindingsService) (w : RuntimeWorld) : RuntimeWorld :=
  mkRuntimeWorld (rw_agents w) (rw_tools w) (rw_registry w) (rw_capabilities w) (rw_sessions w) x
    (rw_risk w) (rw_authority w) (rw_audit w) (rw_telemetry w) (rw_last_result w).
Definition set_authority (x : ExecutionAuthority) (w : RuntimeWorld) : RuntimeWorld :=
  mkRuntimeWorld (rw_agents w) (rw_tools w) (rw_registry w) (rw_capabilities w) (rw_sessions w)
    (rw_findings w) (rw_risk w) (Some x) (rw_audit w) (rw_telemetry w) (rw_last_result w).
Definition set_audit (x : AuditLog) (w : RuntimeWorld) : RuntimeWorld :=
  mkRuntimeWorld (rw_agents w) (rw_tools w) (rw_registry w) (rw_capabilities w) (rw_sessions w)
    (rw_findings w) (rw_risk w) (rw_authority w) x (rw_telemetry w) (rw_last_result w).
Definition set_last_result (r : RuntimeResult) (w : RuntimeWorld) : RuntimeWorld :=
  mkRuntimeWorld (rw_agents w) (rw_tools w) (rw_registry w) (rw_capabilities w) (rw_sessions w)
    (rw_findings w) (rw_risk w) (rw_authority w) (rw_audit w) (rw_telemetry w) (Some r).

(** [_safe_emit]: telemetry never raises into the pipeline. *)
Definition runtime_emit (e : RuntimeTelemetry) : Comp RuntimeWorld unit :=
  if rc_has_telemetry cfg
  then try_except (on_telemetry (emit e)) (fun _ => mret tt)
  else mret tt.

Definition emit_stage (rq : RuntimeRequest) (hash : option string)
    (t : RuntimeTelemetryType) (resource : option string) (d : option Decision)
    (level : option RiskLevel) (ms : Z) (code : option string) : Comp RuntimeWorld unit :=
  runtime_emit (mkRuntimeTelemetry t (rq_session_id rq) (rq_agent_id rq) (rq_trace_id rq)
    (rq_principal rq) (rq_tenant_id rq) (rq_tool_id rq) resource hash d level ms code).

(** Construct an audit event and record it. *)
Definition audit_decision (env : RuntimeEnv) (rq : RuntimeRequest) (tool version : option string)
    (d : Decision) : Comp RuntimeWorld string := fun w =>
  match new_audit_event (mkAudit ("evt-" +:+ re_audit_uuid env) (rq_session_id rq)
          (rq_agent_id rq) (rq_tool_id rq) tool version d (re_audit_now env)) with
  | Ok e => (set_audit (record_audit_event e (rw_audit w)) w, Ok (au_event_id e))
  | Err x => (w, Err x)
  end.

Definition conclude (r : RuntimeResult) : Comp RuntimeWorld RuntimeResult := fun w =>
  (set_last_result r w, Ok r).

(** ** Refusals *)

(** [_refuse_session_binding] *)
Definition refuse_session_binding (rq : RuntimeRequest) (env : RuntimeEnv) (hash : option string)
    (resource : option string) : Comp RuntimeWorld RuntimeResult :=
  let event := mkEvent (rq_session_id rq) (rq_agent_id rq) (rq_tool_id rq) None DENY 0 0
                 (Some DENY) (re_event_now env) in
  audit_id ← audit_decision env rq None None DENY;
  _ ← emit_stage rq hash GOVERNANCE_DECISION_FINALIZED resource (Some DENY) None
        (re_elapsed_ms env) (Some SESSION_BINDING_INVALID);
  conclude (mkRuntimeResult event [] None None None (Some SESSION_BINDING_INVALID) None None
              (Some audit_id)).

(** [_finalize_refused_event] *)
Definition finalize_refused_event (recorded : SessionEvent) : Comp RuntimeWorld SessionEvent :=
  _ ← on_sessions (update_event_final_decision (e_session_id recorded)
                     (e_sequence_number recorded) DENY);
  mret (with_final DENY recorded).

(** The body the three refusals after recording share, by their code and findings. *)
Definition refuse_recorded (code : string) (findings : list Finding) (rq : RuntimeRequest)
    (env : RuntimeEnv) (hash : option string) (recorded : SessionEvent)
    (resolved_tool_id resource : option string) : Comp RuntimeWorld RuntimeResult :=
  event ← finalize_refused_event recorded;
  audit_id ← audit_decision env rq resolved_tool_id (e_tool_version recorded) DENY;
  _ ← emit_stage rq hash GOVERNANCE_DECISION_FINALIZED resource (Some DENY) None
        (re_elapsed_ms env) (Some code);
  conclude (mkRuntimeResult event findings None None None (Some code) None None (Some audit_id)).

Definition refuse_posture_reconciliation (findings : list Finding) :=
  refuse_recorded POSTURE_RECONCILIATION_FAILED findings.
Definition refuse_horizon_unavailable := refuse_recorded HORIZON_UNAVAILABLE [].
Definition refuse_evidence_recording := refuse_recorded EVIDENCE_RECORDING_FAILED [].

(** ** Detection and evidence *)

Definition detection_context (rq : RuntimeRequest) (resource : option string)
    (recorded : SessionEvent) : DetectionContext :=
  Detection.mkContext (rq_session_id rq) (rq_agent_id rq) (rq_user_prompt rq)
    (rq_model_output rq) (rq_tool_output rq) (e_sequence_number recorded)
    [("tool_id", rq_tool_id rq); ("resource", default EmptyString resource)]%string.

(** The query of Plane 2A. *)
Definition horizon_query (rq : RuntimeRequest) (descriptor : DetectionRuleDescriptor)
    (recorded : SessionEvent) (baseline : Z) : result HorizonQuery :=
  new_query (rq_agent_id rq) (d_scope descriptor)
    (match d_scope descriptor with SCOPE_SESSION => Some (rq_session_id rq) | SCOPE_AGENT => None end)
    (d_horizon descriptor) (e_timestamp recorded) baseline.

Definition eligible_events (q : HorizonQuery) (env : RuntimeEnv) : Comp RuntimeWorld (list SessionEvent) :=
  fun w => match re_horizon_error env with
           | Some e => (w, Err e)
           | None => (w, Ok (list_eligible_events q (rw_sessions w)))
           end.

Definition session_findings (rq : RuntimeRequest) (s : FindingsService) : list Finding :=
  list_findings (Some (rq_session_id rq)) (Some (rq_agent_id rq)) None None None None None s.

Definition record_evidence (fs : list Finding) (env : RuntimeEnv) : Comp RuntimeWorld (list Finding) :=
  fun w => match re_evidence_error env with
           | Some e => (w, Err e)
           | None =>
               let '(s, recorded) := record_new_findings fs (re_record_now env) (rw_findings w) in
               (set_findings_store s w, Ok recorded)
           end.

(** [for f in findings: try: ingest except: mark_stale(agent_id)] *)
Fixpoint ingest_findings (now : Z) (agent : string) (fs : list Finding) : Comp RuntimeWorld unit :=
  match fs with
  | [] => mret tt
  | f :: fs =>
      _ ← try_except (_ ← on_risk (ingest_finding now f); mret tt)
            (fun _ => on_risk (fun s => (aggregator_mark_stale now agent s, Ok tt)));
      ingest_findings now agent fs
  end.

(** ** Posture *)

Definition current_posture (now : Z) (agent : string) : Comp RuntimeWorld AgentRiskPosture := fun w =>
  match get_posture now agent (rw_risk w) with
  | Ok p => (w, Ok p)
  | Err ProjectionInvariantError => (w, Err PostureReconciliationError)
  | Err e => (w, Err e)
  end.

(** The stored baseline, or an empty one for an agent that is not registered. *)
Definition reconciliation_watermark (agent : string) : Comp RuntimeWorld BaselineWatermark :=
  try_except (on_agents (get_current_baseline agent))
    (fun e => match e with
              | AgentNotFoundError => mret (mkWatermark agent None 0 0)
              | e => raise e
              end).

Definition reconcile_posture (now : Z) (agent : string) : Comp RuntimeWorld AgentRiskPosture :=
  watermark ← reconciliation_watermark agent;
  findings ← (fun w => (w, Ok (agent_findings agent (rw_findings w))));
  reconciled ← try_except (on_risk (reconcile_agent now agent findings watermark))
                 (fun _ => raise PostureReconciliationError);
  if bool_decide (p_state reconciled = HEALTHY) then mret reconciled
  else raise PostureReconciliationError.

(** [_assess_agent_posture]; the re-check under the lock reads the same projection when
    nothing else runs. *)
Definition assess_agent_posture (now : Z) (agent : string) : Comp RuntimeWorld AgentRiskPosture :=
  posture ← current_posture now agent;
  if bool_decide (p_state posture = HEALTHY) then mret posture
  else
    posture ← current_posture now agent;
    if bool_decide (p_state posture = HEALTHY) then mret posture
    else reconcile_posture now agent.

(** ** The decision *)

(** The response may override an ALLOW. *)
Definition override_decision (d : Decision) (t : ResponseType) : Decision :=
  match d, t with
  | ALLOW, SUSPEND_AGENT => DENY
  | ALLOW, REQUIRE_APPROVAL => APPROVAL_REQUIRED
  | d, _ => d
  end.

Definition deny_allow (d : Decision) : Decision := match d with ALLOW => DENY | d => d end.

(** The containment gate and the issuance of the grant. *)
Definition gate_and_issue (rq : RuntimeRequest) (env : RuntimeEnv) (binding : option ExecutionBinding)
    (final : Decision) (epoch : Z)
  : Comp RuntimeWorld (Decision * option RuntimeExecutionGrant) := fun w =>
  match rw_authority w, binding with
  | None, _ => (w, Ok (final, None))
  | Some _, None => (w, Ok (deny_allow final, None))
  | Some authority, Some b =>
      if negb (profile_exists (profile_id (rq_tool_id rq)) (rw_capabilities w))
      then (w, Ok (deny_allow final, None))
      else
        match resolve_profile (profile_id (rq_tool_id rq)) (rw_capabilities w) with
        | Err e => (w, Err e)
        | Ok caps =>
            let '(authority, r) :=
              issue hmac float_repr (Some (aw_enf (rw_agents w))) b final (rq_agent_id rq)
                (rq_session_id rq) (Some epoch) (Some (cap_profile_id caps))
                (Some (compute_digest sha256 float_repr caps)) (re_grant_uuid env)
                (re_issue_now env) authority in
            let w := set_authority authority w in
            match r with
            | Err e => (w, Err e)
            | Ok None => (w, Ok (deny_allow final, None))
            | Ok (Some g) => (w, Ok (final, Some g))
            end
        end
  end.

(** [_suspend_agent]: issuance is closed before the suspension is written. *)
Definition close_issuance (agent : string) : Comp RuntimeWorld unit := fun w =>
  match rw_authority w with
  | None => (w, Ok tt)
  | Some authority => (set_authority (suspend_issuance agent ENFORCEMENT authority).1 w, Ok tt)
  end.

Definition SUSPENSION_REASON : string := "Runtime enforcement: risk posture requires suspension".

Definition suspend_for_posture (rq : RuntimeRequest) (env : RuntimeEnv) (posture : AgentRiskPosture)
    (findings : list Finding) : Comp RuntimeWorld unit :=
  _ ← close_issuance (rq_agent_id rq);
  let trigger := mkTrigger (Some (rq_session_id rq)) (Some (p_risk_level posture))
                   (Some (p_risk_score posture)) (finding_id <$> findings) in
  try_except
    (_ ← on_agents (suspend_agent (rq_agent_id rq) SUSPENSION_REASON (Some trigger)
                      (re_suspend_env env)); mret tt)
    (fun e => match e with AgentNotFoundError => mret tt | e => raise e end).

(** ** execute *)

(** [except SessionBindingError], which [SessionTerminalError] extends. *)
Definition is_session_binding_error (e : exn) : bool :=
  match e with SessionBindingError _ _ _ | SessionTerminalError _ _ _ => true | _ => false end.

(** [except SessionRepositoryError], which [HorizonUnavailableError] extends. *)
Definition is_session_repository_error (e : exn) : bool :=
  match e with SessionRepositoryError | HorizonUnavailableError => true | _ => false end.

Definition authorize_stage (rq : RuntimeRequest) (op : Operation) (w : RuntimeWorld)
  : result (option AuthorizationResult) :=
  if op_malformed op then Ok None
  else r ← evaluate (rq_agent_id rq) (rq_tool_id rq) (op_resource op) (rw_agents w) (rw_tools w);
       mret (Some r).

Definition authorized_decision (r : option AuthorizationResult) : Decision :=
  match r with Some r => az_decision r | None => DENY end.

(** The enforcement snapshot; an unregistered agent has none. *)
Definition enforcement_snapshot (agent : string) : Comp RuntimeWorld (option AgentEnforcementState) :=
  try_except (s ← on_agents (get_enforcement_state agent); mret (Some s))
    (fun e => match e with AgentNotFoundError => mret None | e => raise e end).

(** [resolved_tool_id] *)
Definition resolved_tool (rq : RuntimeRequest) (op : Operation) (az : option AuthorizationResult)
  : option string :=
  if bool_decide (op_tool_version op <> None)
     || match az with
        | Some r => bool_decide (ck_status (az_tool_check r) = PASSED)
        | None => false
        end
  then Some (rq_tool_id rq) else None.

(** From the posture to the recorded outcome. *)
Definition decide_and_record (rq : RuntimeRequest) (env : RuntimeEnv) (hash : option string)
    (op : Operation) (az : option AuthorizationResult) (epoch : Z) (recorded : SessionEvent)
    (findings : list Finding) (assessment : RiskAssessment) (posture : AgentRiskPosture)
  : Comp RuntimeWorld RuntimeResult :=
  let response := recommend_for_level (p_risk_level posture) (rq_session_id rq) (rq_agent_id rq) in
  let overridden := override_decision (e_decision recorded) (rs_response_type response) in
  '(final, authorization) ← gate_and_issue rq env (op_binding op) overridden epoch;
  _ ← on_sessions (update_event_final_decision (rq_session_id rq) (e_sequence_number recorded) final);
  _ ← (if bool_decide (rs_response_type response = SUSPEND_AGENT)
       then suspend_for_posture rq env posture findings else mret tt);
  audit_id ← audit_decision env rq (resolved_tool rq op az) (op_tool_version op) final;
  _ ← emit_stage rq hash GOVERNANCE_DECISION_FINALIZED (op_resource op) (Some final)
        (Some (ra_risk_level assessment)) (re_elapsed_ms env) (op_error_code op);
  conclude (mkRuntimeResult (with_final final recorded) findings (Some assessment) (Some posture)
              (Some response) None authorization az (Some audit_id)).

(** From recorded evidence to the posture. *)
Definition assess_and_decide (rq : RuntimeRequest) (env : RuntimeEnv) (hash : option string)
    (op : Operation) (az : option AuthorizationResult) (epoch : Z) (recorded : SessionEvent)
    (findings : list Finding) : Comp RuntimeWorld RuntimeResult := fun w =>
  match assess_session (re_risk_now env) (rq_session_id rq) (rq_agent_id rq)
          (session_findings rq (rw_findings w)) with
  | Err e => (w, Err e)
  | Ok assessment =>
      match assess_agent_posture (re_risk_now env) (rq_agent_id rq) w with
      | (w, Ok posture) =>
          decide_and_record rq env hash op az epoch recorded findings assessment posture w
      | (w, Err PostureReconciliationError) =>
          refuse_posture_reconciliation findings rq env hash recorded (resolved_tool rq op az)
            (op_resource op) w
      | (w, Err e) => (w, Err e)
      end
  end.

(** Recording the evidence and projecting it, under the agent's coordination lock. *)
Definition record_and_assess (rq : RuntimeRequest) (env : RuntimeEnv) (hash : option string)
    (op : Operation) (az : option AuthorizationResult) (epoch : Z) (recorded : SessionEvent)
    (detected : list Finding) : Comp RuntimeWorld RuntimeResult := fun w =>
  match record_evidence detected env w with
  | (w, Err _) =>
      refuse_evidence_recording rq env hash recorded (resolved_tool rq op az) (op_resource op) w
  | (w, Ok findings) =>
      (_ ← ingest_findings (re_record_now env) (rq_agent_id rq) findings;
       assess_and_decide rq env hash op az epoch recorded findings) w
  end.

(** From the horizon query to the evidence. *)
Definition query_and_record (rq : RuntimeRequest) (env : RuntimeEnv) (hash : option string)
    (op : Operation) (az : option AuthorizationResult) (state : option AgentEnforcementState)
    (recorded : SessionEvent) (content : list Finding) (query : HorizonQuery)
  : Comp RuntimeWorld RuntimeResult := fun w =>
  match eligible_events query env w with
  | (w, Err e) =>
      if is_session_repository_error e
      then refuse_horizon_unavailable rq env hash recorded (resolved_tool rq op az)
             (op_resource op) w
      else (w, Err e)
  | (w, Ok events) =>
      let behavioural :=
        detect_excessive_denials uuid5 (rc_window cfg) (re_detect_now env) events
          (e_timestamp recorded) (session_findings rq (rw_findings w))
          (generation_of state) in
      record_and_assess rq env hash op az (epoch_of state) recorded (content ++ behavioural) w
  end.

Definition baseline_of (state : option AgentEnforcementState) : Z :=
  match state with Some s => es_baseline_agent_sequence s | None => 0 end.

(** From the persisted event to the horizon query. *)
Definition detect_and_record (rq : RuntimeRequest) (env : RuntimeEnv) (hash : option string)
    (op : Operation) (az : option AuthorizationResult) (state : option AgentEnforcementState)
    (recorded : SessionEvent) : Comp RuntimeWorld RuntimeResult :=
  context ← liftR (new_context (detection_context rq (op_resource op) recorded));
  descriptor ← liftR (get_rule_descriptor (rc_window cfg) EXCESSIVE_DENIALS_RULE_NAME);
  query ← liftR (horizon_query rq descriptor recorded (baseline_of state));
  query_and_record rq env hash op az state recorded (engine_evaluate (rc_rules cfg) context) query.

(** From the session binding to the persisted event. *)
Definition authorize_and_detect (rq : RuntimeRequest) (env : RuntimeEnv) (hash : option string)
    (op : Operation) : Comp RuntimeWorld RuntimeResult :=
  az ← (fun w => (w, authorize_stage rq op w));
  let decision := authorized_decision az in
  _ ← emit_stage rq hash SECURITY_AUTHORIZATION_CHECKED (op_resource op) (Some decision) None
        (re_elapsed_ms env) (op_error_code op);
  state ← enforcement_snapshot (rq_agent_id rq);
  recorded ← on_sessions (Sessions.record_event (rc_retention cfg)
    (mkEvent (rq_session_id rq) (rq_agent_id rq) (rq_tool_id rq) (op_tool_version op) decision 0 0
       None (re_event_now env)));
  detect_and_record rq env hash op az state recorded.

Definition bind_and_run (rq : RuntimeRequest) (env : RuntimeEnv) (hash : option string)
    (op : Operation) : Comp RuntimeWorld RuntimeResult := fun w =>
  match on_sessions (bind_or_validate (rq_session_id rq) (rq_agent_id rq) (re_bind_now env)) w with
  | (w, Ok _) => authorize_and_detect rq env hash op w
  | (w, Err e) =>
      if is_session_binding_error e
      then refuse_session_binding rq env hash (op_resource op) w
      else (w, Err e)
  end.

Definition execute (rq : RuntimeRequest) (env : RuntimeEnv) : Comp RuntimeWorld RuntimeResult :=
  hash ← liftR (re_param_hash env);
  op ← (fun w => (w, establish_operation rq w));
  _ ← emit_stage rq hash TOOL_INVOCATION_REQUESTED (op_resource op) None None 0 None;
  bind_and_run rq env hash op.
End runtime.

(** ** What each stage changes *)

(** Split a successful sequence into its first call and the rest. *)
Lemma comp_bind_Ok {W A B} (m : Comp W A) (k : A -> Comp W B) w w' b :
  (a ← m; k a) w = (w', Ok b) -> exists w1 a, m w = (w1, Ok a) /\ k a w1 = (w', Ok b).
Proof. unfold mbind, comp_bind. destruct (m w) as [w1 [a|e]]; [eauto|done]. Qed.

Lemma liftR_Ok {W A} (r : result A) (w w' : W) a : liftR r w = (w', Ok a) -> w' = w /\ r = Ok a.
Proof. unfold liftR. by intros [= -> ->]. Qed.

Section frames.
Context (hmac : string -> string -> string) (float_repr : Z -> string)
        (sha256 : string -> string) (uuid5 : string -> string -> string).
Context {RA RE : Type} `{AdministrativeContract RA} `{EnforcementContract RE}.
Context {Tel : Type} (emit : RuntimeTelemetry -> Tel -> Tel * result unit).
Context (path_exists path_is_symlink path_is_dir : Path -> bool)
        (realpath : Path -> result Path)
        (samefile : Path -> Path -> option bool)
        (scandir : Path -> option (list string)).
Context (cfg : RuntimeConfig).
Local Abbreviation World := (RuntimeWorld (RA:=RA) (RE:=RE) (Tel:=Tel)).

(** The stores a request reads or writes, apart from telemetry and the last result. *)
Record unchanged (w w' : World) : Prop := mkUnchanged {
  un_agents : rw_agents w' = rw_agents w;
  un_tools : rw_tools w' = rw_tools w;
  un_registry : rw_registry w' = rw_registry w;
  un_capabilities : rw_capabilities w' = rw_capabilities w;
  un_sessions : rw_sessions w' = rw_sessions w;
  un_findings : rw_findings w' = rw_findings w;
  un_risk : rw_risk w' = rw_risk w;
  un_authority : rw_authority w' = rw_authority w;
  un_audit : rw_audit w' = rw_audit w;
}.

Lemma unchanged_refl (w : World) : unchanged w w.
Proof. by split. Qed.

Lemma unchanged_trans (w1 w2 w3 : World) : unchanged w1 w2 -> unchanged w2 w3 -> unchanged w1 w3.
Proof. intros [] []. split; congruence. Qed.

Lemma emit_run rq hash t resource d level ms code (w : World) :
  exists w', emit_stage emit cfg rq hash t resource d level ms code w = (w', Ok tt) /\
    unchanged w w'.
Proof.
  unfold emit_stage, runtime_emit. destruct (rc_has_telemetry cfg); [|by exists w].
  unfold try_except, on_telemetry, zoom.
  destruct (emit _ (rw_telemetry w)) as [t' [[]|e]]; eexists; split; done || by split.
Qed.

(** The audit record of a request's outcome. *)
Definition outcome_event (env : RuntimeEnv) (rq : RuntimeRequest) (tool version : option string)
    (d : Decision) : AuditEvent :=
  mkAudit ("evt-" +:+ re_audit_uuid env) (rq_session_id rq) (rq_agent_id rq) (rq_tool_id rq)
    tool version d (re_audit_now env).

Lemma audit_decision_Ok env rq tool version d (w w' : World) id :
  audit_decision env rq tool version d w = (w', Ok id) ->
  id = "evt-" +:+ re_audit_uuid env /\
  w' = set_audit (rw_audit w ++ [outcome_event env rq tool version d]) w.
Proof.
  unfold audit_decision, new_audit_event. simpl. destruct version, tool; by intros [= <- <-].
Qed.

(** What a concluded request leaves in the audit log and reports. *)
Definition concluded (env : RuntimeEnv) (rq : RuntimeRequest) (tool version : option string)
    (d : Decision) (r : RuntimeResult) (w w' : World) : Prop :=
  rw_audit w' = rw_audit w ++ [outcome_event env rq tool version d] /\
  rr_audit_event_id r = Some ("evt-" +:+ re_audit_uuid env) /\
  e_final_decision (rr_event r) = Some d.

(** The common tail: audit, telemetry, result. *)
Lemma tail_Ok env rq hash tool version d resource level ms code (mk : string -> RuntimeResult) (w w' : World) r :
  (audit_id ← audit_decision env rq tool version d;
   _ ← emit_stage emit cfg rq hash GOVERNANCE_DECISION_FINALIZED resource (Some d) level ms code;
   conclude (mk audit_id)) w = (w', Ok r) ->
  r = mk ("evt-" +:+ re_audit_uuid env) /\
  rw_audit w' = rw_audit w ++ [outcome_event env rq tool version d] /\
  unchanged (set_audit (rw_audit w') w) w'.
Proof.
  intros (w1 & id & Ha & Hk)%comp_bind_Ok. apply audit_decision_Ok in Ha as [-> ->].
  destruct (emit_run rq hash GOVERNANCE_DECISION_FINALIZED resource (Some d) level ms code
    (set_audit (rw_audit w ++ [outcome_event env rq tool version d]) w)) as (w2 & He & Hu).
  unfold mbind, comp_bind in Hk. rewrite He in Hk. unfold conclude in Hk. simplify_eq.
  split_and!; [done|apply Hu|]. destruct Hu. split; try done.
Qed.

Lemma refuse_binding_Ok rq env hash resource (w w' : World) r :
  refuse_session_binding emit cfg rq env hash resource w = (w', Ok r) ->
  concluded env rq None None DENY r w w' /\ unchanged (set_audit (rw_audit w') w) w' /\
  e_decision (rr_event r) = DENY /\ rr_findings r = [] /\ rr_authorization r = None /\
  rr_response_action r = None /\ rr_refusal_reason r = Some SESSION_BINDING_INVALID.
Proof. by intros (-> & ? & ?)%tail_Ok. Qed.

Lemma refuse_recorded_Ok code fs rq env hash recorded tool resource (w w' : World) r :
  refuse_recorded emit cfg code fs rq env hash recorded tool resource w = (w', Ok r) ->
  concluded env rq tool (e_tool_version recorded) DENY r w w' /\
  r = mkRuntimeResult (with_final DENY recorded) fs None None None (Some code) None None
        (Some ("evt-" +:+ re_audit_uuid env)) /\
  repo_update_final_decision (e_session_id recorded) (e_sequence_number recorded) DENY
    (rw_sessions w) = (rw_sessions w', Ok tt) /\
  unchanged (set_audit (rw_audit w') (set_sessions_store (rw_sessions w') w)) w'.
Proof.
  unfold refuse_recorded. intros (w1 & ev & Hf & Hk)%comp_bind_Ok.
  unfold finalize_refused_event in Hf. apply comp_bind_Ok in Hf as (w2 & [] & Hu & [= -> <-]).
  apply tail_Ok in Hk as (-> & Ha & Hun). unfold on_sessions, zoom in Hu.
  destruct (update_event_final_decision _ _ _ _) as [s' [u|]] eqn:Hs; [|done]. destruct u.
  injection Hu as <-. simpl in *. destruct Hun; simpl in *.
  split_and!; try done.
  unfold update_event_final_decision in Hs. rewrite Hs. by f_equal.
Qed.

Definition with_authority (x : option ExecutionAuthority) (w : World) : World :=
  mkRuntimeWorld (rw_agents w) (rw_tools w) (rw_registry w) (rw_capabilities w) (rw_sessions w)
    (rw_findings w) (rw_risk w) x (rw_audit w) (rw_telemetry w) (rw_last_result w).

(** A grant the authority issued for this request. *)
Record granted (rq : RuntimeRequest) (b : ExecutionBinding) (epoch : Z) (w w' : World)
    (g : RuntimeExecutionGrant) : Prop := mkGranted {
  gr_binding : g_binding g = b;
  gr_agent : g_agent_id g = rq_agent_id rq;
  gr_session : g_session_id g = rq_session_id rq;
  gr_profile : exists caps, dget (profile_id (rq_tool_id rq)) (rw_capabilities w) = Some caps /\
    g_capability_profile_id g = Some (cap_profile_id caps) /\
    g_capability_digest g = Some (compute_digest sha256 float_repr caps);
  gr_epoch : exists st, enf_get_state (rq_agent_id rq) (aw_enf (rw_agents w)) = Ok st /\
    epoch_of st = epoch;
  gr_open : exists authority, rw_authority w = Some authority /\
    closed_planes (rq_agent_id rq) authority = ∅;
  gr_outstanding : exists authority, rw_authority w' = Some authority /\
    dget (g_grant_id g) (ea_outstanding authority) =
      Some (mkOutstanding (g_expires_at g) (rq_agent_id rq) (rq_session_id rq));
  gr_wf : forall a a', rw_authority w = Some a -> rw_authority w' = Some a' ->
    authority_wf a -> authority_wf a';
}.

Lemma gate_Ok rq env binding d epoch (w w' : World) final auth :
  gate_and_issue hmac float_repr sha256 rq env binding d epoch w = (w', Ok (final, auth)) ->
  w' = with_authority (rw_authority w') w /\
  (forall a, rw_authority w = Some a -> exists a', rw_authority w' = Some a' /\
     ea_closed a' = ea_closed a /\ (authority_wf a -> authority_wf a')) /\
  (rw_authority w = None -> rw_authority w' = None) /\
  match auth with
  | None => (final = ALLOW -> rw_authority w = None) /\ (final = d \/ d = ALLOW /\ final = DENY)
  | Some g => d = ALLOW /\ final = ALLOW /\ exists b, binding = Some b /\ granted rq b epoch w w' g
  end.
Proof.
  intros Hg. unfold gate_and_issue in Hg.
  assert (forall x : World, x = with_authority (rw_authority x) x) as Hsame by (by intros []).
  assert (deny_allow d <> ALLOW) as Hdeny by (by destruct d).
  assert (deny_allow d = d \/ d = ALLOW /\ deny_allow d = DENY) as Hcases by (destruct d; auto).
  destruct (rw_authority w) as [authority|] eqn:Ha; [destruct binding as [b|]|].
  2, 3: injection Hg as <- <- <-; rewrite Ha; split; [rewrite <- Ha; apply Hsame|];
    (split; [naive_solver|]); (split; [done|]); naive_solver.
  unfold profile_exists, dhas, resolve_profile, of_option in Hg.
  destruct (dget (profile_id _) _) as [caps|] eqn:Hd; cbn in Hg.
  2: { injection Hg as <- <- <-. rewrite Ha. split; [rewrite <- Ha; apply Hsame|]. naive_solver. }
  destruct (issue _ _ _ _ _ _ _ _ _ _ _ _ _) as [a' [[g|]|e]] eqn:Hi; [| |done].
  - injection Hg as <- <- <-. simpl.
    pose proof (auth_step_effect hmac float_repr
      (OIssue (Some (aw_enf (rw_agents w))) b d (rq_agent_id rq) (rq_session_id rq) (Some epoch)
        (Some (cap_profile_id caps)) (Some (compute_digest sha256 float_repr caps))
        (re_grant_uuid env) (re_issue_now env)) authority) as Heff.
    simpl in Heff. rewrite Hi in Heff.
    apply issue_granted in Hi as (Hal & Hopen & G1 & G2 & G3 & G4 & G5 & G6 & G7 & G8). subst d.
    split_and!; [done| |done|done|done|].
    + intros a [= <-]. exists a'. split_and!; [done..|]. intros Hwf. by apply Heff.
    + exists b. split; [done|]. split; simpl; eauto.
      intros a a1. rewrite Ha. intros [= <-] [= <-] Hwf. by apply Heff.
  - injection Hg as <- <- <-. simpl.
    assert (a' = authority) as -> by (by apply issue_None in Hi).
    split_and!; [done| |done|done|naive_solver]. naive_solver.
Qed.

Definition with_agents (x : AgentWorld RA RE) (w : World) : World :=
  mkRuntimeWorld x (rw_tools w) (rw_registry w) (rw_capabilities w) (rw_sessions w)
    (rw_findings w) (rw_risk w) (rw_authority w) (rw_audit w) (rw_telemetry w) (rw_last_result w).

(** The repositories of the two planes raise errors of their own. *)
Definition plane_errors (x : AgentWorld RA RE) : Prop :=
  (forall b, adm_get_state b (aw_adm x) <> Err AgentNotFoundError) /\
  (forall b, enf_get_state b (aw_enf x) <> Err AgentNotFoundError) /\
  (forall t s e, (enf_record_transition t s e (aw_enf x)).2 <> Err AgentNotFoundError).

(** The agent is contained: suspended, or out of service for good, or not an agent. *)
Definition contained (a : string) (x : AgentWorld RA RE) : Prop :=
  is_suspended (enf_view (aw_enf x) a) = true \/
  admin_state_of (adm_view (aw_adm x) a) = Some ADM_DISABLED \/
  agent_get a (aw_agents x) = None.

Lemma suspend_keeps a reason trig env (x x' : AgentWorld RA RE) r :
  aw_inv x -> suspend_agent a reason trig env x = (x', r) ->
  aw_agents x' = aw_agents x /\ adm_view (aw_adm x') = adm_view (aw_adm x) /\ aw_inv x'.
Proof.
  intros Hinv Hs. pose proof (run_call_cases (CSuspend a reason trig env) x Hinv) as Hi.
  apply call_effect_inv in Hi; [|done]. unfold run_call in Hi. rewrite forget_state, Hs in Hi.
  apply suspend_agent_cases in Hs as [[]|(_ & _ & t & _ & Hstep)]; [done| |done].
  destruct Hstep as (H1' & H2' & _). by rewrite H2'.
Qed.

Lemma suspend_for_posture_Ok rq env p fs (w w' : World) :
  suspend_for_posture rq env p fs w = (w', Ok tt) ->
  w' = with_authority (rw_authority w') (with_agents (rw_agents w') w) /\
  rw_authority w' = (fun a => (suspend_issuance (rq_agent_id rq) ENFORCEMENT a).1) <$> rw_authority w /\
  (aw_inv (rw_agents w) -> plane_errors (rw_agents w) ->
   contained (rq_agent_id rq) (rw_agents w') /\ aw_inv (rw_agents w')).
Proof.
  unfold suspend_for_posture. intros (w1 & [] & Hc & Hs)%comp_bind_Ok.
  assert (w1 = with_authority ((fun a => (suspend_issuance (rq_agent_id rq) ENFORCEMENT a).1) <$>
    rw_authority w) w) as ->.
  { unfold close_issuance in Hc. destruct (rw_authority w) eqn:Ha; injection Hc as <-; [done|].
    simpl. rewrite <- Ha. by destruct w. }
  clear Hc. unfold try_except, on_agents, zoom, mbind, comp_bind in Hs. simpl in Hs.
  destruct (suspend_agent _ _ _ _ _) as [x [ag|e]] eqn:Hsus; simpl in Hs.
  - injection Hs as <-. simpl. split_and!; [done|done|]. intros Hinv _.
    pose proof (suspend_keeps _ _ _ _ _ _ _ Hinv Hsus) as (_ & Hadm & Hi). split; [|done].
    unfold contained. rewrite Hadm. apply suspend_agent_Ok in Hsus as [?|?]; [by left|by right; left|done].
  - destruct e; try done. injection Hs as <-. simpl. split_and!; [done|done|].
    intros Hinv (H1' & H2' & H3').
    pose proof (suspend_keeps _ _ _ _ _ _ _ Hinv Hsus) as (Heq & _ & Hi). split; [|done].
    right. right. rewrite Heq.
    by eapply suspend_agent_not_found.
Qed.

(** A completed request. *)
Record completed (rq : RuntimeRequest) (env : RuntimeEnv) (op : Operation)
    (az : option AuthorizationResult) (epoch : Z) (recorded : SessionEvent) (fs : list Finding)
    (assessment : RiskAssessment) (p : AgentRiskPosture) (co_final : Decision) (w w' : World)
    (r : RuntimeResult) : Prop := mkCompleted {
  co_result : r = mkRuntimeResult (with_final co_final recorded) fs (Some assessment) (Some p)
      (Some (recommend_for_level (p_risk_level p) (rq_session_id rq) (rq_agent_id rq))) None
      (rr_authorization r) az (Some ("evt-" +:+ re_audit_uuid env));
  co_concluded : concluded env rq (resolved_tool rq op az) (op_tool_version op) co_final r w w';
  co_decision : match rr_authorization r with
    | None => (co_final = ALLOW -> rw_authority w = None) /\
        (co_final = override_decision (e_decision recorded) (RESPONSE_TYPES (p_risk_level p)) \/
         co_final = DENY)
    | Some g => override_decision (e_decision recorded) (RESPONSE_TYPES (p_risk_level p)) = ALLOW /\
        co_final = ALLOW /\ exists b w1, op_binding op = Some b /\
        granted rq b epoch w w1 g /\
        (p_risk_level p <> RISK_CRITICAL -> rw_authority w' = rw_authority w1)
    end;
  co_persisted : repo_update_final_decision (rq_session_id rq) (e_sequence_number recorded) co_final
    (rw_sessions w) = (rw_sessions w', Ok tt);
  co_contained : p_risk_level p = RISK_CRITICAL ->
    (aw_inv (rw_agents w) -> plane_errors (rw_agents w) ->
     contained (rq_agent_id rq) (rw_agents w') /\ aw_inv (rw_agents w')) /\
    (forall a', rw_authority w' = Some a' -> exists a a1, rw_authority w = Some a /\
       (authority_wf a -> authority_wf a1) /\
       a' = (suspend_issuance (rq_agent_id rq) ENFORCEMENT a1).1);
  co_agents : p_risk_level p <> RISK_CRITICAL -> rw_agents w' = rw_agents w;
  co_frame : rw_tools w' = rw_tools w /\ rw_registry w' = rw_registry w /\
    rw_capabilities w' = rw_capabilities w /\ rw_findings w' = rw_findings w /\
    rw_risk w' = rw_risk w;
}.

Lemma decide_and_record_Ok rq env hash op az epoch recorded fs assessment p (w w' : World) r :
  decide_and_record hmac float_repr sha256 emit cfg rq env hash op az epoch recorded fs assessment p w
  = (w', Ok r) ->
  exists final, completed rq env op az epoch recorded fs assessment p final w w' r.
Proof.
  unfold decide_and_record. intros (w1 & [final auth] & Hg & Hk)%comp_bind_Ok.
  apply comp_bind_Ok in Hk as (w2 & [] & Hu & Hk).
  apply comp_bind_Ok in Hk as (w3 & [] & Hs & Hk).
  apply tail_Ok in Hk as (Hr & Ha & Hun).
  destruct (gate_Ok _ _ _ _ _ _ _ _ _ Hg) as (Hw1 & Hauth & Hnone & Hdec). clear Hg.
  remember (rw_authority w1) as au eqn:Hau. subst w1. clear Hau.
  unfold on_sessions, zoom in Hu.
  destruct (update_event_final_decision _ _ _ _) as [s' [[]|]] eqn:Hse; [|done].
  injection Hu as <-. unfold update_event_final_decision in Hse.
  cbn [rs_response_type recommend_for_level] in Hs.
  assert (RESPONSE_TYPES (p_risk_level p) = SUSPEND_AGENT <-> p_risk_level p = RISK_CRITICAL) as Hcrit
    by (by destruct (p_risk_level p)).
  assert (rw_audit w3 = rw_audit w /\ rw_sessions w3 = s' /\ rw_tools w3 = rw_tools w /\
    rw_registry w3 = rw_registry w /\ rw_capabilities w3 = rw_capabilities w /\
    rw_findings w3 = rw_findings w /\ rw_risk w3 = rw_risk w) as (F1 & F2 & F3 & F4 & F5 & F6 & F7).
  { case_bool_decide; [by apply suspend_for_posture_Ok in Hs as (-> & _)|by injection Hs as <-]. }
  destruct Hun as [U1 U2 U3 U4 U5 U6 U7 U8 U9]. cbn [rw_agents rw_tools rw_registry rw_capabilities
    rw_sessions rw_findings rw_risk rw_authority rw_audit set_audit] in *.
  exists final. split.
  - by rewrite Hr.
  - unfold concluded. rewrite Hr, Ha, F1. done.
  - rewrite Hr. cbn [rr_authorization]. destruct auth as [g|].
    + destruct Hdec as (? & ? & b & ? & ?). split_and!; [done..|].
      exists b, (with_authority au w). split_and!; [done..|].
      intros Hn. rewrite U8. rewrite bool_decide_false in Hs by tauto. by injection Hs as <-.
    + destruct Hdec as (? & [?|[_ ?]]); split; auto.
  - rewrite U5, F2. cbn in Hse. by rewrite Hse.
  - intros Hc. rewrite bool_decide_true in Hs by tauto.
    apply suspend_for_posture_Ok in Hs as (_ & Hau & Hco). cbn in *. split.
    + intros Hi Hp. rewrite U1. by apply Hco.
    + intros a' Ha'. rewrite U8, Hau in Ha'. destruct au as [a1|]; [|done].
      injection Ha' as <-. destruct (rw_authority w) as [a|] eqn:Haw; [|specialize (Hnone eq_refl); done].
      destruct (Hauth a eq_refl) as (a1' & Heq & _ & Hwf). injection Heq as <-.
      exists a, a1. by split_and!.
  - intros Hc. rewrite bool_decide_false in Hs by tauto. injection Hs as <-. by rewrite U1.
  - split_and!; congruence.
Qed.

(** Reading the agents leaves the world alone. *)
Lemma on_agents_read {A} (m : Comp (AgentWorld RA RE) A) (w : World) :
  (m (rw_agents w)).1 = rw_agents w -> on_agents m w = (w, (m (rw_agents w)).2).
Proof.
  unfold on_agents, zoom. destruct (m (rw_agents w)) as [x r]; simpl. intros ->. by destruct w.
Qed.

Lemma get_enforcement_state_read a (x : AgentWorld RA RE) : (get_enforcement_state a x).1 = x.
Proof.
  unfold get_enforcement_state, mbind, comp_bind, reads.
  destruct (get_agent a x) as [x1 [ag|e]] eqn:Hg; apply get_agent_cases in Hg as [-> _]; [|done].
  simpl. by destruct (enf_get_state a (aw_enf x)) as [o|e].
Qed.

Lemma snapshot_Ok a (w w' : World) st :
  enforcement_snapshot a w = (w', Ok st) ->
  w' = w /\ forall s, st = Some s -> (get_enforcement_state a (rw_agents w)).2 = Ok s.
Proof.
  unfold enforcement_snapshot, try_except, mbind, comp_bind.
  rewrite on_agents_read by apply get_enforcement_state_read.
  destruct (get_enforcement_state a (rw_agents w)).2 as [s|e]; simpl.
  - intros [= <- <-]. split; [done|]. by intros s' [= ->].
  - destruct e; try done; by intros [= <- <-].
Qed.

(** Stages between the recorded event and the decision write evidence and its projection
    only. *)
Record evidence_only (w w' : World) : Prop := mkEvidenceOnly {
  ev_agents : rw_agents w' = rw_agents w;
  ev_tools : rw_tools w' = rw_tools w;
  ev_registry : rw_registry w' = rw_registry w;
  ev_capabilities : rw_capabilities w' = rw_capabilities w;
  ev_sessions : rw_sessions w' = rw_sessions w;
  ev_authority : rw_authority w' = rw_authority w;
  ev_audit : rw_audit w' = rw_audit w;
}.

Lemma evidence_only_refl (w : World) : evidence_only w w.
Proof. by split. Qed.

Lemma evidence_only_trans (w1 w2 w3 : World) :
  evidence_only w1 w2 -> evidence_only w2 w3 -> evidence_only w1 w3.
Proof. intros [] []. split; congruence. Qed.

Lemma on_risk_evidence {A} (m : Comp RiskAggregator A) (w : World) :
  evidence_only w (on_risk m w).1.
Proof. unfold on_risk, zoom. destruct (m (rw_risk w)). by split. Qed.

Lemma ingest_findings_run now a fs (w : World) :
  exists w', ingest_findings now a fs w = (w', Ok tt) /\ evidence_only w w' /\
    rw_findings w' = rw_findings w.
Proof.
  revert w. induction fs as [|f fs IH]; intros w; simpl; [by exists w|].
  unfold mbind, comp_bind, try_except, on_risk, zoom.
  destruct (ingest_finding now f (rw_risk w)) as [x [b|e]]; simpl;
    (match goal with |- context[ingest_findings now a fs ?v] =>
       destruct (IH v) as (w' & -> & He & Hf) end; exists w'; split; [done|];
     split; [|by rewrite Hf]; eapply evidence_only_trans; [|done]; by split).
Qed.

Lemma posture_frame now a (w w' : World) x :
  assess_agent_posture now a w = (w', x) ->
  evidence_only w w' /\ rw_findings w' = rw_findings w /\
  forall p, x = Ok p -> p_state p = HEALTHY.
Proof.
  assert (forall w1 : World, current_posture now a w1 = (w1, (current_posture now a w1).2)) as Hcur.
  { intros w1. unfold current_posture. by destruct (get_posture now a (rw_risk w1)) as [?|[]]. }
  unfold assess_agent_posture, mbind, comp_bind. rewrite Hcur.
  destruct (current_posture now a w).2 as [p|e] eqn:Hp.
  2: { intros [= <- <-]. split_and!; [by split|done|done]. }
  case_bool_decide as Hh.
  { intros [= <- <-]. split_and!; [by split|done|]. by intros ? [= <-]. }
  rewrite Hcur, Hp. rewrite bool_decide_false by done.
  unfold reconcile_posture, mbind, comp_bind.
  assert (exists y, reconciliation_watermark a w = (w, y)) as [y ->].
  { unfold reconciliation_watermark, try_except.
    rewrite on_agents_read.
    - destruct (get_current_baseline a (rw_agents w)).2 as [?|[]]; eauto.
    - unfold get_current_baseline, mbind, comp_bind. pose proof (get_enforcement_state_read a (rw_agents w)) as Hr.
      destruct (get_enforcement_state a (rw_agents w)) as [? [?|?]]; simpl in *; by subst. }
  destruct y as [wm|e]; [|intros [= <- <-]; split_and!; [by split|done|done]].
  unfold try_except, on_risk, zoom.
  destruct (reconcile_agent now a _ wm (rw_risk w)) as [r [p'|e]]; simpl.
  - case_bool_decide; intros [= <- <-]; (split_and!; [by split|done|]); [by intros ? [= <-]|done].
  - intros [= <- <-]. split_and!; [by split|done|done].
Qed.

Lemma record_evidence_frame fs env (w w' : World) x :
  record_evidence fs env w = (w', x) -> evidence_only w w' /\ (forall e, x = Err e -> w' = w).
Proof.
  unfold record_evidence. destruct (re_evidence_error env).
  { by intros [= <- <-]. }
  destruct (record_new_findings _ _ _) as [s l]. intros [= <- <-]. split; [by split|done].
Qed.

(** A request that got past its session binding, at its recorded event. *)
Record recorded_request (rq : RuntimeRequest) (env : RuntimeEnv) (op : Operation)
    (az : option AuthorizationResult) (st : option AgentEnforcementState)
    (recorded : SessionEvent) (w w1 : World) : Prop := mkRecordedRequest {
  rd_operation : establish_operation path_exists path_is_symlink path_is_dir realpath samefile
    scandir cfg rq w = Ok op;
  rd_decided : authorize_stage rq op w = Ok az;
  rd_snapshot : forall s, st = Some s ->
    (get_enforcement_state (rq_agent_id rq) (rw_agents w)).2 = Ok s;
  rd_stored : exists s1 b,
    bind_or_validate (rq_session_id rq) (rq_agent_id rq) (re_bind_now env) (rw_sessions w) = (s1, Ok b) /\
    Sessions.record_event (rc_retention cfg)
      (mkEvent (rq_session_id rq) (rq_agent_id rq) (rq_tool_id rq) (op_tool_version op)
         (authorized_decision az) 0 0 None (re_event_now env)) s1 = (rw_sessions w1, Ok recorded);
  rd_frame : unchanged (set_sessions_store (rw_sessions w1) w) w1;
}.

Lemma record_event_fields policy e s s' p :
  Sessions.record_event policy e s = (s', Ok p) ->
  e_session_id p = e_session_id e /\ e_agent_id p = e_agent_id e /\
  e_tool_version p = e_tool_version e /\ e_decision p = e_decision e.
Proof.
  unfold Sessions.record_event, repo_record_event.
  destruct (sr_tombstones s !! _); [done|]. destruct (dget _ _) as [a|]; [|done].
  case_bool_decide; [done|]. destruct (negb (e_sequence_number e =? 0)); [done|]. destruct (negb (e_agent_sequence e =? 0)); [done|]. by intros [= _ <-].
Qed.

Lemma bind_refused sid a now s s' e : bind_or_validate sid a now s = (s', Err e) -> s' = s.
Proof.
  unfold bind_or_validate, repo_bind_or_create_session.
  destruct (sr_tombstones s !! sid); [by intros [= <-]|].
  destruct (dget sid (sr_sessions s)); [|done]. case_bool_decide; [by intros [= <-]|done].
Qed.

Lemma authorize_stage_ext rq op (w1 w2 : World) :
  rw_agents w1 = rw_agents w2 -> rw_tools w1 = rw_tools w2 ->
  authorize_stage rq op w1 = authorize_stage rq op w2.
Proof. unfold authorize_stage. by intros -> ->. Qed.

(** The refusal codes of a recorded request. *)
Definition refusal_codes : list string :=
  [HORIZON_UNAVAILABLE; EVIDENCE_RECORDING_FAILED; POSTURE_RECONCILIATION_FAILED].

(** The two ways a recorded request returns. *)
Definition settled (rq : RuntimeRequest) (env : RuntimeEnv) (hash : option string) (op : Operation)
    (az : option AuthorizationResult) (epoch : Z) (recorded : SessionEvent) (w2 w' : World)
    (r : RuntimeResult) : Prop :=
  (exists code fs, code ∈ refusal_codes /\
     refuse_recorded emit cfg code fs rq env hash recorded (resolved_tool rq op az)
       (op_resource op) w2 = (w', Ok r)) \/
  (re_horizon_error env = None /\ re_evidence_error env = None /\
   exists fs assessment p final, p_state p = HEALTHY /\
     completed rq env op az epoch recorded fs assessment p final w2 w' r).

Lemma assess_and_decide_Ok rq env hash op az epoch recorded fs (w w' : World) r :
  re_horizon_error env = None -> re_evidence_error env = None ->
  assess_and_decide hmac float_repr sha256 emit cfg rq env hash op az epoch recorded fs w = (w', Ok r) ->
  exists w2, evidence_only w w2 /\ settled rq env hash op az epoch recorded w2 w' r.
Proof.
  intros Hho Heo. unfold assess_and_decide. destruct (assess_session _ _ _ _) as [a|]; [|done].
  destruct (assess_agent_posture _ _ w) as [w2 [p|e]] eqn:Hp;
    apply posture_frame in Hp as (He & _ & Hh).
  - intros Hd%decide_and_record_Ok. exists w2. split; [done|]. right.
    destruct Hd as [final Hd]. split_and!; [done..|]. exists fs, a, p, final. split; [by apply Hh|done].
  - destruct e; try done. intros Hd. exists w2. split; [done|]. left.
    exists POSTURE_RECONCILIATION_FAILED, fs. split; [set_solver|done].
Qed.

Lemma record_and_assess_Ok rq env hash op az epoch recorded fs (w w' : World) r :
  re_horizon_error env = None ->
  record_and_assess hmac float_repr sha256 emit cfg rq env hash op az epoch recorded fs w = (w', Ok r) ->
  exists w2, evidence_only w w2 /\ settled rq env hash op az epoch recorded w2 w' r.
Proof.
  intros Hho. unfold record_and_assess.
  assert (forall w1 l, record_evidence fs env w = (w1, Ok l) -> re_evidence_error env = None) as Hno.
  { unfold record_evidence. by destruct (re_evidence_error env). }
  destruct (record_evidence fs env w) as [w1 [l|e]] eqn:Hr;
    apply record_evidence_frame in Hr as [He _].
  - intros (w3 & [] & Hi & Hk)%comp_bind_Ok.
    destruct (ingest_findings_run (re_record_now env) (rq_agent_id rq) l w1) as (w4 & Hi' & He' & _).
    rewrite Hi' in Hi. injection Hi as <-.
    apply assess_and_decide_Ok in Hk as (w5 & He5 & Hs); [|done|by eapply Hno]. exists w5. split; [|done].
    eapply evidence_only_trans; [done|]. by eapply evidence_only_trans.
  - intros Hd. exists w1. split; [done|]. left. exists EVIDENCE_RECORDING_FAILED, [].
    split; [set_solver|done].
Qed.

Lemma detect_and_record_Ok rq env hash op az st recorded (w w' : World) r :
  detect_and_record hmac float_repr sha256 uuid5 emit cfg rq env hash op az st recorded w = (w', Ok r) ->
  exists w2, evidence_only w w2 /\ settled rq env hash op az (epoch_of st) recorded w2 w' r.
Proof.
  unfold detect_and_record. intros (w1 & c & [-> _]%liftR_Ok & Hk)%comp_bind_Ok.
  apply comp_bind_Ok in Hk as (w1 & d & [-> _]%liftR_Ok & Hk).
  apply comp_bind_Ok in Hk as (w1 & q & [-> _]%liftR_Ok & Hk).
  unfold query_and_record, eligible_events in Hk.
  destruct (re_horizon_error env) as [e|] eqn:Hho.
  - destruct (is_session_repository_error e); [|done]. exists w. split; [by split|]. left.
    exists HORIZON_UNAVAILABLE, []. split; [set_solver|done].
  - by apply record_and_assess_Ok in Hk.
Qed.

Lemma authorize_and_detect_Ok rq env hash op (w w' : World) r :
  authorize_and_detect hmac float_repr sha256 uuid5 emit cfg rq env hash op w = (w', Ok r) ->
  exists az st recorded w1 w2,
    authorize_stage rq op w = Ok az /\
    (forall s, st = Some s -> (get_enforcement_state (rq_agent_id rq) (rw_agents w)).2 = Ok s) /\
    Sessions.record_event (rc_retention cfg)
      (mkEvent (rq_session_id rq) (rq_agent_id rq) (rq_tool_id rq) (op_tool_version op)
         (authorized_decision az) 0 0 None (re_event_now env)) (rw_sessions w)
      = (rw_sessions w1, Ok recorded) /\
    unchanged (set_sessions_store (rw_sessions w1) w) w1 /\
    evidence_only w1 w2 /\ settled rq env hash op az (epoch_of st) recorded w2 w' r.
Proof.
  unfold authorize_and_detect. intros (w1 & az & Haz & Hk)%comp_bind_Ok.
  injection Haz as <- Haz.
  apply comp_bind_Ok in Hk as (w2 & [] & He & Hk).
  destruct (emit_run rq hash SECURITY_AUTHORIZATION_CHECKED (op_resource op)
    (Some (authorized_decision az)) None (re_elapsed_ms env) (op_error_code op) w) as (w2' & He' & Hu).
  rewrite He' in He. injection He as ->.
  apply comp_bind_Ok in Hk as (w3 & st & [-> Hst]%snapshot_Ok & Hk).
  apply comp_bind_Ok in Hk as (w3 & recorded & Hr & Hk).
  apply detect_and_record_Ok in Hk as (w4 & Hev & Hs).
  unfold on_sessions, zoom in Hr. destruct (Sessions.record_event _ _ _) as [s1 x] eqn:Hrec.
  injection Hr as <- ->. destruct Hu.
  exists az, st, recorded, (set_sessions_store s1 w2), w4. split_and!; [done| | | | |done].
  - intros s Hs'. rewrite <- un_agents0. by apply Hst.
  - rewrite <- un_sessions0. exact Hrec.
  - by split.
  - exact Hev.
Qed.

(** How [execute] returns. *)
Lemma execute_Ok rq env (w w' : World) r :
  execute hmac float_repr sha256 uuid5 emit path_exists path_is_symlink path_is_dir realpath
    samefile scandir cfg rq env w = (w', Ok r) ->
  exists hash op, re_param_hash env = Ok hash /\
  establish_operation path_exists path_is_symlink path_is_dir realpath samefile scandir cfg rq w = Ok op /\
  ((exists e w1, is_session_binding_error e = true /\
      bind_or_validate (rq_session_id rq) (rq_agent_id rq) (re_bind_now env) (rw_sessions w) =
        (rw_sessions w, Err e) /\ unchanged w w1 /\
      refuse_session_binding emit cfg rq env hash (op_resource op) w1 = (w', Ok r)) \/
   exists az st recorded w1 w2, recorded_request rq env op az st recorded w w1 /\
     evidence_only w1 w2 /\ settled rq env hash op az (epoch_of st) recorded w2 w' r).
Proof.
  unfold execute. intros (w1 & hash & [-> Hh]%liftR_Ok & Hk)%comp_bind_Ok.
  apply comp_bind_Ok in Hk as (w1 & op & Hop & Hk). injection Hop as <- Hop.
  apply comp_bind_Ok in Hk as (w1 & [] & He & Hk).
  destruct (emit_run rq hash TOOL_INVOCATION_REQUESTED (op_resource op) None None 0 None w)
    as (w1' & He' & Hu).
  rewrite He' in He. injection He as ->.
  exists hash, op. split_and!; [done|done|].
  unfold bind_and_run, on_sessions, zoom in Hk.
  destruct (bind_or_validate _ _ _ _) as [s1 [b|e]] eqn:Hb; rewrite (un_sessions _ _ Hu) in Hb.
  - right. apply authorize_and_detect_Ok in Hk as (az & st & recorded & w2 & w3 & Haz & Hst & Hr & Hf & Hev & Hs).
    exists az, st, recorded, w2, w3. split_and!; [|done|done]. destruct Hu, Hf; simpl in *.
    split; simpl.
    + done.
    + rewrite <- Haz. symmetry. by apply authorize_stage_ext.
    + intros s Hs'. rewrite <- un_agents0. by apply Hst.
    + by exists s1, b.
    + split; simpl; congruence.
  - pose proof (bind_refused _ _ _ _ _ _ Hb) as ->.
    destruct (is_session_binding_error e) eqn:Hbe; [|done]. left.
    eexists e, _. split_and!; [done|done| |exact Hk]. destruct Hu. by split.
Qed.
End frames.
