(* ===== verification/RuntimeSafety.v ===== *)
(** * What the pipeline guarantees

    Properties of [Runtime.execute] over every environment: what a grant implies, what a
    critical posture leaves behind, how refusals end, and that every outcome is audited. *)

From S2P Require Import Prelude PyDict Json Models Lifecycle Planes Agents ToolPlane Policy Binding Authority.
From S2P Require Import Capabilities Findings Risk Sessions Detection Paths ResourceIdentity AuditTrail Runtime.
Local Open Scope Z_scope.

Lemma override_ALLOW d l :
  override_decision d (RESPONSE_TYPES l) = ALLOW -> d = ALLOW /\ (l = RISK_LOW \/ l = RISK_MEDIUM).
Proof. destruct d, l; simpl; naive_solver. Qed.

(** Events of one session at one position are one event. *)
Lemma position_unique (s : SessionRepo) e f :
  sr_inv s -> e ∈ sr_events s -> f ∈ sr_events s -> e_session_id e = e_session_id f ->
  e_sequence_number e = e_sequence_number f -> e = f.
Proof.
  intros Hi He Hf Hs Hn. apply si_session_order in Hi.
  apply list_elem_of_lookup_1 in He as [i He]. apply list_elem_of_lookup_1 in Hf as [j Hf].
  destruct (Nat.lt_trichotomy i j) as [Hij|[->|Hij]]; [|congruence|].
  - pose proof (StronglySorted_lookup _ _ _ _ _ _ Hi He Hf Hij Hs). lia.
  - pose proof (StronglySorted_lookup _ _ _ _ _ _ Hi Hf He Hij (eq_sym Hs)). lia.
Qed.

Lemma finalize_first_elem sid n d l l' :
  finalize_first sid n d l = Ok l' ->
  exists e, e ∈ l /\ e_session_id e = sid /\ e_sequence_number e = n /\ with_final d e ∈ l'.
Proof.
  revert l'. induction l as [|e l IH]; intros l'; cbn [finalize_first]; [done|].
  destruct (event_at sid n e) eqn:He.
  - case_match; [done|]. intros [= <-]. unfold event_at in He.
    apply andb_prop in He as [?%bool_decide_eq_true ?%Z.eqb_eq]. exists e. set_solver.
  - destruct (finalize_first sid n d l) as [l1|]; [|done]. intros [= <-].
    destruct (IH l1 eq_refl) as (f & ? & ? & ? & ?). exists f. set_solver.
Qed.

(** Pruning never drops the event it runs for. *)
Lemma recorded_present policy e (s s1 : SessionRepo) p :
  (forall q, policy = Some q -> 0 <= total_retention q) ->
  Sessions.record_event policy e s = (s1, Ok p) -> p ∈ sr_events s1.
Proof.
  intros Hret Hr. unfold Sessions.record_event in Hr. pose proof (record_event_repo e s) as Hrec.
  destruct (repo_record_event e s) as [s' [q|]]; [|done]. injection Hr as <- ->.
  destruct Hrec as (ss & _ & _ & _ & _ & Hev & _). destruct policy as [q|]; simpl.
  - apply filter_elem. rewrite Hev. split; [set_solver|]. specialize (Hret q eq_refl).
    apply Z.leb_le. lia.
  - rewrite Hev. set_solver.
Qed.

Lemma record_inv policy e (s s1 : SessionRepo) p :
  sr_inv s -> Sessions.record_event policy e s = (s1, Ok p) -> sr_inv s1.
Proof.
  intros Hi Hr. pose proof (session_step_inv policy (SRecord e) s Hi) as [Hi1 _].
  simpl in Hi1. by rewrite Hr in Hi1.
Qed.

Lemma bind_inv sid agent now (s s1 : SessionRepo) b :
  sr_inv s -> bind_or_validate sid agent now s = (s1, Ok b) -> sr_inv s1.
Proof.
  intros Hi Hb. pose proof (session_step_inv None (SBind sid agent now) s Hi) as [Hi1 _].
  simpl in Hi1. by rewrite Hb in Hi1.
Qed.

(** The event a request records is there, under the invariant, and finalising finds it. *)
Lemma recorded_event_finalized policy e d (s s1 s2 : SessionRepo) p :
  (forall q, policy = Some q -> 0 <= total_retention q) -> sr_inv s ->
  Sessions.record_event policy e s = (s1, Ok p) ->
  repo_update_final_decision (e_session_id p) (e_sequence_number p) d s1 = (s2, Ok tt) ->
  with_final d p ∈ sr_events s2.
Proof.
  intros Hret Hi Hr Hu. pose proof (record_inv _ _ _ _ _ Hi Hr) as Hi1.
  pose proof (recorded_present _ _ _ _ _ Hret Hr) as Hp.
  unfold repo_update_final_decision in Hu. destruct (sr_tombstones s1 !! _); [done|].
  destruct (negb _); [done|]. destruct (finalize_first _ _ _ _) as [l|] eqn:Hf; [|done].
  injection Hu as <-. apply finalize_first_elem in Hf as (f & Hf & Hs & Hn & Hin).
  by rewrite (position_unique s1 p f Hi1 Hp Hf) by done.
Qed.

Section pipeline.
Context (hmac : string -> string -> string) (float_repr : Z -> string)
        (sha256 : string -> string) (uuid5 : string -> string -> string).
Context {RA RE : Type} `{AdministrativeContract RA} `{EnforcementContract RE}.
Context {Tel : Type} (emit : RuntimeTelemetry -> Tel -> Tel * result unit).
Context (path_exists path_is_symlink path_is_dir : Path -> bool)
        (realpath : Path -> result Path)
        (samefile : Path -> Path -> option bool)
        (scandir : Path -> option (list string)).
Context (cfg : RuntimeConfig).
Local Abbreviation World := (RuntimeWorld (RA:=RA) (RE:=RE) (Tel:=Tel)).
Local Abbreviation run := (execute hmac float_repr sha256 uuid5 emit path_exists path_is_symlink
  path_is_dir realpath samefile scandir cfg).
Local Abbreviation establish := (establish_operation path_exists path_is_symlink path_is_dir
  realpath samefile scandir cfg).

Lemma resolve_version_Ok tid d (w : World) v :
  resolve_version cfg tid d w = Ok (Some v) ->
  exists t, get_tool tid v (rw_tools w) = Ok t /\ tool_enabled t = true.
Proof.
  unfold resolve_version. destruct d as [d|]; [|done].
  destruct (version_is_enabled cfg tid (td_version d) w) as [[|]|] eqn:Hv; simpl; try done.
  intros [= <-]. unfold version_is_enabled in Hv. destruct (negb _); [done|].
  destruct (get_tool _ _ _) as [t|e]; [|by destruct e]. injection Hv as Hv. by exists t.
Qed.

(** A concrete operation names an enabled version of the requested tool. *)
Lemma establish_binding rq (w : World) op b :
  establish rq w = Ok op -> op_binding op = Some b ->
  op_malformed op = false /\ op_tool_version op = Some (eb_tool_version b) /\
  eb_tool_id b = rq_tool_id rq /\ op_resource op = eb_resource b /\
  exists t, get_tool (rq_tool_id rq) (eb_tool_version b) (rw_tools w) = Ok t /\ tool_enabled t = true.
Proof.
  unfold establish_operation. destruct (resolve_descriptor _ w) as [d|]; [|done].
  cbn [mbind result_bind]. destruct (resolve_version cfg (rq_tool_id rq) d w) as [v|] eqn:Hv; [|done].
  cbn [mbind result_bind]. destruct (normalized_parameters _) as [ps|]; [|done].
  cbn [mbind result_bind]. destruct (canonical_operands _ _ _ _ _ _ _ _ _ _ _) as [[[res ps']|]|];
    [| by intros [= <-] | done].
  cbn [mbind result_bind]. destruct v as [v|]; [|by intros [= <-]].
  apply resolve_version_Ok in Hv.
  destruct (from_operation _ _ _ _) as [b'|e] eqn:Hf; [|destruct e; try done; by intros [= <-]].
  intros [= <-] [= ->]. apply from_operation_Ok in Hf as (Ht & Hver & _). simpl.
  split_and!; [done|by rewrite Hver|done|done|]. by rewrite Hver.
Qed.

Lemma stored_decision rq env op az st recorded (w w1 : World) :
  recorded_request path_exists path_is_symlink path_is_dir realpath samefile scandir cfg
    rq env op az st recorded w w1 -> 
  e_session_id recorded = rq_session_id rq /\ e_agent_id recorded = rq_agent_id rq /\
  e_tool_version recorded = op_tool_version op /\ e_decision recorded = authorized_decision az.
Proof. intros [_ _ _ (s1 & b & _ & Hr) _]. by apply record_event_fields in Hr. Qed.

(** Up to the decision a request touches sessions, evidence and its projection only. *)
Lemma stores_kept rq env op az st recorded (w w1 w2 : World) :
  recorded_request path_exists path_is_symlink path_is_dir realpath samefile scandir cfg
    rq env op az st recorded w w1 -> evidence_only w1 w2 ->
  rw_agents w2 = rw_agents w /\ rw_tools w2 = rw_tools w /\
  rw_capabilities w2 = rw_capabilities w /\ rw_authority w2 = rw_authority w /\
  rw_audit w2 = rw_audit w /\ rw_sessions w2 = rw_sessions w1.
Proof. intros [_ _ _ _ Hf] Hev. destruct Hf, Hev. simpl in *. split_and!; congruence. Qed.

Lemma decided_ALLOW rq op (w : World) az :
  authorize_stage rq op w = Ok az -> authorized_decision az = ALLOW ->
  authorize (rq_agent_id rq) (rq_tool_id rq) (op_resource op) (rw_agents w) (rw_tools w) = Ok ALLOW.
Proof.
  unfold authorize_stage, authorize. destruct (op_malformed op); [by intros [= <-]|].
  destruct (evaluate _ _ _ _ _) as [r|]; [|done]. simpl. intros [= <-]. simpl. by intros ->.
Qed.

(** The response a critical posture calls for never keeps an ALLOW. *)
Lemma critical_override d : override_decision d (RESPONSE_TYPES RISK_CRITICAL) <> ALLOW.
Proof. by destruct d. Qed.

(** A contained agent is not authorized for anything. *)
Lemma contained_unauthorized a (x : AgentWorld RA RE) tid res tools :
  aw_inv x -> contained a x -> authorize a tid res x tools <> Ok ALLOW.
Proof.
  intros Hinv Hc Hal. unfold authorize in Hal.
  destruct (evaluate a tid res x tools) as [r|] eqn:He; [|done]. injection Hal as Hal.
  apply evaluate_cases in He as [[reason ->]|(ag & Hag & Hcases)]; [done|].
  destruct (get_agent a x) as [x1 y] eqn:Hg. apply get_agent_cases in Hg as [-> Hg].
  simpl in Hag. destruct (Hg ag Hag) as (ag0 & adm & enf & Hlk & Hadm & Henf & _).
  destruct Hcases as [(_ & Hd & _)|[(_ & _ & Hd & _)|(_ & _ & g & _ & Hd & _)]]; [congruence..|].
  pose proof (evaluate_policy_checks ag g res (lifecycle_refusal a x)) as Hp.
  destruct (lifecycle_refusal a x) eqn:Hl; [destruct Hp; congruence|].
  unfold lifecycle_refusal, read_planes in Hl. rewrite Hadm, Henf in Hl.
  apply evaluate_None_failing, failing_empty in Hl as (_ & (st & -> & Hst) & _ & Hs).
  apply adm_get_sound in Hadm. pose proof (enf_get_sound _ _ _ (inv_enf_ok _ Hinv) Henf) as ->.
  destruct Hc as [Hc|[Hc|Hc]]; [congruence| |congruence].
  rewrite <- Hadm in Hc. simpl in Hc. congruence.
Qed.

(** The operation a grant covers is the one the request established. *)
Lemma grant_binding rq env (w w' : World) r g :
  run rq env w = (w', Ok r) -> rr_authorization r = Some g ->
  exists op, establish rq w = Ok op /\ op_binding op = Some (g_binding g).
Proof.
  intros Hx Hg. eapply execute_Ok in Hx as (hash & op & _ & Hop & [(e & w1 & _ & _ & _ & Hrf)|
    (az & st & recorded & w1 & w2 & Hrec & Hev & Hs)]).
  { apply refuse_binding_Ok in Hrf as (_ & _ & _ & _ & ? & _). congruence. }
  destruct Hs as [(code & fs & _ & Hrf)|(_ & _ & fs & ass & p & final & Hh & Hc)].
  { apply refuse_recorded_Ok in Hrf as (_ & -> & _). done. }
  destruct Hc as [_ _ Hdec _ _ _ _]. rewrite Hg in Hdec.
  destruct Hdec as (_ & _ & b & w3 & Hb & Hgr & _). exists op. split; [done|].
  destruct Hgr as [-> _ _ _ _ _ _]. done.
Qed.

(** The resource names a directory entry of the profile's workspace. *)
Definition canonical_resource (rq : RuntimeRequest) (w : World) (s target : string) : Prop :=
  exists caps root, dget (profile_id (rq_tool_id rq)) (rw_capabilities w) = Some caps /\
    new_resolver path_is_dir realpath (fc_workspace_root (cap_filesystem caps)) = Ok root /\
    canonicalize path_exists path_is_symlink realpath samefile scandir root s = Ok target.

Lemma canonical_target_Ok rq ps s t (w : World) :
  canonical_target path_exists path_is_symlink path_is_dir realpath samefile scandir
    (rq_tool_id rq) ps (Some s) w = Ok t ->
  exists target, t = Some target /\ canonical_resource rq w s target.
Proof.
  unfold canonical_target, profile_exists, dhas, resolve_profile, of_option, canonical_resource.
  destruct (dget _ _) as [caps|]; [|done]. cbn.
  destruct (new_resolver _ _ _) as [root|] eqn:Hroot; [|done]. cbn.
  destruct (canonicalize_operand _ _ _ _ _ root (default _ _)) as [par|]; [|done]. cbn.
  destruct (canonicalize _ _ _ _ _ root s) as [id|] eqn:Hid; [|done]. cbn.
  intros Ht. exists id. split; [|by exists caps, root].
  destruct par as [q|]; [|by injection Ht]. case_bool_decide as Hq; [done|].
  assert (q = id) as -> by (destruct (decide (q = id)); [done|tauto]).
  by destruct (str_nonempty id); injection Ht.
Qed.

(** The resource of a filesystem operation is the canonical identity of the one requested. *)
Lemma establish_canonical rq (w : World) op b s :
  establish rq w = Ok op -> op_binding op = Some b ->
  rq_tool_id rq ∈ FILESYSTEM_TOOLS -> rq_resource rq = Some s ->
  exists target, canonical_resource rq w s target /\ eb_resource b = Some target.
Proof.
  intros Hop Hb Htool Hres.
  unfold establish_operation in Hop. destruct (resolve_descriptor _ w) as [d|]; [|done].
  cbn [mbind result_bind] in Hop.
  destruct (resolve_version cfg (rq_tool_id rq) d w) as [v|] eqn:Hv; [|done].
  cbn [mbind result_bind] in Hop. destruct (normalized_parameters _) as [ps|]; [|done].
  cbn [mbind result_bind] in Hop.
  destruct (canonical_operands _ _ _ _ _ _ _ _ _ _ _) as [[[res ps']|]|] eqn:Hcan;
    [|injection Hop as <-; done|done].
  cbn [mbind result_bind] in Hop. destruct v as [v|]; [|injection Hop as <-; done].
  destruct (from_operation _ _ _ _) as [b'|e] eqn:Hf; [|destruct e; try done; by injection Hop as <-].
  injection Hop as <-. injection Hb as ->. apply from_operation_Ok in Hf as (_ & _ & _ & Hr).
  unfold canonical_operands in Hcan. rewrite (bool_decide_true (_ ∈ _)), orb_true_r, Hres in Hcan by done.
  simpl in Hcan.
  destruct (canonical_target _ _ _ _ _ _ _ _ _ _) as [t|e] eqn:Ht; [|by destruct e].
  apply canonical_target_Ok in Ht as (target & -> & Ht). injection Hcan as <- _.
  by exists target.
Qed.

(** However a recorded request settles, it is audited and its event finalised. *)
Lemma settled_finalizes rq env hash op az epoch recorded (w2 w' : World) r :
  e_session_id recorded = rq_session_id rq ->
  settled float_repr sha256 emit cfg rq env hash op az epoch recorded w2 w' r ->
  exists d tool v, concluded env rq tool v d r w2 w' /\ rr_event r = with_final d recorded /\
    repo_update_final_decision (e_session_id recorded) (e_sequence_number recorded) d
      (rw_sessions w2) = (rw_sessions w', Ok tt).
Proof.
  intros Hsid [(code & fs & _ & Hrf)|(_ & _ & fs & ass & p & final & _ & Hc)].
  - apply refuse_recorded_Ok in Hrf as (Hc & Hres & Hu & _). exists DENY. eexists _, _.
    split_and!; [exact Hc|by rewrite Hres|exact Hu].
  - destruct Hc as [Hres Hc _ Hu _ _ _]. exists final. eexists _, _.
    split_and!; [exact Hc|by rewrite Hres|by rewrite Hsid].
Qed.

(** ** Properties *)

(** What a granted request went through. *)
Lemma granted_under_controls rq env (w w' : World) r g :
  execute hmac float_repr sha256 uuid5 emit path_exists path_is_symlink
    path_is_dir realpath samefile scandir cfg rq env w = (w', Ok r) -> rr_authorization r = Some g ->
  e_final_decision (rr_event r) = Some ALLOW /\
  exists op b, establish rq w = Ok op /\ op_binding op = Some b /\ g_binding g = b /\
    eb_tool_id b = rq_tool_id rq /\
    authorize (rq_agent_id rq) (rq_tool_id rq) (eb_resource b) (rw_agents w) (rw_tools w) = Ok ALLOW /\
    (exists t, get_tool (rq_tool_id rq) (eb_tool_version b) (rw_tools w) = Ok t /\
       tool_enabled t = true) /\
    (exists p, rr_enforcement_posture r = Some p /\ p_state p = HEALTHY /\
       (p_risk_level p = RISK_LOW \/ p_risk_level p = RISK_MEDIUM)) /\
    (exists a, rw_authority w = Some a /\ closed_planes (rq_agent_id rq) a = ∅) /\
    g_agent_id g = rq_agent_id rq /\ g_session_id g = rq_session_id rq /\
    (exists caps, dget (profile_id (rq_tool_id rq)) (rw_capabilities w) = Some caps /\
       g_capability_profile_id g = Some (cap_profile_id caps) /\
       g_capability_digest g = Some (compute_digest sha256 float_repr caps)) /\
    (exists a', rw_authority w' = Some a' /\ dget (g_grant_id g) (ea_outstanding a') =
       Some (mkOutstanding (g_expires_at g) (rq_agent_id rq) (rq_session_id rq)) /\
     (forall a, rw_authority w = Some a -> authority_wf a -> authority_wf a')).
Proof.
  intros Hx Hg. eapply execute_Ok in Hx as (hash & op & _ & Hop & [(e & w1 & _ & _ & _ & Hrf)|
    (az & st & recorded & w1 & w2 & Hrec & Hev & Hs)]).
  { apply refuse_binding_Ok in Hrf as (_ & _ & _ & _ & ? & _). congruence. }
  destruct Hs as [(code & fs & _ & Hrf)|(_ & _ & fs & ass & p & final & Hh & Hc)].
  { apply refuse_recorded_Ok in Hrf as (_ & -> & _). done. }
  pose proof (stored_decision _ _ _ _ _ _ _ _ Hrec) as (_ & _ & _ & Hd).
  pose proof (stores_kept _ _ _ _ _ _ _ _ _ Hrec Hev) as (Hag & Hto & Hca & Hauth & _).
  destruct Hrec as [_ Haz _ _ _].
  destruct Hc as [Hr (_ & _ & Hfin) Hdec _ _ _ _]. rewrite Hg in Hdec.
  destruct Hdec as (Hal & -> & b & w3 & Hb & Hgr & Hau).
  apply override_ALLOW in Hal as [Hal Hlvl]. rewrite Hd in Hal.
  destruct (establish_binding _ _ _ _ Hop Hb) as (_ & _ & Ht & Hres & Hen).
  split; [done|]. exists op, b.
  destruct Hgr as [? ? ? (caps & ? & ?) _ (a & ? & ?) (a' & Ha' & ?) Hwf].
  split_and!; try done.
  - rewrite <- Hres. by eapply decided_ALLOW.
  - exists p. rewrite Hr. by split_and!.
  - exists a. by rewrite <- Hauth.
  - exists caps. by rewrite <- Hca.
  - exists a'. split_and!; [|done|].
    + rewrite Hau; [done|]. intros Hcrit. rewrite Hcrit in Hlvl. naive_solver.
    + intros a0 Ha0. eapply Hwf; [by rewrite Hauth|done].
Qed.

(** C4. A grant is the conjunction of every control: when a request returns a grant, its
    final decision is ALLOW; the authorization service, asked about the same agent, tool
    and resource in the world the request arrived in, decides ALLOW; the operation names a
    registered and governance-enabled version of the tool; the agent's posture is HEALTHY
    and below HIGH; issuance was open for the agent on both planes; and the grant binds
    exactly that operation, agent, session, capability profile and its digest, and is
    outstanding at the authority. *)
Theorem grant_requires_every_control rq env (w w' : World) r g :
  execute hmac float_repr sha256 uuid5 emit path_exists path_is_symlink
    path_is_dir realpath samefile scandir cfg rq env w = (w', Ok r) -> rr_authorization r = Some g ->
  e_final_decision (rr_event r) = Some ALLOW /\
  exists op b, establish rq w = Ok op /\ op_binding op = Some b /\ g_binding g = b /\
    eb_tool_id b = rq_tool_id rq /\
    authorize (rq_agent_id rq) (rq_tool_id rq) (eb_resource b) (rw_agents w) (rw_tools w) = Ok ALLOW /\
    (exists t, get_tool (rq_tool_id rq) (eb_tool_version b) (rw_tools w) = Ok t /\
       tool_enabled t = true) /\
    (exists p, rr_enforcement_posture r = Some p /\ p_state p = HEALTHY /\
       (p_risk_level p = RISK_LOW \/ p_risk_level p = RISK_MEDIUM)) /\
    (exists a, rw_authority w = Some a /\ closed_planes (rq_agent_id rq) a = ∅) /\
    g_agent_id g = rq_agent_id rq /\ g_session_id g = rq_session_id rq /\
    (exists caps, dget (profile_id (rq_tool_id rq)) (rw_capabilities w) = Some caps /\
       g_capability_profile_id g = Some (cap_profile_id caps) /\
       g_capability_digest g = Some (compute_digest sha256 float_repr caps)) /\
    (exists a', rw_authority w' = Some a' /\ dget (g_grant_id g) (ea_outstanding a') =
       Some (mkOutstanding (g_expires_at g) (rq_agent_id rq) (rq_session_id rq))).
Proof.
  intros Hx Hg. apply (granted_under_controls _ _ _ _ _ _ Hx) in Hg as
    (? & op & b & ? & ? & ? & ? & ? & ? & ? & ? & ? & ? & ? & a' & ? & ? & _).
  split; [done|]. exists op, b. split_and!; eauto.
Qed.

(** C5. A critical posture contains the agent before the request returns: the request is not
    allowed and carries no grant, the agent ends suspended (or was already disabled, or is
    no agent) so that no tool and resource would be authorized for it next, the enforcement
    plane closes issuance for it, and no grant of its is left outstanding. *)
Theorem critical_posture_contains_agent rq env (w w' : World) r p :
  aw_inv (rw_agents w) -> plane_errors (rw_agents w) ->
  (forall a, rw_authority w = Some a -> authority_wf a) ->
  execute hmac float_repr sha256 uuid5 emit path_exists path_is_symlink
    path_is_dir realpath samefile scandir cfg rq env w = (w', Ok r) -> rr_enforcement_posture r = Some p -> p_risk_level p = RISK_CRITICAL ->
  e_final_decision (rr_event r) <> Some ALLOW /\ rr_authorization r = None /\
  contained (rq_agent_id rq) (rw_agents w') /\
  (forall tid res tools, authorize (rq_agent_id rq) tid res (rw_agents w') tools <> Ok ALLOW) /\
  forall a', rw_authority w' = Some a' ->
    ENFORCEMENT ∈ closed_planes (rq_agent_id rq) a' /\
    forall gid o, dget gid (ea_outstanding a') = Some o -> og_agent_id o <> rq_agent_id rq.
Proof.
  intros Hinv Hpe Hwf Hx Hp Hcrit.
  eapply execute_Ok in Hx as (hash & op & _ & Hop & [(e & w1 & _ & _ & _ & Hrf)|
    (az & st & recorded & w1 & w2 & Hrec & Hev & Hs)]).
  { eapply tail_Ok in Hrf as (-> & _). done. }
  destruct Hs as [(code & fs & _ & Hrf)|(_ & _ & fs & ass & p' & final & Hh & Hc)].
  { eapply refuse_recorded_Ok in Hrf as (_ & -> & _). done. }
  pose proof (stores_kept _ _ _ _ _ _ _ _ _ Hrec Hev) as (Hag & _ & _ & Hauth & _).
  destruct Hc as [Hr (_ & _ & Hfin) Hdec _ Hco _ _]. rewrite Hr in Hp. injection Hp as ->.
  rewrite Hcrit in Hdec. destruct (Hco Hcrit) as [Hcon Hau]. rewrite Hag, Hauth in *.
  pose proof (critical_override (e_decision recorded)) as Hno.
  destruct (rr_authorization r) as [g|]; [by destruct Hdec|]. destruct Hdec as [_ Hdec].
  specialize (Hcon Hinv Hpe) as [Hcon Hinv'].
  split_and!; [|done|done|intros; by apply contained_unauthorized|].
  - rewrite Hfin. intros [= ->]. naive_solver.
  - intros a' Ha'. destruct (Hau a' Ha') as (a & a1 & Ha & Hw & ->).
    destruct (suspend_spec (rq_agent_id rq) ENFORCEMENT a1) as (Hcl & _ & Hout & _).
    split; [rewrite Hcl, decide_True by done; set_solver|].
    intros gid o. rewrite Hout by (apply Hw; by apply Hwf).
    destruct (dget gid (ea_outstanding a1)) as [o'|]; [|done].
    case_bool_decide; [done|]. by intros [= <-].
Qed.

(** C12. Every outcome is on the record: a request that returns appends exactly one audit
    record, carrying the request's session, agent and tool and the final decision, reports
    its identifier, and — unless the session itself refused the request — leaves its event,
    finalised with that same decision, in the session log. *)
Theorem every_outcome_recorded rq env (w w' : World) r :
  sr_inv (rw_sessions w) ->
  (forall q, rc_retention cfg = Some q -> 0 <= total_retention q) ->
  execute hmac float_repr sha256 uuid5 emit path_exists path_is_symlink
    path_is_dir realpath samefile scandir cfg rq env w = (w', Ok r) ->
  (exists a d, rw_audit w' = rw_audit w ++ [a] /\ rr_audit_event_id r = Some (au_event_id a) /\
     au_session_id a = rq_session_id rq /\ au_agent_id a = rq_agent_id rq /\
     au_requested_tool_id a = rq_tool_id rq /\ au_decision a = d /\
     e_final_decision (rr_event r) = Some d) /\
  (rr_refusal_reason r = Some SESSION_BINDING_INVALID /\ rw_sessions w' = rw_sessions w \/
   rr_event r ∈ sr_events (rw_sessions w') /\
   e_session_id (rr_event r) = rq_session_id rq /\ e_agent_id (rr_event r) = rq_agent_id rq).
Proof.
  intros Hi Hret Hx.
  eapply execute_Ok in Hx as (hash & op & _ & Hop & [(e & w1 & _ & _ & Hun & Hrf)|
    (az & st & recorded & w1 & w2 & Hrec & Hev & Hs)]).
  { apply refuse_binding_Ok in Hrf as ((Ha & Hid & Hf) & Hu & _ & _ & _ & _ & Hre). destruct Hun, Hu.
    simpl in *. split; [|left; split; [done|congruence]].
    eexists _, DENY. split; [rewrite Ha; f_equal; congruence|done]. }
  pose proof (stores_kept _ _ _ _ _ _ _ _ _ Hrec Hev) as (_ & _ & _ & _ & Hau & Hse).
  pose proof (stored_decision _ _ _ _ _ _ _ _ Hrec) as (Hsid & Haid & _ & _).
  destruct Hrec as [_ _ _ (s1 & b & Hb & Hr) _].
  pose proof (bind_inv _ _ _ _ _ _ Hi Hb) as Hi1.
  apply settled_finalizes in Hs as (d & tool & v & (Ha & Hid & Hf) & Hev' & Hu); [|done].
  split.
  - eexists _, d. split; [by rewrite Ha, Hau|done].
  - right. rewrite Hev'. rewrite Hse in Hu. split; [|by rewrite <- Hsid, <- Haid].
    eapply recorded_event_finalized; [exact Hret|exact Hi1|exact Hr|exact Hu].
Qed.


(** A session that belongs to another agent, or that has ended, is refused without a
    trace other than the audit record: the request returns a DENY with code
    SESSION_BINDING_INVALID, and sessions, evidence, risk, agents and authority stay as they
    were — the foreign session gains no event. *)
Theorem foreign_session_refused rq env hash op owner (w : World) :
  re_param_hash env = Ok hash -> establish rq w = Ok op ->
  owner_of (rq_session_id rq) (rw_sessions w) = Some owner ->
  owner <> rq_agent_id rq \/ is_Some (sr_tombstones (rw_sessions w) !! rq_session_id rq) ->
  exists w' r, execute hmac float_repr sha256 uuid5 emit path_exists path_is_symlink
    path_is_dir realpath samefile scandir cfg rq env w = (w', Ok r) /\ unchanged (set_audit (rw_audit w') w) w' /\
    rw_audit w' = rw_audit w ++ [outcome_event env rq None None DENY] /\
    rr_refusal_reason r = Some SESSION_BINDING_INVALID /\
    e_final_decision (rr_event r) = Some DENY /\ rr_findings r = [] /\ rr_authorization r = None.
Proof.
  intros Hh Hop Hown Hfor. unfold execute, mbind, comp_bind, liftR. rewrite Hh, Hop.
  match goal with |- context[emit_stage emit cfg ?a1 ?a2 ?a3 ?a4 ?a5 ?a6 ?a7 ?a8 ?wx] =>
    destruct (emit_run emit cfg a1 a2 a3 a4 a5 a6 a7 a8 wx) as (w1 & -> & U1) end.
  unfold bind_and_run, on_sessions, zoom. rewrite (un_sessions _ _ U1).
  assert (exists e, is_session_binding_error e = true /\ bind_or_validate (rq_session_id rq)
    (rq_agent_id rq) (re_bind_now env) (rw_sessions w) = (rw_sessions w, Err e)) as (e & He & ->).
  { unfold bind_or_validate, repo_bind_or_create_session. unfold owner_of in Hown.
    destruct (sr_tombstones (rw_sessions w) !! _) as [t|]; [by eexists; split; [|done]|].
    destruct Hfor as [Hne|[]]; [|done].
    destruct (dget _ _) as [ss|]; [|done]. injection Hown as Hown.
    rewrite bool_decide_true by congruence. by eexists; split; [|done]. }
  rewrite He. fold (set_sessions_store (rw_sessions w) w1). unfold refuse_session_binding, mbind, comp_bind.
  unfold audit_decision, new_audit_event. simpl.
  match goal with |- context[emit_stage emit cfg ?a1 ?a2 ?a3 ?a4 ?a5 ?a6 ?a7 ?a8 ?wx] =>
    destruct (emit_run emit cfg a1 a2 a3 a4 a5 a6 a7 a8 wx) as (w2 & -> & U2) end.
  unfold conclude. destruct U1 as [A1 B1 C1 D1 E1 F1 G1 H1' I1], U2 as [A2 B2 C2 D2 E2 F2 G2 H2' I2].
  simpl in *. eexists _, _. split; [done|]. simpl.
  split_and!; [|by rewrite I2, I1|done..].
  split; simpl; congruence.
Qed.

(** A granted file operation names the file itself: when a request to one of the
    filesystem tools gave a resource and a grant was issued, the grant's resource is the
    canonical identity of that resource under the workspace root of the tool's capability
    profile — so it lies inside that workspace, is a relative path of proper names, and does
    not depend on the spelling or the links the caller used. *)
Theorem granted_resource_is_canonical rq env (w w' : World) r g s :
  (forall p l n, scandir p = Some l -> n ∈ l -> proper_name n) ->
  (forall p q, realpath p = Ok q -> Forall proper_name (p_parts q)) ->
  execute hmac float_repr sha256 uuid5 emit path_exists path_is_symlink
    path_is_dir realpath samefile scandir cfg rq env w = (w', Ok r) -> rr_authorization r = Some g ->
  rq_tool_id rq ∈ FILESYSTEM_TOOLS -> rq_resource rq = Some s ->
  exists target names, canonical_resource rq w s target /\
    eb_resource (g_binding g) = Some target /\
    target = identity_of names /\ Forall proper_name names /\
    parse_path target = mkPath EmptyString names.
Proof.
  intros Hsc Hre Hx Hg Htool Hres. destruct (grant_binding _ _ _ _ _ _ Hx Hg) as (op & Hop & Hb).
  destruct (establish_canonical _ _ _ _ _ Hop Hb Htool Hres) as (target & Hc & Hr).
  pose proof Hc as (caps & root & _ & Hroot & Hid). unfold new_resolver in Hroot.
  destruct (realpath _) as [q|x] eqn:Hq; [|by destruct x].
  destruct (path_is_dir q); [|done]. injection Hroot as ->.
  destruct (canonical_names _ _ _ _ _ Hsc _ (Hre _ _ Hq) _ _ Hid) as (names & Hn & Hp & _).
  exists target, names. split_and!; [done..|]. subst target. by apply identity_parse.
Qed.
End pipeline.

(** ** Witnesses: one agent, one tool, one profile *)

Definition demo_env : RuntimeEnv :=
  mkRuntimeEnv (Ok (Some "digest"%string)) 10 11 12 13 14 None None "g1" 15 (env_at 16 "u16")
    "a1" 17 3.
Definition demo_request (session agent prompt : string) : RuntimeRequest :=
  mkRuntimeRequest session agent "fs" (Some "a.txt"%string) prompt "" "" (PMapping []) None None None.
Definition demo_config : RuntimeConfig :=
  mkRuntimeConfig true true [PromptInjectionRule (fun n m => n +:+ ":" +:+ m)%string] 1000
    (Some (mkRetention 1000 0)).
Definition demo_emit (e : RuntimeTelemetry) (t : list RuntimeTelemetry) := (t ++ [e], Ok tt).
Definition demo_capabilities : CapabilityRegistry :=
  register_profile (mkCapabilities "profile-fs" (mkFsCap "/work" true [] false) []
    (mkNetCap NET_DISABLED [] [] false false) (mkLimits 100 5 100 10 [])) [].
Definition demo_risk (fs : list Finding) : RiskAggregator :=
  risk_run ((5, RReset (mkWatermark "a" (Some 0) 0 0)) :: ((fun f => (6, RIngest f)) <$> fs))
    (new_aggregator None).
Definition demo_world (fs : list Finding) :
    RuntimeWorld (RA:=InMemoryAdministrativeStateRepository) (RE:=InMemoryEnforcementStateRepository)
      (Tel:=list RuntimeTelemetry) :=
  mkRuntimeWorld active_world (toolrepo_save (sample_tool "fs" "1.0" TOOL_LOW) [])
    (Some (register (mkBaseTool (sample_metadata "fs" "1.0" TOOL_LOW) "FsTool") None []).1)
    demo_capabilities empty_session_repo empty_findings (demo_risk fs) (Some sample_authority) [] [] None.

(** The demo has no filesystem to consult: the tool is not a filesystem tool. *)
Definition demo_sha (m : string) : string := "sha:" +:+ m.
Definition demo_uuid5 (n m : string) : string := n +:+ ":" +:+ m.
Definition no_path (p : Path) : bool := false.
Definition no_realpath (p : Path) : result Path := Ok p.
Definition no_samefile (p q : Path) : option bool := None.
Definition no_scandir (p : Path) : option (list string) := None.
Definition demo_run (rq : RuntimeRequest) (env : RuntimeEnv) (fs : list Finding) :=
  execute sample_hmac sample_repr demo_sha demo_uuid5 demo_emit no_path no_path no_path no_realpath
    no_samefile no_scandir demo_config rq env (demo_world fs).

Definition run_ok (x : RuntimeWorld (RA:=InMemoryAdministrativeStateRepository)
    (RE:=InMemoryEnforcementStateRepository) (Tel:=list RuntimeTelemetry) * result RuntimeResult) : bool :=
  is_ok x.2.

Lemma run_ok_inv x : run_ok x = true -> exists r, x = (x.1, Ok r).
Proof. destruct x as [w [r|]]; [by exists r|done]. Qed.

Definition quiet_request : RuntimeRequest := demo_request "s" "a" "read the report".
Definition critical_evidence : list Finding :=
  [with_sequence 1 10 (sample_finding "f1" "s" "a" "PROMPT_INJECTION" SEV_CRITICAL 10)].
Definition demo_result (fs : list Finding) (env : RuntimeEnv) : option RuntimeResult :=
  match (demo_run quiet_request env fs).2 with Ok r => Some r | Err _ => None end.

Lemma active_world_inv : aw_inv active_world.
Proof. apply run_calls_inv, empty_world_inv. Qed.

Lemma in_memory_errors (x : AgentWorld InMemoryAdministrativeStateRepository
    InMemoryEnforcementStateRepository) : plane_errors x.
Proof.
  split_and!; [done|done|]. intros t s e. simpl. unfold mem_enf_record_transition.
  by repeat case_match.
Qed.

Lemma grant_requires_every_control_witness :
  exists r g, demo_result [] demo_env = Some r /\ rr_authorization r = Some g /\
    e_final_decision (rr_event r) = Some ALLOW.
Proof.
  destruct (run_ok_inv (demo_run quiet_request demo_env []) ltac:(vm_compute; reflexivity)) as [r Hr].
  assert (exists g, rr_authorization r = Some g) as [g Hg].
  { pose proof (f_equal snd Hr) as Hs. vm_compute in Hs. injection Hs as <-. by eexists. }
  exists r, g. split; [unfold demo_result; by rewrite Hr|]. split; [done|].
  exact (proj1 (grant_requires_every_control sample_hmac sample_repr demo_sha demo_uuid5 demo_emit no_path
    no_path no_path no_realpath no_samefile no_scandir demo_config quiet_request demo_env
    (demo_world []) (demo_run quiet_request demo_env []).1 r g Hr Hg)).
Defined.

Lemma critical_posture_contains_agent_witness :
  exists r p, demo_result critical_evidence demo_env = Some r /\
    rr_enforcement_posture r = Some p /\ p_risk_level p = RISK_CRITICAL /\
    e_final_decision (rr_event r) <> Some ALLOW.
Proof.
  destruct (run_ok_inv (demo_run quiet_request demo_env critical_evidence)
    ltac:(vm_compute; reflexivity)) as [r Hr].
  assert (exists p, rr_enforcement_posture r = Some p /\ p_risk_level p = RISK_CRITICAL) as (p & Hp & Hl).
  { pose proof (f_equal snd Hr) as Hs. vm_compute in Hs. injection Hs as <-. eexists; split; reflexivity. }
  exists r, p. split; [unfold demo_result; by rewrite Hr|]. split; [done|]. split; [done|].
  refine (proj1 (critical_posture_contains_agent sample_hmac sample_repr demo_sha demo_uuid5 demo_emit
    no_path no_path no_path no_realpath no_samefile no_scandir demo_config quiet_request demo_env
    (demo_world critical_evidence) (demo_run quiet_request demo_env critical_evidence).1 r p
    active_world_inv (in_memory_errors _) _ Hr Hp Hl)).
  intros a [= <-]. apply sample_authority_wf.
Defined.

Lemma every_outcome_recorded_witness :
  exists r, demo_result [] demo_env = Some r /\
    rr_event r ∈ sr_events (rw_sessions (demo_run quiet_request demo_env []).1).
Proof.
  destruct (run_ok_inv (demo_run quiet_request demo_env []) ltac:(vm_compute; reflexivity)) as [r Hr].
  exists r. split; [unfold demo_result; by rewrite Hr|].
  destruct (every_outcome_recorded sample_hmac sample_repr demo_sha demo_uuid5 demo_emit no_path
    no_path no_path no_realpath no_samefile no_scandir demo_config quiet_request demo_env
    (demo_world []) (demo_run quiet_request demo_env []).1 r empty_repo_inv
    ltac:(by intros q [= <-]) Hr) as [_ [[Hre _]|[He _]]]; [|exact He].
  assert (rr_refusal_reason <$> demo_result [] demo_env = Some None) as Hno by (vm_compute; reflexivity).
  unfold demo_result in Hno. rewrite Hr in Hno. simpl in Hno. congruence.
Defined.

(** The detection horizon is a store that may fail. *)
Definition failing_env : RuntimeEnv :=
  mkRuntimeEnv (Ok None) 10 11 12 13 14 (Some HorizonUnavailableError) None "g1" 15 (env_at 16 "u16")
    "a1" 17 3.


Definition foreign_sessions : SessionRepo :=
  session_run None [SBind "s" "b" 1] empty_session_repo.

Lemma foreign_session_refused_witness :
  exists w' r, execute sample_hmac sample_repr demo_sha demo_uuid5 demo_emit no_path no_path no_path
    no_realpath no_samefile no_scandir demo_config quiet_request demo_env
    (set_sessions_store foreign_sessions (demo_world [])) = (w', Ok r) /\
    rr_refusal_reason r = Some SESSION_BINDING_INVALID.
Proof.
  destruct (foreign_session_refused sample_hmac sample_repr demo_sha demo_uuid5 demo_emit no_path
    no_path no_path no_realpath no_samefile no_scandir demo_config quiet_request demo_env
    (Some "digest"%string)
    (mkOperation (Some "1.0"%string) (Some "a.txt"%string)
       (Some (mkBinding "fs" "1.0" (Some "a.txt"%string) [])) false)
    "b"%string (set_sessions_store foreign_sessions (demo_world [])))
    as (w' & r & Hr & _ & _ & Hc & _); [by vm_compute|by vm_compute|by vm_compute|by left|].
  exists w', r. by split.
Defined.

(** A file tool over the demo workspace, asked for a file through a link. *)
Definition file_agents :=
  run_calls [CRegister (mkAgent "a" "demo" "owner" TIER_LOW ["file_read"] STATUS_REGISTERED) operator
               None (env_at 1 "u1");
             CActivate "a" operator "ready" None (env_at 2 "u2")] empty_world.
Definition file_world : RuntimeWorld (RA:=InMemoryAdministrativeStateRepository)
    (RE:=InMemoryEnforcementStateRepository) (Tel:=list RuntimeTelemetry) :=
  mkRuntimeWorld file_agents (toolrepo_save (sample_tool "file_read" "1.0" TOOL_LOW) [])
    (Some (register (mkBaseTool (sample_metadata "file_read" "1.0" TOOL_LOW) "FileReadTool") None []).1)
    (register_profile (mkCapabilities "profile-file_read" (mkFsCap "/ws" true [] false) []
      (mkNetCap NET_DISABLED [] [] false false) (mkLimits 100 5 100 10 [])) [])
    empty_session_repo empty_findings (demo_risk []) (Some sample_authority) [] [] None.
Definition file_request : RuntimeRequest :=
  mkRuntimeRequest "s" "a" "file_read" (Some "link/b.txt"%string) "read" "" ""
    (PMapping [(PATH_KEY, PStr "a/./b.txt")]) None None None.
Definition demo_is_dir (p : Path) : bool := bool_decide (p = demo_root).
Definition file_run := execute sample_hmac sample_repr demo_sha demo_uuid5 demo_emit demo_exists
  demo_is_symlink demo_is_dir demo_realpath demo_samefile demo_scandir demo_config file_request demo_env
  file_world.

Lemma demo_realpath_names p q : demo_realpath p = Ok q -> Forall proper_name (p_parts q).
Proof.
  unfold demo_realpath. destruct (negb _); [done|]. case_bool_decide as Hp.
  - intros [= <-]. unfold demo_resolved in Hp. rewrite !elem_of_cons, elem_of_nil in Hp.
    destruct_or!; try done; rewrite Hp; repeat constructor; done.
  - case_bool_decide; [|done]. intros [= <-]. repeat constructor; done.
Qed.

Lemma granted_resource_is_canonical_witness :
  exists r g target names, file_run = (file_run.1, Ok r) /\ rr_authorization r = Some g /\
    eb_resource (g_binding g) = Some target /\ target = identity_of names.
Proof.
  destruct (run_ok_inv file_run ltac:(vm_compute; reflexivity)) as [r Hr].
  assert (exists g, rr_authorization r = Some g) as [g Hg].
  { pose proof (f_equal snd Hr) as Hs. vm_compute in Hs. injection Hs as <-. by eexists. }
  assert (rq_tool_id file_request ∈ FILESYSTEM_TOOLS) as Htool by (apply elem_of_cons; by left).
  destruct (granted_resource_is_canonical sample_hmac sample_repr demo_sha demo_uuid5 demo_emit
    demo_exists demo_is_symlink demo_is_dir demo_realpath demo_samefile demo_scandir demo_config
    file_request demo_env file_world file_run.1 r g "link/b.txt" demo_scandir_names
    demo_realpath_names Hr Hg Htool eq_refl)
    as (target & names & _ & Ht & Hn & _).
  exists r, g, target, names. by split_and!.
Defined.
