(* ===== verification/RuntimeLiveness.v ===== *)
(** * The pipeline grants what it permits

    The converse of [RuntimeSafety.grant_requires_every_control]: a request every control
    permits is granted.  [quiet] states the controls; each lemma runs one stage under it. *)

From S2P Require Import Prelude PyDict Json Models Lifecycle Planes Agents ToolPlane Policy Binding Authority.
From S2P Require Import Capabilities Findings Risk Sessions Detection Paths ResourceIdentity AuditTrail Runtime RuntimeSafety.
Local Open Scope Z_scope.

(** ** Sessions *)

(** The session of a request is free or its own. *)
Definition session_open (sid agent : string) (s : SessionRepo) : Prop :=
  sr_tombstones s !! sid = None /\ forall ss, dget sid (sr_sessions s) = Some ss -> s_agent_id ss = agent.

Lemma bind_open sid agent now s :
  session_open sid agent s ->
  exists s1 b ss, bind_or_validate sid agent now s = (s1, Ok b) /\ sr_events s1 = sr_events s /\
    sr_tombstones s1 !! sid = None /\ dget sid (sr_sessions s1) = Some ss /\ s_agent_id ss = agent.
Proof.
  intros [Ht Hs]. unfold bind_or_validate, repo_bind_or_create_session. rewrite Ht.
  destruct (dget sid (sr_sessions s)) as [ss|] eqn:Hd.
  - rewrite bool_decide_false by (by intros Hne; apply Hne, Hs).
    eexists _, _, (touch now ss). split; [done|]. simpl. rewrite dget_dset_eq.
    split_and!; try done. by apply Hs.
  - eexists _, _, (mkSession sid agent now now). split; [done|]. simpl. by rewrite dget_dset_eq.
Qed.

Lemma record_open policy (e : SessionEvent) s ss :
  sr_tombstones s !! e_session_id e = None -> dget (e_session_id e) (sr_sessions s) = Some ss ->
  s_agent_id ss = e_agent_id e -> e_sequence_number e = 0 -> e_agent_sequence e = 0 ->
  sr_inv s ->
  exists s' p, Sessions.record_event policy e s = (s', Ok p) /\
    (exists n a, 0 < n /\ p = with_positions n a e) /\
    sr_tombstones s' !! e_session_id e = None /\ dhas (e_session_id e) (sr_sessions s') = true /\
    (forall f, f ∈ sr_events s' -> f ∈ sr_events s \/ f = p) /\
    (forall P : SessionEvent -> bool,
       count P (sr_events s') <= count P (sr_events s) + (if P p then 1 else 0)).
Proof.
  intros Ht Hd Ha Hn1 Hn2 Hi. unfold Sessions.record_event, repo_record_event. rewrite Ht, Hd.
  rewrite bool_decide_false by (by intros Hne; apply Hne). rewrite Hn1, Hn2. simpl.
  destruct (si_counters _ Hi (e_session_id e)) as [Hc _].
  assert (forall q : SessionEvent, (forall P : SessionEvent -> bool,
    count P (sr_events s ++ [q]) <= count P (sr_events s) + (if P q then 1 else 0))) as Hcount.
  { intros q P. rewrite count_app, count_cons, count_nil. destruct (P q); lia. }
  destruct policy as [p|]; simpl.
  - eexists _, _. split; [done|]. split; [eexists _, _; split; [|done]; lia|]. simpl.
    split_and!; [done|by unfold dhas; rewrite dget_dset_eq| |].
    + intros f [Hf _]%filter_elem. apply elem_of_app in Hf as [?|?%list_elem_of_singleton]; auto.
    + intros P. etransitivity; [apply count_filter_le|apply Hcount].
  - eexists _, _. split; [done|]. split; [eexists _, _; split; [|done]; lia|]. simpl.
    split_and!; [done|by unfold dhas; rewrite dget_dset_eq| |apply Hcount].
    intros f Hf. apply elem_of_app in Hf as [?|?%list_elem_of_singleton]; auto.
Qed.

Lemma finalize_first_Ok sid n d l p :
  p ∈ l -> event_at sid n p = true -> e_final_decision p = None ->
  (forall e, e ∈ l -> event_at sid n e = true -> e = p) ->
  exists l', finalize_first sid n d l = Ok l'.
Proof.
  induction l as [|e l IH]; intros Hp Hat Hf Hu; [by apply elem_of_nil in Hp|].
  cbn [finalize_first]. destruct (event_at sid n e) eqn:He.
  - rewrite (Hu e), Hf by (done || set_solver). simpl. eauto.
  - destruct IH as [l' ->]; [|done..|set_solver|by eexists].
    apply elem_of_cons in Hp as [->|Hp]; [congruence|done].
Qed.

(** An unfinalised event that is in the log can be finalised. *)
Lemma finalize_open (s : SessionRepo) p d :
  sr_inv s -> p ∈ sr_events s -> e_final_decision p = None ->
  sr_tombstones s !! e_session_id p = None -> dhas (e_session_id p) (sr_sessions s) = true ->
  exists s', repo_update_final_decision (e_session_id p) (e_sequence_number p) d s = (s', Ok tt).
Proof.
  intros Hi Hp Hf Ht Hd. unfold repo_update_final_decision. rewrite Ht, Hd. simpl.
  destruct (finalize_first_Ok (e_session_id p) (e_sequence_number p) d (sr_events s) p) as [l ->];
    [done| |done| |by eexists].
  - unfold event_at. by rewrite bool_decide_true, Z.eqb_refl.
  - intros e He [Hs%bool_decide_eq_true Hn%Z.eqb_eq]%andb_prop. by apply (position_unique s).
Qed.

(** ** Detection *)

(** Fewer denials of the agent on record than the behavioural rule counts. *)
Definition few_denials (agent : string) (s : SessionRepo) : Prop :=
  count (fun e => bool_decide (e_agent_id e = agent) && bool_decide (e_decision e = DENY))
    (sr_events s) < EXCESSIVE_DENIAL_THRESHOLD.

(** Recording an allowed event adds no denial. *)
Lemma few_denials_recorded agent (s s' : SessionRepo) e n k :
  few_denials agent s -> e_decision e = ALLOW ->
  (forall P : SessionEvent -> bool,
     count P (sr_events s') <= count P (sr_events s) + (if P (with_positions n k e) then 1 else 0)) ->
  few_denials agent s'.
Proof.
  unfold few_denials. intros Hfew He Hcount. eapply Z.le_lt_trans; [apply Hcount|]. simpl. rewrite He.
  rewrite (bool_decide_false (ALLOW = DENY)) by done. rewrite andb_false_r. lia.
Qed.

Lemma epoch_of_default a o : epoch_of (Some (default (initial_enforcement_state a) o)) = epoch_of o.
Proof. by destruct o. Qed.

Lemma few_denials_silent uuid5 window now q s t prior generation :
  few_denials (q_agent_id q) s ->
  detect_excessive_denials uuid5 window now (list_eligible_events q s) t prior generation = [].
Proof.
  intros Hfew. destruct (detect_excessive_denials _ _ _ _ _ _ _) as [|f l] eqn:Hd; [done|].
  exfalso. assert (f ∈ f :: l) as Hf by set_solver. rewrite <- Hd in Hf.
  apply detect_elem in Hf as (agent & Hlen & _). revert Hlen. apply Z.lt_nge.
  eapply Z.le_lt_trans; [|exact Hfew].
  unfold agent_denials, in_group. rewrite <- filter_andb.
  unfold list_eligible_events, repo_list_eligible_events.
  rewrite (List_filter_perm _ _ _ (sort_by_perm (position_leb (q_scope q)) _)).
  etransitivity; [|apply (count_filter_le _ (eligible q))]. apply count_le.
  intros e [_ He]%filter_elem Hd'. unfold eligible in He. unfold denied_in_window in Hd'.
  destruct (bool_decide (e_agent_id e = q_agent_id q)); [|done].
  by destruct (e_decision e).
Qed.

Section quiet.
Context (hmac : string -> string -> string) (float_repr : Z -> string)
        (sha256 : string -> string) (uuid5 : string -> string -> string).
Context {RA RE : Type} `{AdministrativeContract RA} `{EnforcementContract RE}.
Context {Tel : Type} (emit : RuntimeTelemetry -> Tel -> Tel * result unit).
Context (path_exists path_is_symlink path_is_dir : Path -> bool)
        (realpath : Path -> result Path)
        (samefile : Path -> Path -> option bool)
        (scandir : Path -> option (list string)).
Context (cfg : RuntimeConfig).
Local Abbreviation World := (RuntimeWorld (RA:=RA) (RE:=RE) (Tel:=Tel)).
Local Abbreviation run := (execute hmac float_repr sha256 uuid5 emit path_exists path_is_symlink
  path_is_dir realpath samefile scandir cfg).
Local Abbreviation establish := (establish_operation path_exists path_is_symlink path_is_dir
  realpath samefile scandir cfg).

(** Every control permits the request and nothing in it or on record is detected. *)
Record quiet (rq : RuntimeRequest) (env : RuntimeEnv) (op : Operation) (b : ExecutionBinding)
    (p : AgentRiskPosture) (authority : ExecutionAuthority) (w : World) : Prop := mkQuiet {
  qu_hash : exists h, re_param_hash env = Ok h;
  qu_operation : establish rq w = Ok op;
  qu_binding : op_binding op = Some b;
  qu_authorized : authorize (rq_agent_id rq) (rq_tool_id rq) (op_resource op) (rw_agents w)
    (rw_tools w) = Ok ALLOW;
  qu_names : str_nonempty (rq_session_id rq) = true /\ str_nonempty (rq_agent_id rq) = true;
  qu_sessions : sr_inv (rw_sessions w);
  qu_session : session_open (rq_session_id rq) (rq_agent_id rq) (rw_sessions w);
  qu_denials : few_denials (rq_agent_id rq) (rw_sessions w);
  qu_retention : forall q, rc_retention cfg = Some q -> 0 <= total_retention q;
  qu_window : 0 < rc_window cfg;
  qu_content : forall e, engine_evaluate (rc_rules cfg) (detection_context rq (op_resource op) e) = [];
  qu_durable : re_horizon_error env = None /\ re_evidence_error env = None;
  qu_baseline : forall s, (get_enforcement_state (rq_agent_id rq) (rw_agents w)).2 = Ok s ->
    0 <= es_baseline_agent_sequence s;
  qu_posture : get_posture (re_risk_now env) (rq_agent_id rq) (rw_risk w) = Ok p;
  qu_healthy : p_state p = HEALTHY;
  qu_level : p_risk_level p = RISK_LOW \/ p_risk_level p = RISK_MEDIUM;
  qu_authority : rw_authority w = Some authority;
  qu_open : closed_planes (rq_agent_id rq) authority = ∅;
  qu_authority_id : str_nonempty (ea_authority_id authority) = true;
  qu_signs : forall key m, str_nonempty (hmac key m) = true;
  qu_profile : is_Some (dget (profile_id (rq_tool_id rq)) (rw_capabilities w));
}.

(** An authorized agent has an enforcement state to take the snapshot of. *)
Lemma authorized_snapshot a tid res (x : AgentWorld RA RE) tools :
  authorize a tid res x tools = Ok ALLOW ->
  exists o, enf_get_state a (aw_enf x) = Ok o /\
    get_enforcement_state a x = (x, Ok (default (initial_enforcement_state a) o)).
Proof.
  unfold authorize. destruct (evaluate a tid res x tools) as [r|] eqn:He; [|done]. intros [= Hal].
  apply evaluate_cases in He as [[reason ->]|(ag & Hag & _)]; [done|].
  unfold get_enforcement_state, mbind, comp_bind, reads.
  destruct (get_agent a x) as [x1 y] eqn:Hg. apply get_agent_cases in Hg as [-> Hg].
  simpl in Hag. subst y. destruct (Hg ag eq_refl) as (ag0 & adm & enf & _ & _ & Henf & _).
  exists enf. by rewrite Henf.
Qed.

Lemma authorized_stage rq op (w : World) :
  op_malformed op = false ->
  authorize (rq_agent_id rq) (rq_tool_id rq) (op_resource op) (rw_agents w) (rw_tools w) = Ok ALLOW ->
  exists r, authorize_stage rq op w = Ok (Some r) /\ az_decision r = ALLOW.
Proof.
  unfold authorize, authorize_stage. intros ->.
  destruct (evaluate _ _ _ _ _) as [r|]; [|done]. intros [= Hr]. by exists r.
Qed.

(** The gate issues the grant. *)
Lemma gate_issues rq env b authority o (w : World) :
  rw_authority w = Some authority -> closed_planes (rq_agent_id rq) authority = ∅ ->
  str_nonempty (ea_authority_id authority) = true -> (forall key m, str_nonempty (hmac key m) = true) ->
  str_nonempty (rq_session_id rq) = true -> str_nonempty (rq_agent_id rq) = true ->
  is_Some (dget (profile_id (rq_tool_id rq)) (rw_capabilities w)) ->
  enf_get_state (rq_agent_id rq) (aw_enf (rw_agents w)) = Ok o ->
  exists a' g, gate_and_issue hmac float_repr sha256 rq env (Some b) ALLOW (epoch_of o) w
    = (set_authority a' w, Ok (ALLOW, Some g)).
Proof.
  intros Ha Hopen Hid Hh Hs Hag [caps Hc] Ho. unfold gate_and_issue, profile_exists, dhas, resolve_profile.
  rewrite Ha, Hc. cbn. unfold issue, create_grant, sign. cbv [mbind comp_bind mret comp_ret].
  assert (issuance_suspended (rq_agent_id rq) authority = false) as ->.
  { destruct (issuance_suspended _ _) eqn:Hsus; [|done]. by apply issuance_suspended_iff in Hsus. }
  cbn. rewrite Ho, Z.eqb_refl. cbn. rewrite Hid, Hs, Hag, Hh. cbn. eauto.
Qed.

Lemma decide_grants rq env hash op az b authority o recorded fs assessment p (w : World) :
  op_binding op = Some b -> is_Some (op_tool_version op) ->
  rw_authority w = Some authority -> closed_planes (rq_agent_id rq) authority = ∅ ->
  str_nonempty (ea_authority_id authority) = true -> (forall key m, str_nonempty (hmac key m) = true) ->
  str_nonempty (rq_session_id rq) = true -> str_nonempty (rq_agent_id rq) = true ->
  is_Some (dget (profile_id (rq_tool_id rq)) (rw_capabilities w)) ->
  enf_get_state (rq_agent_id rq) (aw_enf (rw_agents w)) = Ok o ->
  e_decision recorded = ALLOW -> p_risk_level p = RISK_LOW \/ p_risk_level p = RISK_MEDIUM ->
  (exists s', repo_update_final_decision (rq_session_id rq) (e_sequence_number recorded) ALLOW
    (rw_sessions w) = (s', Ok tt)) ->
  exists w' r g, decide_and_record hmac float_repr sha256 emit cfg rq env hash op az (epoch_of o)
    recorded fs assessment p w = (w', Ok r) /\ rr_authorization r = Some g /\
    e_final_decision (rr_event r) = Some ALLOW.
Proof.
  intros Hb [v Hv] Ha Hopen Hid Hh Hs Hag Hc Ho Hd Hlvl [s' Hu].
  destruct (gate_issues rq env b authority o w Ha Hopen Hid Hh Hs Hag Hc Ho) as (a' & g & Hg).
  unfold decide_and_record, mbind, comp_bind.
  assert (override_decision (e_decision recorded) (rs_response_type (recommend_for_level (p_risk_level p)
    (rq_session_id rq) (rq_agent_id rq))) = ALLOW) as -> by (rewrite Hd; by destruct Hlvl as [-> | ->]).
  rewrite Hb, Hg. unfold on_sessions, zoom, update_event_final_decision. simpl. rewrite Hu.
  rewrite bool_decide_false by (by destruct Hlvl as [-> | ->]). simpl.
  unfold audit_decision, resolved_tool, new_audit_event. rewrite Hv. simpl.
  match goal with |- context[emit_stage emit cfg ?a1 ?a2 ?a3 ?a4 ?a5 ?a6 ?a7 ?a8 ?wx] =>
    destruct (emit_run emit cfg a1 a2 a3 a4 a5 a6 a7 a8 wx) as (w3 & -> & _) end.
  unfold conclude. eexists _, _, g. by split_and!.
Qed.

(** Nothing detected: the evidence and its projection stay, the posture is the current one. *)
Lemma assess_quiet rq env hash op az epoch recorded p (w : World) :
  get_posture (re_risk_now env) (rq_agent_id rq) (rw_risk w) = Ok p -> p_state p = HEALTHY ->
  re_evidence_error env = None ->
  exists assessment,
    record_and_assess hmac float_repr sha256 emit cfg rq env hash op az epoch recorded [] w =
    decide_and_record hmac float_repr sha256 emit cfg rq env hash op az epoch recorded [] assessment p w.
Proof.
  intros Hp Hh He. unfold record_and_assess, record_evidence. rewrite He. simpl.
  assert (forall x : World, set_findings_store (rw_findings x) x = x) as Hid by (by intros []).
  rewrite Hid. unfold mbind, comp_bind. simpl. unfold assess_and_decide.
  unfold assess_session. assert (forallb (in_scope (rq_session_id rq) (rq_agent_id rq))
    (session_findings rq (rw_findings w)) = true) as ->.
  { apply forallb_forall. intros f Hf%list_elem_of_In. unfold session_findings, list_findings in Hf.
    simpl in Hf. apply filter_elem in Hf as [Hf Hag]. apply filter_elem in Hf as [_ Hse].
    unfold in_scope. by rewrite Hse, Hag. }
  unfold assess_agent_posture, mbind, comp_bind, current_posture. rewrite Hp.
  rewrite bool_decide_true by done. eexists. done.
Qed.

Lemma detect_quiet rq env hash op az st recorded (w : World) :
  e_sequence_number recorded >= 0 ->
  str_nonempty (rq_session_id rq) = true -> str_nonempty (rq_agent_id rq) = true ->
  0 < rc_window cfg -> 0 <= baseline_of st ->
  engine_evaluate (rc_rules cfg) (detection_context rq (op_resource op) recorded) = [] ->
  re_horizon_error env = None -> few_denials (rq_agent_id rq) (rw_sessions w) ->
  detect_and_record hmac float_repr sha256 uuid5 emit cfg rq env hash op az st recorded w =
  record_and_assess hmac float_repr sha256 emit cfg rq env hash op az (epoch_of st) recorded [] w.
Proof.
  intros Hn Hs Ha Hw Hb Hc Hh Hd.
  assert (new_context (detection_context rq (op_resource op) recorded) =
    Ok (detection_context rq (op_resource op) recorded)) as Hctx.
  { unfold new_context; simpl. rewrite Hs, Ha.
    assert ((0 <=? e_sequence_number recorded) = true) as -> by (apply Z.leb_le; lia). done. }
  set (q := mkQuery (rq_agent_id rq) SCOPE_AGENT None (rc_window cfg) (e_timestamp recorded)
    (baseline_of st)).
  assert (horizon_query rq (mkDescriptor EXCESSIVE_DENIALS_RULE_NAME SCOPE_AGENT (rc_window cfg))
    recorded (baseline_of st) = Ok q) as Hq.
  { unfold horizon_query, new_query; simpl.
    assert ((rc_window cfg <=? 0) = false) as -> by (apply Z.leb_gt; lia).
    assert ((baseline_of st <? 0) = false) as -> by (apply Z.ltb_ge; lia). done. }
  unfold detect_and_record, mbind, comp_bind, liftR. rewrite Hctx.
  change (get_rule_descriptor (rc_window cfg) EXCESSIVE_DENIALS_RULE_NAME) with
    (Ok (mkDescriptor EXCESSIVE_DENIALS_RULE_NAME SCOPE_AGENT (rc_window cfg))).
  cbv beta iota. rewrite Hq. unfold query_and_record, eligible_events. rewrite Hh, Hc.
  by rewrite few_denials_silent by done.
Qed.

(** C30. Liveness of the pipeline: a request that every control permits returns, and it
    returns a grant with final decision ALLOW — the session is free or its own, the
    authorization service allows it, nothing in it or on record is detected, the posture is
    HEALTHY and below HIGH, issuance is open and the tool has a capability profile. *)
Theorem permitted_request_is_granted rq env op b p authority (w : World) :
  quiet rq env op b p authority w ->
  exists w' r g, execute hmac float_repr sha256 uuid5 emit path_exists path_is_symlink
    path_is_dir realpath samefile scandir cfg rq env w = (w', Ok r) /\ rr_authorization r = Some g /\
    e_final_decision (rr_event r) = Some ALLOW.
Proof.
  intros [[hash Hhash] Hop Hb Haz [Hns Hna] Hi Hso Hfew Hret Hwin Hcont [Hho Heo] Hbase Hp Hhe Hlvl Ha Hopen
    Hid Hsig Hprof].
  destruct (establish_binding _ _ _ _ _ _ _ _ _ _ _ Hop Hb) as (Hmal & Hver & _).
  destruct (authorized_snapshot _ _ _ _ _ Haz) as (o & Ho & Hsnap).
  unfold execute, mbind, comp_bind, liftR. rewrite Hhash, Hop.
  match goal with |- context[emit_stage emit cfg ?a1 ?a2 ?a3 ?a4 ?a5 ?a6 ?a7 ?a8 ?wx] =>
    destruct (emit_run emit cfg a1 a2 a3 a4 a5 a6 a7 a8 wx) as (w1 & -> & U1) end.
  destruct U1 as [A1 T1 _ C1 S1 F1 R1 Au1 _]. unfold bind_and_run, on_sessions, zoom. rewrite S1.
  destruct (bind_open (rq_session_id rq) (rq_agent_id rq) (re_bind_now env) _ Hso)
    as (s1 & sess & ss & Hbind & Hev1 & Ht1 & Hd1 & Hag1).
  pose proof (bind_inv _ _ _ _ _ _ Hi Hbind) as Hi1. rewrite Hbind.
  fold (set_sessions_store s1 w1). unfold authorize_and_detect, mbind, comp_bind.
  destruct (authorized_stage rq op (set_sessions_store s1 w1) Hmal) as (az & Hst & Hall);
    [by simpl; rewrite A1, T1|]. rewrite Hst.
  match goal with |- context[emit_stage emit cfg ?a1 ?a2 ?a3 ?a4 ?a5 ?a6 ?a7 ?a8 ?wx] =>
    destruct (emit_run emit cfg a1 a2 a3 a4 a5 a6 a7 a8 wx) as (w2 & -> & U2) end.
  destruct U2 as [A2 T2 _ C2 S2 F2 R2 Au2 _]. simpl in *.
  unfold enforcement_snapshot, try_except, mbind, comp_bind.
  rewrite on_agents_read by (by rewrite A2, A1, Hsnap). rewrite A2, A1, Hsnap. cbn.
  unfold on_sessions, zoom. rewrite S2. rewrite Hall.
  match goal with |- context[Sessions.record_event _ ?e s1] =>
    destruct (record_open (rc_retention cfg) e s1 ss Ht1 Hd1 Hag1 eq_refl eq_refl Hi1)
      as (s2 & rec & Hrec & (n & k & Hn & Hpos) & Ht2 & Hd2 & _ & Hcount) end.
  rewrite Hrec. fold (set_sessions_store s2 w2).
  pose proof (record_inv _ _ _ _ _ Hi1 Hrec) as Hi2.
  pose proof (recorded_present _ _ _ _ _ Hret Hrec) as Hin.
  rewrite detect_quiet; [|subst rec; simpl; lia|done|done|done| |apply Hcont|done|].
  2: { simpl. apply Hbase. by rewrite Hsnap. }
  2: { unfold few_denials in Hfew. rewrite <- Hev1 in Hfew. rewrite Hpos in Hcount.
       by eapply (few_denials_recorded _ s1); [exact Hfew| |exact Hcount]. }
  destruct (assess_quiet rq env hash op (Some az) (epoch_of (Some (default (initial_enforcement_state
    (rq_agent_id rq)) o))) rec p (set_sessions_store s2 w2)) as [ass ->];
    [simpl; by rewrite R2, R1|done|done|].
  rewrite epoch_of_default.
  eapply decide_grants; try done.
  - simpl. by rewrite Au2, Au1.
  - simpl. by rewrite C2, C1.
  - simpl. by rewrite A2, A1.
  - by rewrite Hpos.
  - simpl. destruct (finalize_open s2 rec ALLOW) as [s' Hs']; try done; try (by rewrite Hpos).
    exists s'. by rewrite Hpos in Hs' |- *.
Qed.
End quiet.

(** ** Witness *)

Definition quiet_operation : Operation :=
  mkOperation (Some "1.0"%string) (Some "a.txt"%string)
    (Some (mkBinding "fs" "1.0" (Some "a.txt"%string) [])) false.

Lemma permitted_request_is_granted_witness :
  exists w' r g, demo_run quiet_request demo_env [] = (w', Ok r) /\ rr_authorization r = Some g /\
    e_final_decision (rr_event r) = Some ALLOW.
Proof.
  assert (exists p, get_posture 14 "a" (demo_risk []) = Ok p /\ p_state p = HEALTHY /\
    p_risk_level p = RISK_LOW) as (p & Hp & Hh & Hl) by (eexists; by vm_compute).
  apply (permitted_request_is_granted sample_hmac sample_repr demo_sha demo_uuid5 demo_emit no_path no_path
    no_path no_realpath no_samefile no_scandir demo_config quiet_request demo_env
    quiet_operation (mkBinding "fs" "1.0" (Some "a.txt"%string) []) p sample_authority (demo_world [])).
  split; try done; try (by vm_compute).
  - by eexists.
  - apply empty_repo_inv.
  - by intros q [= <-].
  - intros s. vm_compute. by intros [= <-].
  - by left.
Defined.
