(* ===== verification/AgentRuntime.v ===== *)
(** * Agents and governed execution (services/agent_runtime_service.py, agents/)

    The loop that closes the platform: an agent turns a query into a tool invocation, the
    security pipeline decides it, and the executor runs what the pipeline granted.  The
    pipeline and the executor share the execution authority.  A language model is a
    parameter of the agent that asks it. *)

From S2P Require Import Prelude PyDict Json Models Lifecycle Planes Agents ToolPlane Policy Binding Authority.
From S2P Require Import Capabilities Findings Risk Sessions Detection Paths ResourceIdentity AuditTrail Runtime.
From S2P Require Import RuntimeSafety Evidence Executor.
Local Open Scope Z_scope.

(** ** Agents *)

(** [ToolInvocation] *)
Record ToolInvocation := mkInvocation {
  iv_tool_id : string;
  iv_parameters : pydict string string;
}.

(** [EnterpriseAgent] *)
Record EnterpriseAgent := mkEnterpriseAgent {
  ea_agent_id : string;
  ea_invoke : string -> result ToolInvocation;
}.

(** [s[n:]] *)
Fixpoint drop_chars (n : nat) (s : string) : string :=
  match n, s with
  | O, _ => s
  | S n, String _ s => drop_chars n s
  | S _, EmptyString => EmptyString
  end.

(** [SimpleAgent.decide_tool] *)
Definition simple_decide_tool (query : string) : result ToolInvocation :=
  let normalized_query := str_lower (str_strip query) in
  if String.prefix "read " normalized_query
  then Ok (mkInvocation "file_read" [("path", drop_chars 5 (str_strip query))]%string)
  else if bool_decide (normalized_query ∈ ["list files"; "show files"]%string)
  then Ok (mkInvocation "directory_list" [("path", ".")]%string)
  else Err ValueError.

Definition SimpleAgent (agent_id : string) : EnterpriseAgent :=
  mkEnterpriseAgent agent_id simple_decide_tool.

(** [ToolInvocation.model_validate]: both fields, strings throughout; other keys are
    ignored. *)
Definition ValidationError : exn := OtherException "ValidationError".

Definition text_member (p : string * json) : result (string * string) :=
  match p.2 with JStr s => Ok (p.1, s) | _ => Err ValidationError end.

Definition validate_invocation (j : json) : result ToolInvocation :=
  match j with
  | JObj members =>
      match dget "tool_id"%string members, dget "parameters"%string members with
      | Some (JStr tool_id), Some (JObj parameters) =>
          ps ← mapR text_member parameters; Ok (mkInvocation tool_id ps)
      | _, _ => Err ValidationError
      end
  | _ => Err ValidationError
  end.

(** [OllamaAgent]: the provider's answer to the prompt and the query is untrusted. *)
Definition OllamaAgent (chat : string -> result json) (agent_id : string) : EnterpriseAgent :=
  mkEnterpriseAgent agent_id (fun query => response ← chat query; validate_invocation response).

(** ** The service *)

Definition AgentIdentityMismatchError : exn := OtherException "AgentIdentityMismatchError".

Inductive ToolText := OutText (s : string) | OutLines (l : list string).

Record AgentRuntimeResult := mkAgentRuntimeResult {
  ar_decision : Decision;
  ar_response_type : ResponseType;
  ar_output : option ToolText;
}.

(** The result's [output] field: a text, a list of texts, or nothing. *)
Definition json_text (j : json) : result string :=
  match j with JStr s => Ok s | _ => Err ValidationError end.

Definition agent_output (o : PyOutput) : result (option ToolText) :=
  match o with
  | OutNone => Ok None
  | OutJson JNull => Ok None
  | OutJson (JStr s) => Ok (Some (OutText s))
  | OutJson (JArr l) => ts ← mapR json_text l; Ok (Some (OutLines ts))
  | _ => Err ValidationError
  end.

Record AgentRuntimeService := mkAgentRuntime {
  ars_agent : EnterpriseAgent;
  ars_registry : ToolRegistry;
  ars_has_authority : bool;
  ars_has_evidence : bool;
}.

(** [_register_executable_tools] *)
Definition register_executable_tools (file_read directory_list : BaseTool) : Comp ToolRegistry unit :=
  _ ← register file_read (Some "file_read_v1"%string);
  _ ← register directory_list (Some "directory_list_v1"%string);
  mret tt.

(** The constructor, with the default executor; [default_agent] is the agent built over the
    configured provider. *)
Definition new_agent_runtime (default_agent : string -> EnterpriseAgent)
    (file_read directory_list : BaseTool) (agent : option EnterpriseAgent)
    (tool_registry : option ToolRegistry) (agent_id : option string)
    (explicit_authority runtime_authority has_evidence : bool) : result AgentRuntimeService :=
  bound ← match agent with
          | None =>
              Ok (default_agent (match agent_id with
                                 | Some a => if str_nonempty a then a else "agent-1"%string
                                 | None => "agent-1"%string
                                 end))
          | Some ag =>
              match agent_id with
              | Some a => if bool_decide (ea_agent_id ag = a) then Ok ag
                          else Err AgentIdentityMismatchError
              | None => Ok ag
              end
          end;
  registry ← match tool_registry with
             | Some r => Ok r
             | None => match register_executable_tools file_read directory_list [] with
                       | (r, Ok _) => Ok r
                       | (_, Err e) => Err e
                       end
             end;
  Ok (mkAgentRuntime bound registry (explicit_authority || runtime_authority) has_evidence).

Section agent_runtime.
Context (hmac : string -> string -> string) (float_repr : Z -> string)
        (sha256 : string -> string) (uuid5 : string -> string -> string).
Context {RA RE : Type} `{AdministrativeStateRepository RA} `{EnforcementStateRepository RE}.
Context {Tel XTel Sbx : Type} (emit : RuntimeTelemetry -> Tel -> Tel * result unit)
        (xemit : BehavioralEvent -> XTel -> XTel * result unit)
        (sandbox_execute : SandboxRequest -> Sbx -> Sbx * result SandboxExecutionResult).
Context (path_exists path_is_symlink path_is_dir : Path -> bool)
        (realpath : Path -> result Path)
        (samefile : Path -> Path -> option bool)
        (scandir : Path -> option (list string)).
Context (cfg : RuntimeConfig).
(** [ToolInvocation.model_dump_json] *)
Context (model_dump_json : ToolInvocation -> string).

(** The pipeline's stores and the executor's.  They hold one execution authority. *)
Record PlatformWorld := mkPlatformWorld {
  gw_runtime : RuntimeWorld (RA:=RA) (RE:=RE) (Tel:=Tel);
  gw_exec : ExecWorld (Tel:=XTel) (Sbx:=Sbx);
}.

Definition set_exec_authority (a : ExecutionAuthority) (x : ExecWorld (Tel:=XTel) (Sbx:=Sbx))
  : ExecWorld :=
  mkExecWorld a (xw_evidence x) (xw_telemetry x) (xw_sandbox x) (xw_dispatched x).

Definition on_pipeline {A} (m : Comp RuntimeWorld A) : Comp PlatformWorld A := fun w =>
  let '(rt, r) := m (gw_runtime w) in
  (mkPlatformWorld rt (match rw_authority rt with
                       | Some a => set_exec_authority a (gw_exec w)
                       | None => gw_exec w
                       end), r).

Definition on_boundary {A} (m : Comp ExecWorld A) : Comp PlatformWorld A := fun w =>
  let '(x, r) := m (gw_exec w) in
  (mkPlatformWorld (match rw_authority (gw_runtime w) with
                    | Some _ => set_authority (xw_authority x) (gw_runtime w)
                    | None => gw_runtime w
                    end) x, r).

(** The executor the constructor wires: no emitter, the runtime's capability registry. *)
Definition executor_config (svc : AgentRuntimeService) (w : PlatformWorld) : ExecutorConfig :=
  mkExecutorConfig (ars_has_authority svc) (ars_has_evidence svc) false true
    (Some (rw_capabilities (gw_runtime w))) (Some (ars_registry svc)).

(** The request [execute] sends into the pipeline. *)
Definition invocation_request (session_uuid agent query : string) (iv : ToolInvocation)
  : RuntimeRequest :=
  mkRuntimeRequest session_uuid agent (iv_tool_id iv) (dget "path"%string (iv_parameters iv)) query
    (model_dump_json iv) EmptyString (str_params (iv_parameters iv)) None None None.

(** The gate is the final decision. *)
Definition gate_decision (r : RuntimeResult) : Decision :=
  default (e_decision (rr_event r)) (e_final_decision (rr_event r)).

Definition reported_response (r : RuntimeResult) : ResponseType :=
  match rr_response_action r with Some a => rs_response_type a | None => MONITOR end.

(** Run what the pipeline decided. *)
Definition run_decided (svc : AgentRuntimeService) (r : RuntimeResult) (xenv : ExecEnv)
  : Comp PlatformWorld AgentRuntimeResult := fun w =>
  if negb (bool_decide (gate_decision r = ALLOW))
  then (w, Ok (mkAgentRuntimeResult (gate_decision r) (reported_response r) None))
  else
    (out ← on_boundary (Executor.execute hmac float_repr sha256 xemit sandbox_execute
              (executor_config svc w) (rr_authorization r)
              (str_params (default [] (authorized_parameters r))) None xenv);
     output ← liftR (agent_output out);
     mret (mkAgentRuntimeResult (gate_decision r) (reported_response r) output)) w.

Definition agent_execute (svc : AgentRuntimeService) (query : string) (agent_id : option string)
    (session_uuid : string) (env : RuntimeEnv) (xenv : ExecEnv)
  : Comp PlatformWorld AgentRuntimeResult :=
  let own := ea_agent_id (ars_agent svc) in
  if match agent_id with Some a => negb (bool_decide (own = a)) | None => false end
  then raise AgentIdentityMismatchError
  else
    let effective := match agent_id with
                     | Some a => if str_nonempty a then a else own
                     | None => own
                     end in
    invocation ← liftR (ea_invoke (ars_agent svc) query);
    r ← on_pipeline (Runtime.execute hmac float_repr sha256 uuid5 emit path_exists path_is_symlink
          path_is_dir realpath samefile scandir cfg
          (invocation_request session_uuid effective query invocation) env);
    run_decided svc r xenv.
End agent_runtime.

(** ** What a query can set in motion *)

Section governed.
Context (hmac : string -> string -> string) (float_repr : Z -> string)
        (sha256 : string -> string) (uuid5 : string -> string -> string).
Context {RA RE : Type} `{AdministrativeContract RA} `{EnforcementContract RE}.
Context {Tel XTel Sbx : Type} (emit : RuntimeTelemetry -> Tel -> Tel * result unit)
        (xemit : BehavioralEvent -> XTel -> XTel * result unit)
        (sandbox_execute : SandboxRequest -> Sbx -> Sbx * result SandboxExecutionResult).
Context (path_exists path_is_symlink path_is_dir : Path -> bool)
        (realpath : Path -> result Path)
        (samefile : Path -> Path -> option bool)
        (scandir : Path -> option (list string)).
Context (cfg : RuntimeConfig) (model_dump_json : ToolInvocation -> string).
Local Abbreviation W := (PlatformWorld (RA:=RA) (RE:=RE) (Tel:=Tel) (XTel:=XTel) (Sbx:=Sbx)).
Local Abbreviation pipeline := (Runtime.execute hmac float_repr sha256 uuid5 emit path_exists
  path_is_symlink path_is_dir realpath samefile scandir cfg).

(** The executor is bound to the authority that issues the runtime's grants. *)
Definition linked (w : W) : Prop :=
  forall a, rw_authority (gw_runtime w) = Some a -> xw_authority (gw_exec w) = a.

(** What was dispatched, against the decision that covered it. *)
Record governed_dispatch (rq : RuntimeRequest) (r : RuntimeResult) (g : RuntimeExecutionGrant)
    (q : SandboxRequest) (w w' : W) : Prop := mkGoverned {
  gd_grant : rr_authorization r = Some g;
  gd_tool : eb_tool_id (g_binding g) = rq_tool_id rq;
  gd_authorized : authorize (rq_agent_id rq) (rq_tool_id rq) (eb_resource (g_binding g))
    (rw_agents (gw_runtime w)) (rw_tools (gw_runtime w)) = Ok ALLOW;
  gd_enabled : exists t, get_tool (rq_tool_id rq) (eb_tool_version (g_binding g))
    (rw_tools (gw_runtime w)) = Ok t /\ tool_enabled t = true;
  gd_posture : exists p, rr_enforcement_posture r = Some p /\ p_state p = HEALTHY /\
    (p_risk_level p = RISK_LOW \/ p_risk_level p = RISK_MEDIUM);
  gd_open : exists a, rw_authority (gw_runtime w) = Some a /\
    closed_planes (rq_agent_id rq) a = ∅;
  gd_capabilities : exists caps,
    dget (profile_id (rq_tool_id rq)) (rw_capabilities (gw_runtime w)) = Some caps /\
    cap_profile_id (sq_capabilities q) = cap_profile_id caps /\
    compute_digest sha256 float_repr (sq_capabilities q) = compute_digest sha256 float_repr caps;
  gd_parameters : sq_parameters q = str_params (parameters_dict (g_binding g));
  gd_version : sq_tool_version q = eb_tool_version (g_binding g);
  gd_provenance : pv_grant_id (sq_provenance q) = g_grant_id g /\
    pv_agent_id (sq_provenance q) = rq_agent_id rq /\
    pv_session_id (sq_provenance q) = rq_session_id rq /\
    pv_tool_id (sq_provenance q) = rq_tool_id rq;
  gd_dispatched : xw_dispatched (gw_exec w') = xw_dispatched (gw_exec w) ++ [q];
  gd_spent : dget (g_grant_id g) (ea_outstanding (xw_authority (gw_exec w'))) = None;
}.

Lemma provenance_fields g r i prov :
  provenance_from_grant g r i = Ok prov ->
  pv_grant_id prov = g_grant_id g /\ pv_agent_id prov = g_agent_id g /\
  pv_session_id prov = g_session_id g /\ pv_tool_id prov = eb_tool_id (g_binding g).
Proof. unfold provenance_from_grant. case_match; [|done]. by intros [= <-]. Qed.

(** The executor at work on the platform's world. *)
Lemma boundary_dispatched {A} (m : Comp ExecWorld A) (w w' : W) x :
  on_boundary m w = (w', x) -> exists e, m (gw_exec w) = (e, x) /\ gw_exec w' = e.
Proof. unfold on_boundary. destruct (m (gw_exec w)) as [e y]. intros [= <- <-]. by exists e. Qed.

Lemma run_decided_cases svc r xenv (w w' : W) x :
  authority_wf (xw_authority (gw_exec w)) ->
  run_decided hmac float_repr sha256 xemit sandbox_execute svc r xenv w = (w', x) ->
  (xw_dispatched (gw_exec w') = xw_dispatched (gw_exec w) /\
   (forall res, x = Ok res -> ar_decision res <> ALLOW /\ ar_output res = None)) \/
  exists g d q, rr_authorization r = Some g /\ gate_decision r = ALLOW /\
    xw_dispatched (gw_exec w') = xw_dispatched (gw_exec w) ++ [q] /\
    authorized_dispatch hmac float_repr sha256 (executor_config svc w) d
      (str_params (parameters_dict (g_binding g))) None g xenv (gw_exec w) (gw_exec w') q.
Proof.
  intros Hwf. unfold run_decided. destruct (bool_decide (gate_decision r = ALLOW)) eqn:Hal; cbn [negb].
  2: { intros [= <- <-]. left. split; [done|]. intros res [= <-]. split; [|done].
       by apply bool_decide_eq_false in Hal. }
  apply bool_decide_eq_true in Hal. unfold mbind, comp_bind.
  destruct (on_boundary _ w) as [w1 y] eqn:Hb. apply boundary_dispatched in Hb as (e & He & Hw1).
  apply execute_spec in He as (_ & _ & Hcase); [|done]. intros Hk.
  assert (w' = w1) as -> by (destruct y as [o|?]; [destruct (agent_output o)|]; by injection Hk).
  rewrite Hw1. destruct Hcase as [[Hd Hno]|(g & d & reg & q & Hg & _ & _ & _ & Hd & Ha & _)].
  - left. split; [done|]. intros res ->. destruct y; [done|by injection Hk].
  - right. exists g, d, q. unfold authorized_parameters, authorized_binding in Ha. rewrite Hg in Ha.
    by split_and!.
Qed.

(** C1. Nothing runs ungoverned: whatever a query makes the agent ask for and however the
    call ends, either nothing reaches the sandbox — and a call that returns then reports a
    decision other than ALLOW and no output — or exactly one execution does, which the
    pipeline granted in this very call: the authorization service allowed that agent, tool
    and resource, the version was enabled, the posture HEALTHY and below HIGH, issuance was
    open; the execution has the granted parameters, version, capabilities and provenance,
    and its grant is spent. *)
Theorem nothing_runs_ungoverned svc query agent_id session_uuid env xenv (w w' : W) x :
  linked w -> authority_wf (xw_authority (gw_exec w)) ->
  agent_execute hmac float_repr sha256 uuid5 emit xemit sandbox_execute path_exists path_is_symlink
    path_is_dir realpath samefile scandir cfg model_dump_json svc query agent_id session_uuid env xenv w
    = (w', x) ->
  (xw_dispatched (gw_exec w') = xw_dispatched (gw_exec w) /\
   (forall res, x = Ok res -> ar_decision res <> ALLOW /\ ar_output res = None)) \/
  exists agent iv r g q wr, agent = ea_agent_id (ars_agent svc) /\
    ea_invoke (ars_agent svc) query = Ok iv /\
    let rq := invocation_request model_dump_json session_uuid agent query iv in
    pipeline rq env (gw_runtime w) = (wr, Ok r) /\ governed_dispatch rq r g q w w'.
Proof.
  intros Hlink Hwf. unfold agent_execute.
  set (own := ea_agent_id (ars_agent svc)).
  destruct (match agent_id with Some a => negb (bool_decide (own = a)) | None => false end) eqn:Hid.
  { intros [= <- <-]. by left. }
  assert (match agent_id with Some a => if str_nonempty a then a else own | None => own end = own) as ->.
  { destruct agent_id as [a|]; [|done]. apply negb_false_iff, bool_decide_eq_true in Hid. rewrite Hid.
    by destruct (str_nonempty a). }
  unfold mbind, comp_bind, liftR. destruct (ea_invoke (ars_agent svc) query) as [iv|e] eqn:Hiv.
  2: { intros [= <- <-]. by left. }
  unfold on_pipeline at 1.
  set (rq := invocation_request model_dump_json session_uuid own query iv).
  destruct (pipeline rq env (gw_runtime w)) as [wr [r|e]] eqn:Hp.
  2: { intros [= <- <-]. left. by destruct (rw_authority wr). }
  set (w1 := mkPlatformWorld wr _). intros Hk.
  assert (xw_dispatched (gw_exec w1) = xw_dispatched (gw_exec w)) as Hd1
    by (unfold w1; simpl; by destruct (rw_authority wr)).
  destruct (rr_authorization r) as [g|] eqn:Hg.
  - pose proof (granted_under_controls _ _ _ _ _ _ _ _ _ _ _ _ _ _ _ _ _ _ Hp Hg) as
      (_ & op & b & _ & _ & <- & Ht & Haz & Hen & Hpo & (a & Ha & Hcl) & Hag & Hse & (caps & Hc1 & Hc2 & Hc3)
       & a' & Ha' & _ & Hwf').
    assert (authority_wf (xw_authority (gw_exec w1))) as Hwf1.
    { unfold w1; simpl. rewrite Ha'. apply (Hwf' a Ha). by rewrite <- (Hlink a Ha). }
    apply run_decided_cases in Hk as [[Hd Hno]|(g' & d & q & Hg' & Hal & Hd & Hdis)]; [| |done].
    + left. split; [congruence|done].
    + right. exists own, iv, r, g, q, wr. rewrite Hg in Hg'. injection Hg' as <-.
      destruct Hdis as (_ & _ & _ & Hgone & Hpid & Hdig & Hprov & Hpar & Hver & _).
      apply provenance_fields in Hprov as (P1 & P2 & P3 & P4).
      split_and!; [done..|]. fold rq. split; try done.
      * by exists a.
      * exists caps. split; [done|]. split; congruence.
      * split_and!; congruence.
      * congruence.
  - left. revert Hk. unfold run_decided. rewrite Hg.
    destruct (bool_decide (gate_decision r = ALLOW)) eqn:Hal; cbn [negb].
    + unfold mbind, comp_bind, on_boundary, Executor.execute, refuse, raise. intros [= <- <-].
      simpl. done.
    + intros [= <- <-]. split; [done|]. intros res [= <-]. split; [|done].
      by apply bool_decide_eq_false in Hal.
Qed.
End governed.

(** ** Witness: the demonstration agent reads one file *)

Definition demo_agent : EnterpriseAgent :=
  OllamaAgent (fun q => Ok (JObj [("tool_id", JStr "fs"); ("parameters", JObj [("path", JStr q)])]))%string "a".
Definition demo_service : AgentRuntimeService :=
  mkAgentRuntime demo_agent (exec_registry (Some "impl"%string)) true true.
Definition demo_platform : PlatformWorld :=
  mkPlatformWorld (demo_world []) (mkExecWorld sample_authority empty_store (@nil BehavioralEvent) tt []).
Definition demo_dump (iv : ToolInvocation) : string := iv_tool_id iv.
Definition demo_query :=
  agent_execute sample_hmac sample_repr demo_sha demo_uuid5 demo_emit sample_emit sample_sandbox
    no_path no_path no_path no_realpath no_samefile no_scandir demo_config demo_dump demo_service
    "a.txt" None "s" demo_env (sample_env "n") demo_platform.

Lemma demo_query_answers :
  (ar_output <$> match demo_query.2 with Ok r => Some r | Err _ => None end) = Some (Some (OutText "done")).
Proof. vm_compute. reflexivity. Qed.

Lemma nothing_runs_ungoverned_witness :
  exists q, xw_dispatched (gw_exec demo_query.1) = [q] /\ pv_agent_id (sq_provenance q) = "a"%string /\
    pv_tool_id (sq_provenance q) = "fs"%string.
Proof.
  pose proof (surjective_pairing demo_query) as Hq. unfold demo_query at 1 in Hq.
  pose proof (nothing_runs_ungoverned sample_hmac sample_repr demo_sha demo_uuid5 demo_emit sample_emit
    sample_sandbox no_path no_path no_path no_realpath no_samefile no_scandir demo_config demo_dump
    demo_service "a.txt" None "s" demo_env (sample_env "n") demo_platform demo_query.1 demo_query.2
    ltac:(by intros a [= <-]) sample_authority_wf Hq) as H.
  clear Hq.
  pose proof demo_query_answers as Hout.
  destruct H as [[_ H]|(agent & iv & r & g & q & wr & -> & [= <-] & _ & [])].
  - destruct demo_query.2 as [res|]; [|done]. destruct (H res eq_refl) as [_ Hn]. simpl in Hout. congruence.
  - exists q. split; [exact gd_dispatched0|]. destruct gd_provenance0 as (_ & Ha & _ & Ht).
    exact (conj Ha Ht).
Defined.
