(* ===== verification/Auth.v ===== *)
(** * Authentication and authorization of callers

    [models/jwt_claims.py], [auth/jwt_service.py] and [api/auth.py]: the token service, the
    principal a request authenticates as, and the two kinds of authorization dependency the
    routes compose.  The [jwt] package is a parameter: [jwt_encode] signs a payload,
    [jwt_decode] answers with the payload of an acceptable token or one of its two exception
    classes.  Timestamps are microseconds; the claims carry whole seconds, as in the token. *)
From stdpp Require Import pretty.
From S2P Require Import Prelude PyDict Json PyInt.
Local Open Scope Z_scope.

(** FastAPI's [HTTPException], named by its status. *)
Definition HTTPException (status : Z) : exn := OtherException ("HTTPException:" +:+ pretty status).

(** ** Claims *)

Inductive Role := ADMIN | ANALYST | AGENT.

#[global] Instance Role_eq_dec : EqDecision Role.
Proof. solve_decision. Defined.

Definition role_value (r : Role) : string :=
  match r with ADMIN => "ADMIN" | ANALYST => "ANALYST" | AGENT => "AGENT" end.

Definition role_of_value (s : string) : option Role :=
  List.find (fun r => bool_decide (role_value r = s)) [ADMIN; ANALYST; AGENT].

Lemma role_of_role_value r : role_of_value (role_value r) = Some r.
Proof. by destruct r. Qed.

Record JWTClaims := mkClaims {
  jc_sub : string;
  jc_agent_id : string;
  jc_role : Role;
  jc_iat : Z;
  jc_exp : Z;
}.

(** [claims.model_dump(mode="json")] *)
Definition claims_dump (c : JWTClaims) : pydict string json :=
  [("sub", JStr (jc_sub c)); ("agent_id", JStr (jc_agent_id c));
   ("role", JStr (role_value (jc_role c)));
   ("iat", JNum (pretty (jc_iat c))); ("exp", JNum (pretty (jc_exp c)))]%string.

(** How [jwt.decode] ends. *)
Inductive JwtOutcome :=
| JwtPayload (payload : pydict string json)
| JwtExpired
| JwtInvalid.

Section service.
Context (jwt_encode : pydict string json -> string -> string -> result string)
        (jwt_decode : string -> string -> list string -> Z -> Z -> JwtOutcome).
(** pydantic's conversion of a field annotated [int]. *)
Context (int_field : json -> option Z).

(** [JWTClaims] built from a decoded payload by keyword; [None] is a [ValidationError]. *)
Definition str_member (k : string) (p : pydict string json) : option string :=
  match dget k p with Some (JStr s) => Some s | _ => None end.

Definition int_member (k : string) (p : pydict string json) : option Z :=
  match dget k p with Some v => int_field v | None => None end.

Definition claims_of_payload (p : pydict string json) : option JWTClaims :=
  sub ← str_member "sub" p;
  agent ← str_member "agent_id" p;
  role_text ← str_member "role" p;
  role ← role_of_value role_text;
  iat ← int_member "iat" p;
  exp ← int_member "exp" p;
  Some (mkClaims sub agent role iat exp).

Record JWTService := mkJwtService {
  jw_secret_key : string;
  jw_algorithm : string;
  jw_expiration_minutes : Z;
}.

(** [JWTService(secret_key=...)] *)
Definition default_jwt_service (secret : string) : JWTService := mkJwtService secret "HS256" 60.

Definition SECOND : Z := 1000000.

(** [int(datetime.timestamp())]: truncated to whole seconds. *)
Definition timestamp_seconds (t : Z) : Z := Z.quot t SECOND.

Definition token_claims (s : JWTService) (subject agent : string) (role : Role) (now : Z) : JWTClaims :=
  mkClaims subject agent role (timestamp_seconds now)
    (timestamp_seconds (now + jw_expiration_minutes s * 60 * SECOND)).

Definition create_token (s : JWTService) (subject agent : string) (role : Role) (now : Z)
  : result string :=
  jwt_encode (claims_dump (token_claims s subject agent role now)) (jw_secret_key s)
    (jw_algorithm s).

Definition TOKEN_LEEWAY : Z := 10.

Definition verify_token (s : JWTService) (token : string) (now : Z) : result JWTClaims :=
  match jwt_decode token (jw_secret_key s) [jw_algorithm s] TOKEN_LEEWAY now with
  | JwtExpired | JwtInvalid => Err ValueError
  | JwtPayload p => of_option ValueError (claims_of_payload p)
  end.

(** ** The principal of a request *)

(** What [HTTPBearer(auto_error=False)] found in the [Authorization] header. *)
Record Credentials := mkCredentials { hc_scheme : string; hc_credentials : string }.

Definition UNAUTHORIZED : exn := HTTPException 401.
Definition FORBIDDEN : exn := HTTPException 403.

Definition get_current_principal (s : JWTService) (credentials : option Credentials) (now : Z)
  : result JWTClaims :=
  match credentials with
  | None => Err UNAUTHORIZED
  | Some c =>
      if bool_decide (str_lower (hc_scheme c) <> "bearer"%string) then Err UNAUTHORIZED
      else
        let token := str_strip (hc_credentials c) in
        if negb (str_nonempty token) then Err UNAUTHORIZED
        else match verify_token s token now with
             | Err ValueError => Err UNAUTHORIZED
             | x => x
             end
  end.

(** [require_roles]: the role checker it returns, on the authenticated principal. *)
Definition require_roles (allowed : list Role) (principal : JWTClaims) : result JWTClaims :=
  if negb (bool_decide (jc_role principal ∈ allowed)) then Err FORBIDDEN else Ok principal.

Definition require_execution_identity (agent : string) (principal : JWTClaims)
  : result JWTClaims :=
  if bool_decide (jc_role principal <> AGENT) then Err FORBIDDEN
  else if bool_decide (jc_agent_id principal <> agent) then Err FORBIDDEN
  else Ok principal.
End service.

(** ** What authentication establishes *)

Section facts.
Context (jwt_encode : pydict string json -> string -> string -> result string)
        (jwt_decode : string -> string -> list string -> Z -> Z -> JwtOutcome)
        (int_field : json -> option Z)
        (jws_verifies : string -> string -> string -> bool).

(** What [jwt.decode] documents: a payload is only returned for a token whose signature
    verifies under the key with one of the accepted algorithms, and whose expiry, if it has
    one, is later than the leeway allows. *)
Definition decode_verifies : Prop :=
  forall token key algorithms leeway now p,
    jwt_decode token key algorithms leeway now = JwtPayload p ->
    (exists algorithm, algorithm ∈ algorithms /\ jws_verifies token key algorithm = true) /\
    (forall e, int_member int_field "exp" p = Some e -> now - leeway * SECOND < e * SECOND).

(** And it returns the payload [jwt.encode] signed, until it expires. *)
Definition decode_inverts_encode : Prop :=
  forall p key algorithm token leeway now iat exp,
    jwt_encode p key algorithm = Ok token ->
    int_member int_field "iat" p = Some iat -> int_member int_field "exp" p = Some exp ->
    iat * SECOND <= now + leeway * SECOND ->
    jwt_decode token key [algorithm] leeway now =
    if now - leeway * SECOND <? exp * SECOND then JwtPayload p else JwtExpired.

(** An integer survives its JSON text. *)
Definition int_field_reads : Prop := forall n, int_field (JNum (pretty n)) = Some n.

Lemma claims_of_dump c : int_field_reads -> claims_of_payload int_field (claims_dump c) = Some c.
Proof.
  intros Hi. destruct c as [sub agent role iat exp]. unfold claims_of_payload, int_member; simpl.
  rewrite role_of_role_value; simpl. by rewrite !Hi.
Qed.

Lemma claims_exp p c :
  claims_of_payload int_field p = Some c -> int_member int_field "exp" p = Some (jc_exp c).
Proof.
  unfold claims_of_payload. intros H. repeat (apply bind_Some in H as (? & ? & H)). by simplify_eq/=.
Qed.

(** The principal of a request presented, as a bearer token, one that verifies under the
    configured key and is not past its expiry by more than the leeway. *)
Lemma principal_verified s creds now c :
  decode_verifies -> get_current_principal jwt_decode int_field s creds now = Ok c ->
  exists h, creds = Some h /\ str_lower (hc_scheme h) = "bearer"%string /\
    jws_verifies (str_strip (hc_credentials h)) (jw_secret_key s) (jw_algorithm s) = true /\
    now < (jc_exp c + TOKEN_LEEWAY) * SECOND.
Proof.
  intros Hlaw. unfold get_current_principal. destruct creds as [h|]; [|done].
  case_bool_decide as Hs; [done|]. destruct (negb _); [done|]. intros Hv. exists h.
  split; [done|].
  split; [by destruct (decide (str_lower (hc_scheme h) = "bearer"%string))|].
  unfold verify_token in Hv.
  destruct (jwt_decode _ _ _ _ _) as [p| |] eqn:Hd; try done.
  destruct (Hlaw _ _ _ _ _ _ Hd) as [(alg & Halg & Hsig) Hexp].
  apply list_elem_of_singleton in Halg as ->. split; [done|].
  destruct (claims_of_payload int_field p) as [c'|] eqn:Hc; [|done]. simpl in Hv. simplify_eq.
  specialize (Hexp _ (claims_exp _ _ Hc)). unfold SECOND, TOKEN_LEEWAY in *. lia.
Qed.

Lemma authentication_refuses s creds now e :
  get_current_principal jwt_decode int_field s creds now = Err e -> e = UNAUTHORIZED.
Proof.
  unfold get_current_principal, verify_token. destruct creds as [h|]; [|by intros [= <-]].
  case_bool_decide; [by intros [= <-]|]. destruct (negb _); [by intros [= <-]|].
  destruct (jwt_decode _ _ _ _ _) as [p| |]; [|by intros [= <-]..].
  destruct (claims_of_payload int_field p); simpl; congruence.
Qed.

(** A token is verified by any service with the key and algorithm it was issued under. *)
Lemma issued_token_verifies s s' subject agent role now now' token :
  decode_inverts_encode -> int_field_reads -> 0 <= now <= now' ->
  jw_secret_key s' = jw_secret_key s -> jw_algorithm s' = jw_algorithm s ->
  create_token jwt_encode s subject agent role now = Ok token ->
  let c := token_claims s subject agent role now in
  verify_token jwt_decode int_field s' token now' =
  if now' <? (jc_exp c + TOKEN_LEEWAY) * SECOND then Ok c else Err ValueError.
Proof.
  intros Hinv Hint Hnow Hkey Halg Hc c. unfold create_token in Hc. fold c in Hc.
  assert (int_member int_field "iat" (claims_dump c) = Some (jc_iat c)) as Hiat by apply Hint.
  assert (int_member int_field "exp" (claims_dump c) = Some (jc_exp c)) as Hexp by apply Hint.
  assert (jc_iat c * SECOND <= now) as Hle.
  { unfold c, token_claims, timestamp_seconds, SECOND; simpl.
    pose proof (Z.quot_rem' now 1000000). pose proof (Z.rem_nonneg now 1000000). lia. }
  unfold verify_token. rewrite Hkey, Halg.
  rewrite (Hinv _ _ _ _ TOKEN_LEEWAY now' _ _ Hc Hiat Hexp) by (unfold TOKEN_LEEWAY, SECOND in *; lia).
  destruct (Z.ltb_spec (now' - TOKEN_LEEWAY * SECOND) (jc_exp c * SECOND));
    destruct (Z.ltb_spec now' ((jc_exp c + TOKEN_LEEWAY) * SECOND));
    unfold TOKEN_LEEWAY, SECOND in *; try lia; [|done].
  by rewrite claims_of_dump.
Qed.

End facts.

(** ** A concrete token library

    It signs the token of one set of claims, tagged with the key it is signed with. *)

Definition demo_key : string := "0123456789abcdef0123456789abcdef".
Definition demo_jwt : JWTService := default_jwt_service demo_key.
Definition demo_claims : JWTClaims := mkClaims "ops" "agent-1" ADMIN 1000 4600.

Definition demo_token (key : string) : string := "signed:" +:+ key.

Section library.
Context (known : JWTClaims).

Definition demo_encode (p : pydict string json) (key algorithm : string) : result string :=
  match p with
  | [(k1, JStr sub); (k2, JStr agent); (k3, JStr role); (k4, JNum iat); (k5, JNum exp)] =>
      if decide ((k1, sub, (k2, agent), (k3, role), (k4, iat), (k5, exp)) =
                 ("sub", jc_sub known, ("agent_id", jc_agent_id known), ("role", role_value (jc_role known)),
                  ("iat", pretty (jc_iat known)), ("exp", pretty (jc_exp known))))%string
      then Ok (demo_token key) else Err ValueError
  | _ => Err ValueError
  end.

Definition demo_decode (token key : string) (algorithms : list string) (leeway now : Z)
  : JwtOutcome :=
  if negb (bool_decide (token = demo_token key)) then JwtInvalid
  else match algorithms with
       | [] => JwtInvalid
       | _ => if now - leeway * SECOND <? jc_exp known * SECOND then JwtPayload (claims_dump known)
              else JwtExpired
       end.

Definition demo_verifies (token key algorithm : string) : bool :=
  bool_decide (token = demo_token key).

Definition demo_int_field (v : json) : option Z :=
  match v with
  | JNum t =>
      let '(negative, digits) := take_sign t in
      n ← digits_value dec_digit 10 0 digits;
      Some (if negative : bool then - Z.of_N n else Z.of_N n)
  | _ => None
  end.

Lemma demo_int_field_reads : int_field_reads demo_int_field.
Proof.
  intros [|q|q]; [done|..].
  - unfold demo_int_field. change (pretty (Z.pos q)) with (pretty (N.pos q)).
    rewrite take_sign_digit. cbv beta iota. by rewrite pretty_value.
  - unfold demo_int_field. change (pretty (Z.neg q)) with ("-" +:+ pretty (N.pos q)).
    change (take_sign ("-" +:+ pretty (N.pos q))) with (true, pretty (N.pos q)).
    cbv beta iota. by rewrite pretty_value.
Qed.

Lemma demo_exp : int_member demo_int_field "exp" (claims_dump known) = Some (jc_exp known).
Proof. apply demo_int_field_reads. Qed.

Lemma demo_encode_Ok p key algorithm token :
  demo_encode p key algorithm = Ok token -> p = claims_dump known /\ token = demo_token key.
Proof.
  unfold demo_encode. intros H. repeat (first [case_decide | case_match]; try done). by simplify_eq.
Qed.

Lemma demo_decode_inverts : decode_inverts_encode demo_encode demo_decode demo_int_field.
Proof.
  intros p key algorithm token leeway now iat exp [-> ->]%demo_encode_Ok Hiat Hexp _.
  unfold demo_decode. rewrite bool_decide_true by done. simpl. rewrite demo_exp in Hexp. by simplify_eq.
Qed.

Lemma demo_decode_verifies : decode_verifies demo_decode demo_int_field demo_verifies.
Proof.
  intros token key algorithms leeway now p. unfold demo_decode, demo_verifies.
  destruct (bool_decide _) eqn:Ht; [|done]. simpl. destruct algorithms as [|alg algs]; [done|].
  destruct (Z.ltb_spec (now - leeway * SECOND) (jc_exp known * SECOND)) as [Hlt|]; [|done].
  intros [= <-]. split; [exists alg; split; [by left|done]|].
  intros e He. rewrite demo_exp in He. by simplify_eq.
Qed.
End library.

