(* ===== verification/Bootstrap.v ===== *)
(** * Composing a runtime

    [services/runtime_bootstrap.py] and the constructor of [services/runtime_service.py]:
    the default agent, tools, detection rules and capability profiles, and the checks a
    runtime must pass to exist.  Bootstrapping runs over stores that may already be in use. *)

From S2P Require Import Prelude PyDict Models Lifecycle Planes Agents ToolPlane Binding Authority Paths.
From S2P Require Import Capabilities CapabilityModels Findings Risk Sessions Detection ResourceIdentity AuditTrail Runtime.
Local Open Scope Z_scope.

(** ** Defaults *)

(** The metadata of the packaged filesystem tools, written out by the tools and again by the
    bootstrap. *)
Definition filesystem_metadata (tid name description permission : string) : ToolMetadata :=
  mkToolMetadata (mkToolIdentity tid name "1.0.0" description)
    (mkToolGovernance TOOL_LOW [permission] None false)
    (mkToolCapability "filesystem" true false false false false false)
    (mkToolOperational true 30 false).
Definition file_read_metadata : ToolMetadata :=
  filesystem_metadata "file_read" "File Read" "Read files from the workspace" "files:read".
Definition directory_list_metadata : ToolMetadata :=
  filesystem_metadata "directory_list" "Directory List" "List files in the workspace" "files:list".

Definition DEFAULT_AGENT_ID : string := "agent-1".
Definition default_agent (a : string) : Agent :=
  mkAgent a "Local Agent" "security-team" TIER_HIGH ["file_read"; "directory_list"]%string STATUS_ACTIVE.

Definition IncompleteRuntimeConfigurationError : exn := OtherException "IncompleteRuntimeConfigurationError".

Section bootstrap.
Context (fs_resolve : Path -> result Path) (path_is_dir : Path -> bool) (realpath : Path -> result Path)
        (tool_workspace : BaseTool -> option string) (uuid5 : string -> string -> string).
Context {RA RE : Type} `{AdministrativeStateRepository RA} `{EnforcementStateRepository RE}.
Context {Tel : Type}.
Local Abbreviation World := (RuntimeWorld (RA:=RA) (RE:=RE) (Tel:=Tel)).

(** [FileReadTool(workspace)], [DirectoryListTool(workspace)] *)
Definition workspace_tool (md : ToolMetadata) (class workspace : string) : result BaseTool :=
  root ← fs_resolve (parse_path workspace);
  _ ← new_resolver path_is_dir realpath (path_str root);
  Ok (mkBaseTool md class).

(** ** Detection rules *)

Definition create_default_detection_registry : result (pydict string DetectionRule) :=
  match (_ ← registry_register (PromptInjectionRule uuid5);
         _ ← registry_register (SensitiveFileAccessRule uuid5);
         registry_register (DataExfiltrationRule uuid5)) [] with
  | (d, Ok _) => Ok d
  | (_, Err e) => Err e
  end.

(** ** Agent and tools *)

Definition register_default_agent (a : string) (env1 env2 : CallEnv) : Comp (AgentWorld RA RE) unit :=
  try_except (_ ← get_agent a; mret tt)
    (fun e => if decide (e = AgentNotFoundError)
              then _ ← register_and_activate_agent (default_agent a) BOOTSTRAP_ACTOR None env1 env2; mret tt
              else raise e).

Definition register_default_tool (md : ToolMetadata) : Comp ToolRepo unit := fun r =>
  if family_exists (tool_id (mkTool md)) r then (r, Ok tt)
  else (_ ← register_tool (mkTool md); mret tt) r.

Definition register_executable (md : ToolMetadata) (class implementation : string) : Comp ToolRegistry unit :=
  fun reg =>
    if exists_tool (tool_id (mkTool md)) reg then (reg, Ok tt)
    else (t ← liftR (workspace_tool md class "demo_workspace");
          _ ← register t (Some implementation); mret tt) reg.

(** [register_default_tools] over the tool service's repository and the registry. *)
Definition on_first {A B X} (m : Comp A X) : Comp (A * B) X := zoom fst (fun a p => (a, p.2)) m.
Definition on_second {A B X} (m : Comp B X) : Comp (A * B) X := zoom snd (fun b p => (p.1, b)) m.

Definition register_default_tools : Comp (ToolRepo * ToolRegistry) unit :=
  _ ← on_first (register_default_tool file_read_metadata);
  _ ← on_first (register_default_tool directory_list_metadata);
  _ ← on_second (register_executable file_read_metadata "FileReadTool" "file_read_v1");
  on_second (register_executable directory_list_metadata "DirectoryListTool" "directory_list_v1").

(** ** Capability profiles *)

Definition default_profile (tid workspace : string) : result ExecutionCapabilities :=
  fs ← filesystem_capability (fun p => r ← fs_resolve p; Ok (path_str r)) workspace (Some true) None None;
  net ← network_capability None None None None None;
  res ← resource_limits None None None None None;
  execution_capabilities ("profile-" +:+ tid) fs None (Some net) (Some res).

(** What the derivation finds for one tool; a family with several versions has no single
    workspace. *)
Definition profile_workspace (reg : ToolRegistry) (tid : string) : result (option string) :=
  match resolve tid None reg with
  | Err (ToolVersionMismatchError | AmbiguousToolVersionError) => Ok None
  | Err e => Err e
  | Ok d => Ok (t ← td_instance d; ws ← tool_workspace t; if str_nonempty ws then Some ws else None)
  end.

Fixpoint derive_profiles (reg : ToolRegistry) (tids : list string) (caps : CapabilityRegistry)
  : result CapabilityRegistry :=
  match tids with
  | [] => Ok caps
  | tid :: tids =>
      ws ← profile_workspace reg tid;
      match ws with
      | None => derive_profiles reg tids caps
      | Some ws => c ← default_profile tid ws; derive_profiles reg tids (register_profile c caps)
      end
  end.

(** [_create_default_capability_registry] *)
Definition create_default_capability_registry (reg : option ToolRegistry) : result CapabilityRegistry :=
  match reg with
  | Some reg => derive_profiles reg (elements (list_tool_ids reg)) []
  | None => Ok []
  end.

(** ** The runtime *)

(** The constructor's collaborators; the agent service is the one authorization uses. *)
Record RuntimeParts := mkRuntimeParts {
  pt_agents : option (AgentWorld RA RE);
  pt_tools : option ToolRepo;
  pt_registry : option ToolRegistry;
  pt_capabilities : option CapabilityRegistry;
  pt_sessions : SessionRepo;
  pt_findings : option FindingsService;
  pt_risk : option RiskAggregator;
  pt_authority : option ExecutionAuthority;
  pt_audit : option AuditLog;
  pt_telemetry : option Tel;
  pt_rules : list DetectionRule;
  pt_window : Z;
  pt_retention : option DetectionRetentionPolicy;
}.

(** [RuntimeService(...)]; [no_telemetry] stands for the absent emitter. *)
Definition new_runtime_service (no_telemetry : Tel) (p : RuntimeParts) : result (RuntimeConfig * World) :=
  caps ← match pt_capabilities p with
         | Some c => Ok c
         | None => create_default_capability_registry (pt_registry p)
         end;
  match pt_risk p, pt_findings p, pt_agents p, pt_audit p with
  | Some risk, Some findings, Some agents, Some audit =>
      Ok (mkRuntimeConfig (match pt_tools p with Some _ => true | None => false end)
            (match pt_telemetry p with Some _ => true | None => false end)
            (pt_rules p) (pt_window p) (pt_retention p),
          mkRuntimeWorld agents (default [] (pt_tools p)) (pt_registry p) caps (pt_sessions p)
            findings risk (pt_authority p) audit (default no_telemetry (pt_telemetry p)) None)
  | _, _, _, _ => Err IncompleteRuntimeConfigurationError
  end.

(** The stores bootstrapping writes. *)
Record PlatformStores := mkStores {
  ps_agents : AgentWorld RA RE;
  ps_tools : ToolRepo;
  ps_registry : ToolRegistry;
}.

(** What [bootstrap_runtime_service] is handed besides those stores. *)
Record BootstrapArgs := mkBootstrapArgs {
  ba_agent_id : string;
  ba_sessions : option SessionRepo;
  ba_audit : AuditLog;
  ba_detection : pydict string DetectionRule;
  ba_findings : option FindingsService;
  ba_risk : option RiskAggregator;
  ba_authority : option ExecutionAuthority;
  ba_new_authority : result ExecutionAuthority;
  ba_telemetry : option Tel;
  ba_window : Z;
  ba_retention : option DetectionRetentionPolicy;
}.

Definition on_agents {A} (m : Comp (AgentWorld RA RE) A) : Comp PlatformStores A :=
  zoom ps_agents (fun x s => mkStores x (ps_tools s) (ps_registry s)) m.
Definition on_tool_plane {A} (m : Comp (ToolRepo * ToolRegistry) A) : Comp PlatformStores A :=
  zoom (fun s => (ps_tools s, ps_registry s)) (fun x s => mkStores (ps_agents s) x.1 x.2) m.

(** The runtime over the stores as they are now. *)
Definition composed (no_telemetry : Tel) (b : BootstrapArgs) (sessions : SessionRepo) (window : Z)
  (authority : ExecutionAuthority) : Comp PlatformStores (RuntimeConfig * World) := fun s =>
  (s, new_runtime_service no_telemetry
        (mkRuntimeParts (Some (ps_agents s)) (Some (ps_tools s)) (Some (ps_registry s)) None sessions
           (ba_findings b) (Some (default (new_aggregator None) (ba_risk b))) (Some authority)
           (Some (ba_audit b)) (ba_telemetry b) (registry_rules (ba_detection b)) window
           (ba_retention b))).

Definition bootstrap_runtime_service (no_telemetry : Tel) (b : BootstrapArgs) (env1 env2 : CallEnv)
  : Comp PlatformStores (RuntimeConfig * World) :=
  _ ← on_agents (register_default_agent (ba_agent_id b) env1 env2);
  _ ← on_tool_plane register_default_tools;
  window ← liftR (new_detection_service (ba_window b));
  match ba_sessions b with
  | None => raise IncompleteRuntimeConfigurationError
  | Some sessions =>
      authority ← liftR (match ba_authority b with Some a => Ok a | None => ba_new_authority b end);
      composed no_telemetry b sessions window authority
  end.
End bootstrap.

(** ** What bootstrapping leaves alone *)

Section safety.
Context (fs_resolve : Path -> result Path) (path_is_dir : Path -> bool) (realpath : Path -> result Path)
        (tool_workspace : BaseTool -> option string).
Context {RA RE : Type} `{AdministrativeContract RA} `{EnforcementContract RE}.
Context {Tel : Type}.
Local Abbreviation W := (AgentWorld RA RE).
Local Abbreviation Stores := (PlatformStores (RA:=RA) (RE:=RE)).

(** An agent the registry knows keeps its record and both planes. *)
Definition agents_kept (w w' : W) : Prop :=
  forall b ag, agent_get b (aw_agents w) = Some ag ->
    agent_get b (aw_agents w') = Some ag /\ adm_view (aw_adm w') b = adm_view (aw_adm w) b /\
    enf_view (aw_enf w') b = enf_view (aw_enf w) b.

Lemma aw_same_kept w w' : aw_same w w' -> agents_kept w w'.
Proof. intros [E1 E2 _ E4 _ _] b ag. by rewrite E1, E2, E4. Qed.

(** The default agent was left as it is, or was unknown and is now registered, and active
    when the call succeeded. *)
Lemma default_agent_cases a env1 env2 (w w' : W) x :
  register_default_agent a env1 env2 w = (w', x) ->
  aw_same w w' /\ (x = Ok tt -> agent_get a (aw_agents w) <> None) \/
  agent_get a (aw_agents w) = None /\ agents_kept w w' /\
  agent_get a (aw_agents w') = Some (with_status STATUS_REGISTERED (default_agent a)) /\
  (x = Ok tt -> admin_state_of (adm_view (aw_adm w') a) = Some ADM_ACTIVE).
Proof.
  unfold register_default_agent, try_except, mbind, comp_bind, mret, comp_ret.
  destruct (get_agent a w) as [w1 [ag|e]] eqn:Hg; apply get_agent_cases in Hg as [-> Hag].
  { intros [= <- <-]. left. split; [done|]. intros _. destruct (Hag ag eq_refl) as (ag0 & ? & ? & Hk & _).
    by rewrite Hk. }
  case_decide; [|by intros [= <- <-]; left].
  unfold register_and_activate_agent, mbind, comp_bind, mret, comp_ret.
  destruct (register_agent _ _ _ _ w) as [w1 y] eqn:Hr.
  apply register_agent_cases in Hr as [[Hs Hn]|(-> & Hnew & Henf & Hags & s & t & _ & _ & _ & _ & _ & _ & _ & _ & Hv & _)].
  { destruct y as [ag|]; [done|]. intros [= <- <-]. by left. }
  destruct (activate_agent _ _ _ _ _ w1) as [w2 z] eqn:Ha.
  assert (agents_kept w w1) as Hk1.
  { intros b ag Hb. rewrite Hags, Hv, Henf. simpl in *. destruct (decide (b = a)) as [->|]; [|done]. congruence. }
  apply activate_agent_cases in Ha as [[Hs Hn]|(s2 & t2 & -> & Hst & Hags2 & _ & _ & Hstep)]; intros Hx; right.
  - split; [done|]. assert (w' = w2) as -> by (destruct z; congruence).
    split; [|split].
    + intros b ag Hb. destruct (Hk1 b ag Hb) as (Hb1 & <- & <-). by apply (aw_same_kept _ _ Hs).
    + rewrite (same_agents _ _ Hs), Hags. simpl. by rewrite decide_True.
    + destruct z; [done|]. intros ->. congruence.
  - injection Hx as <- <-. destruct Hstep as (He & Hv2 & _). split; [done|]. split; [|split].
    + intros b ag Hb. destruct (Hk1 b ag Hb) as (Hb1 & Hb2 & Hb3). rewrite Hags2, He, Hv2. simpl.
      destruct (decide (b = a)) as [->|]; [|done]. simpl in Hnew. congruence.
    + rewrite Hags2, Hags. simpl. by rewrite decide_True.
    + intros _. rewrite Hv2. simpl. rewrite decide_True by done. simpl. by rewrite Hst.
Qed.

(** *** The tool plane *)

Definition tools_kept (r r' : ToolRepo) : Prop := forall k t, dget k r = Some t -> dget k r' = Some t.
Definition families_kept (g g' : ToolRegistry) : Prop :=
  forall tid, exists_tool tid g = true -> dget tid g' = dget tid g.

Lemma family_exists_save t r tid :
  family_exists tid r = true \/ tool_id t = tid -> family_exists tid (toolrepo_save t r) = true.
Proof.
  rewrite family_exists_saved. intros [->|<-]; [by rewrite orb_true_r|]. by rewrite bool_decide_true.
Qed.

Lemma default_tool_kept md r r' x :
  register_default_tool md r = (r', x) ->
  tools_kept r r' /\ (forall tid, family_exists tid r = true -> family_exists tid r' = true) /\
  family_exists (tool_id (mkTool md)) r' = true.
Proof.
  unfold register_default_tool. destruct (family_exists _ r) eqn:Hf; [intros [= <- _]; split_and!; [by intros k t|done|done]|].
  unfold mbind, comp_bind, register_tool, mret, comp_ret.
  destruct (toolrepo_get _ _ r) as [t|] eqn:Hg.
  { exfalso. apply dget_elem in Hg. apply not_true_iff_false in Hf. apply Hf, family_exists_elem. eauto. }
  intros [= <- _]. split_and!.
  - intros k t Hk. unfold toolrepo_save. rewrite dget_dset_ne; [done|]. intros ->.
    unfold toolrepo_get in Hg. unfold tool_identity in Hk. congruence.
  - intros tid Ht. apply family_exists_save. by left.
  - apply family_exists_save. by right.
Qed.

Lemma executable_kept md class impl g g' x :
  register_executable fs_resolve path_is_dir realpath md class impl g = (g', x) ->
  families_kept g g' /\ (x = Ok tt -> exists_tool (tool_id (mkTool md)) g' = true) /\
  (forall tid, exists_tool tid g = true -> exists_tool tid g' = true).
Proof.
  unfold register_executable. destruct (exists_tool _ g) eqn:He; [by intros [= <- _]|].
  unfold mbind, comp_bind, liftR, mret, comp_ret, workspace_tool.
  destruct (fs_resolve _) as [root|e]; simpl; [|by intros [= <- <-]].
  destruct (new_resolver _ _ _) as [q|e]; simpl; [|by intros [= <- <-]].
  unfold register, mbind, comp_bind, liftR, mret, comp_ret.
  destruct (validate_tool_metadata _); [|by intros [= <- <-]].
  unfold store_descriptor, td_tool_id, td_version. simpl.
  set (tid := ti_tool_id (tm_identity md)) in *.
  assert (family_versions tid (dsetdefault tid [] g) = []) as ->.
  { change (exists_tool tid g = false) in He. unfold family_versions. rewrite dget_dsetdefault. simpl.
    unfold exists_tool in He. by destruct (dget tid g) as [[]|]. }
  simpl. intros [= <- _]. set (d := ToolPlane.mkDescriptor _ _ _ _ _ _ _).
  assert (forall t, t <> tid -> dget t (dset tid [(ti_version (tm_identity md), d)] (dsetdefault tid [] g)) = dget t g) as Hne.
  { intros t Ht. by rewrite dget_dset_ne, dget_dsetdefault_ne. }
  split_and!.
  - intros t Ht. apply Hne. intros ->. unfold tool_id in He. simpl in He. fold tid in He. congruence.
  - intros _. unfold exists_tool, tool_id. simpl. fold tid. by rewrite dget_dset_eq.
  - intros t Ht. unfold exists_tool. rewrite Hne; [done|]. intros ->. unfold tool_id in He. simpl in He.
    fold tid in He. congruence.
Qed.

(** *** Profiles *)

(** What a derived profile permits: reading its workspace, nothing else. *)
Definition confined_profile (c : ExecutionCapabilities) : Prop :=
  fc_read_only (cap_filesystem c) = true /\ fc_allow_temp_writes (cap_filesystem c) = false /\
  cap_environment c = [] /\ cap_network c = default_network /\ cap_resources c = default_limits.

Lemma default_profile_confined tid ws c : default_profile fs_resolve tid ws = Ok c -> confined_profile c.
Proof.
  unfold default_profile, filesystem_capability. destruct (negb (str_nonempty ws)); [done|].
  destruct (validate_workspace_root _ ws) as [root|]; [|done]. simpl.
  unfold execution_capabilities. destruct (negb _); [done|]. by intros [= <-].
Qed.

Lemma derived_profiles_confined reg tids caps caps' :
  (forall p c, dget p caps = Some c -> confined_profile c) ->
  derive_profiles fs_resolve tool_workspace reg tids caps = Ok caps' ->
  forall p c, dget p caps' = Some c -> confined_profile c.
Proof.
  revert caps. induction tids as [|tid tids IH]; intros caps Hc; simpl; [by intros [= <-]|].
  destruct (profile_workspace _ reg tid) as [[ws|]|]; simpl; [|by apply IH|done].
  destruct (default_profile fs_resolve tid ws) as [c|] eqn:Hp; simpl; [|done]. apply IH.
  intros p c' Hg. unfold register_profile in Hg. rewrite dget_dset in Hg.
  case_decide; [|by eapply Hc]. injection Hg as <-. by eapply default_profile_confined.
Qed.

(** *** Bootstrapping *)

Definition stores_kept (s s' : Stores) : Prop :=
  agents_kept (ps_agents s) (ps_agents s') /\ tools_kept (ps_tools s) (ps_tools s') /\
  families_kept (ps_registry s) (ps_registry s').

(** Everything the defaults need is there. *)
Definition defaults_present (a : string) (s : Stores) : Prop :=
  agent_get a (aw_agents (ps_agents s)) <> None /\
  family_exists "file_read" (ps_tools s) = true /\ family_exists "directory_list" (ps_tools s) = true /\
  exists_tool "file_read" (ps_registry s) = true /\ exists_tool "directory_list" (ps_registry s) = true.

Lemma tools_kept_refl r : tools_kept r r.
Proof. by intros k t. Qed.
Lemma tools_kept_trans r1 r2 r3 : tools_kept r1 r2 -> tools_kept r2 r3 -> tools_kept r1 r3.
Proof. unfold tools_kept. eauto. Qed.
Lemma families_kept_refl g : families_kept g g.
Proof. by intros t. Qed.

Lemma default_tools_cases r g r' g' x :
  register_default_tools fs_resolve path_is_dir realpath (r, g) = ((r', g'), x) ->
  tools_kept r r' /\ families_kept g g' /\
  (x = Ok tt -> family_exists "file_read" r' = true /\ family_exists "directory_list" r' = true /\
     exists_tool "file_read" g' = true /\ exists_tool "directory_list" g' = true).
Proof.
  unfold register_default_tools, mbind, comp_bind, on_first, on_second, zoom. simpl.
  destruct (register_default_tool file_read_metadata r) as [r1 x1] eqn:H1'.
  apply default_tool_kept in H1' as (K1 & _ & F1).
  destruct x1 as [[]|e]; simpl; [|intros [= <- <- <-]; by split; [|split; [apply families_kept_refl|]]].
  destruct (register_default_tool directory_list_metadata r1) as [r2 x2] eqn:H2'.
  apply default_tool_kept in H2' as (K2 & G2 & F2). pose proof (tools_kept_trans _ _ _ K1 K2) as K.
  destruct x2 as [[]|e]; simpl; [|intros [= <- <- <-]; by split; [|split; [apply families_kept_refl|]]]. simpl.
  destruct (register_executable _ _ _ file_read_metadata _ _ g) as [g1 x3] eqn:H3'.
  apply executable_kept in H3' as (K3 & E3 & M3).
  destruct x3 as [[]|e]; simpl; [|by intros [= <- <- <-]]. simpl.
  destruct (register_executable _ _ _ directory_list_metadata _ _ g1) as [g2 x4] eqn:H4'.
  apply executable_kept in H4' as (K4 & E4 & M4). intros [= <- <- <-]. split; [done|]. split.
  - intros t Ht. rewrite (K4 t) by (by apply M3). by apply K3.
  - intros ->. split_and!; [by apply G2|done|by apply M4, E3|by apply E4].
Qed.

Lemma default_tools_again r g :
  family_exists "file_read" r = true -> family_exists "directory_list" r = true ->
  exists_tool "file_read" g = true -> exists_tool "directory_list" g = true ->
  register_default_tools fs_resolve path_is_dir realpath (r, g) = ((r, g), Ok tt).
Proof.
  intros F1 F2 E1 E2.
  assert (forall md, family_exists (tool_id (mkTool md)) r = true -> register_default_tool md r = (r, Ok tt)) as HT.
  { intros md Hf. unfold register_default_tool. by rewrite Hf. }
  assert (forall md class impl, exists_tool (tool_id (mkTool md)) g = true ->
    register_executable fs_resolve path_is_dir realpath md class impl g = (g, Ok tt)) as HE.
  { intros md class impl He. unfold register_executable. by rewrite He. }
  unfold register_default_tools, mbind, comp_bind, on_first, on_second, zoom. simpl.
  rewrite (HT file_read_metadata) by done. simpl. rewrite (HT directory_list_metadata) by done. simpl.
  rewrite (HE file_read_metadata) by done. simpl. by rewrite (HE directory_list_metadata).
Qed.

Local Abbreviation bootstrap :=
  (bootstrap_runtime_service (RA:=RA) (RE:=RE) (Tel:=Tel) fs_resolve path_is_dir realpath tool_workspace).

(** The stores after the defaults, and what was composed over them. *)
Lemma bootstrap_cases no_tel b env1 env2 (s s' : Stores) x :
  bootstrap no_tel b env1 env2 s = (s', x) ->
  exists ags y, register_default_agent (ba_agent_id b) env1 env2 (ps_agents s) = (ags, y) /\
  ((exists e, y = Err e /\ x = Err e /\ s' = mkStores ags (ps_tools s) (ps_registry s)) \/
   y = Ok tt /\ exists r g z, register_default_tools fs_resolve path_is_dir realpath
       (ps_tools s, ps_registry s) = ((r, g), z) /\ s' = mkStores ags r g /\
     forall cfg w, x = Ok (cfg, w) -> z = Ok tt /\
       exists sessions window authority, ba_sessions b = Some sessions /\
         (forall a, ba_authority b = Some a -> authority = a) /\
         composed fs_resolve tool_workspace no_tel b sessions window authority s' = (s', Ok (cfg, w))).
Proof.
  unfold bootstrap_runtime_service, mbind, comp_bind, on_agents, zoom. intros Hb.
  destruct (register_default_agent _ env1 env2 (ps_agents s)) as [ags y] eqn:Ha. exists ags, y.
  split; [done|]. destruct y as [[]|e]; [right|left; exists e; injection Hb as <- <-; by split_and!].
  split; [done|]. unfold on_tool_plane, zoom in Hb. simpl in Hb.
  destruct (register_default_tools _ _ _ _) as [[r g] z] eqn:Ht. simpl in Hb.
  exists r, g, z. split; [done|].
  destruct z as [[]|e]; [|by injection Hb as <- <-].
  unfold liftR in Hb. destruct (new_detection_service _) as [window|]; [|by injection Hb as <- <-].
  destruct (ba_sessions b) as [sessions|]; [|by injection Hb as <- <-].
  destruct (ba_authority b) as [a|] eqn:Hau.
  - injection Hb as <- <-. split; [done|]. intros cfg w Hx. split; [done|]. exists sessions, window, a.
    split; [done|]. split; [by intros ? [= ->]|]. exact (f_equal (pair _) Hx).
  - destruct (ba_new_authority b) as [a|]; [|by injection Hb as <- <-]. injection Hb as <- <-.
    split; [done|]. intros cfg w Hx. split; [done|]. exists sessions, window, a.
    split; [done|]. split; [done|]. exact (f_equal (pair _) Hx).
Qed.

(** C15. Bootstrapping never loosens a control.  Whatever stores it runs over and however it
    ends: an agent the registry knows keeps its record and the state of both lifecycle
    planes (so a suspended or disabled default agent is not revived), and no tool version or
    executable already there is replaced.  When it yields a runtime, that runtime works on
    those very stores, with governance and with the authority it was given; a default agent
    that was unknown is ACTIVE; every capability profile only reads its workspace, without
    network or environment; and bootstrapping once more changes nothing. *)
Theorem bootstrap_never_loosens no_tel b env1 env2 (s s' : Stores) x :
  bootstrap_runtime_service fs_resolve path_is_dir realpath tool_workspace (no_tel : Tel) b env1 env2 s
    = (s', x) ->
  stores_kept s s' /\
  (agent_get (ba_agent_id b) (aw_agents (ps_agents s)) <> None -> aw_same (ps_agents s) (ps_agents s')) /\
  forall cfg w, x = Ok (cfg, w) ->
    rw_agents w = ps_agents s' /\ rw_tools w = ps_tools s' /\ rw_registry w = Some (ps_registry s') /\
    rc_has_tool_service cfg = true /\ (forall a, ba_authority b = Some a -> rw_authority w = Some a) /\
    (agent_get (ba_agent_id b) (aw_agents (ps_agents s)) = None ->
       admin_state_of (adm_view (aw_adm (ps_agents s')) (ba_agent_id b)) = Some ADM_ACTIVE) /\
    (forall p c, dget p (rw_capabilities w) = Some c -> confined_profile c) /\
    forall b' env1' env2' s'' y, ba_agent_id b' = ba_agent_id b ->
      bootstrap no_tel b' env1' env2' s' = (s'', y) ->
      aw_same (ps_agents s') (ps_agents s'') /\ ps_tools s'' = ps_tools s' /\
      ps_registry s'' = ps_registry s'.
Proof.
  intros Hb. apply bootstrap_cases in Hb as (ags & y & Ha & Hcase). apply default_agent_cases in Ha.
  assert (agents_kept (ps_agents s) ags /\
          (agent_get (ba_agent_id b) (aw_agents (ps_agents s)) <> None -> aw_same (ps_agents s) ags)) as [Hk Hs].
  { destruct Ha as [[Hs _]|(Hn & Hk & _)]; [by split; [apply aw_same_kept|]|done]. }
  destruct Hcase as [(e & -> & -> & ->)|(-> & r & g & z & Ht & -> & Hx)].
  { split; [by split_and!; [|apply tools_kept_refl|apply families_kept_refl]|]. by split. }
  apply default_tools_cases in Ht as (Kt & Kf & Hz). split; [done|]. split; [done|].
  intros cfg w ->. destruct (Hx cfg w eq_refl) as (-> & sessions & window & authority & _ & Hau & Hc).
  destruct (Hz eq_refl) as (F1 & F2 & E1 & E2).
  unfold composed, new_runtime_service in Hc. simpl in Hc.
  destruct (derive_profiles _ _ g _ []) as [caps|] eqn:Hcaps; [|done]. simpl in Hc.
  destruct (ba_findings b); [|done]. injection Hc as <- <-. simpl. split_and!; try done.
  - intros a Hba. by rewrite (Hau a Hba).
  - intros Hn. destruct Ha as [[_ Ha]|(_ & _ & _ & Ha)]; [by destruct (Ha eq_refl)|by apply Ha].
  - by eapply derived_profiles_confined; [|exact Hcaps].
  - intros b' env1' env2' s'' y Hid Hb2.
    apply bootstrap_cases in Hb2 as (ags2 & y2 & Ha2 & Hcase). rewrite Hid in Ha2. simpl in *.
    assert (aw_same ags ags2) as Hsame.
    { apply default_agent_cases in Ha2 as [[? _]|(Hn & _)]; [done|].
      destruct Ha as [[Hsm Ha]|(_ & _ & Ha & _)]; [|congruence].
      destruct (Ha eq_refl). by rewrite <-(same_agents _ _ Hsm). }
    destruct Hcase as [(e & _ & _ & ->)|(_ & r2 & g2 & z2 & Ht2 & -> & _)]; [done|].
    rewrite default_tools_again in Ht2 by done. by injection Ht2 as <- <- <-.
Qed.
End safety.

(** ** Witness: a fresh platform *)

Definition demo_tool_workspace (t : BaseTool) : option string := Some "/srv/demo_workspace"%string.
Definition demo_resolve (p : Path) : result Path := Ok (path_div (parse_path "/srv") p).
Definition any_dir (p : Path) : bool := true.
Definition fresh_stores : PlatformStores :=
  mkStores empty_world [] ([] : ToolRegistry).
Definition demo_authority : ExecutionAuthority := mkAuthority "key" "authority-1" 1000 [] [] [].
Definition demo_uuid (n m : string) : string := n +:+ ":" +:+ m.
Definition demo_args : BootstrapArgs (Tel := unit) :=
  mkBootstrapArgs DEFAULT_AGENT_ID (Some empty_session_repo) []
    (match create_default_detection_registry demo_uuid with Ok d => d | Err _ => [] end)
    (Some empty_findings) None (Some demo_authority) (Err ValueError) None DEFAULT_EXCESSIVE_DENIALS_WINDOW
    (Some (mkRetention DEFAULT_EXCESSIVE_DENIALS_WINDOW 0)).
Definition demo_bootstrap :=
  bootstrap_runtime_service demo_resolve any_dir demo_resolve demo_tool_workspace tt demo_args
    (env_at 1 "u1") (env_at 2 "u2") fresh_stores.

Lemma demo_bootstrap_ok : exists cfg w, demo_bootstrap = (demo_bootstrap.1, Ok (cfg, w)).
Proof.
  destruct demo_bootstrap as [s [[cfg w]|e]] eqn:Hd; [by exists cfg, w|].
  exfalso. apply (f_equal (fun p => is_ok p.2)) in Hd. vm_compute in Hd. discriminate Hd.
Qed.

Lemma bootstrap_never_loosens_witness :
  exists cfg w, demo_bootstrap.2 = Ok (cfg, w) /\
    admin_state_of (ar_states (aw_adm (rw_agents w)) !! DEFAULT_AGENT_ID) = Some ADM_ACTIVE /\
    (forall p c, dget p (rw_capabilities w) = Some c -> confined_profile c).
Proof.
  destruct demo_bootstrap_ok as (cfg & w & Hd). exists cfg, w.
  pose proof (bootstrap_never_loosens demo_resolve any_dir demo_resolve demo_tool_workspace tt demo_args
    (env_at 1 "u1") (env_at 2 "u2") fresh_stores demo_bootstrap.1 (Ok (cfg, w)) Hd) as (_ & _ & H).
  destruct (H cfg w eq_refl) as (Hag & _ & _ & _ & _ & Hact & Hconf & _).
  split; [by rewrite Hd|]. split; [|exact Hconf]. rewrite Hag. exact (Hact eq_refl).
Defined.
