(* ===== verification/Scenarios.v ===== *)
(** * Attack scenarios

    [models/attack_scenario.py], [services/attack_scenario_service.py] and
    [registry/scenario_registry.py]: the static assets, how they are loaded, and the registry
    that serves them. *)

From S2P Require Import Prelude PyDict Models Findings AuditTrail.
Local Open Scope Z_scope.

(** ** Scenarios *)

Inductive ScenarioCategory :=
| SC_BENIGN | SC_PROMPT_INJECTION | SC_DATA_EXFILTRATION | SC_TOOL_ABUSE | SC_PRIVILEGE_ESCALATION
| SC_CROSS_AGENT_TRUST | SC_DENIAL_OF_WALLET | SC_RUNTIME_REPLAY | SC_AUTHORIZATION
| SC_SENSITIVE_DATA | SC_PROVIDER_FAILURE | SC_SESSION_BEHAVIOR | SC_WORKFLOW_SECURITY.

#[global] Instance ScenarioCategory_eq_dec : EqDecision ScenarioCategory.
Proof. solve_decision. Defined.

Definition category_value (c : ScenarioCategory) : string :=
  match c with
  | SC_BENIGN => "BENIGN" | SC_PROMPT_INJECTION => "PROMPT_INJECTION"
  | SC_DATA_EXFILTRATION => "DATA_EXFILTRATION" | SC_TOOL_ABUSE => "TOOL_ABUSE"
  | SC_PRIVILEGE_ESCALATION => "PRIVILEGE_ESCALATION" | SC_CROSS_AGENT_TRUST => "CROSS_AGENT_TRUST"
  | SC_DENIAL_OF_WALLET => "DENIAL_OF_WALLET" | SC_RUNTIME_REPLAY => "RUNTIME_REPLAY"
  | SC_AUTHORIZATION => "AUTHORIZATION" | SC_SENSITIVE_DATA => "SENSITIVE_DATA"
  | SC_PROVIDER_FAILURE => "PROVIDER_FAILURE" | SC_SESSION_BEHAVIOR => "SESSION_BEHAVIOR"
  | SC_WORKFLOW_SECURITY => "WORKFLOW_SECURITY"
  end.

(** Reserved metadata, interpreted by nothing. *)
Record WorkflowMetadata := mkWorkflow {
  wf_planning_steps : list string;
  wf_expected_tool_chain : list string;
  wf_expected_risk_progression : list string;
  wf_expected_detections : list string;
}.

Record AttackScenario := mkScenario {
  sc_scenario_id : string;
  sc_scenario_version : string;
  sc_schema_version : string;
  sc_name : string;
  sc_description : string;
  sc_category : ScenarioCategory;
  sc_severity : Severity;
  sc_enabled : bool;
  sc_user_prompt : string;
  sc_expected_tool_id : option string;
  sc_expected_detection : option string;
  sc_expected_risk : RiskLevel;
  sc_expected_response : ResponseType;
  sc_tags : list string;
  sc_references : list string;
  sc_tool_sequence : list string;
  sc_expected_findings : list string;
  sc_workflow_metadata : option WorkflowMetadata;
}.

(** pydantic's [ValidationError]. *)
Definition ScenarioValidationError : exn := OtherException "ValidationError".

Definition new_scenario (s : AttackScenario) : result AttackScenario :=
  if str_nonempty (sc_scenario_id s) && str_nonempty (sc_name s) then Ok s else Err ScenarioValidationError.

(** ** ScenarioRegistry *)

Abbreviation ScenarioRegistry := (pydict string AttackScenario).

Definition ScenarioAlreadyExistsError : exn := OtherException "ScenarioAlreadyExistsError".
Definition ScenarioNotFoundError : exn := OtherException "ScenarioNotFoundError".

Definition register_scenario (s : AttackScenario) : Comp ScenarioRegistry AttackScenario := fun r =>
  if dhas (sc_scenario_id s) r then (r, Err ScenarioAlreadyExistsError)
  else (dset (sc_scenario_id s) s r, Ok s).

(** [ScenarioRegistry(scenarios)] *)
Fixpoint register_scenarios (l : list AttackScenario) : Comp ScenarioRegistry unit :=
  match l with [] => mret tt | s :: l => _ ← register_scenario s; register_scenarios l end.
Definition new_scenario_registry (l : list AttackScenario) : result ScenarioRegistry :=
  match register_scenarios l [] with (r, Ok _) => Ok r | (_, Err e) => Err e end.

Definition get_scenario (sid : string) (r : ScenarioRegistry) : result AttackScenario :=
  of_option ScenarioNotFoundError (dget sid r).

(** [[self._scenarios[k] for k in sorted(self._scenarios)]] *)
Definition list_scenarios (r : ScenarioRegistry) : list AttackScenario :=
  omap (fun k => dget k r) (sort_by str_leb (dkeys r)).
Definition list_by_category (c : ScenarioCategory) (r : ScenarioRegistry) : list AttackScenario :=
  List.filter (fun s => bool_decide (sc_category s = c)) (list_scenarios r).

(** ** AttackScenarioService

    What the YAML parser makes of a file: nothing, a list whose entries are mappings or not,
    or something else.  Reading, parsing and the model's validation are parameters. *)

Section loading.
Context {Raw : Type}.

Inductive YamlDocument := YNone | YList (entries : list (option Raw)) | YOther.

Inductive ScenarioPath := SPDirectory (yaml yml : list string) | SPFile (f : string) | SPMissing.

Context (read_text : string -> result string) (safe_load : string -> result YamlDocument)
        (model_validate : Raw -> result AttackScenario).

Definition ScenarioLoadError : exn := OtherException "ScenarioLoadError".
Definition YAMLError : exn := OtherException "YAMLError".

(** The files of a directory, in order. *)
Definition target_files (p : ScenarioPath) : result (list string) :=
  match p with
  | SPDirectory yaml yml => Ok (sort_by str_leb (yaml ++ yml))
  | SPFile f => Ok [f]
  | SPMissing => Err ScenarioLoadError
  end.

Definition load_document (f : string) : result YamlDocument :=
  match (content ← read_text f; safe_load content) with
  | Err e => if is_os_error e || bool_decide (e = YAMLError) then Err ScenarioLoadError else Err e
  | Ok d => Ok d
  end.

Definition load_entry (acc : list AttackScenario) (raw : option Raw) : result (list AttackScenario) :=
  match raw with
  | None => Err ScenarioLoadError
  | Some raw =>
      match model_validate raw with
      | Err e => if bool_decide (e = ScenarioValidationError) then Err ScenarioLoadError else Err e
      | Ok s =>
          if bool_decide (str_lower (sc_scenario_id s) ∈ (fun s => str_lower (sc_scenario_id s)) <$> acc)
          then Err ScenarioLoadError else Ok (acc ++ [s])
      end
  end.

Fixpoint load_entries (acc : list AttackScenario) (l : list (option Raw)) : result (list AttackScenario) :=
  match l with [] => Ok acc | raw :: l => acc ← load_entry acc raw; load_entries acc l end.

Definition load_file (acc : list AttackScenario) (f : string) : result (list AttackScenario) :=
  d ← load_document f;
  match d with
  | YNone => Ok acc
  | YOther => Err ScenarioLoadError
  | YList entries => load_entries acc entries
  end.

Fixpoint load_files (acc : list AttackScenario) (fs : list string) : result (list AttackScenario) :=
  match fs with [] => Ok acc | f :: fs => acc ← load_file acc f; load_files acc fs end.

Definition scenario_leb (s t : AttackScenario) : bool := str_leb (sc_scenario_id s) (sc_scenario_id t).

Definition load_scenarios (p : ScenarioPath) : result (list AttackScenario) :=
  fs ← target_files p; l ← load_files [] fs; Ok (sort_by scenario_leb l).
Definition load_registry (p : ScenarioPath) : result ScenarioRegistry :=
  l ← load_scenarios p; new_scenario_registry l.
Definition load_by_category (c : ScenarioCategory) (p : ScenarioPath) : result (list AttackScenario) :=
  l ← load_scenarios p; Ok (List.filter (fun s => bool_decide (sc_category s = c)) l).

(** *** The registry holds what was loaded *)

Lemma load_entry_distinct acc raw acc' :
  NoDup (sc_scenario_id <$> acc) -> load_entry acc raw = Ok acc' -> NoDup (sc_scenario_id <$> acc').
Proof.
  intros Hn. unfold load_entry. destruct raw as [raw|]; [|done].
  destruct (model_validate raw) as [s|e]; [|by case_bool_decide].
  case_bool_decide as Hin; [done|]. intros [= <-]. rewrite fmap_app. apply NoDup_app. split_and!; [done| |].
  - intros x Hx Hs. apply list_elem_of_singleton in Hs as ->. apply Hin.
    apply list_elem_of_fmap in Hx as (t & Heq & Ht). apply list_elem_of_fmap. exists t. by rewrite Heq.
  - apply NoDup_singleton.
Qed.

Lemma load_files_distinct fs acc l :
  NoDup (sc_scenario_id <$> acc) -> load_files acc fs = Ok l -> NoDup (sc_scenario_id <$> l).
Proof.
  revert acc. induction fs as [|f fs IH]; intros acc Hn; simpl; [by intros [= <-]|].
  destruct (load_file acc f) as [acc1|] eqn:Hf; simpl; [|done]. apply IH. revert Hf. unfold load_file.
  destruct (load_document f) as [[|entries|]|]; simpl; try done; [by intros [= <-]|].
  revert acc Hn. induction entries as [|raw entries IHe]; intros acc Hn; simpl; [by intros [= <-]|].
  destruct (load_entry acc raw) as [acc2|] eqn:He; simpl; [|done]. apply IHe. by eapply load_entry_distinct.
Qed.

Definition own_keys (l : list AttackScenario) : ScenarioRegistry := (fun s => (sc_scenario_id s, s)) <$> l.

Lemma register_all l r :
  NoDup (sc_scenario_id <$> l) -> (forall s, s ∈ l -> dget (sc_scenario_id s) r = None) ->
  register_scenarios l r = (r ++ own_keys l, Ok tt).
Proof.
  revert r. induction l as [|s l IH]; intros r Hn Hr; csimpl; [by rewrite app_nil_r|].
  unfold mbind, comp_bind, register_scenario.
  assert (dget (sc_scenario_id s) r = None) as Hs by (apply Hr; by left).
  rewrite (proj2 (dhas_false _ _) Hs). csimpl in Hn. apply NoDup_cons in Hn as [Hnot Hn].
  rewrite dset_fresh by done. rewrite IH; [|done|].
  - by rewrite <-(assoc_L app).
  - intros t Ht. rewrite <-dset_fresh by done. rewrite dget_dset_ne; [apply Hr; by right|].
    intros Heq. apply Hnot. apply list_elem_of_fmap. exists t. by rewrite Heq.
Qed.

Lemma omap_own_keys (l l0 : list AttackScenario) :
  NoDup (sc_scenario_id <$> (l0 ++ l)) ->
  omap (fun k => dget k (own_keys (l0 ++ l))) (sc_scenario_id <$> l) = l.
Proof.
  revert l0. induction l as [|s l IH]; intros l0 Hn; [done|].
  assert (dget (sc_scenario_id s) (own_keys (l0 ++ s :: l)) = Some s) as Hs.
  { unfold own_keys. clear IH. induction l0 as [|t l0 IH0]; csimpl; [by rewrite decide_True|]. csimpl in Hn.
    apply NoDup_cons in Hn as [Hnot Hn]. rewrite decide_False; [by apply IH0|]. intros Heq. apply Hnot.
    rewrite fmap_app. apply elem_of_app. right. csimpl. rewrite Heq. by left. }
  csimpl. rewrite Hs. f_equal. specialize (IH (l0 ++ [s])). rewrite <-(assoc_L app) in IH. by apply IH.
Qed.

(** Whatever loads also registers, and is listed as it was loaded. *)
Lemma loaded_registry_complete p l :
  load_scenarios p = Ok l -> exists r, load_registry p = Ok r /\ list_scenarios r = l.
Proof.
  unfold load_registry. intros Hl. rewrite Hl. simpl. revert Hl. unfold load_scenarios.
  destruct (target_files p) as [fs|]; simpl; [|done].
  destruct (load_files [] fs) as [l0|] eqn:Hf; simpl; [|done]. intros [= <-].
  apply load_files_distinct in Hf; [|constructor]. set (l := sort_by scenario_leb l0).
  assert (NoDup (sc_scenario_id <$> l)) as Hn by (unfold l; by rewrite sort_by_perm).
  unfold new_scenario_registry. rewrite register_all; [|done|done]. eexists. split; [done|].
  unfold list_scenarios, dkeys. simpl.
  replace ((own_keys l).*1) with (sc_scenario_id <$> l) by (unfold own_keys; by rewrite <-list_fmap_compose).
  rewrite (sort_by_id str_leb).
  - by apply (omap_own_keys l []).
  - assert (StronglySorted (fun a b => scenario_leb a b = true) l) as Hs.
    { apply sort_by_sorted; unfold scenario_leb; intros; [apply str_leb_total|by eapply str_leb_trans]. }
    clear Hn. induction Hs as [|s l1 _ IH Hall]; csimpl; constructor; [done|].
    apply Forall_fmap. exact Hall.
Qed.
End loading.
