(* ===== verification/Telemetry.v ===== *)
(** * The telemetry dispatcher

    [telemetry/dispatcher.py]: a bounded queue that any number of threads emit into and one
    background worker drains to the subscribers.  [_running] and [_dropped_events_count] are
    touched without a lock, so a call to [emit] is several steps here, interleaved with the
    other emitters, the worker, [subscribe], [unsubscribe] and [close]; the queue's own
    methods and the blocks under [_lock] are single steps.  The parameter hash of
    [models/telemetry/behavioral_event.py] is at the end. *)
From stdpp Require Import base list strings relations.
From Stdlib Require Import ZArith Lia.
From S2P Require Import Prelude Json Binding.

Local Open Scope Z_scope.

Section Dispatcher.
Context {E H : Type} `{EqDecision H}.

(** Where a call to [emit] stands: before it reads [_running], before [put_nowait], before
    it reads the drop counter, and before it writes back the value it read plus one. *)
Inductive EmitPoint := AtCheck | AtPut | AtCountRead | AtCountWrite (read : Z).

(** Where the worker stands in [_worker_loop]. *)
Inductive WorkerPoint :=
| WNotStarted
| WLoop                                   (* about to read [_running] *)
| WCheckEmpty                             (* [_running] was false: about to read [empty()] *)
| WGet                                    (* in [get(timeout=0.05)] *)
| WSnapshot (e : E)                       (* about to copy the subscribers *)
| WDeliver (e : E) (rest : list H)        (* inside the subscriber loop *)
| WTaskDone (owed : list H) (e : E) (alive : bool)  (* in the [finally] *)
| WExited (owed : list (H * E)).

(** The object, and the history of what happened to it: the events accepted by the queue,
    those refused, the deliveries made and the snapshot each taken event was given to. *)
Record Dispatcher := mkDispatcher {
  td_max_queue_size : Z;
  td_queue : list E;
  td_unfinished : nat;
  td_subscribers : list H;
  td_dropped_events_count : Z;
  td_running : bool;
  td_worker : WorkerPoint;
  td_emitting : list (E * EmitPoint);
  td_emitted : list E;
  td_accepted : list E;
  td_refused : list E;
  td_taken : list E;
  td_calls : list (H * E);
  td_rounds : list (E * list H);
}.

(** [InMemoryTelemetryDispatcher(max_queue_size, start_worker)]. *)
Definition dispatcher_init (max_queue_size : Z) (start_worker : bool) : Dispatcher :=
  mkDispatcher max_queue_size [] 0 [] 0 true (if start_worker then WLoop else WNotStarted)
    [] [] [] [] [] [] [].

Definition queue_size (d : Dispatcher) : nat := length (td_queue d).

(** [Queue._qsize() >= maxsize] with [maxsize > 0]; any other bound is no bound. *)
Definition queue_full (d : Dispatcher) : bool :=
  (0 <? td_max_queue_size d) && (td_max_queue_size d <=? Z.of_nat (queue_size d)).

(** Replacing or ending the [i]-th call in progress. *)
Definition at_point (d : Dispatcher) (i : nat) (e : E) (p : EmitPoint) : Dispatcher :=
  mkDispatcher (td_max_queue_size d) (td_queue d) (td_unfinished d) (td_subscribers d)
    (td_dropped_events_count d) (td_running d) (td_worker d)
    (<[i := (e, p)]> (td_emitting d)) (td_emitted d) (td_accepted d) (td_refused d)
    (td_taken d) (td_calls d) (td_rounds d).

(** [emit] enters: the caller's thread is about to read [_running]. *)
Definition emit_enter (e : E) (d : Dispatcher) : Dispatcher :=
  mkDispatcher (td_max_queue_size d) (td_queue d) (td_unfinished d) (td_subscribers d)
    (td_dropped_events_count d) (td_running d) (td_worker d)
    (td_emitting d ++ [(e, AtCheck)]) (td_emitted d ++ [e]) (td_accepted d) (td_refused d)
    (td_taken d) (td_calls d) (td_rounds d).

(** [put_nowait] of an event the queue has room for, ending the call. *)
Definition emit_put (i : nat) (e : E) (d : Dispatcher) : Dispatcher :=
  mkDispatcher (td_max_queue_size d) (td_queue d ++ [e]) (S (td_unfinished d))
    (td_subscribers d) (td_dropped_events_count d) (td_running d) (td_worker d)
    (delete i (td_emitting d)) (td_emitted d) (td_accepted d ++ [e]) (td_refused d)
    (td_taken d) (td_calls d) (td_rounds d).

(** [self._dropped_events_count = read + 1], ending the call. *)
Definition emit_drop (i : nat) (e : E) (read : Z) (d : Dispatcher) : Dispatcher :=
  mkDispatcher (td_max_queue_size d) (td_queue d) (td_unfinished d) (td_subscribers d)
    (read + 1) (td_running d) (td_worker d)
    (delete i (td_emitting d)) (td_emitted d) (td_accepted d) (td_refused d ++ [e])
    (td_taken d) (td_calls d) (td_rounds d).

(** One step of the [i]-th call of [emit]. *)
Definition emit_step (i : nat) (d : Dispatcher) : option Dispatcher :=
  match td_emitting d !! i with
  | None => None
  | Some (e, AtCheck) =>
      Some (at_point d i e (if td_running d then AtPut else AtCountRead))
  | Some (e, AtPut) =>
      Some (if queue_full d then at_point d i e AtCountRead else emit_put i e d)
  | Some (e, AtCountRead) => Some (at_point d i e (AtCountWrite (td_dropped_events_count d)))
  | Some (e, AtCountWrite read) => Some (emit_drop i e read d)
  end.

Definition with_subscribers (hs : list H) (d : Dispatcher) : Dispatcher :=
  mkDispatcher (td_max_queue_size d) (td_queue d) (td_unfinished d) hs
    (td_dropped_events_count d) (td_running d) (td_worker d) (td_emitting d)
    (td_emitted d) (td_accepted d) (td_refused d) (td_taken d) (td_calls d) (td_rounds d).

Definition subscribe (h : H) (d : Dispatcher) : Dispatcher :=
  if decide (h ∈ td_subscribers d) then d else with_subscribers (td_subscribers d ++ [h]) d.

(** [list.remove]: the first occurrence. *)
Fixpoint list_remove_first (h : H) (hs : list H) : list H :=
  match hs with
  | [] => []
  | k :: ks => if decide (k = h) then ks else k :: list_remove_first h ks
  end.

Definition unsubscribe (h : H) (d : Dispatcher) : Dispatcher :=
  if decide (h ∈ td_subscribers d)
  then with_subscribers (list_remove_first h (td_subscribers d)) d else d.

(** [close] sets the flag; the joins that follow only wait. *)
Definition close (d : Dispatcher) : Dispatcher :=
  mkDispatcher (td_max_queue_size d) (td_queue d) (td_unfinished d) (td_subscribers d)
    (td_dropped_events_count d) false (td_worker d) (td_emitting d)
    (td_emitted d) (td_accepted d) (td_refused d) (td_taken d) (td_calls d) (td_rounds d).

(** What [drain] waits for: [Queue.join] returns when nothing is unfinished. *)
Definition drained (d : Dispatcher) : bool := (td_unfinished d =? 0)%nat.

(** A subscriber returns, raises an [Exception], which the worker logs, or raises a
    [BaseException], which ends the worker's thread after the [finally]. *)
Inductive HandlerOutcome := HandlerReturned | HandlerFailed | HandlerBaseException.

Definition with_worker (w : WorkerPoint) (d : Dispatcher) : Dispatcher :=
  mkDispatcher (td_max_queue_size d) (td_queue d) (td_unfinished d) (td_subscribers d)
    (td_dropped_events_count d) (td_running d) w (td_emitting d)
    (td_emitted d) (td_accepted d) (td_refused d) (td_taken d) (td_calls d) (td_rounds d).

Definition worker_get (e : E) (q : list E) (d : Dispatcher) : Dispatcher :=
  mkDispatcher (td_max_queue_size d) q (td_unfinished d) (td_subscribers d)
    (td_dropped_events_count d) (td_running d) (WSnapshot e) (td_emitting d)
    (td_emitted d) (td_accepted d) (td_refused d) (td_taken d ++ [e]) (td_calls d)
    (td_rounds d).

Definition worker_snapshot (e : E) (d : Dispatcher) : Dispatcher :=
  mkDispatcher (td_max_queue_size d) (td_queue d) (td_unfinished d) (td_subscribers d)
    (td_dropped_events_count d) (td_running d) (WDeliver e (td_subscribers d)) (td_emitting d)
    (td_emitted d) (td_accepted d) (td_refused d) (td_taken d) (td_calls d)
    (td_rounds d ++ [(e, td_subscribers d)]).

Definition worker_call (h : H) (e : E) (hs : list H) (o : HandlerOutcome) (d : Dispatcher) :
    Dispatcher :=
  mkDispatcher (td_max_queue_size d) (td_queue d) (td_unfinished d) (td_subscribers d)
    (td_dropped_events_count d) (td_running d)
    (match o with HandlerBaseException => WTaskDone hs e false | _ => WDeliver e hs end)
    (td_emitting d) (td_emitted d) (td_accepted d) (td_refused d) (td_taken d)
    (td_calls d ++ [(h, e)]) (td_rounds d).

Definition worker_task_done (w : WorkerPoint) (d : Dispatcher) : Dispatcher :=
  mkDispatcher (td_max_queue_size d) (td_queue d) (pred (td_unfinished d)) (td_subscribers d)
    (td_dropped_events_count d) (td_running d) w (td_emitting d)
    (td_emitted d) (td_accepted d) (td_refused d) (td_taken d) (td_calls d) (td_rounds d).

(** One step of [_worker_loop]; the outcome is that of the subscriber called, if any. *)
Definition worker_step (o : HandlerOutcome) (d : Dispatcher) : option Dispatcher :=
  match td_worker d with
  | WNotStarted | WExited _ => None
  | WLoop => Some (with_worker (if td_running d then WGet else WCheckEmpty) d)
  | WCheckEmpty =>
      Some (with_worker (match td_queue d with [] => WExited [] | _ => WGet end) d)
  | WGet =>
      match td_queue d with
      | [] => Some (with_worker WLoop d)
      | e :: q => Some (worker_get e q d)
      end
  | WSnapshot e => Some (worker_snapshot e d)
  | WDeliver e [] => Some (with_worker (WTaskDone [] e true) d)
  | WDeliver e (h :: hs) => Some (worker_call h e hs o d)
  | WTaskDone owed e alive =>
      Some (worker_task_done
              (if alive then WLoop else WExited (List.map (fun h => (h, e)) owed)) d)
  end.

(** The interleavings: every action any thread can take next. *)
Inductive Action :=
| AEmit (e : E)
| AEmitStep (i : nat)
| AWorker (o : HandlerOutcome)
| ASubscribe (h : H)
| AUnsubscribe (h : H)
| AClose.

Definition act (a : Action) (d : Dispatcher) : option Dispatcher :=
  match a with
  | AEmit e => Some (emit_enter e d)
  | AEmitStep i => emit_step i d
  | AWorker o => worker_step o d
  | ASubscribe h => Some (subscribe h d)
  | AUnsubscribe h => Some (unsubscribe h d)
  | AClose => Some (close d)
  end.

Fixpoint act_all (l : list Action) (d : Dispatcher) : option Dispatcher :=
  match l with
  | [] => Some d
  | a :: l' => match act a d with Some d' => act_all l' d' | None => None end
  end.

Inductive dstep (d d' : Dispatcher) : Prop :=
| dstep_act a : act a d = Some d' -> dstep d d'.

Lemma act_all_rtc l d d' : act_all l d = Some d' -> rtc dstep d d'.
Proof.
  revert d. induction l as [|a l IH]; intros d; simpl; [by intros [= ->]|].
  destruct (act a d) as [d1|] eqn:Ha; [|done].
  intros Hl. eapply rtc_l; [by econstructor|eauto].
Qed.

(** ** What every interleaving preserves *)

(** The event the worker holds between [get] and [task_done]. *)
Definition in_flight (w : WorkerPoint) : list E :=
  match w with
  | WSnapshot e | WDeliver e _ | WTaskDone _ e _ => [e]
  | _ => []
  end.

(** The event taken whose subscribers have not been copied yet. *)
Definition unsnapped (w : WorkerPoint) : list E :=
  match w with WSnapshot e => [e] | _ => [] end.

(** The calls of the current snapshot that have not been made. *)
Definition owed_calls (w : WorkerPoint) : list (H * E) :=
  match w with
  | WDeliver e hs => List.map (fun h => (h, e)) hs
  | WTaskDone hs e _ => List.map (fun h => (h, e)) hs
  | WExited cs => cs
  | _ => []
  end.

Definition round_calls (r : E * list H) : list (H * E) := List.map (fun h => (h, r.1)) r.2.

(** Nothing is owed for a turn that ended normally. *)
Definition turn_settled (w : WorkerPoint) : Prop :=
  match w with WTaskDone hs _ true => hs = [] | _ => True end.

Record Conserved (d : Dispatcher) : Prop := {
  cv_emitted : td_emitted d ≡ₚ td_accepted d ++ td_refused d ++ (td_emitting d).*1;
  cv_fifo : td_accepted d = td_taken d ++ td_queue d;
  cv_unfinished : td_unfinished d = (queue_size d + length (in_flight (td_worker d)))%nat;
  cv_bound : 0 < td_max_queue_size d -> Z.of_nat (queue_size d) <= td_max_queue_size d;
  cv_rounds : td_taken d = (td_rounds d).*1 ++ unsnapped (td_worker d);
  cv_calls : td_calls d ++ owed_calls (td_worker d) = concat (round_calls <$> td_rounds d);
  cv_settled : turn_settled (td_worker d);
  cv_subs : NoDup (td_subscribers d);
  cv_snaps : Forall (fun r => NoDup r.2) (td_rounds d);
  cv_count : 0 <= td_dropped_events_count d <= Z.of_nat (length (td_refused d));
  cv_reads : Forall (fun p => match p.2 with
                              | AtCountWrite v => 0 <= v <= Z.of_nat (length (td_refused d))
                              | _ => True end) (td_emitting d);
}.

Lemma init_conserved m s : Conserved (dispatcher_init m s).
Proof. split; destruct s; simpl; try done; try constructor; unfold queue_size; simpl; lia. Qed.

Lemma list_remove_first_sublist h hs : list_remove_first h hs `sublist_of` hs.
Proof. induction hs as [|k ks IH]; simpl; [done|]. case_decide; [by constructor|by constructor]. Qed.

Lemma emitting_split (l : list (E * EmitPoint)) i e p :
  l !! i = Some (e, p) -> l.*1 ≡ₚ e :: (delete i l).*1.
Proof.
  intros Hi. rewrite delete_take_drop, <- (take_drop_middle l i (e, p)) at 1 by done.
  rewrite !fmap_app; simpl. by rewrite Permutation_middle.
Qed.

Lemma emitting_kept (l : list (E * EmitPoint)) i e p q :
  l !! i = Some (e, p) -> (<[i := (e, q)]> l).*1 = l.*1.
Proof.
  intros Hi. rewrite list_fmap_insert; simpl. apply list_insert_id.
  by rewrite list_lookup_fmap, Hi.
Qed.

Lemma settled_delete i (l : list (E * EmitPoint)) (P : E * EmitPoint -> Prop) :
  Forall P l -> Forall P (delete i l).
Proof. apply Forall_delete. Qed.

Lemma emit_step_conserved i d d' : emit_step i d = Some d' -> Conserved d -> Conserved d'.
Proof.
  intros Hs HC. unfold emit_step in Hs.
  destruct (td_emitting d !! i) as [[e p]|] eqn:Hi; [|done].
  pose proof (emitting_split _ _ _ _ Hi) as Hsplit. destruct HC.
  pose proof (Forall_lookup_1 _ _ _ _ cv_reads0 Hi) as Hp; simpl in Hp.
  destruct p as [| | |v].
  1, 3: injection Hs as <-; split; simpl; try done; [by rewrite (emitting_kept _ _ _ _ _ Hi)|];
    apply Forall_insert; [done|]; simpl; destruct (td_running d); simpl; first [done|lia].
  - destruct (queue_full d) eqn:Hf; injection Hs as <-.
    + split; simpl; try done; [by rewrite (emitting_kept _ _ _ _ _ Hi)|].
      by apply Forall_insert.
    + unfold queue_full, queue_size in *.
      split; simpl; try done; unfold queue_size; simpl; rewrite ?length_app; simpl.
      * rewrite cv_emitted0, Hsplit. solve_Permutation.
      * by rewrite cv_fifo0, app_assoc.
      * lia.
      * apply andb_false_iff in Hf. intros ?. destruct Hf as [Hf|Hf]; lia.
      * by apply Forall_delete.
  - injection Hs as <-. split; simpl; try done; rewrite ?length_app; simpl.
    + rewrite cv_emitted0, Hsplit. solve_Permutation.
    + lia.
    + apply Forall_delete. eapply Forall_impl; [exact cv_reads0|].
      intros [? []]; simpl; try done. lia.
Qed.

Lemma worker_step_conserved o d d' : worker_step o d = Some d' -> Conserved d -> Conserved d'.
Proof.
  intros Hs HC. destruct HC.
  destruct d as [m q u hs n r w em E0 A0 R0 T0 C0 S0]; simpl in *.
  unfold worker_step, queue_size in *; simpl in *.
  destruct w as [| | | |e|e [|h rest]|owed e alive|]; simpl in *; try done.
  - injection Hs as <-. destruct r; split; simpl; done.
  - injection Hs as <-. destruct q; split; simpl; done.
  - destruct q as [|e q]; injection Hs as <-; split; simpl; try done.
    + by rewrite cv_fifo0, <- app_assoc.
    + unfold queue_size; simpl in *; lia.
    + unfold queue_size; simpl in *; lia.
    + by rewrite cv_rounds0, app_nil_r.
  - injection Hs as <-. split; simpl; try done.
    + by rewrite cv_rounds0, fmap_app, app_nil_r.
    + rewrite fmap_app, concat_app; simpl. rewrite app_nil_r in *. by rewrite cv_calls0.
    + apply Forall_app; split; [done|by repeat constructor].
  - injection Hs as <-. by split.
  - injection Hs as <-. destruct o; split; simpl; try done; rewrite <- app_assoc; done.
  - injection Hs as <-. destruct alive; split; simpl; try done; unfold queue_size; simpl; try lia.
    by subst.
Qed.

Lemma act_conserved a d d' : act a d = Some d' -> Conserved d -> Conserved d'.
Proof.
  destruct a as [e|i|o|h|h|]; simpl.
  - intros [= <-] []. split; simpl; try done.
    + rewrite fmap_app; simpl. rewrite cv_emitted0. solve_Permutation.
    + apply Forall_app; split; [done|by repeat constructor].
  - apply emit_step_conserved.
  - apply worker_step_conserved.
  - intros [= <-] HC. unfold subscribe. case_decide; [done|].
    destruct HC; split; simpl; try done. apply NoDup_app; split_and!; try done.
    + set_solver.
    + apply NoDup_singleton.
  - intros [= <-] HC. unfold unsubscribe. case_decide; [|done].
    destruct HC; split; simpl; try done.
    eapply sublist_NoDup; [done|]. apply list_remove_first_sublist.
  - intros [= <-] []; by split.
Qed.

Lemma reachable_conserved m s d : rtc dstep (dispatcher_init m s) d -> Conserved d.
Proof.
  assert (forall d0, rtc dstep d0 d -> Conserved d0 -> Conserved d) as Hind.
  { induction 1 as [|? ? ? [a Ha] _ IH]; [done|]. eauto using act_conserved. }
  intros Hr. eapply Hind; [done|]. apply init_conserved.
Qed.

Lemma act_keeps_bound a d d' : act a d = Some d' -> td_max_queue_size d' = td_max_queue_size d.
Proof.
  destruct a; simpl.
  - by intros [= <-].
  - unfold emit_step. destruct (_ !! _) as [[e []]|]; try done;
      intros [= <-]; try case_match; done.
  - unfold worker_step. repeat case_match; by try intros [= <-].
  - intros [= <-]. unfold subscribe. by case_decide.
  - intros [= <-]. unfold unsubscribe. by case_decide.
  - by intros [= <-].
Qed.

Lemma reachable_keeps_bound d d' : rtc dstep d d' -> td_max_queue_size d' = td_max_queue_size d.
Proof. induction 1 as [|? ? ? [a Ha] _ IH]; [done|]. rewrite IH. by eapply act_keeps_bound. Qed.

(** The events one subscriber was called with, oldest first. *)
Definition heard (h : H) (calls : list (H * E)) : list E :=
  snd <$> filter (fun c => c.1 = h) calls.

Lemma heard_app h c1 c2 : heard h (c1 ++ c2) = heard h c1 ++ heard h c2.
Proof. unfold heard. by rewrite filter_app, fmap_app. Qed.

Lemma heard_cons h k e cs :
  heard h ((k, e) :: cs) = (if decide (k = h) then [e] else []) ++ heard h cs.
Proof. unfold heard. rewrite filter_cons; simpl. by case_decide. Qed.

Lemma heard_stranger h e hs : h ∉ hs -> heard h (List.map (fun k => (k, e)) hs) = [].
Proof.
  induction hs as [|k hs IH]; [done|]. intros [Hk ?]%not_elem_of_cons. cbn [List.map].
  rewrite heard_cons, decide_False by congruence. by apply IH.
Qed.

Lemma heard_round h r : NoDup r.2 -> heard h (round_calls r) `sublist_of` [r.1].
Proof.
  destruct r as [e hs]; unfold round_calls; cbn [fst snd].
  induction hs as [|k hs IH]; intros Hnd; [by apply sublist_nil_l|].
  apply NoDup_cons in Hnd as [Hk Hnd]. cbn [List.map]. rewrite heard_cons. case_decide; subst.
  - by rewrite heard_stranger.
  - by apply IH.
Qed.

Lemma heard_rounds h rounds :
  Forall (fun r => NoDup r.2) rounds ->
  heard h (concat (round_calls <$> rounds)) `sublist_of` rounds.*1.
Proof.
  induction 1 as [|r rounds Hr _ IH]; [done|].
  rewrite !fmap_cons. cbn [concat]. rewrite heard_app.
  change (r.1 :: rounds.*1) with ([r.1] ++ rounds.*1).
  by apply sublist_app; [apply heard_round|].
Qed.

Lemma delete_insert_same {X} (l : list X) i x : delete i (<[i := x]> l) = delete i l.
Proof. revert i. induction l as [|y l IH]; intros [|i]; simpl; try done. by f_equal. Qed.

(** The steps a call to [emit] still has, at most. *)
Definition emit_left (p : EmitPoint) : nat :=
  match p with AtCheck => 4 | AtPut => 3 | AtCountRead => 2 | AtCountWrite _ => 1 end.

Lemma emit_step_progress i d e p :
  td_emitting d !! i = Some (e, p) ->
  exists d', emit_step i d = Some d' /\
    (td_emitting d' = delete i (td_emitting d) \/
     exists q, td_emitting d' = <[i := (e, q)]> (td_emitting d) /\
               (emit_left q < emit_left p)%nat).
Proof.
  intros Hi. unfold emit_step. rewrite Hi.
  destruct p as [| | |v]; [destruct (td_running d)|destruct (queue_full d)| |];
    eexists; (split; [done|]); simpl; first [by left|right; eexists; split; [done|simpl; lia]].
Qed.

(** A call to [emit] left to run by itself ends within four of its own steps: it waits for
    nothing. *)
Lemma emit_returns i d e p :
  td_emitting d !! i = Some (e, p) ->
  exists n d', (n <= 4)%nat /\ act_all (replicate n (AEmitStep i)) d = Some d' /\
               td_emitting d' = delete i (td_emitting d).
Proof.
  intros Hi. cut (exists n d', (n <= emit_left p)%nat /\
    act_all (replicate n (AEmitStep i)) d = Some d' /\
    td_emitting d' = delete i (td_emitting d)).
  { intros (n & d' & Hn & Hd). exists n, d'. split; [|done]. destruct p; simpl in Hn; lia. }
  remember (emit_left p) as k eqn:Hk. revert d p Hi Hk.
  induction k as [k IH] using lt_wf_ind; intros d p Hi ->.
  destruct (emit_step_progress _ _ _ _ Hi) as (d1 & Hs & [Hd|(q & Hd & Hlt)]).
  - exists 1%nat, d1. cbn [replicate act_all act]. rewrite Hs. split_and!; [destruct p; simpl; lia|done..].
  - destruct (IH _ Hlt d1 q) as (n & d' & Hn & Hrun & He); [|done|].
    { rewrite Hd. apply list_lookup_insert_eq. by eapply lookup_lt_Some. }
    exists (S n), d'. cbn [replicate act_all act]. rewrite Hs.
    split_and!; [lia|done|]. by rewrite He, Hd, delete_insert_same.
Qed.

(** ** After [close] *)

(** The worker's thread still runs its loop. *)
Definition worker_alive (w : WorkerPoint) : bool :=
  match w with WNotStarted | WExited _ | WTaskDone _ _ false => false | _ => true end.

(** An upper bound on the worker's remaining steps once the flag is down and nobody emits or
    subscribes: [K] steps for every queued event, and the rest of the current turn. *)
Definition worker_left (d : Dispatcher) : nat :=
  let K := (length (td_subscribers d) + 6)%nat in
  let n := (queue_size d * K)%nat in
  match td_worker d with
  | WNotStarted | WExited _ => 0
  | WCheckEmpty => 1 + n
  | WLoop => 2 + n
  | WGet => match td_queue d with [] => 3 | _ => n end
  | WTaskDone _ _ _ => 3 + n
  | WDeliver _ rest => length rest + 4 + n
  | WSnapshot _ => length (td_subscribers d) + 5 + n
  end.

Lemma closing_step o d :
  td_running d = false -> worker_alive (td_worker d) = true -> o <> HandlerBaseException ->
  exists d', worker_step o d = Some d' /\ td_running d' = false /\
    td_accepted d' = td_accepted d /\ td_emitting d' = td_emitting d /\
    (worker_left d' < worker_left d)%nat /\
    (worker_alive (td_worker d') = true \/ td_worker d' = WExited [] /\ td_queue d' = []).
Proof.
  destruct d as [m q u hs n r w em E0 A0 R0 T0 C0 S0]; simpl. intros -> Hw Ho.
  destruct w as [| | | |e|e [|h rest]|owed e [|]|]; try done;
    unfold worker_step, worker_left, queue_size; simpl;
    try (destruct q as [|e' q]); try (destruct o; [| |done]);
    eexists; (split; [reflexivity|]); simpl; rewrite ?length_map;
    (split_and!; [done..|lia|by auto]).
Qed.

Lemma closing_drains os d :
  td_running d = false -> worker_alive (td_worker d) = true ->
  Forall (fun o => o <> HandlerBaseException) os -> (worker_left d <= length os)%nat ->
  exists n d', (n <= length os)%nat /\ act_all (AWorker <$> take n os) d = Some d' /\
    td_worker d' = WExited [] /\ td_queue d' = [] /\ td_accepted d' = td_accepted d.
Proof.
  revert d. induction os as [|o os IH]; intros d Hr Hw Hos Hlen.
  - exfalso. simpl in Hlen.
    destruct (closing_step HandlerReturned d Hr Hw) as (d' & _ & _ & _ & _ & Hl & _); [done|lia].
  - apply Forall_cons in Hos as [Ho Hos].
    destruct (closing_step o d Hr Hw Ho) as (d1 & Hs & Hr1 & Ha1 & _ & Hl & Hcase).
    destruct Hcase as [Hw1|[Hx Hq]].
    + destruct (IH d1 Hr1 Hw1 Hos) as (n & d' & Hn & Hrun & Hx & Hq & Ha); [simpl in Hlen; lia|].
      exists (S n), d'. simpl. rewrite Hs. split_and!; [lia|done|done|done|congruence].
    + exists 1%nat, d1. simpl. rewrite Hs. split_and!; [lia|done..].
Qed.

End Dispatcher.

Arguments EmitPoint : clear implicits.
Arguments WorkerPoint : clear implicits.
Arguments Dispatcher : clear implicits.
Arguments Action : clear implicits.

(** [DEFAULT_QUEUE_MAXSIZE] *)
Definition DEFAULT_QUEUE_MAXSIZE : Z := 10000.

(** ** The parameter hash *)

(** [compute_parameter_hash], over the JSON members of the parameters. *)
Definition compute_parameter_hash (sha256_hex : string -> string)
    (parameters : option (list (string * json))) : option string :=
  match parameters with
  | None => None
  | Some members => Some (sha256_hex (dumps_ascii (JObj members)))
  end.

Lemma assoc_unique {K V} (l : list (K * V)) k v v' :
  NoDup l.*1 -> (k, v) ∈ l -> (k, v') ∈ l -> v = v'.
Proof.
  induction l as [|[j w] l IH]; [by intros _ ?%elem_of_nil|].
  intros [Hj Hnd]%NoDup_cons. rewrite !elem_of_cons. intros [?|Hv] [?|Hv']; simplify_eq; try done.
  - destruct Hj. apply list_elem_of_fmap. by exists (j, v').
  - destruct Hj. apply list_elem_of_fmap. by exists (j, v).
  - by apply IH.
Qed.

Lemma sort_by_key_perm {A} (l1 l2 : list (string * A)) :
  NoDup l1.*1 -> l1 ≡ₚ l2 -> sort_by key_leb l1 = sort_by key_leb l2.
Proof.
  intros Hnd Hp. apply (StronglySorted_unique_strong (fun a b => key_leb a b = true)).
  - intros [k v] [k' v']. rewrite !sort_by_elem, <- Hp. unfold key_leb; simpl.
    intros H1 H2 Hl1 Hl2. assert (k = k') as <- by by apply str_leb_antisym.
    f_equal. by eapply assoc_unique.
  - apply sort_by_sorted; unfold key_leb; [intros; apply str_leb_total|].
    intros ? ? ?. apply str_leb_trans.
  - apply sort_by_sorted; unfold key_leb; [intros; apply str_leb_total|].
    intros ? ? ?. apply str_leb_trans.
  - by rewrite !sort_by_perm.
Qed.

(** The order of the parameters does not reach the hash. *)
Lemma hash_order_insensitive sha m1 m2 :
  NoDup m1.*1 -> m1 ≡ₚ m2 ->
  compute_parameter_hash sha (Some m1) = compute_parameter_hash sha (Some m2).
Proof.
  intros Hnd Hp. unfold compute_parameter_hash, dumps_ascii; cbn [dumps_with].
  do 5 f_equal. f_equal. apply sort_by_key_perm.
  - enough (forall l : list (string * json),
      (List.map (fun '(k, v) => (k, dumps_with json_str_ascii v)) l).*1 = l.*1) as ->; [done|].
    induction l as [|[k v] l IH]; [done|]. simpl. by f_equal.
  - by apply Permutation_map.
Qed.

(** ** What the dispatcher promises *)


(** After [close], as long as nobody emits or subscribes and no subscriber raises a
    [BaseException], the worker drains the queue and stops: however its subscribers answer,
    within [worker_left] of its steps it has exited with an empty queue, every accepted event
    was given to the subscribers registered when its turn came, and no call is owed. *)
Theorem closed_dispatcher_drains {E H} `{EqDecision H} m start (d : Dispatcher E H) os :
  rtc dstep (dispatcher_init m start) d ->
  td_running d = false -> worker_alive (td_worker d) = true ->
  Forall (fun o => o <> HandlerBaseException) os -> (worker_left d <= length os)%nat ->
  exists n d', (n <= length os)%nat /\ act_all (AWorker <$> take n os) d = Some d' /\
    td_worker d' = WExited [] /\ drained d' = true /\
    (td_rounds d').*1 = td_accepted d /\
    td_calls d' = concat (round_calls <$> td_rounds d').
Proof.
  intros Hr Hrun Hw Hos Hlen.
  destruct (closing_drains os d Hrun Hw Hos Hlen) as (n & d' & Hn & Hacts & Hx & Hq & Ha).
  exists n, d'. assert (Conserved d') as [].
  { eapply (reachable_conserved m start). etrans; [done|]. by eapply act_all_rtc. }
  rewrite Hx, Hq in *; simpl in *. rewrite ?app_nil_r in *.
  unfold drained, queue_size in *. rewrite Hq in *. simpl in *.
  split_and!; try done; try congruence. by rewrite cv_unfinished0.
Qed.

(** ** On concrete interleavings *)

(** Two emitters fill a queue of one; the worker serves two subscribers, the second of which
    fails. *)
Definition busy_actions : list (Action nat nat) :=
  [ASubscribe 1; ASubscribe 2; ASubscribe 1; AEmit 10; AEmitStep 0; AEmitStep 0;
   AEmit 11; AEmitStep 0; AEmitStep 0; AEmitStep 0; AEmitStep 0;
   AWorker HandlerReturned; AWorker HandlerReturned; AWorker HandlerReturned;
   AWorker HandlerReturned; AWorker HandlerFailed; AUnsubscribe 2;
   AEmit 12; AEmitStep 0; AEmitStep 0]%nat.

Lemma busy_dispatcher_runs : exists d,
  act_all busy_actions (dispatcher_init 1 true) = Some d /\
  td_calls d = [(1, 10); (2, 10)]%nat /\ td_queue d = [12]%nat /\ td_refused d = [11]%nat /\
  td_dropped_events_count d = 1.
Proof. eexists. split; [vm_compute; reflexivity|]. split_and!; vm_compute; reflexivity. Qed.


(** The same, closed with one event still queued. *)
Definition closing_actions : list (Action nat nat) := busy_actions ++ [AClose].

Lemma closed_dispatcher_reached : exists d,
  act_all closing_actions (dispatcher_init 1 true) = Some d /\ td_running d = false /\
  worker_alive (td_worker d) = true /\ worker_left d = 11%nat /\ length (td_queue d) = 1%nat.
Proof. eexists. split; [vm_compute; reflexivity|]. split_and!; vm_compute; reflexivity. Qed.

Lemma closed_dispatcher_drains_witness :
  exists d n d', act_all closing_actions (dispatcher_init 1 true) = Some d /\
    act_all (AWorker <$> take n (replicate 11 HandlerReturned)) d = Some d' /\
    (td_rounds d').*1 = td_accepted d.
Proof.
  destruct closed_dispatcher_reached as (d & Hd & Hrun & Hw & Hl & _).
  assert (Forall (fun o => o <> HandlerBaseException) (replicate 11 HandlerReturned)) as Hos
    by by repeat constructor.
  assert (worker_left d <= length (replicate 11 HandlerReturned))%nat as Hlen
    by (rewrite Hl; simpl; lia).
  destruct (closed_dispatcher_drains 1 true d (replicate 11 HandlerReturned)
              (act_all_rtc _ _ _ Hd) Hrun Hw Hos Hlen)
    as (n & d' & _ & Hacts & _ & _ & Hrounds & _).
  exists d, n, d'. split; [exact Hd|]. split; [exact Hacts|exact Hrounds].
Defined.

(** The counter can miss a refusal: two callers that read it before either writes. *)
Lemma drop_counter_loses_updates : exists d : Dispatcher nat nat,
  act_all [AClose; AEmit 1; AEmit 2; AEmitStep 0; AEmitStep 1; AEmitStep 0; AEmitStep 1;
           AEmitStep 0; AEmitStep 0]%nat (dispatcher_init 1 true) = Some d /\
  length (td_refused d) = 2%nat /\ td_dropped_events_count d = 1.
Proof. eexists. split; [vm_compute; reflexivity|]. by vm_compute. Qed.

(** A caller that read [_running] before [close] may enqueue after the worker exited: the
    event is then neither delivered nor counted, whatever the worker could still do. *)
Lemma event_stranded_by_close : exists d : Dispatcher nat nat,
  act_all ([AEmit 1; AEmitStep 0; AClose]%nat ++ replicate 2 (AWorker HandlerReturned) ++
           [AEmitStep 0]) (dispatcher_init 1 true) = Some d /\
  td_queue d = [1]%nat /\ drained d = false /\ td_dropped_events_count d = 0 /\
  forall o, act (AWorker o) d = None.
Proof. eexists. split; [vm_compute; reflexivity|]. split_and!; try by vm_compute. Qed.
