(* ===== verification/SqlStore.v ===== *)
(** * Durable storage (repositories/sql/session.py)

    The transactional boundary the SQL adapters share.  The database engine is a parameter:
    given the tables before a transaction and the tables its body leaves, it accepts them
    or refuses with an exception (a constraint, a lost connection).  Whatever it refuses is
    rolled back, and so is a body that raises.

    Enumerations are stored by value; a value outside the enumeration is a [ValueError]
    when the row is read. *)

From S2P Require Import Prelude PyDict Models Sessions.
Local Open Scope Z_scope.

Section transaction.
Context {DB : Type} (engine : DB -> DB -> option exn).

Definition transactional_session {A} (body : Comp DB A) : Comp DB A := fun db =>
  match body db with
  | (db', Ok a) =>
      match engine db db' with
      | None => (db', Ok a)
      | Some e => (db, Err e)
      end
  | (_, Err e) => (db, Err e)
  end.

(** What the engine answers to the transaction. *)
Definition engine_refusal {A} (body : Comp DB A) (db : DB) : option exn :=
  match body db with
  | (db', Ok _) => engine db db'
  | (_, Err _) => None
  end.

Lemma transaction_refused {A} (body : Comp DB A) db e :
  engine_refusal body db = Some e -> transactional_session body db = (db, Err e).
Proof.
  unfold engine_refusal, transactional_session. destruct (body db) as [db' [a|e']]; [|done].
  by intros ->.
Qed.

Lemma transaction_accepted {A} (body : Comp DB A) db :
  engine_refusal body db = None ->
  transactional_session body db =
    match body db with (db', Ok a) => (db', Ok a) | (_, Err e) => (db, Err e) end.
Proof.
  unfold engine_refusal, transactional_session. destruct (body db) as [db' [a|e']]; [|done].
  by intros ->.
Qed.

(** A transaction that raises has changed nothing. *)
Lemma transaction_atomic {A} (body : Comp DB A) db db' e :
  transactional_session body db = (db', Err e) -> db' = db.
Proof.
  unfold transactional_session. destruct (body db) as [db1 [a|e1]]; [|by intros [= <- _]].
  destruct (engine db db1); [|done]. by intros [= <- _].
Qed.

(** What the adapter makes of a transaction's value, it makes outside the transaction. *)
Definition answered {A B} (f : A -> B) (body : Comp DB A) : Comp DB B := a ← body; mret (f a).

Lemma transaction_answered {A B} (f : A -> B) (body : Comp DB A) db :
  answered f (transactional_session body) db = transactional_session (answered f body) db.
Proof.
  unfold answered, transactional_session, mbind, comp_bind, mret, comp_ret.
  destruct (body db) as [db' [a|e]]; simpl; [|done]. by destruct (engine db db').
Qed.
End transaction.

Definition IntegrityError : exn := OtherException "IntegrityError".

(** ** Rows and the values they decode to *)

Lemma Forall2_filter_agree {A B} (R : A -> B -> Prop) (p : A -> bool) (q : B -> bool) l k :
  Forall2 R l k -> (forall x y, R x y -> p x = q y) ->
  Forall2 R (List.filter p l) (List.filter q k).
Proof.
  intros H Hpq. induction H as [|x y l k Hxy _ IH]; simpl; [constructor|].
  rewrite (Hpq x y Hxy). destruct (q y); [by constructor|done].
Qed.

Lemma Forall2_sort_agree {A B} (R : A -> B -> Prop) (f : A -> A -> bool) (g : B -> B -> bool) l k :
  Forall2 R l k -> (forall x y x' y', R x y -> R x' y' -> f x x' = g y y') ->
  Forall2 R (sort_by f l) (sort_by g k).
Proof.
  intros H Hfg. unfold sort_by. induction H as [|x y l k Hxy _ IH]; simpl; [constructor|].
  revert IH. generalize (foldr (insert_by f) [] l) (foldr (insert_by g) [] k). intros l' k' H.
  induction H as [|x' y' l' k' Hxy' Hl IH]; simpl; [by repeat constructor|].
  rewrite (Hfg x y x' y') by done. destruct (g y y'); by repeat constructor.
Qed.

(** ** Histories with an unreliable engine

    A durable adapter [sql_call] beside an in-memory one [mem_call].  [refusal] is what the
    engine answers to the call's transaction; a call draws what it needs from its
    environment. *)

Section history.
Context {Mem DB Call Env Ans : Type}.
Context (mem_call : Call -> Comp Mem Ans) (sql_call : Call -> Env -> Comp DB Ans)
        (refusal : Call -> Env -> DB -> option exn).

(** The history on the durable adapter, with the engine's refusals. *)
Fixpoint sql_trace (l : list (Call * Env)) (db : DB) : DB * list (option exn * result Ans) :=
  match l with
  | [] => (db, [])
  | (c, env) :: l =>
      let refused := refusal c env db in
      let '(db, x) := sql_call c env db in
      let '(db, xs) := sql_trace l db in (db, (refused, x) :: xs)
  end.

(** The history on the in-memory adapter, without the calls the engine refused. *)
Fixpoint mem_trace (l : list (Call * option exn)) (m : Mem) : Mem * list (option (result Ans)) :=
  match l with
  | [] => (m, [])
  | (c, Some _) :: l => let '(m, ys) := mem_trace l m in (m, None :: ys)
  | (c, None) :: l =>
      let '(m, y) := mem_call c m in
      let '(m, ys) := mem_trace l m in (m, Some y :: ys)
  end.

(** The calls of a history with what the engine answered to each. *)
Definition annotated (l : list (Call * Env)) (xs : list (option exn * result Ans))
  : list (Call * option exn) := zip (fst <$> l) (fst <$> xs).

Context (call_ok : Call -> Mem -> Prop) (agree : result Ans -> result Ans -> Prop)
        (refines : DB -> Mem -> Prop) (mem_inv : Mem -> Prop).

(** The calls are well formed at the stores they reach. *)
Fixpoint calls_ok (l : list (Call * option exn)) (m : Mem) : Prop :=
  match l with
  | [] => True
  | (c, Some _) :: l => call_ok c m /\ calls_ok l m
  | (c, None) :: l => call_ok c m /\ calls_ok l (mem_call c m).1
  end.

(** Both histories' answers: a refused call raised, the others agree. *)
Definition outcomes_agree (x : option exn * result Ans) (y : option (result Ans)) : Prop :=
  match y with
  | None => is_Some x.1 /\ is_ok x.2 = false
  | Some y => agree x.2 y
  end.

Context (call_refused : forall c env db m e, call_ok c m -> refusal c env db = Some e ->
  exists e', sql_call c env db = (db, Err e')).
Context (call_accepted : forall c env db m, refines db m -> mem_inv m -> call_ok c m ->
  refusal c env db = None ->
  agree (sql_call c env db).2 (mem_call c m).2 /\ refines (sql_call c env db).1 (mem_call c m).1).
Context (call_inv : forall c m, mem_inv m -> call_ok c m -> mem_inv (mem_call c m).1).

(** An adapter whose calls agree one by one refines the other over every history. *)
Lemma history_refines l db m :
  refines db m -> mem_inv m ->
  let '(db', xs) := sql_trace l db in
  calls_ok (annotated l xs) m ->
  let '(m', ys) := mem_trace (annotated l xs) m in
  refines db' m' /\ mem_inv m' /\ Forall2 outcomes_agree xs ys.
Proof.
  revert db m. induction l as [|[c env] l IH]; intros db m Hr Hi; [intros _; by split_and!|].
  cbn [sql_trace]. destruct (refusal c env db) as [e|] eqn:Hrf.
  - destruct (sql_call c env db) as [db1 x] eqn:Hc.
    specialize (IH db1). destruct (sql_trace l db1) as [db' xs] eqn:Htr.
    cbn. intros [Hok Hoks]. destruct (call_refused c env db m e Hok Hrf) as [e' He'].
    rewrite Hc in He'. injection He' as -> ->. specialize (IH m Hr Hi Hoks). unfold annotated in IH.
    destruct (mem_trace _ m) as [m' ys]. destruct IH as (? & ? & ?). split_and!; [done|done|].
    constructor; [|done]. split; [by eexists|done].
  - destruct (sql_call c env db) as [db1 x] eqn:Hc.
    specialize (IH db1). destruct (sql_trace l db1) as [db' xs] eqn:Htr.
    cbn. intros [Hok Hoks]. pose proof (call_accepted c env db m Hr Hi Hok Hrf) as Hs.
    pose proof (call_inv c m Hi Hok) as Hi1. rewrite Hc in Hs.
    destruct (mem_call c m) as [m1 y]. destruct Hs as [Hxy Hr1]. specialize (IH m1 Hr1 Hi1 Hoks).
    unfold annotated in IH. destruct (mem_trace _ m1) as [m' ys]. destruct IH as (? & ? & ?).
    split_and!; [done|done|]. by constructor.
Qed.
End history.

(** The same for an adapter each of whose calls is one transaction. *)
Section transactional_history.
Context {Mem DB Call Env Ans : Type} (engine : DB -> DB -> option exn).
Context (mem_call : Call -> Comp Mem Ans) (sql_call body : Call -> Env -> Comp DB Ans).
Context (call_ok : Call -> Mem -> Prop) (agree : result Ans -> result Ans -> Prop)
        (refines : DB -> Mem -> Prop) (mem_inv : Mem -> Prop).
Context (sql_call_transaction : forall c env db,
           sql_call c env db = transactional_session engine (body c env) db).
Context (body_raises : forall c env db db' e, body c env db = (db', Err e) -> db' = db).
Context (body_agrees : forall c env db m, refines db m -> mem_inv m -> call_ok c m ->
  agree (body c env db).2 (mem_call c m).2 /\ refines (body c env db).1 (mem_call c m).1).
Context (call_inv : forall c m, mem_inv m -> call_ok c m -> mem_inv (mem_call c m).1).

Lemma transactional_history_refines l db m :
  refines db m -> mem_inv m ->
  let '(db', xs) := sql_trace sql_call (fun c env => engine_refusal engine (body c env)) l db in
  calls_ok mem_call call_ok (annotated l xs) m ->
  let '(m', ys) := mem_trace mem_call (annotated l xs) m in
  refines db' m' /\ mem_inv m' /\ Forall2 (outcomes_agree agree) xs ys.
Proof.
  apply history_refines; [| |exact call_inv].
  - intros c env db0 m0 e _ He. rewrite sql_call_transaction, (transaction_refused _ _ _ _ He). by eexists.
  - intros c env db0 m0 Hr Hi Hc Hn. rewrite sql_call_transaction, (transaction_accepted _ _ _ Hn).
    pose proof (body_agrees c env db0 m0 Hr Hi Hc) as Hb.
    destruct (body c env db0) as [db' [a|e]] eqn:Hbody; [done|]. by apply body_raises in Hbody as ->.
Qed.
End transactional_history.

(** ** Enumerations stored by value *)

Class StoredEnum (A : Type) := {
  enum_value : A -> string;
  enum_of : string -> result A;
  enum_of_value : forall a, enum_of (enum_value a) = Ok a;
  enum_of_error : forall s e, enum_of s = Err e -> e = ValueError;
}.

(** [E(text)] over the members of an enumeration. *)
Fixpoint find_member {A} (value : A -> string) (members : list A) (s : string) : result A :=
  match members with
  | [] => Err ValueError
  | a :: l => if bool_decide (value a = s) then Ok a else find_member value l s
  end.

Lemma find_member_error {A} (value : A -> string) l s e : find_member value l s = Err e -> e = ValueError.
Proof. induction l as [|a l IH]; simpl; [by intros [= <-]|]. case_bool_decide; [done|exact IH]. Qed.

(** A nullable column holding an enumeration member. *)
Definition enum_opt_of `{StoredEnum A} (s : option string) : result (option A) :=
  match s with None => Ok None | Some s => a ← enum_of s; Ok (Some a) end.

Lemma enum_opt_of_value `{StoredEnum A} (o : option A) : enum_opt_of (enum_value <$> o) = Ok o.
Proof. destruct o as [a|]; [|done]. simpl. by rewrite enum_of_value. Qed.

(** ** Enumerations by value *)

Definition decision_value (d : Decision) : string :=
  match d with ALLOW => "ALLOW" | DENY => "DENY" | APPROVAL_REQUIRED => "APPROVAL_REQUIRED" end.
Definition decision_of (s : string) : result Decision :=
  if bool_decide (s = "ALLOW"%string) then Ok ALLOW
  else if bool_decide (s = "DENY"%string) then Ok DENY
  else if bool_decide (s = "APPROVAL_REQUIRED"%string) then Ok APPROVAL_REQUIRED
  else Err ValueError.

Lemma decision_of_value d : decision_of (decision_value d) = Ok d.
Proof. by destruct d. Qed.

Lemma decision_value_of s d : decision_of s = Ok d -> s = decision_value d.
Proof. unfold decision_of. repeat case_bool_decide; by intros [= <-]. Qed.

Definition terminal_reason_value (r : TerminalReason) : string :=
  match r with EXPLICIT_END => "EXPLICIT_END" | IDLE_TIMEOUT => "IDLE_TIMEOUT" end.
Definition terminal_reason_of (s : string) : option TerminalReason :=
  if bool_decide (s = "EXPLICIT_END"%string) then Some EXPLICIT_END
  else if bool_decide (s = "IDLE_TIMEOUT"%string) then Some IDLE_TIMEOUT
  else None.
