(* ===== verification/SqlSessions.v ===== *)
(** * The durable session repository (repositories/sql/session_repository.py)

    Rows of the tables [sessions], [agent_sequence_counters] and [session_events], and the
    adapter's operations as transactions over them.  The adapter refines the in-memory one:
    on related stores every call answers the same and leaves related stores, except where
    the engine refuses, where nothing changes. *)

From S2P Require Import Prelude PyDict Models Sessions SqlStore.
Local Open Scope Z_scope.

(** ** Tables *)

Record SessionModel := mkSessionModel {
  sm_session_id : string;
  sm_agent_id : string;
  sm_status : string;
  sm_next_session_sequence : Z;
  sm_created_at : Z;
  sm_last_activity_at : option Z;
  sm_updated_at : Z;
  sm_ended_at : option Z;
  sm_ended_reason : option string;
}.

Record AgentSequenceCounterModel := mkCounter {
  cm_current_sequence : Z;
  cm_updated_at : Z;
}.

Record SessionEventModel := mkEventModel {
  em_event_id : string;
  em_session_id : string;
  em_agent_id : string;
  em_tool_id : string;
  em_tool_version : option string;
  em_sequence_number : Z;
  em_agent_sequence : Z;
  em_decision : string;
  em_final_decision : option string;
  em_timestamp : Z;
  em_created_at : Z;
}.

(** The two keyed tables by primary key; the event table in insertion order. *)
Record SessionDb := mkSessionDb {
  db_sessions : pydict string SessionModel;
  db_counters : gmap string AgentSequenceCounterModel;
  db_events : list SessionEventModel;
}.

Definition empty_session_db : SessionDb := mkSessionDb [] ∅ [].

Definition put_row (row : SessionModel) (db : SessionDb) : SessionDb :=
  mkSessionDb (dset (sm_session_id row) row (db_sessions db)) (db_counters db) (db_events db).
Definition set_event_rows (l : list SessionEventModel) (db : SessionDb) : SessionDb :=
  mkSessionDb (db_sessions db) (db_counters db) l.

Definition ACTIVE_STATUS : string := "ACTIVE".
Definition TERMINAL_STATUS : string := "TERMINAL".

Definition is_active (row : SessionModel) : bool := bool_decide (sm_status row = ACTIVE_STATUS).
Definition is_terminal (row : SessionModel) : bool := bool_decide (sm_status row = TERMINAL_STATUS).

(** [Session(...)] of a row. *)
Definition session_of (row : SessionModel) : Session :=
  mkSession (sm_session_id row) (sm_agent_id row) (sm_created_at row)
    (default (sm_created_at row) (sm_last_activity_at row)).

Definition tombstone_of (row : SessionModel) : TerminalSessionTombstone :=
  mkTombstone (sm_session_id row) (sm_agent_id row)
    (default (sm_updated_at row) (sm_ended_at row))
    (default EXPLICIT_END (sm_ended_reason row ≫= terminal_reason_of)).

(** [Decision(r.final_decision) if r.final_decision else None] *)
Definition final_of (o : option string) : result (option Decision) :=
  match o with
  | Some s => if str_nonempty s then d ← decision_of s; mret (Some d) else Ok None
  | None => Ok None
  end.

Definition event_of (r : SessionEventModel) : result SessionEvent :=
  d ← decision_of (em_decision r);
  f ← final_of (em_final_decision r);
  mret (mkEvent (em_session_id r) (em_agent_id r) (em_tool_id r) (em_tool_version r) d
          (em_sequence_number r) (em_agent_sequence r) f (em_timestamp r)).

(** ** Operations *)

Section adapter.
Context (engine : SessionDb -> SessionDb -> option exn).

Local Abbreviation transaction := (transactional_session engine).

(** [select(SessionModel).where(SessionModel.session_id == sid)] *)
Definition session_row (sid : string) (db : SessionDb) : option SessionModel :=
  dget sid (db_sessions db).

Definition get_session_body (sid : string) : Comp SessionDb (option Session) := fun db =>
  (db, Ok (match session_row sid db with
           | Some row => if is_active row then Some (session_of row) else None
           | None => None
           end)).
Definition sql_get_session (sid : string) : Comp SessionDb (option Session) :=
  transaction (get_session_body sid).

Definition new_row (sid agent : string) (created last now : Z) : SessionModel :=
  mkSessionModel sid agent ACTIVE_STATUS 1 created (Some last) now None None.

Definition save_session_body (s : Session) (now : Z) : Comp SessionDb unit := fun db =>
  match session_row (s_session_id s) db with
  | Some row =>
      (put_row (mkSessionModel (sm_session_id row) (s_agent_id s) (sm_status row)
         (sm_next_session_sequence row) (s_started_at s) (Some (s_last_activity_at s)) now
         (sm_ended_at row) (sm_ended_reason row)) db, Ok tt)
  | None =>
      (put_row (new_row (s_session_id s) (s_agent_id s) (s_started_at s) (s_last_activity_at s) now)
         db, Ok tt)
  end.
Definition sql_save_session (s : Session) (now : Z) : Comp SessionDb unit :=
  transaction (save_session_body s now).

Definition list_sessions_body : Comp SessionDb (list Session) := fun db =>
  (db, Ok (session_of <$> List.filter is_active (dvalues (db_sessions db)))).
Definition sql_list_sessions : Comp SessionDb (list Session) := transaction list_sessions_body.

Definition create_session_body (s : Session) (now : Z) : Comp SessionDb Session := fun db =>
  match session_row (s_session_id s) db with
  | Some row =>
      if is_terminal row
      then (db, Err (SessionTerminalError (s_session_id s) (sm_agent_id row) (s_agent_id s)))
      else (db, Err SessionAlreadyExistsError)
  | None =>
      (put_row (new_row (s_session_id s) (s_agent_id s) (s_started_at s) (s_last_activity_at s) now)
         db, Ok s)
  end.
Definition sql_create_session (s : Session) (now : Z) : Comp SessionDb Session :=
  transaction (create_session_body s now).

Definition touch_row (now clock : Z) (row : SessionModel) : SessionModel :=
  mkSessionModel (sm_session_id row) (sm_agent_id row) (sm_status row)
    (sm_next_session_sequence row) (sm_created_at row) (Some now) clock (sm_ended_at row)
    (sm_ended_reason row).

(** [now] is the caller's time, [clock] the moment of the write. *)
Definition bind_body (sid agent : string) (now clock : Z) : Comp SessionDb Session := fun db =>
  match session_row sid db with
  | Some row =>
      if is_terminal row then (db, Err (SessionTerminalError sid (sm_agent_id row) agent))
      else if bool_decide (sm_agent_id row <> agent)
      then (db, Err (SessionBindingError sid (sm_agent_id row) agent))
      else (put_row (touch_row now clock row) db,
            Ok (mkSession (sm_session_id row) (sm_agent_id row) (sm_created_at row) now))
  | None => (put_row (new_row sid agent now now clock) db, Ok (mkSession sid agent now now))
  end.
Definition sql_bind_or_create_session (sid agent : string) (now clock : Z) : Comp SessionDb Session :=
  transaction (bind_body sid agent now clock).

Definition get_tombstone_body (sid : string) : Comp SessionDb (option TerminalSessionTombstone) :=
  fun db =>
  (db, Ok (match session_row sid db with
           | Some row => if is_terminal row then Some (tombstone_of row) else None
           | None => None
           end)).
Definition sql_get_tombstone (sid : string) : Comp SessionDb (option TerminalSessionTombstone) :=
  transaction (get_tombstone_body sid).

Definition terminalize_body (sid : string) (t : TerminalSessionTombstone) (clock : Z)
  : Comp SessionDb bool := fun db =>
  match session_row sid db with
  | None => (db, Ok false)
  | Some row =>
      if is_terminal row then (db, Ok false)
      else (put_row (mkSessionModel (sm_session_id row) (sm_agent_id row) TERMINAL_STATUS
              (sm_next_session_sequence row) (sm_created_at row) (sm_last_activity_at row) clock
              (Some (t_terminated_at t)) (Some (terminal_reason_value (t_terminal_reason t)))) db,
            Ok true)
  end.
Definition sql_terminalize_session (sid : string) (t : TerminalSessionTombstone) (clock : Z)
  : Comp SessionDb bool := transaction (terminalize_body sid t clock).

(** The agent's counter after this allocation. *)
Definition next_counter (agent : string) (db : SessionDb) (clock : Z) : AgentSequenceCounterModel :=
  match db_counters db !! agent with
  | None => mkCounter 1 clock
  | Some c => mkCounter (cm_current_sequence c + 1) clock
  end.

Definition event_row (e : SessionEvent) (event_id : string) (seq agent_seq clock : Z)
  : SessionEventModel :=
  mkEventModel event_id (e_session_id e) (e_agent_id e) (e_tool_id e) (e_tool_version e) seq agent_seq
    (decision_value (e_decision e)) (decision_value <$> e_final_decision e) (e_timestamp e) clock.

Definition record_body (e : SessionEvent) (event_id : string) (clock : Z)
  : Comp SessionDb SessionEventModel := fun db =>
  match session_row (e_session_id e) db with
  | None => (db, Err SessionNotFoundError)
  | Some row =>
      if is_terminal row
      then (db, Err (SessionTerminalError (e_session_id e) (sm_agent_id row) (e_agent_id e)))
      else if bool_decide (sm_agent_id row <> e_agent_id e)
      then (db, Err (SessionBindingError (e_session_id e) (sm_agent_id row) (e_agent_id e)))
      else
        let row' := mkSessionModel (sm_session_id row) (sm_agent_id row) (sm_status row)
                      (sm_next_session_sequence row + 1) (sm_created_at row) (Some (e_timestamp e))
                      clock (sm_ended_at row) (sm_ended_reason row) in
        let counter := next_counter (e_agent_id e) db clock in
        let er := event_row e event_id (sm_next_session_sequence row)
                    (cm_current_sequence counter) clock in
        let db := put_row row' db in
        (mkSessionDb (db_sessions db) (<[e_agent_id e := counter]> (db_counters db))
           (db_events db ++ [er]), Ok er)
  end.
Definition sql_record_event (e : SessionEvent) (uuid : string) (clock : Z)
  : Comp SessionDb SessionEvent := fun db =>
  if negb (e_sequence_number e =? 0) then (db, Err ValueError)
  else if negb (e_agent_sequence e =? 0) then (db, Err ValueError)
  else (er ← transaction (record_body e ("evt-" +:+ uuid) clock); liftR (event_of er)) db.

(** The [where] clauses of the horizon query. *)
Definition selected (q : HorizonQuery) (r : SessionEventModel) : bool :=
  bool_decide (em_agent_id r = q_agent_id q)
  && (q_baseline_agent_sequence q <? em_agent_sequence r)
  && (q_evaluation_time q - q_window q <=? em_timestamp r)
  && (em_timestamp r <=? q_evaluation_time q)
  && match q_scope q with
     | SCOPE_SESSION => bool_decide (Some (em_session_id r) = q_session_id q)
     | SCOPE_AGENT => true
     end.

Definition row_position (scope : AggregationScope) (r s : SessionEventModel) : bool :=
  match scope with
  | SCOPE_SESSION => em_sequence_number r <=? em_sequence_number s
  | SCOPE_AGENT => em_agent_sequence r <=? em_agent_sequence s
  end.

Definition eligible_body (q : HorizonQuery) : Comp SessionDb (list SessionEvent) := fun db =>
  (db, mapR event_of (sort_by (row_position (q_scope q)) (List.filter (selected q) (db_events db)))).
Definition sql_list_eligible_events (q : HorizonQuery) : Comp SessionDb (list SessionEvent) :=
  try_except (transaction (eligible_body q))
    (fun e => match e with
              | SessionRepositoryError | HorizonUnavailableError => raise e
              | _ => raise SessionRepositoryError
              end).

Definition history_row_leb (r s : SessionEventModel) : bool :=
  (em_timestamp r <? em_timestamp s)
  || (em_timestamp r =? em_timestamp s) && (em_sequence_number r <=? em_sequence_number s).

Definition list_events_body (sid : string) : Comp SessionDb (list SessionEvent) := fun db =>
  (db, mapR event_of (sort_by history_row_leb
         (List.filter (fun r => bool_decide (em_session_id r = sid)) (db_events db)))).
Definition sql_list_events (sid : string) : Comp SessionDb (list SessionEvent) :=
  transaction (list_events_body sid).

Definition prune_body (cutoff : Z) : Comp SessionDb Z := fun db =>
  (set_event_rows (List.filter (fun r => negb (em_timestamp r <? cutoff)) (db_events db)) db,
   Ok (count (fun r => em_timestamp r <? cutoff) (db_events db))).
Definition sql_prune_events (cutoff : Z) : Comp SessionDb Z := transaction (prune_body cutoff).

Definition current_sequence_body (agent : string) : Comp SessionDb Z := fun db =>
  (db, Ok (match db_counters db !! agent with Some c => cm_current_sequence c | None => 0 end)).
Definition sql_current_agent_sequence (agent : string) : Comp SessionDb Z :=
  transaction (current_sequence_body agent).

Definition row_at (sid : string) (n : Z) (r : SessionEventModel) : bool :=
  bool_decide (em_session_id r = sid) && (em_sequence_number r =? n).

Definition finalize_row (d : Decision) (r : SessionEventModel) : SessionEventModel :=
  mkEventModel (em_event_id r) (em_session_id r) (em_agent_id r) (em_tool_id r) (em_tool_version r)
    (em_sequence_number r) (em_agent_sequence r) (em_decision r) (Some (decision_value d))
    (em_timestamp r) (em_created_at r).

(** [scalar_one_or_none] on the event at a position. *)
Definition event_row_at (sid : string) (n : Z) (db : SessionDb) : result (option SessionEventModel) :=
  match List.filter (row_at sid n) (db_events db) with
  | [] => Ok None
  | [r] => Ok (Some r)
  | _ => Err (OtherException "MultipleResultsFound")
  end.

Definition finalize_body (sid : string) (n : Z) (d : Decision) : Comp SessionDb unit := fun db =>
  match session_row sid db with
  | None => (db, Err SessionNotFoundError)
  | Some row =>
      if is_terminal row
      then (db, Err (SessionTerminalError sid (sm_agent_id row) (sm_agent_id row)))
      else
        match event_row_at sid n db with
        | Err e => (db, Err e)
        | Ok None => (db, Err ValueError)
        | Ok (Some r) =>
            match em_final_decision r with
            | Some s =>
                match decision_of s with
                | Err e => (db, Err e)
                | Ok current => if bool_decide (current <> d) then (db, Err ValueError) else (db, Ok tt)
                end
            | None =>
                (set_event_rows ((fun s => if row_at sid n s then finalize_row d s else s)
                                   <$> db_events db) db, Ok tt)
            end
        end
  end.
Definition sql_update_event_final_decision (sid : string) (n : Z) (d : Decision) : Comp SessionDb unit :=
  transaction (finalize_body sid n d).
End adapter.

(** ** Calls, answers and histories *)

Inductive RepoCall :=
| RGetSession (sid : string)
| RListSessions
| RCreateSession (s : Session)
| RBind (sid agent : string) (now : Z)
| RGetTombstone (sid : string)
| RTerminalize (sid : string) (t : TerminalSessionTombstone)
| RRecord (e : SessionEvent)
| REligible (q : HorizonQuery)
| RListEvents (sid : string)
| RPrune (cutoff : Z)
| RCurrent (agent : string)
| RFinalize (sid : string) (n : Z) (d : Decision).

Inductive RepoAnswer :=
| AUnit | ABool (b : bool) | AInt (n : Z) | ASession (s : Session)
| AMaybeSession (s : option Session) | AMaybeTombstone (t : option TerminalSessionTombstone)
| ASessions (l : list Session) | AEvent (e : SessionEvent) | AEvents (l : list SessionEvent).

Definition answer {S A} (f : A -> RepoAnswer) (m : Comp S A) : Comp S RepoAnswer :=
  a ← m; mret (f a).
Definition pure_answer {S} (f : S -> RepoAnswer) : Comp S RepoAnswer := fun s => (s, Ok (f s)).

(** The call on the in-memory adapter. *)
Definition mem_call (c : RepoCall) : Comp SessionRepo RepoAnswer :=
  match c with
  | RGetSession sid => pure_answer (fun r => AMaybeSession (repo_get_session sid r))
  | RListSessions => pure_answer (fun r => ASessions (repo_list_sessions r))
  | RCreateSession s => answer ASession (repo_create_session s)
  | RBind sid agent now => answer ASession (repo_bind_or_create_session sid agent now)
  | RGetTombstone sid => pure_answer (fun r => AMaybeTombstone (repo_get_tombstone sid r))
  | RTerminalize sid t => fun r => let '(r, b) := repo_terminalize_session sid t r in (r, Ok (ABool b))
  | RRecord e => answer AEvent (repo_record_event e)
  | REligible q => pure_answer (fun r => AEvents (repo_list_eligible_events q r))
  | RListEvents sid => pure_answer (fun r => AEvents (repo_list_events sid r))
  | RPrune cutoff => fun r => let '(r, n) := repo_prune_events cutoff r in (r, Ok (AInt n))
  | RCurrent agent => pure_answer (fun r => AInt (repo_current_agent_sequence agent r))
  | RFinalize sid n d => answer (fun _ => AUnit) (repo_update_final_decision sid n d)
  end.

(** The body of the call's transaction on the durable adapter: what it writes depends on the
    moment [clock] and the identifier [uuid] drawn. *)
Definition sql_body (c : RepoCall) (uuid : string) (clock : Z) : Comp SessionDb RepoAnswer :=
  match c with
  | RGetSession sid => answer AMaybeSession (get_session_body sid)
  | RListSessions => answer ASessions list_sessions_body
  | RCreateSession s => answer ASession (create_session_body s clock)
  | RBind sid agent now => answer ASession (bind_body sid agent now clock)
  | RGetTombstone sid => answer AMaybeTombstone (get_tombstone_body sid)
  | RTerminalize sid t => answer ABool (terminalize_body sid t clock)
  | RRecord e => answer AEvent (er ← record_body e ("evt-" +:+ uuid) clock; liftR (event_of er))
  | REligible q => answer AEvents (eligible_body q)
  | RListEvents sid => answer AEvents (list_events_body sid)
  | RPrune cutoff => answer AInt (prune_body cutoff)
  | RCurrent agent => answer AInt (current_sequence_body agent)
  | RFinalize sid n d => answer (fun _ => AUnit) (finalize_body sid n d)
  end.

Definition sql_call (engine : SessionDb -> SessionDb -> option exn) (c : RepoCall) (uuid : string)
    (clock : Z) : Comp SessionDb RepoAnswer :=
  match c with
  | RGetSession sid => answer AMaybeSession (sql_get_session engine sid)
  | RListSessions => answer ASessions (sql_list_sessions engine)
  | RCreateSession s => answer ASession (sql_create_session engine s clock)
  | RBind sid agent now => answer ASession (sql_bind_or_create_session engine sid agent now clock)
  | RGetTombstone sid => answer AMaybeTombstone (sql_get_tombstone engine sid)
  | RTerminalize sid t => answer ABool (sql_terminalize_session engine sid t clock)
  | RRecord e => answer AEvent (sql_record_event engine e uuid clock)
  | REligible q => answer AEvents (sql_list_eligible_events engine q)
  | RListEvents sid => answer AEvents (sql_list_events engine sid)
  | RPrune cutoff => answer AInt (sql_prune_events engine cutoff)
  | RCurrent agent => answer AInt (sql_current_agent_sequence engine agent)
  | RFinalize sid n d => answer (fun _ => AUnit) (sql_update_event_final_decision engine sid n d)
  end.

(** ** The refinement relation *)

(** A row and the event it decodes to. *)
Definition decodes (r : SessionEventModel) (e : SessionEvent) : Prop := event_of r = Ok e.

Record db_refines (db : SessionDb) (m : SessionRepo) : Prop := mkRefines {
  rf_wf : dwf (db_sessions db);
  rf_key : forall sid row, session_row sid db = Some row ->
    sm_session_id row = sid /\ is_terminal row = negb (is_active row);
  rf_active : forall sid, repo_get_session sid m =
    match session_row sid db with
    | Some row => if is_active row then Some (session_of row) else None
    | None => None
    end;
  rf_tombstone : forall sid, repo_get_tombstone sid m =
    match session_row sid db with
    | Some row => if is_terminal row then Some (tombstone_of row) else None
    | None => None
    end;
  rf_next : forall sid, default 0 (sr_session_sequences m !! sid) + 1 =
    match session_row sid db with Some row => sm_next_session_sequence row | None => 1 end;
  rf_counter : forall a, default 0 (sr_agent_sequences m !! a) =
    match db_counters db !! a with Some c => cm_current_sequence c | None => 0 end;
  rf_events : Forall2 decodes (db_events db) (sr_events m);
  rf_final : forall r, r ∈ db_events db -> em_final_decision r <> Some EmptyString;
}.

Lemma empty_refines : db_refines empty_session_db empty_session_repo.
Proof.
  split; try done; [apply dwf_nil|intros r Hr; by apply elem_of_nil in Hr].
Qed.

Lemma session_row_put sid row db :
  session_row sid (put_row row db) =
  if decide (sid = sm_session_id row) then Some row else session_row sid db.
Proof. unfold session_row. simpl. by rewrite dget_dset. Qed.

(** Writing one session row matches writing that session. *)
Lemma put_refines db m m' row :
  db_refines db m -> is_terminal row = negb (is_active row) ->
  sm_next_session_sequence row =
    match session_row (sm_session_id row) db with
    | Some r => sm_next_session_sequence r | None => 1 end ->
  (forall sid, repo_get_session sid m' =
     if decide (sid = sm_session_id row) then (if is_active row then Some (session_of row) else None)
     else repo_get_session sid m) ->
  (forall sid, repo_get_tombstone sid m' =
     if decide (sid = sm_session_id row)
     then (if is_terminal row then Some (tombstone_of row) else None)
     else repo_get_tombstone sid m) ->
  sr_session_sequences m' = sr_session_sequences m ->
  sr_agent_sequences m' = sr_agent_sequences m -> sr_events m' = sr_events m ->
  db_refines (put_row row db) m'.
Proof.
  intros [H1 H2 H3 H4 H5 H6 H7 H8] Hst Hn Hs Ht E1 E2 E3. split.
  - by apply dset_wf.
  - intros sid r. rewrite session_row_put. case_decide; [intros [= <-]; by split|apply H2].
  - intros sid. rewrite session_row_put, Hs, H3. by case_decide.
  - intros sid. rewrite session_row_put, Ht, H4. by case_decide.
  - intros sid. rewrite session_row_put, E1, H5. case_decide as Hd; [|done]. subst sid. done.
  - intros a. by rewrite E2, H6.
  - by rewrite E3.
  - exact H8.
Qed.

(** ** Events *)

Lemma decodes_fields r e :
  decodes r e ->
  em_session_id r = e_session_id e /\ em_agent_id r = e_agent_id e /\
  em_sequence_number r = e_sequence_number e /\ em_agent_sequence r = e_agent_sequence e /\
  em_timestamp r = e_timestamp e /\ final_of (em_final_decision r) = Ok (e_final_decision e).
Proof.
  unfold decodes, event_of. destruct (decision_of _) as [d|]; [|done]; simpl.
  destruct (final_of _) as [f|] eqn:Hf; [|done]. by intros [= <-].
Qed.

Lemma event_row_decodes e uuid n a clock :
  decodes (event_row e uuid n a clock) (with_positions n a e).
Proof.
  unfold decodes, event_of, event_row, final_of, with_positions. simpl. rewrite decision_of_value.
  destruct (e_final_decision e) as [[]|]; done.
Qed.

Lemma selected_eligible q r e : decodes r e -> selected q r = eligible q e.
Proof.
  intros (Hs & Ha & Hn & Han & Ht & _)%decodes_fields. unfold selected, eligible.
  rewrite Hs, Ha, Han, Ht. apply eq_true_iff_eq.
  rewrite !andb_true_iff, !negb_true_iff, orb_false_iff, andb_false_iff, Z.ltb_lt, Z.leb_gt, !Z.leb_le,
    !Z.ltb_ge, !bool_decide_eq_true, !bool_decide_eq_false.
  destruct (q_scope q); rewrite ?bool_decide_eq_true; intuition (try lia; try congruence).
  destruct (decide (Some (e_session_id e) = q_session_id q)); [done|]. tauto.
Qed.

Lemma position_agree scope r r' e e' :
  decodes r e -> decodes r' e' -> row_position scope r r' = position_leb scope e e'.
Proof.
  intros (_ & _ & H1 & H2 & _)%decodes_fields (_ & _ & H3 & H4 & _)%decodes_fields.
  destruct scope; simpl; congruence.
Qed.

Lemma history_agree r r' e e' :
  decodes r e -> decodes r' e' -> history_row_leb r r' = history_leb e e'.
Proof.
  intros (_ & _ & H1 & _ & H2 & _)%decodes_fields (_ & _ & H3 & _ & H4 & _)%decodes_fields.
  unfold history_row_leb, history_leb. rewrite H1, H2, H3, H4.
  destruct (Z.ltb_spec (e_timestamp e) (e_timestamp e')); simpl; [done|].
  destruct (Z.ltb_spec (e_timestamp e') (e_timestamp e)), (Z.eqb_spec (e_timestamp e) (e_timestamp e'));
    simpl; try done; lia.
Qed.

Lemma row_at_agree sid n r e : decodes r e -> row_at sid n r = event_at sid n e.
Proof. intros (H1 & _ & H2 & _)%decodes_fields. unfold row_at, event_at. by rewrite H1, H2. Qed.

(** Finalising a position in the log, by what the row there says. *)
Lemma finalize_agree sid n d rows evs :
  StronglySorted (fun e f => e_session_id e = e_session_id f ->
    e_sequence_number e < e_sequence_number f) evs ->
  Forall2 decodes rows evs ->
  match List.filter (row_at sid n) rows with
  | [] => finalize_first sid n d evs = Err ValueError
  | [r] => exists e, decodes r e /\
      finalize_first sid n d evs =
        (if bool_decide (e_final_decision e <> None) && bool_decide (e_final_decision e <> Some d)
         then Err ValueError
         else Ok ((fun f => if event_at sid n f then with_final d f else f) <$> evs))
  | _ => False
  end.
Proof.
  intros Hs Hf. revert Hs. induction Hf as [|r e rows evs Hre Hf IH]; intros Hs; [done|].
  apply StronglySorted_inv in Hs as [Hs Hall]. cbn [List.filter finalize_first].
  rewrite (row_at_agree _ _ _ _ Hre). destruct (event_at sid n e) eqn:He.
  - assert (forall f, f ∈ evs -> event_at sid n f = false) as Hno.
    { intros f Hin. rewrite Forall_forall in Hall. specialize (Hall f Hin). unfold event_at in *.
      apply andb_prop in He as [H1%bool_decide_eq_true H2%Z.eqb_eq].
      case_bool_decide as Hfs; [|done]. simpl. apply Z.eqb_neq.
      rewrite <- H1 in Hfs. specialize (Hall (eq_sym Hfs)). lia. }
    assert (List.filter (row_at sid n) rows = []) as ->.
    { clear -Hf Hno. induction Hf as [|r' e' rows evs Hr' _ IH]; [done|]. simpl.
      rewrite (row_at_agree _ _ _ _ Hr'), Hno by set_solver. apply IH. set_solver. }
    exists e. split; [done|]. destruct (_ && _); [done|]. f_equal. rewrite fmap_cons, He. f_equal.
    symmetry. apply fmap_id_on.
    intros f Hin. by rewrite Hno.
  - specialize (IH Hs). destruct (List.filter (row_at sid n) rows) as [|r1 [|r2 l]]; [by rewrite IH| |done].
    destruct IH as (e1 & He1 & ->). exists e1. split; [done|].
    destruct (_ && _); [done|]. simpl. by rewrite He.
Qed.

(** ** One step *)

(** What a caller of the repository respects: positions are the repository's to assign, and a
    tombstone names the session and its owner. *)
Definition call_ok (c : RepoCall) (m : SessionRepo) : Prop :=
  match c with
  | RRecord e => e_sequence_number e = 0 /\ e_agent_sequence e = 0
  | RTerminalize sid t => t_session_id t = sid /\
      forall s, repo_get_session sid m = Some s -> s_agent_id s = t_agent_id t
  | _ => True
  end.

(** Answers agree; a listing without an order agrees as a set. *)
Definition answers_agree (x y : result RepoAnswer) : Prop :=
  match x, y with
  | Ok (ASessions l), Ok (ASessions k) => forall s, s ∈ l <-> s ∈ k
  | x, y => x = y
  end.

Definition steps_agree (x : SessionDb * result RepoAnswer) (y : SessionRepo * result RepoAnswer) : Prop :=
  answers_agree x.2 y.2 /\ db_refines x.1 y.1.

Lemma answers_agree_refl x : answers_agree x x.
Proof. by destruct x as [[]|]. Qed.

Lemma steps_agree_same db m x : db_refines db m -> steps_agree (db, x) (m, x).
Proof. split; [apply answers_agree_refl|done]. Qed.

(** The row of a session, by what the in-memory adapter holds. *)
Inductive row_view (sid : string) (db : SessionDb) (m : SessionRepo) : Prop :=
| RowAbsent : session_row sid db = None -> dget sid (sr_sessions m) = None ->
    sr_tombstones m !! sid = None -> row_view sid db m
| RowActive row : session_row sid db = Some row -> sm_session_id row = sid ->
    is_active row = true -> is_terminal row = false ->
    dget sid (sr_sessions m) = Some (session_of row) -> sr_tombstones m !! sid = None ->
    row_view sid db m
| RowTerminal row : session_row sid db = Some row -> sm_session_id row = sid ->
    is_active row = false -> is_terminal row = true ->
    dget sid (sr_sessions m) = None -> sr_tombstones m !! sid = Some (tombstone_of row) ->
    row_view sid db m.

Lemma view_row sid db m : db_refines db m -> row_view sid db m.
Proof.
  intros [_ Hk Ha Ht _ _ _ _]. specialize (Ha sid). specialize (Ht sid).
  unfold repo_get_session, repo_get_tombstone in *.
  destruct (session_row sid db) as [row|] eqn:Hr; [|by apply RowAbsent].
  destruct (Hk sid row Hr) as [Hid Hst]. destruct (is_active row) eqn:Hac; rewrite Hst in Ht.
  - by eapply RowActive.
  - by eapply RowTerminal.
Qed.

(** Writing an active row for a session the in-memory adapter writes too. *)
Lemma put_active_refines db m row s :
  db_refines db m -> sr_tombstones m !! sm_session_id row = None ->
  is_active row = true -> is_terminal row = false ->
  sm_next_session_sequence row =
    match session_row (sm_session_id row) db with
    | Some r => sm_next_session_sequence r | None => 1 end ->
  session_of row = s ->
  db_refines (put_row row db) (set_sessions (dset (sm_session_id row) s (sr_sessions m)) m).
Proof.
  intros Hr Ht H1 H2 Hn <-. eapply put_refines; try done.
  - by rewrite H1, H2.
  - intros sid. unfold repo_get_session; simpl. rewrite dget_dset, H1. by case_decide.
  - intros sid. unfold repo_get_tombstone; simpl. rewrite H2. case_decide; [by subst|done].
Qed.

Local Ltac view sid db m Hr :=
  let Hrow := fresh "Hrow" in let Hd := fresh "Hd" in let Ht := fresh "Ht" in
  destruct (view_row sid db m Hr) as [Hrow Hd Ht|row Hrow Hid Ha Hnt Hd Ht|row Hrow Hid Ha Hnt Hd Ht];
  rewrite Hrow, ?Hd, Ht; try rewrite Hnt; cbn [negb]; try by apply steps_agree_same.

Lemma create_agrees s uuid clock db m :
  db_refines db m -> steps_agree (sql_body (RCreateSession s) uuid clock db) (mem_call (RCreateSession s) m).
Proof.
  intros Hr. simpl. unfold answer, mbind, comp_bind, create_session_body, repo_create_session, dhas.
  view (s_session_id s) db m Hr. split; [done|]. simpl.
  eapply (put_active_refines db m (new_row (s_session_id s) (s_agent_id s) (s_started_at s)
    (s_last_activity_at s) clock) s Hr Ht); try done.
  - simpl. by rewrite Hrow.
  - by destruct s.
Qed.

Lemma bind_agrees sid agent now uuid clock db m :
  db_refines db m -> steps_agree (sql_body (RBind sid agent now) uuid clock db) (mem_call (RBind sid agent now) m).
Proof.
  intros Hr. simpl. unfold answer, mbind, comp_bind, bind_body, repo_bind_or_create_session.
  view sid db m Hr.
  - split; [done|]. simpl.
    eapply (put_active_refines db m (new_row sid agent now now clock) _ Hr Ht); try done.
    simpl. by rewrite Hrow.
  - simpl. case_bool_decide; [by apply steps_agree_same|]. subst sid. split; [done|]. simpl.
    eapply (put_active_refines db m (touch_row now clock row) _ Hr Ht); try done.
    simpl. by rewrite Hrow.
Qed.

Lemma terminalize_agrees sid t uuid clock db m :
  db_refines db m -> call_ok (RTerminalize sid t) m ->
  steps_agree (sql_body (RTerminalize sid t) uuid clock db) (mem_call (RTerminalize sid t) m).
Proof.
  intros Hr [Hsid Hown]. simpl. unfold answer, mbind, comp_bind, terminalize_body, repo_terminalize_session, dhas.
  pose proof Hown as Hown'. unfold repo_get_session in Hown'.
  view sid db m Hr. rewrite bool_decide_false by (by intros []). split; [done|]. simpl.
  eapply put_refines; try done.
  - simpl. by rewrite Hid, Hrow.
  - intros sid'. simpl. rewrite Hid. unfold repo_get_session; simpl. rewrite dget_ddel. by case_decide.
  - intros sid'. simpl. rewrite Hid. unfold repo_get_tombstone; simpl. rewrite lookup_insert.
    case_decide as H1; case_decide as H2; try congruence.
    unfold tombstone_of; simpl. f_equal. destruct t as [ts ta tt tr]; simpl in *.
    specialize (Hown' _ Hd). simpl in Hown'. subst. f_equal. by destruct tr.
Qed.

Lemma record_agrees e uuid clock db m :
  db_refines db m -> call_ok (RRecord e) m ->
  steps_agree (sql_body (RRecord e) uuid clock db) (mem_call (RRecord e) m).
Proof.
  intros Hr [Hn Ha0]. simpl. unfold answer, mbind, comp_bind, record_body, repo_record_event.
  view (e_session_id e) db m Hr. simpl. rewrite Hn, Ha0. simpl.
  case_bool_decide as Hag; [by apply steps_agree_same|].
  pose proof Hr as [H1 H2 H3 H4 H5 H6 H7 H8].
  pose proof (H5 (e_session_id e)) as Hseq. rewrite Hrow in Hseq.
  assert (cm_current_sequence (next_counter (e_agent_id e) db clock) =
    default 0 (sr_agent_sequences m !! e_agent_id e) + 1) as Hc.
  { rewrite H6. unfold next_counter. by destruct (db_counters db !! e_agent_id e). }
  unfold liftR. rewrite Hc, <- Hseq.
  pose proof (event_row_decodes e ("evt-" +:+ uuid) (default 0 (sr_session_sequences m !! e_session_id e) + 1)
    (default 0 (sr_agent_sequences m !! e_agent_id e) + 1) clock) as Hdec.
  pose proof Hdec as Hdec'. unfold decodes in Hdec'. rewrite Hdec'.
  split; [done|]. simpl.
  set (row' := mkSessionModel (sm_session_id row) (sm_agent_id row) (sm_status row)
      (sm_next_session_sequence row) (sm_created_at row) (Some (e_timestamp e)) clock (sm_ended_at row)
      (sm_ended_reason row)).
  assert (db_refines (put_row row' db) (set_sessions (dset (e_session_id e) (touch (e_timestamp e)
    (session_of row)) (sr_sessions m)) m)) as Hput.
  { rewrite <- Hid. eapply (put_active_refines db m row'); try done; simpl; rewrite Hid; (done || by rewrite Hrow). }
  destruct Hput as [P1 P2 P3 P4 P5 P6 P7 P8]. split.
  - by apply dset_wf.
  - intros sid r. unfold session_row. simpl. rewrite dget_dset. case_decide; [|apply H2].
    intros [= <-]. simpl. split; [done|]. unfold is_active, is_terminal in *. simpl. by rewrite Ha, Hnt.
  - intros sid. unfold session_row. simpl. rewrite dget_dset. rewrite Hid.
    unfold repo_get_session; simpl. rewrite dget_dset. case_decide; [|apply H3].
    unfold is_active in *. simpl. rewrite Ha. unfold session_of, touch; simpl. by rewrite Hid.
  - intros sid. unfold session_row. simpl. rewrite dget_dset, Hid.
    unfold repo_get_tombstone; simpl. case_decide; [|apply H4]. subst.
    unfold is_terminal in *. simpl. by rewrite Hnt.
  - intros sid. unfold session_row. simpl. rewrite dget_dset, Hid, default_insert.
    case_decide; [|apply H5]. simpl. lia.
  - intros a. simpl. rewrite default_insert, lookup_insert. case_decide as Hd1; case_decide; try congruence.
    apply H6.
  - simpl. apply Forall2_app; [done|]. by repeat constructor.
  - intros r. simpl. intros [?|?%list_elem_of_singleton]%elem_of_app; [by apply H8|]. subst r. simpl.
    by destruct (e_final_decision e) as [[]|].
Qed.

Lemma filter_negb_length {A} (p : A -> bool) l :
  Z.of_nat (length l) - Z.of_nat (length (List.filter (fun x => negb (p x)) l)) = count p l.
Proof.
  unfold count. induction l as [|x l IH]; simpl; [done|]. destruct (p x); simpl; lia.
Qed.

Lemma prune_agrees cutoff uuid clock db m :
  db_refines db m -> steps_agree (sql_body (RPrune cutoff) uuid clock db) (mem_call (RPrune cutoff) m).
Proof.
  intros Hr. pose proof Hr as [H1 H2 H3 H4 H5 H6 H7 H8]. simpl.
  assert (Forall2 decodes (List.filter (fun r => negb (em_timestamp r <? cutoff)) (db_events db))
    (List.filter (fun e => cutoff <=? e_timestamp e) (sr_events m))) as Hf.
  { apply Forall2_filter_agree; [done|]. intros r e (_ & _ & _ & _ & -> & _)%decodes_fields.
    by rewrite <- Z.leb_antisym. }
  split.
  - simpl. do 2 f_equal. rewrite <- filter_negb_length. by rewrite (Forall2_length _ _ _ Hf), (Forall2_length _ _ _ H7).
  - simpl. split; try done. intros r [Hr' _]%filter_elem. by apply H8.
Qed.

Lemma mapR_decodes rows evs : Forall2 decodes rows evs -> mapR event_of rows = Ok evs.
Proof. intros H. by apply mapR_Ok. Qed.

Lemma eligible_agrees q uuid clock db m :
  db_refines db m -> steps_agree (sql_body (REligible q) uuid clock db) (mem_call (REligible q) m).
Proof.
  intros Hr. pose proof (rf_events _ _ Hr) as He. simpl. unfold answer, mbind, comp_bind, eligible_body.
  rewrite (mapR_decodes _ (repo_list_eligible_events q m)); [by apply steps_agree_same|].
  apply Forall2_sort_agree; [|by intros; apply position_agree].
  apply Forall2_filter_agree; [done|]. intros; by apply selected_eligible.
Qed.

Lemma list_agrees sid uuid clock db m :
  db_refines db m -> steps_agree (sql_body (RListEvents sid) uuid clock db) (mem_call (RListEvents sid) m).
Proof.
  intros Hr. pose proof (rf_events _ _ Hr) as He. simpl. unfold answer, mbind, comp_bind, list_events_body.
  rewrite (mapR_decodes _ (repo_list_events sid m)); [by apply steps_agree_same|].
  apply Forall2_sort_agree; [|by intros; apply history_agree].
  apply Forall2_filter_agree; [done|]. by intros r e (-> & _)%decodes_fields.
Qed.

Lemma finalize_row_decodes d r e :
  decodes r e -> decodes (finalize_row d r) (with_final d e).
Proof.
  unfold decodes, event_of. simpl. destruct (decision_of (em_decision r)) as [x|]; [|done]. simpl.
  destruct (final_of _) as [f|]; [|done]. intros [= <-]. by destruct d.
Qed.

Lemma Forall2_fmap_agree {A B A' B'} (R : A -> B -> Prop) (R' : A' -> B' -> Prop) (g : A -> A')
    (h : B -> B') l k :
  Forall2 R l k -> (forall x y, x ∈ l -> R x y -> R' (g x) (h y)) -> Forall2 R' (g <$> l) (h <$> k).
Proof.
  intros H. induction H as [|x y l k Hxy _ IH]; intros Hgh; csimpl; [constructor|].
  constructor; [apply Hgh; [set_solver|done]|]. apply IH. intros x' y' Hx. apply Hgh. set_solver.
Qed.

Lemma set_events_refines db m rows evs :
  db_refines db m -> Forall2 decodes rows evs ->
  (forall r, r ∈ rows -> em_final_decision r <> Some EmptyString) ->
  db_refines (set_event_rows rows db) (set_events evs m).
Proof. intros [] Hf Hn. by split. Qed.

Lemma finalize_agrees sid n d uuid clock db m :
  db_refines db m -> sr_inv m ->
  steps_agree (sql_body (RFinalize sid n d) uuid clock db) (mem_call (RFinalize sid n d) m).
Proof.
  intros Hr Hi. pose proof (finalize_agree sid n d _ _ (si_session_order _ Hi) (rf_events _ _ Hr)) as Hfin.
  simpl. unfold answer, mbind, comp_bind, finalize_body, repo_update_final_decision, dhas.
  view sid db m Hr. simpl. unfold event_row_at.
  destruct (List.filter (row_at sid n) (db_events db)) as [|r [|r2 l]] eqn:Hfl; [| |done].
  { rewrite Hfin. by apply steps_agree_same. }
  destruct Hfin as (e & He & ->).
  assert (r ∈ db_events db) as Hin by (eapply filter_elem; rewrite Hfl; set_solver).
  pose proof (rf_final _ _ Hr r Hin) as Hne.
  pose proof (decodes_fields _ _ He) as (_ & _ & _ & _ & _ & Hf). unfold final_of in Hf.
  destruct (em_final_decision r) as [s|] eqn:Hs.
  - assert (str_nonempty s = true) as Hns by (by destruct s). rewrite Hns in Hf.
    destruct (decision_of s) as [c|]; [|done]. injection Hf as Hfe. rewrite <- Hfe, (bool_decide_true (Some c <> None)) by done.
    simpl. case_bool_decide as Hc; [rewrite bool_decide_true by congruence; by apply steps_agree_same|].
    assert (c = d) as -> by (destruct (decide (c = d)); tauto).
    rewrite bool_decide_false by (intros Hx; by apply Hx). split; [done|]. simpl.
    assert (set_event_rows (db_events db) db = db) as <- by (by destruct db).
    apply set_events_refines; [done| |apply (rf_final _ _ Hr)].
    simpl. rewrite <- (list_fmap_id (db_events db)).
    eapply Forall2_fmap_agree; [apply (rf_events _ _ Hr)|]. intros r' e' Hr' He'.
    destruct (event_at sid n e') eqn:Hat; [|done].
    assert (r' ∈ List.filter (row_at sid n) (db_events db)) as Hr1.
    { apply filter_elem. split; [done|]. by rewrite (row_at_agree _ _ _ _ He'). }
    rewrite Hfl in Hr1. apply list_elem_of_singleton in Hr1 as ->.
    assert (e' = e) as -> by (unfold decodes in *; congruence). simpl.
    unfold decodes in He |- *. rewrite He. f_equal.
    destruct e; unfold with_final; simpl in *. by rewrite <- Hfe.
  - injection Hf as <-. simpl. split; [done|]. simpl.
    apply set_events_refines; [done| |].
    + eapply Forall2_fmap_agree; [apply (rf_events _ _ Hr)|]. intros r' e' _ He'. simpl.
      rewrite (row_at_agree _ _ _ _ He'). destruct (event_at sid n e'); [|done].
      by apply finalize_row_decodes.
    + intros r' (r0 & -> & Hr0)%list_elem_of_fmap. destruct (row_at sid n r0); [by destruct d|].
      by apply (rf_final _ _ Hr).
Qed.

Lemma list_sessions_agrees uuid clock db m :
  db_refines db m -> sr_inv m -> steps_agree (sql_body RListSessions uuid clock db) (mem_call RListSessions m).
Proof.
  intros Hr Hi. split; [|done]. simpl. intros s. unfold repo_list_sessions. rewrite list_elem_of_fmap. split.
  - intros (row & -> & [Hin Hac]%filter_elem).
    apply values_dget in Hin as [sid Hrow]; [|apply (rf_wf _ _ Hr)].
    pose proof (rf_active _ _ Hr sid) as Ha. unfold session_row in Ha. rewrite Hrow, Hac in Ha.
    by eapply dget_values.
  - intros Hin. apply values_dget in Hin as [sid Hs]; [|apply (si_wf _ Hi)].
    pose proof (rf_active _ _ Hr sid) as Ha. unfold repo_get_session in Ha. rewrite Hs in Ha.
    destruct (session_row sid db) as [row|] eqn:Hrow; [|done]. destruct (is_active row) eqn:Hac; [|done].
    injection Ha as ->. exists row. split; [done|]. apply filter_elem. split; [by eapply dget_values|done].
Qed.

(** Every accepted call agrees with the in-memory adapter. *)
Lemma body_agrees c uuid clock db m :
  db_refines db m -> sr_inv m -> call_ok c m ->
  steps_agree (sql_body c uuid clock db) (mem_call c m).
Proof.
  intros Hr Hi Hok. destruct c as [sid| |s|sid agent now|sid|sid t|e|q|sid|cut|agent|sid n d].
  - simpl. unfold answer, mbind, comp_bind, get_session_body, pure_answer.
    pose proof (rf_active _ _ Hr sid) as ->. by apply steps_agree_same.
  - by apply list_sessions_agrees.
  - by apply create_agrees.
  - by apply bind_agrees.
  - simpl. unfold answer, mbind, comp_bind, get_tombstone_body, pure_answer.
    pose proof (rf_tombstone _ _ Hr sid) as ->. by apply steps_agree_same.
  - by apply terminalize_agrees.
  - by apply record_agrees.
  - by apply eligible_agrees.
  - by apply list_agrees.
  - by apply prune_agrees.
  - simpl. unfold answer, mbind, comp_bind, current_sequence_body, pure_answer, repo_current_agent_sequence.
    rewrite (rf_counter _ _ Hr agent). by apply steps_agree_same.
  - by apply finalize_agrees.
Qed.

Lemma mem_call_inv c m : sr_inv m -> call_ok c m -> sr_inv (mem_call c m).1.
Proof.
  intros Hi Hok. destruct c as [sid| |s|sid agent now|sid|sid t|e|q|sid|cut|agent|sid n d]; simpl; try done.
  - pose proof (session_step_inv None (SCreate s) m Hi) as [H1 _]. simpl in H1.
    unfold answer, mbind, comp_bind. unfold create_session in H1. by destruct (repo_create_session s m) as [? [|]].
  - pose proof (session_step_inv None (SBind sid agent now) m Hi) as [H1 _]. simpl in H1.
    unfold answer, mbind, comp_bind. unfold bind_or_validate in H1.
    by destruct (repo_bind_or_create_session sid agent now m) as [? [|]].
  - destruct Hok as [Hsid Ho]. destruct (terminalize_inv sid t m Hi) as [H1 _].
    + intros s Hs. symmetry. by apply Ho.
    + by destruct (repo_terminalize_session sid t m).
  - pose proof (repo_record_event_inv e m Hi) as [H1 _]. unfold answer, mbind, comp_bind.
    by destruct (repo_record_event e m) as [? [|]].
  - by apply filter_events_inv.
  - pose proof (session_step_inv None (SFinalize sid n d) m Hi) as [H1 _]. simpl in H1.
    unfold answer, mbind, comp_bind. unfold update_event_final_decision in H1.
    by destruct (repo_update_final_decision sid n d m) as [? [|]].
Qed.

(** ** Histories

    A call draws an identifier and a moment. *)

Definition session_call (engine : SessionDb -> SessionDb -> option exn) (c : RepoCall)
    (env : string * Z) : Comp SessionDb RepoAnswer := sql_call engine c env.1 env.2.

(** What the engine answers to the call's transaction. *)
Definition call_refusal (engine : SessionDb -> SessionDb -> option exn) (c : RepoCall)
    (env : string * Z) (db : SessionDb) : option exn :=
  engine_refusal engine (sql_body c env.1 env.2) db.

(** A recorded row always reads back. *)
Lemma record_body_reads e uuid clock db db' er :
  record_body e uuid clock db = (db', Ok er) -> exists p, event_of er = Ok p.
Proof.
  unfold record_body. destruct (session_row _ db) as [row|]; [|done].
  destruct (is_terminal row); [done|]. case_bool_decide; [done|]. intros [= _ <-].
  eexists. apply event_row_decodes.
Qed.

Lemma record_call engine e uuid clock db :
  call_ok (RRecord e) empty_session_repo ->
  sql_call engine (RRecord e) uuid clock db =
  transactional_session engine (sql_body (RRecord e) uuid clock) db.
Proof.
  intros [Hn Ha]. simpl. unfold answer, sql_record_event, mbind, comp_bind. rewrite Hn, Ha. simpl.
  unfold transactional_session.
  destruct (record_body e ("evt-" +:+ uuid) clock db) as [db' [er|x]] eqn:Hb; [|done].
  apply record_body_reads in Hb as [p Hp]. unfold liftR, mret, comp_ret. destruct (engine db db') eqn:He;
    simpl; by rewrite ?Hp, ?He.
Qed.

Lemma answer_transaction {A} engine (f : A -> RepoAnswer) (body : Comp SessionDb A) db :
  answer f (transactional_session engine body) db = transactional_session engine (answer f body) db.
Proof.
  unfold answer, transactional_session, mbind, comp_bind. destruct (body db) as [db' [a|e]]; [|done].
  simpl. by destruct (engine db db').
Qed.

(** A call is the transaction of its body; the horizon query renames what it raises. *)
Lemma call_transaction engine c uuid clock db m :
  call_ok c m ->
  exists rename, sql_call engine c uuid clock db =
    (let '(db', x) := transactional_session engine (sql_body c uuid clock) db in
     (db', match x with Ok a => Ok a | Err e => Err (rename e) end)) /\
    (rename = id \/ exists q, c = REligible q).
Proof.
  intros Hok. destruct c as [sid| |s|sid agent now|sid|sid t|ev|q|sid|cut|agent|sid n d].
  8: { exists (fun e => match e with HorizonUnavailableError => HorizonUnavailableError | _ => SessionRepositoryError end).
       split; [|right; by eexists]. cbn [sql_call sql_body]. unfold sql_list_eligible_events, answer at 1.
       rewrite <- answer_transaction. unfold answer, mbind, comp_bind, try_except, raise.
       destruct (transactional_session _ _ _) as [db' [a|e]]; [done|]. by destruct e. }
  all: exists id; split; [|by left].
  7: { rewrite record_call by exact Hok.
       by destruct (transactional_session _ _ _) as [db' [a|e]]. }
  all: cbn [sql_call sql_body];
    unfold sql_get_session, sql_list_sessions, sql_create_session, sql_bind_or_create_session,
      sql_get_tombstone, sql_terminalize_session, sql_list_events, sql_prune_events,
      sql_current_agent_sequence, sql_update_event_final_decision;
    rewrite answer_transaction; by destruct (transactional_session _ _ _) as [db' [a|e]].
Qed.

(** A refused call raises and leaves the tables as they were. *)
Lemma call_refused engine c uuid clock db m e :
  call_ok c m -> call_refusal engine c (uuid, clock) db = Some e ->
  exists e', sql_call engine c uuid clock db = (db, Err e').
Proof.
  intros Hok Hrf. destruct (call_transaction engine c uuid clock db m Hok) as (rename & -> & _).
  unfold call_refusal in Hrf. simpl in Hrf. rewrite (transaction_refused _ _ _ _ Hrf). by eexists.
Qed.

(** Bodies that raise write nothing. *)
Lemma body_raises c uuid clock db db' e :
  sql_body c uuid clock db = (db', Err e) -> db' = db.
Proof.
  destruct c as [sid| |s|sid agent now|sid|sid t|ev|q|sid|cut|agent|sid n d]; simpl;
    unfold answer, mbind, comp_bind, liftR, create_session_body, bind_body, terminalize_body,
      eligible_body, list_events_body, finalize_body; try done.
  - by repeat case_match; intros; simplify_eq.
  - by repeat case_match; intros; simplify_eq.
  - by repeat case_match; intros; simplify_eq.
  - destruct (record_body ev ("evt-" +:+ uuid) clock db) as [db1 [er|x]] eqn:Hb.
    + pose proof (record_body_reads _ _ _ _ _ _ Hb) as [p ->]. done.
    + intros [= <- _]. unfold record_body in Hb. by repeat case_match; simplify_eq.
  - by case_match; intros; simplify_eq.
  - by case_match; intros; simplify_eq.
  - by repeat case_match; intros; simplify_eq.
Qed.

(** An accepted call agrees with the in-memory adapter. *)
Lemma call_accepted engine c uuid clock db m :
  db_refines db m -> sr_inv m -> call_ok c m -> call_refusal engine c (uuid, clock) db = None ->
  steps_agree (sql_call engine c uuid clock db) (mem_call c m).
Proof.
  intros Hr Hi Hok Hrf. pose proof (body_agrees c uuid clock db m Hr Hi Hok) as Hb.
  destruct (call_transaction engine c uuid clock db m Hok) as (rename & -> & Hren).
  unfold call_refusal in Hrf. simpl in Hrf. rewrite (transaction_accepted _ _ _ Hrf).
  destruct (sql_body c uuid clock db) as [db' [a|e]] eqn:Hbody; [done|].
  apply body_raises in Hbody as ->. destruct Hren as [->|[q ->]]; [done|].
  exfalso. simpl in Hb. unfold pure_answer in Hb. by destruct Hb as [Hb _].
Qed.

(** ** Properties *)


(** ** Witness: an engine that refuses the second event *)

Definition flaky_engine (db db' : SessionDb) : option exn :=
  if bool_decide (length (db_events db) = 1%nat /\ length (db_events db') = 2%nat)
  then Some (OtherException "OperationalError") else None.
Definition demo_attempts : list (RepoCall * (string * Z)) :=
  [(RBind "s" "a" 1, ("u1", 1)); (RBind "s" "b" 2, ("u2", 2));
   (RRecord (demo_event "s" "a" DENY 3), ("u3", 3)); (RRecord (demo_event "s" "a" ALLOW 4), ("u4", 4));
   (RFinalize "s" 1 DENY, ("u5", 5)); (RTerminalize "s" (mkTombstone "s" "a" 6 EXPLICIT_END), ("u6", 6));
   (RBind "s" "a" 7, ("u7", 7)); (RListEvents "s", ("u8", 8)); (RCurrent "a", ("u9", 9))]%string.

