(* ===== verification/SqlPlanes.v ===== *)
(** * The durable lifecycle planes

    [repositories/sql/agent_repository.py], [administrative_repository.py] and
    [enforcement_repository.py]: rows of the tables of agents, of both lifecycle planes with
    their ledgers, and of refused administrative attempts, and the adapters' operations as
    transactions over them.  They refine the in-memory adapters of [Planes]. *)

From S2P Require Import Prelude PyDict Models Lifecycle Planes Sessions SqlStore.
Local Open Scope Z_scope.

(** ** Enumerations of the planes *)

Definition administrative_state_value (s : AdministrativeLifecycleState) : string :=
  match s with ADM_REGISTERED => "REGISTERED" | ADM_ACTIVE => "ACTIVE"
                         | ADM_DISABLED => "DISABLED" end%string.
#[export] Program Instance stored_administrative_state : StoredEnum AdministrativeLifecycleState := {|
  enum_value := administrative_state_value;
  enum_of := find_member administrative_state_value [ADM_REGISTERED; ADM_ACTIVE; ADM_DISABLED];
|}.
Next Obligation. by intros []. Qed.
Next Obligation. intros s e. apply find_member_error. Qed.

Definition administrative_action_value (s : AdministrativeAction) : string :=
  match s with REGISTER => "REGISTER" | ACTIVATE => "ACTIVATE"
                         | DISABLE => "DISABLE" end%string.
#[export] Program Instance stored_administrative_action : StoredEnum AdministrativeAction := {|
  enum_value := administrative_action_value;
  enum_of := find_member administrative_action_value [REGISTER; ACTIVATE; DISABLE];
|}.
Next Obligation. by intros []. Qed.
Next Obligation. intros s e. apply find_member_error. Qed.

Definition actor_type_value (s : ActorType) : string :=
  match s with HUMAN => "human" | SYSTEM => "system" | RUNTIME => "runtime" end%string.
#[export] Program Instance stored_actor_type : StoredEnum ActorType := {|
  enum_value := actor_type_value;
  enum_of := find_member actor_type_value [HUMAN; SYSTEM; RUNTIME];
|}.
Next Obligation. by intros []. Qed.
Next Obligation. intros s e. apply find_member_error. Qed.

Definition enforcement_action_value (s : EnforcementAction) : string :=
  match s with SUSPEND => "SUSPEND" | REINSTATE => "REINSTATE" end%string.
#[export] Program Instance stored_enforcement_action : StoredEnum EnforcementAction := {|
  enum_value := enforcement_action_value;
  enum_of := find_member enforcement_action_value [SUSPEND; REINSTATE];
|}.
Next Obligation. by intros []. Qed.
Next Obligation. intros s e. apply find_member_error. Qed.

Definition agent_status_value (s : AgentStatus) : string :=
  match s with STATUS_REGISTERED => "REGISTERED" | STATUS_ACTIVE => "ACTIVE"
                         | STATUS_SUSPENDED => "SUSPENDED" | STATUS_DISABLED => "DISABLED" end%string.
#[export] Program Instance stored_agent_status : StoredEnum AgentStatus := {|
  enum_value := agent_status_value;
  enum_of := find_member agent_status_value [STATUS_REGISTERED; STATUS_ACTIVE; STATUS_SUSPENDED; STATUS_DISABLED];
|}.
Next Obligation. by intros []. Qed.
Next Obligation. intros s e. apply find_member_error. Qed.

Definition risk_level_value (s : RiskLevel) : string :=
  match s with RISK_LOW => "LOW" | RISK_MEDIUM => "MEDIUM" | RISK_HIGH => "HIGH"
                         | RISK_CRITICAL => "CRITICAL" end%string.
#[export] Program Instance stored_risk_level : StoredEnum RiskLevel := {|
  enum_value := risk_level_value;
  enum_of := find_member risk_level_value [RISK_LOW; RISK_MEDIUM; RISK_HIGH; RISK_CRITICAL];
|}.
Next Obligation. by intros []. Qed.
Next Obligation. intros s e. apply find_member_error. Qed.

Definition risk_tier_value (s : RiskTier) : string :=
  match s with TIER_LOW => "LOW" | TIER_MEDIUM => "MEDIUM" | TIER_HIGH => "HIGH"
                         | TIER_CRITICAL => "CRITICAL" end%string.
#[export] Program Instance stored_risk_tier : StoredEnum RiskTier := {|
  enum_value := risk_tier_value;
  enum_of := find_member risk_tier_value [TIER_LOW; TIER_MEDIUM; TIER_HIGH; TIER_CRITICAL];
|}.
Next Obligation. by intros []. Qed.
Next Obligation. intros s e. apply find_member_error. Qed.

(** ** Tables

    The columns the adapters read; the touch times of rows nothing reads are left out. *)

Record AgentModel := mkAgentModel {
  am_agent_id : string;
  am_name : string;
  am_owner : string;
  am_risk_tier : string;
  am_approved_tools : list string;
}.

Record AgentAdministrativeStateModel := mkAdmStateModel {
  sm_agent_id : string;
  sm_state : string;
  sm_administrative_version : Z;
  sm_last_transition_at : option Z;
}.

Record AgentAdministrativeTransitionModel := mkAdmTransitionModel {
  tm_transition_id : string;
  tm_agent_id : string;
  tm_action : string;
  tm_actor_type : string;
  tm_actor_id : string;
  tm_reason : string;
  tm_previous_state : option string;
  tm_new_state : string;
  tm_version_before : Z;
  tm_version_after : Z;
  tm_correlation_id : string;
  tm_occurred_at : Z;
}.

Record AgentEnforcementStateModel := mkEnfStateModel {
  xm_agent_id : string;
  xm_epoch : Z;
  xm_current_status : string;
  xm_suspended_at : option Z;
  xm_suspension_reason : option string;
  xm_baseline_at : option Z;
  xm_baseline_evidence_sequence : Z;
  xm_baseline_agent_sequence : Z;
  xm_recovery_generation : Z;
  xm_last_transition_at : option Z;
  xm_updated_at : Z;
}.

Record AgentEnforcementTransitionModel := mkEnfTransitionModel {
  ym_transition_id : string;
  ym_agent_id : string;
  ym_epoch : Z;
  ym_action : string;
  ym_actor : string;
  ym_reason : string;
  ym_previous_status : string;
  ym_new_status : string;
  ym_trigger_session_id : option string;
  ym_trigger_risk_level : option string;
  ym_trigger_risk_score : option Z;
  ym_trigger_finding_ids : option (list string);
  ym_occurred_at : Z;
}.

(** Refused administrative attempts ([models/administrative_audit_event.py]). *)
Inductive AdministrativeRefusalCode :=
| ARC_NOT_AUTHORIZED | ARC_UNKNOWN_AGENT | ARC_STALE_VERSION | ARC_ILLEGAL_TRANSITION
| ARC_ADMINISTRATIVE_STATE_UNAVAILABLE.

#[global] Instance AdministrativeRefusalCode_eq_dec : EqDecision AdministrativeRefusalCode.
Proof. solve_decision. Defined.

Definition refusal_code_value (s : AdministrativeRefusalCode) : string :=
  match s with ARC_NOT_AUTHORIZED => "NOT_AUTHORIZED"
    | ARC_UNKNOWN_AGENT => "UNKNOWN_AGENT" | ARC_STALE_VERSION => "STALE_VERSION"
    | ARC_ILLEGAL_TRANSITION => "ILLEGAL_TRANSITION"
    | ARC_ADMINISTRATIVE_STATE_UNAVAILABLE => "ADMINISTRATIVE_STATE_UNAVAILABLE" end%string.
#[export] Program Instance stored_refusal_code : StoredEnum AdministrativeRefusalCode := {|
  enum_value := refusal_code_value;
  enum_of := find_member refusal_code_value [ARC_NOT_AUTHORIZED; ARC_UNKNOWN_AGENT; ARC_STALE_VERSION;
                            ARC_ILLEGAL_TRANSITION; ARC_ADMINISTRATIVE_STATE_UNAVAILABLE];
|}.
Next Obligation. by intros []. Qed.
Next Obligation. intros s e. apply find_member_error. Qed.

Record AdministrativeAuditEvent := mkAdmAudit {
  ae_event_id : string;
  ae_agent_id : string;
  ae_attempted_action : AdministrativeAction;
  ae_actor : Actor;
  ae_refusal_code : AdministrativeRefusalCode;
  ae_reason : string;
  ae_observed_state : option AdministrativeLifecycleState;
  ae_correlation_id : string;
  ae_occurred_at : Z;
}.

Record AdministrativeAuditEventModel := mkAdmAuditModel {
  um_event_id : string;
  um_agent_id : string;
  um_attempted_action : string;
  um_actor_type : string;
  um_actor_id : string;
  um_refusal_code : string;
  um_reason : string;
  um_observed_state : option string;
  um_correlation_id : string;
  um_occurred_at : Z;
}.

(** Keyed tables by primary key, ledgers in insertion order. *)
Record PlaneDb := mkPlaneDb {
  pd_agents : pydict string AgentModel;
  pd_adm : gmap string AgentAdministrativeStateModel;
  pd_adm_ledger : list AgentAdministrativeTransitionModel;
  pd_enf : gmap string AgentEnforcementStateModel;
  pd_enf_ledger : list AgentEnforcementTransitionModel;
  pd_audit : list AdministrativeAuditEventModel;
}.

Definition empty_plane_db : PlaneDb := mkPlaneDb [] ∅ [] ∅ [] [].

(** ** Rows and domain values *)

Definition agent_row (ag : Agent) : AgentModel :=
  mkAgentModel (agent_id ag) (agent_name ag) (agent_owner ag) (enum_value (risk_tier ag)) (approved_tools ag).

(** [_to_domain]: the status column does not exist. *)
Definition agent_of_row (r : AgentModel) : result Agent :=
  tier ← enum_of (am_risk_tier r);
  Ok (mkAgent (am_agent_id r) (am_name r) (am_owner r) tier (am_approved_tools r) STATUS_REGISTERED).

Definition adm_state_row (a : string) (s : AgentAdministrativeState) : AgentAdministrativeStateModel :=
  mkAdmStateModel a (enum_value (as_state s)) (as_version s) (as_last_transition_at s).

(** [_state_to_domain] *)
Definition adm_state_of_row (r : AgentAdministrativeStateModel) : result AgentAdministrativeState :=
  state ← enum_of (sm_state r);
  Ok (mkAdmState (sm_agent_id r) state (sm_administrative_version r) (sm_last_transition_at r)).

Definition adm_transition_row (a : string) (previous : option AdministrativeLifecycleState) (before : Z)
  (t : AdministrativeTransition) : AgentAdministrativeTransitionModel :=
  mkAdmTransitionModel (at_transition_id t) a (enum_value (at_action t))
    (enum_value (actor_type (at_actor t))) (actor_id (at_actor t)) (at_reason t)
    (enum_value <$> previous) (enum_value (at_new_state t)) before (at_version_after t)
    (at_correlation_id t) (at_occurred_at t).

(** [_transition_to_domain] *)
Definition adm_transition_of_row (r : AgentAdministrativeTransitionModel) : result AdministrativeTransition :=
  action ← enum_of (tm_action r);
  type ← enum_of (tm_actor_type r);
  previous ← enum_opt_of (tm_previous_state r);
  new ← enum_of (tm_new_state r);
  Ok (mkAdmTransition (tm_transition_id r) (tm_agent_id r) action (mkActor type (tm_actor_id r))
        (tm_reason r) previous new (tm_version_before r) (tm_version_after r) (tm_correlation_id r)
        (tm_occurred_at r)).

Definition enf_state_row (a : string) (s : AgentEnforcementState) (clock : Z) : AgentEnforcementStateModel :=
  mkEnfStateModel a (es_epoch s)
    (match es_suspended_at s with Some _ => "SUSPENDED" | None => "ACTIVE" end)%string
    (es_suspended_at s) (es_suspension_reason s) (es_baseline_at s) (es_baseline_evidence_sequence s)
    (es_baseline_agent_sequence s) (es_recovery_generation s) (es_last_transition_at s) clock.

Definition enf_state_of_row (r : AgentEnforcementStateModel) : AgentEnforcementState :=
  mkEnfState (xm_agent_id r) (xm_epoch r) (xm_suspended_at r) (xm_suspension_reason r)
    (xm_baseline_at r) (xm_baseline_evidence_sequence r) (xm_baseline_agent_sequence r)
    (xm_recovery_generation r) (xm_last_transition_at r).

Definition enf_transition_row (t : EnforcementTransition) (s : AgentEnforcementState)
  : AgentEnforcementTransitionModel :=
  let tr := et_trigger t in
  mkEnfTransitionModel (et_transition_id t) (et_agent_id t) (es_epoch s) (enum_value (et_action t))
    (et_actor t) (et_reason t) (enum_value (et_previous_status t)) (enum_value (et_new_status t))
    (tr ≫= tr_session_id) (enum_value <$> (tr ≫= tr_risk_level)) (tr ≫= tr_risk_score)
    (tr ≫= fun x => match tr_finding_ids x with [] => None | l => Some l end)
    (et_occurred_at t).

(** Truthiness of the nullable trigger columns. *)
Definition some_text (o : option string) : bool := match o with Some s => str_nonempty s | None => false end.
Definition some_score (o : option Z) : bool := match o with Some n => negb (n =? 0) | None => false end.
Definition some_list (o : option (list string)) : bool := match o with Some (_ :: _) => true | _ => false end.

Definition trigger_of_row (r : AgentEnforcementTransitionModel) : result (option EnforcementTrigger) :=
  if some_text (ym_trigger_session_id r) || some_text (ym_trigger_risk_level r)
     || some_score (ym_trigger_risk_score r) || some_list (ym_trigger_finding_ids r)
  then
    level ← match ym_trigger_risk_level r with
            | Some s => if str_nonempty s then l ← enum_of s; Ok (Some l) else Ok None
            | None => Ok None
            end;
    Ok (Some (mkTrigger (ym_trigger_session_id r) level (ym_trigger_risk_score r)
                (default [] (ym_trigger_finding_ids r))))
  else Ok None.

Definition enf_transition_of_row (r : AgentEnforcementTransitionModel) : result EnforcementTransition :=
  action ← enum_of (ym_action r);
  previous ← enum_of (ym_previous_status r);
  new ← enum_of (ym_new_status r);
  trigger ← trigger_of_row r;
  Ok (mkEnfTransition (ym_transition_id r) (ym_agent_id r) action (ym_actor r) (ym_reason r)
        previous new trigger (ym_occurred_at r)).

Definition audit_row (e : AdministrativeAuditEvent) : AdministrativeAuditEventModel :=
  mkAdmAuditModel (ae_event_id e) (ae_agent_id e) (enum_value (ae_attempted_action e))
    (enum_value (actor_type (ae_actor e))) (actor_id (ae_actor e)) (enum_value (ae_refusal_code e))
    (ae_reason e) (enum_value <$> ae_observed_state e) (ae_correlation_id e) (ae_occurred_at e).

Definition audit_of_row (r : AdministrativeAuditEventModel) : result AdministrativeAuditEvent :=
  action ← enum_of (um_attempted_action r);
  type ← enum_of (um_actor_type r);
  code ← enum_of (um_refusal_code r);
  observed ← enum_opt_of (um_observed_state r);
  Ok (mkAdmAudit (um_event_id r) (um_agent_id r) action (mkActor type (um_actor_id r)) code
        (um_reason r) observed (um_correlation_id r) (um_occurred_at r)).

(** ** The adapters

    The body of each operation's transaction; [clock] is the moment a row is touched. *)

Definition with_agents (l : pydict string AgentModel) (db : PlaneDb) : PlaneDb :=
  mkPlaneDb l (pd_adm db) (pd_adm_ledger db) (pd_enf db) (pd_enf_ledger db) (pd_audit db).
Definition with_adm (s : gmap string AgentAdministrativeStateModel)
  (l : list AgentAdministrativeTransitionModel) (db : PlaneDb) : PlaneDb :=
  mkPlaneDb (pd_agents db) s l (pd_enf db) (pd_enf_ledger db) (pd_audit db).
Definition with_enf (s : gmap string AgentEnforcementStateModel)
  (l : list AgentEnforcementTransitionModel) (db : PlaneDb) : PlaneDb :=
  mkPlaneDb (pd_agents db) (pd_adm db) (pd_adm_ledger db) s l (pd_audit db).
Definition with_audit (l : list AdministrativeAuditEventModel) (db : PlaneDb) : PlaneDb :=
  mkPlaneDb (pd_agents db) (pd_adm db) (pd_adm_ledger db) (pd_enf db) (pd_enf_ledger db) l.

(** *** Agents *)

Definition agent_get_body (a : string) : Comp PlaneDb (option Agent) := fun db =>
  (db, match dget a (pd_agents db) with
       | None => Ok None
       | Some row => ag ← agent_of_row row; Ok (Some ag)
       end).

Definition agent_save_body (ag : Agent) : Comp PlaneDb unit := fun db =>
  (with_agents (dset (agent_id ag) (agent_row ag) (pd_agents db)) db, Ok tt).

Definition agent_list_body : Comp PlaneDb (list Agent) := fun db =>
  (db, mapR agent_of_row (sort_by (fun r q => str_leb (am_agent_id r) (am_agent_id q))
                            (dvalues (pd_agents db)))).

(** *** Administrative plane *)

Definition adm_get_body (a : string) : Comp PlaneDb (option AgentAdministrativeState) := fun db =>
  (db, match pd_adm db !! a with
       | None => Ok None
       | Some row => s ← adm_state_of_row row; Ok (Some s)
       end).

(** [_validate_transition_invariants] *)
Definition validate_transition_invariants (t : AdministrativeTransition) (new_state : AgentAdministrativeState)
  (current_version : Z) (previous_state : option AdministrativeLifecycleState) (expected_version : Z)
  : result unit :=
  if negb (as_version new_state =? expected_version + 1)
  then Err AdministrativeTransitionInvariantError
  else if negb (is_legal_administrative_transition previous_state (as_state new_state))
  then Err AdministrativeTransitionInvariantError
  else if negb (bool_decide (at_previous_state t = previous_state))
       || negb (bool_decide (at_new_state t = as_state new_state))
       || negb (at_version_before t =? current_version)
       || negb (at_version_after t =? as_version new_state)
  then Err AdministrativeTransitionInvariantError
  else Ok tt.

Definition adm_record_body (t : AdministrativeTransition) (new_state : AgentAdministrativeState)
  (expected_version : Z) : Comp PlaneDb bool := fun db =>
  let a := at_agent_id t in
  if negb (dhas a (pd_agents db)) then (db, Err AdministrativeStateUnavailableError)
  else
    let current_version := match pd_adm db !! a with Some r => sm_administrative_version r | None => 0 end in
    if negb (current_version =? expected_version) then (db, Ok false)
    else match (previous ← enum_opt_of (sm_state <$> pd_adm db !! a);
                validate_transition_invariants t new_state current_version previous expected_version) with
    | Err e => (db, Err e)
    | Ok _ =>
        (with_adm (<[a := adm_state_row a new_state]> (pd_adm db))
           (pd_adm_ledger db ++ [adm_transition_row a (at_previous_state t) (at_version_before t) t]) db,
         Ok true)
    end.

Definition adm_register_body (ag : Agent) (t : AdministrativeTransition) (new_state : AgentAdministrativeState)
  : Comp PlaneDb unit := fun db =>
  let a := agent_id ag in
  if dhas a (pd_agents db) then (db, Err AgentAlreadyRegisteredError)
  else match validate_transition_invariants t new_state 0 None 0 with
  | Err e => (db, Err e)
  | Ok _ =>
      if bool_decide (is_Some (pd_adm db !! a)) then (db, Err (OtherException "IntegrityError"))
      else
      (with_adm (<[a := adm_state_row a new_state]> (pd_adm db))
         (pd_adm_ledger db ++ [adm_transition_row a None 0 t])
         (with_agents (dset a (agent_row ag) (pd_agents db)) db), Ok tt)
  end.

(** [order_by(occurred_at, transition_id)] *)
Definition adm_row_leb (r q : AgentAdministrativeTransitionModel) : bool :=
  pair_leb (tm_occurred_at r, tm_transition_id r) (tm_occurred_at q, tm_transition_id q).

Definition about {R} (id : R -> string) (a : option string) (r : R) : bool :=
  match a with None => true | Some a => bool_decide (id r = a) end.

Definition adm_list_body (a : option string) : Comp PlaneDb (list AdministrativeTransition) := fun db =>
  (db, mapR adm_transition_of_row
         (sort_by adm_row_leb (List.filter (about tm_agent_id a) (pd_adm_ledger db)))).

(** *** Enforcement plane *)

Definition enf_get_body (a : string) : Comp PlaneDb (option AgentEnforcementState) := fun db =>
  (db, Ok (enf_state_of_row <$> pd_enf db !! a)).

Definition enf_record_body (t : EnforcementTransition) (new_state : AgentEnforcementState)
  (expected_epoch : Z) (clock : Z) : Comp PlaneDb bool := fun db =>
  let a := et_agent_id t in
  if negb (dhas a (pd_agents db)) then (db, Err EnforcementStateUnavailableError)
  else
    let current_epoch := match pd_enf db !! a with Some r => xm_epoch r | None => 0 end in
    if negb (current_epoch =? expected_epoch) || negb (es_epoch new_state =? expected_epoch + 1)
    then (db, Ok false)
    else
      let current_generation := match pd_enf db !! a with Some r => xm_recovery_generation r | None => 0 end in
      if (es_recovery_generation new_state =? current_generation)
         || (es_recovery_generation new_state =? current_generation + 1)
      then (with_enf (<[a := enf_state_row a new_state clock]> (pd_enf db))
              (pd_enf_ledger db ++ [enf_transition_row t new_state]) db, Ok true)
      else (db, Err EnforcementStateUnavailableError).

Definition enf_row_leb (r q : AgentEnforcementTransitionModel) : bool :=
  pair_leb (ym_occurred_at r, ym_transition_id r) (ym_occurred_at q, ym_transition_id q).

Definition enf_list_body (a : option string) : Comp PlaneDb (list EnforcementTransition) := fun db =>
  (db, mapR enf_transition_of_row
         (sort_by enf_row_leb (List.filter (about ym_agent_id a) (pd_enf_ledger db)))).

Definition enf_epoch_body (a : string) (as_of : Z) : Comp PlaneDb Z := fun db =>
  (db, Ok (count (fun r => bool_decide (ym_agent_id r = a)
                           && bool_decide (ym_action r = enum_value REINSTATE)
                           && (ym_occurred_at r <=? as_of)) (pd_enf_ledger db))).

(** *** Refused attempts *)

Definition audit_record_body (e : AdministrativeAuditEvent) : Comp PlaneDb AdministrativeAuditEvent :=
  fun db => (with_audit (pd_audit db ++ [audit_row e]) db, Ok e).

Definition audit_row_leb (r q : AdministrativeAuditEventModel) : bool :=
  pair_leb (um_occurred_at r, um_event_id r) (um_occurred_at q, um_event_id q).

Definition audit_list_body (a : option string) : Comp PlaneDb (list AdministrativeAuditEvent) := fun db =>
  (db, mapR audit_of_row (sort_by audit_row_leb (List.filter (about um_agent_id a) (pd_audit db)))).

(** The in-memory store of refused attempts. *)
Definition mem_audit_record (e : AdministrativeAuditEvent) (l : list AdministrativeAuditEvent)
  : list AdministrativeAuditEvent := l ++ [e].
Definition mem_audit_list (a : option string) (l : list AdministrativeAuditEvent)
  : list AdministrativeAuditEvent :=
  sort_by (fun e f => pair_leb (ae_occurred_at e, ae_event_id e) (ae_occurred_at f, ae_event_id f))
    (List.filter (about ae_agent_id a) l).

(** ** Calls *)

Inductive PlaneCall :=
| PGetAgent (a : string) | PSaveAgent (ag : Agent) | PListAgents
| PGetAdm (a : string)
| PRecordAdm (t : AdministrativeTransition) (s : AgentAdministrativeState) (expected_version : Z)
| PRegister (ag : Agent) (t : AdministrativeTransition) (s : AgentAdministrativeState)
| PListAdm (a : option string)
| PGetEnf (a : string)
| PRecordEnf (t : EnforcementTransition) (s : AgentEnforcementState) (expected_epoch : Z)
| PListEnf (a : option string) | PEpoch (a : string) (as_of : Z)
| PAudit (e : AdministrativeAuditEvent) | PListAudit (a : option string).

Inductive PlaneAnswer :=
| PaUnit | PaBool (b : bool) | PaInt (n : Z) | PaAgent (ag : option Agent) | PaAgents (l : list Agent)
| PaAdm (s : option AgentAdministrativeState) | PaAdmLedger (l : list AdministrativeTransition)
| PaEnf (s : option AgentEnforcementState) | PaEnfLedger (l : list EnforcementTransition)
| PaAudit (e : AdministrativeAuditEvent) | PaAudits (l : list AdministrativeAuditEvent).

Definition answering {S A} (f : A -> PlaneAnswer) (m : Comp S A) : Comp S PlaneAnswer :=
  a ← m; mret (f a).

Definition plane_body (c : PlaneCall) (clock : Z) : Comp PlaneDb PlaneAnswer :=
  match c with
  | PGetAgent a => answering PaAgent (agent_get_body a)
  | PSaveAgent ag => answering (fun _ => PaUnit) (agent_save_body ag)
  | PListAgents => answering PaAgents agent_list_body
  | PGetAdm a => answering PaAdm (adm_get_body a)
  | PRecordAdm t s v => answering PaBool (adm_record_body t s v)
  | PRegister ag t s => answering (fun _ => PaUnit) (adm_register_body ag t s)
  | PListAdm a => answering PaAdmLedger (adm_list_body a)
  | PGetEnf a => answering PaEnf (enf_get_body a)
  | PRecordEnf t s e => answering PaBool (enf_record_body t s e clock)
  | PListEnf a => answering PaEnfLedger (enf_list_body a)
  | PEpoch a as_of => answering PaInt (enf_epoch_body a as_of)
  | PAudit e => answering PaAudit (audit_record_body e)
  | PListAudit a => answering PaAudits (audit_list_body a)
  end.

Definition AdministrativeAuditUnavailableError : exn := OtherException "AdministrativeAuditUnavailableError".

(** The [except] clauses around each transaction. *)
Definition plane_handler (c : PlaneCall) (e : exn) : exn :=
  match c with
  | PGetAgent _ | PSaveAgent _ | PListAgents => e
  | PGetAdm _ | PListAdm _ => AdministrativeStateUnavailableError
  | PRecordAdm _ _ _ =>
      match e with AdministrativeTransitionInvariantError => e | _ => AdministrativeStateUnavailableError end
  | PRegister _ _ _ =>
      match e with
      | AgentAlreadyRegisteredError | AdministrativeTransitionInvariantError => e
      | _ => AdministrativeStateUnavailableError
      end
  | PGetEnf _ | PRecordEnf _ _ _ | PListEnf _ | PEpoch _ _ => EnforcementStateUnavailableError
  | PAudit _ | PListAudit _ => AdministrativeAuditUnavailableError
  end.

Definition plane_call (engine : PlaneDb -> PlaneDb -> option exn) (c : PlaneCall) (clock : Z)
  : Comp PlaneDb PlaneAnswer :=
  try_except (transactional_session engine (plane_body c clock)) (fun e => raise (plane_handler c e)).

(** ** The in-memory adapters, side by side *)

Record PlaneMem := mkPlaneMem {
  pm_agents : AgentRepo;
  pm_adm : InMemoryAdministrativeStateRepository;
  pm_enf : InMemoryEnforcementStateRepository;
  pm_audit : list AdministrativeAuditEvent;
}.

Definition empty_plane_mem : PlaneMem := mkPlaneMem [] empty_adm_repo empty_enf_repo [].

Definition on_adm {A} (m : Comp InMemoryAdministrativeStateRepository A) : Comp PlaneMem A :=
  zoom pm_adm (fun r w => mkPlaneMem (pm_agents w) r (pm_enf w) (pm_audit w)) m.
Definition on_enf {A} (m : Comp InMemoryEnforcementStateRepository A) : Comp PlaneMem A :=
  zoom pm_enf (fun r w => mkPlaneMem (pm_agents w) (pm_adm w) r (pm_audit w)) m.
Definition on_registration {A} (m : Comp (AgentRepo * InMemoryAdministrativeStateRepository) A)
  : Comp PlaneMem A :=
  zoom (fun w => (pm_agents w, pm_adm w)) (fun p w => mkPlaneMem p.1 p.2 (pm_enf w) (pm_audit w)) m.

Definition plane_mem_call (c : PlaneCall) : Comp PlaneMem PlaneAnswer := fun w =>
  match c with
  | PGetAgent a => (w, Ok (PaAgent (agent_get a (pm_agents w))))
  | PSaveAgent ag => (mkPlaneMem (agent_save ag (pm_agents w)) (pm_adm w) (pm_enf w) (pm_audit w), Ok PaUnit)
  | PListAgents => (w, Ok (PaAgents (agent_list (pm_agents w))))
  | PGetAdm a => (w, s ← mem_adm_get_state a (pm_adm w); Ok (PaAdm s))
  | PRecordAdm t s v => answering PaBool (on_adm (mem_adm_record_transition t s v)) w
  | PRegister ag t s => answering (fun _ => PaUnit) (on_registration (mem_adm_commit_registration ag t s)) w
  | PListAdm a => (w, Ok (PaAdmLedger (mem_adm_list_transitions a (pm_adm w))))
  | PGetEnf a => (w, s ← mem_enf_get_state a (pm_enf w); Ok (PaEnf s))
  | PRecordEnf t s e => answering PaBool (on_enf (mem_enf_record_transition t s e)) w
  | PListEnf a => (w, Ok (PaEnfLedger (mem_enf_list_transitions a (pm_enf w))))
  | PEpoch a as_of => (w, Ok (PaInt (mem_enf_get_epoch a as_of (pm_enf w))))
  | PAudit e => (mkPlaneMem (pm_agents w) (pm_adm w) (pm_enf w) (mem_audit_record e (pm_audit w)), Ok (PaAudit e))
  | PListAudit a => (w, Ok (PaAudits (mem_audit_list a (pm_audit w))))
  end.

(** ** What the tables represent *)

Definition agent_represents (p : string * AgentModel) (q : string * Agent) : Prop :=
  p.1 = q.1 /\ am_agent_id p.2 = p.1 /\ agent_of_row p.2 = Ok q.2.

Record plane_refines (db : PlaneDb) (w : PlaneMem) : Prop := {
  pr_agents : Forall2 agent_represents (pd_agents db) (pm_agents w);
  pr_adm : forall a, adm_state_of_row <$> pd_adm db !! a = Ok <$> ar_states (pm_adm w) !! a;
  (** the foreign key to the agents table *)
  pr_registered : forall a, is_Some (pd_adm db !! a) -> is_Some (dget a (pd_agents db));
  pr_adm_ledger : Forall2 (fun r t => adm_transition_of_row r = Ok t)
                    (pd_adm_ledger db) (ar_transitions (pm_adm w));
  pr_enf : forall a, er_states (pm_enf w) !! a = enf_state_of_row <$> pd_enf db !! a;
  pr_enf_ledger : Forall2 (fun r t => enf_transition_of_row r = Ok t)
                    (pd_enf_ledger db) (er_transitions (pm_enf w));
  pr_audit : Forall2 (fun r e => audit_of_row r = Ok e) (pd_audit db) (pm_audit w);
}.

Definition plane_mem_inv (w : PlaneMem) : Prop :=
  enf_repo_ok (pm_enf w) /\ ar_composes (pm_adm w) = true.

(** A trigger that carries something: an empty one is not told from none. *)
Definition trigger_ok (tr : option EnforcementTrigger) : Prop :=
  match tr with
  | None => True
  | Some x => some_text (tr_session_id x) || bool_decide (is_Some (tr_risk_level x))
              || some_score (tr_risk_score x) || some_list (Some (tr_finding_ids x)) = true
  end.

(** The callers' side: [AgentService] builds every transition for the agent whose state it
    commits, and looks the agent up first. *)
Definition plane_call_ok (c : PlaneCall) (w : PlaneMem) : Prop :=
  match c with
  | PRecordAdm t s _ => as_agent_id s = at_agent_id t /\ is_Some (dget (at_agent_id t) (pm_agents w))
  | PRegister ag t s =>
      as_agent_id s = agent_id ag /\ at_agent_id t = agent_id ag /\ at_previous_state t = None /\
      at_new_state t = as_state s /\ at_version_before t = 0 /\ at_version_after t = as_version s
  | PRecordEnf t s _ =>
      es_agent_id s = et_agent_id t /\ is_Some (dget (et_agent_id t) (pm_agents w)) /\
      trigger_ok (et_trigger t)
  | _ => True
  end.

(** Answers agree; agents are listed in another order. *)
Definition plane_answers_agree (x y : result PlaneAnswer) : Prop :=
  match x, y with
  | Ok (PaAgents l), Ok (PaAgents k) => l ≡ₚ k
  | _, _ => x = y
  end.

(** ** Rows read back *)

Lemma agent_row_reads ag : agent_of_row (agent_row ag) = Ok (with_status STATUS_REGISTERED ag).
Proof. unfold agent_of_row. by destruct ag as [? ? ? [] ? ?]. Qed.

Lemma adm_state_row_reads a s : as_agent_id s = a -> adm_state_of_row (adm_state_row a s) = Ok s.
Proof. intros <-. unfold adm_state_of_row. destruct s as [? [] ? ?]; done. Qed.

Lemma adm_transition_row_reads a prev before t :
  at_agent_id t = a -> at_previous_state t = prev -> at_version_before t = before ->
  adm_transition_of_row (adm_transition_row a prev before t) = Ok t.
Proof.
  intros <- <- <-. unfold adm_transition_of_row. cbn [adm_transition_row tm_transition_id tm_agent_id
    tm_action tm_actor_type tm_actor_id tm_reason tm_previous_state tm_new_state tm_version_before
    tm_version_after tm_correlation_id tm_occurred_at].
  rewrite !enum_of_value, enum_opt_of_value. cbn. by destruct t as [? ? ? [] ? ? ? ? ? ? ?].
Qed.

Lemma enf_state_row_reads a s clock : es_agent_id s = a -> enf_state_of_row (enf_state_row a s clock) = s.
Proof. intros <-. by destruct s. Qed.

Lemma trigger_reads t s : trigger_ok (et_trigger t) -> trigger_of_row (enf_transition_row t s) = Ok (et_trigger t).
Proof.
  unfold trigger_of_row, enf_transition_row, trigger_ok.
  cbn [ym_trigger_session_id ym_trigger_risk_level ym_trigger_risk_score ym_trigger_finding_ids].
  destruct (et_trigger t) as [[sid level score ids]|]; [|done]. cbn. intros H.
  destruct level as [l|]; cbn in *.
  - destruct l, ids; cbn; by rewrite orb_true_r.
  - rewrite orb_false_r in *. destruct ids; cbn in *; rewrite H; done.
Qed.

Lemma enf_transition_row_reads t s :
  trigger_ok (et_trigger t) -> enf_transition_of_row (enf_transition_row t s) = Ok t.
Proof.
  intros H. unfold enf_transition_of_row. rewrite (trigger_reads t s H). unfold enf_transition_row.
  cbn [ym_transition_id ym_agent_id ym_action ym_actor ym_reason ym_previous_status ym_new_status ym_occurred_at].
  rewrite !enum_of_value. cbn. by destruct t.
Qed.

Lemma audit_row_reads e : audit_of_row (audit_row e) = Ok e.
Proof.
  unfold audit_of_row. cbn [audit_row um_event_id um_agent_id um_attempted_action um_actor_type um_actor_id
    um_refusal_code um_reason um_observed_state um_correlation_id um_occurred_at].
  rewrite !enum_of_value, enum_opt_of_value. cbn. by destruct e as [? ? ? [] ? ? ? ? ?].
Qed.

(** ** The table of agents *)

Lemma agents_get (l : pydict string AgentModel) (k : AgentRepo) a :
  Forall2 agent_represents l k -> agent_of_row <$> dget a l = Ok <$> dget a k.
Proof.
  induction 1 as [|[x r] [y ag] l k (Hx & _ & Hr) _ IH]; [done|].
  change (x = y) in Hx. change (agent_of_row r = Ok ag) in Hr. subst y. cbn [dget].
  case_decide; [|exact IH]. change (Some (agent_of_row r) = Some (Ok ag)). by rewrite Hr.
Qed.

Lemma agents_has (l : pydict string AgentModel) (k : AgentRepo) a :
  Forall2 agent_represents l k -> dhas a l = dhas a k.
Proof.
  intros H. pose proof (agents_get l k a H) as Hg. unfold dhas.
  destruct (dget a l), (dget a k); try done; discriminate.
Qed.

Lemma agents_set (l : pydict string AgentModel) (k : AgentRepo) a r ag :
  Forall2 agent_represents l k -> agent_represents (a, r) (a, ag) ->
  Forall2 agent_represents (dset a r l) (dset a ag k).
Proof.
  intros H Hr. induction H as [|[x r'] [y ag'] l k Hxy Hl IH]; [by constructor; [|constructor]|].
  pose proof Hxy as (Hx & _). change (x = y) in Hx. subst y. cbn [dset].
  case_decide; by constructor.
Qed.

Lemma agents_saved l k ag :
  Forall2 agent_represents l k ->
  Forall2 agent_represents (dset (agent_id ag) (agent_row ag) l) (agent_save ag k).
Proof. intros H. apply agents_set; [done|]. split_and!; [done..|]. apply agent_row_reads. Qed.

(** ** Call by call *)

Definition settled (c : PlaneCall) (clock : Z) (db : PlaneDb) : PlaneDb * result PlaneAnswer :=
  match plane_body c clock db with
  | (db', Ok a) => (db', Ok a)
  | (_, Err e) => (db, Err (plane_handler c e))
  end.

Definition plane_steps_agree (x : PlaneDb * result PlaneAnswer) (y : PlaneMem * result PlaneAnswer) : Prop :=
  plane_answers_agree x.2 y.2 /\ plane_refines x.1 y.1.

Lemma plane_answers_refl x : plane_answers_agree x x.
Proof. destruct x as [[]|]; simpl; done. Qed.

Lemma plane_steps_same db w x : plane_refines db w -> plane_steps_agree (db, x) (w, x).
Proof. split; [apply plane_answers_refl|done]. Qed.

Lemma ledger_reads {R T} (of_row : R -> result T) (rid : R -> string) (tid : T -> string)
    (rk : R -> Z * string) (tk : T -> Z * string) (rows : list R) (l : list T) a :
  Forall2 (fun r t => of_row r = Ok t) rows l ->
  (forall r t, of_row r = Ok t -> rid r = tid t /\ rk r = tk t) ->
  mapR of_row (sort_by (fun r q => pair_leb (rk r) (rk q)) (List.filter (about rid a) rows))
  = Ok (sort_by (fun t u => pair_leb (tk t) (tk u)) (List.filter (about tid a) l)).
Proof.
  intros H Hk. apply mapR_Ok. apply Forall2_sort_agree.
  - apply Forall2_filter_agree; [done|]. intros r t (Hid & _)%Hk. unfold about. by rewrite Hid.
  - intros r t r' t' (_ & ->)%Hk (_ & ->)%Hk. done.
Qed.

Lemma adm_transition_fields r t : adm_transition_of_row r = Ok t ->
  tm_agent_id r = at_agent_id t /\
  (tm_occurred_at r, tm_transition_id r) = (at_occurred_at t, at_transition_id t).
Proof. unfold adm_transition_of_row. intros H. comp_step H. done. Qed.

Lemma enf_transition_fields r t : enf_transition_of_row r = Ok t ->
  ym_agent_id r = et_agent_id t /\
  (ym_occurred_at r, ym_transition_id r) = (et_occurred_at t, et_transition_id t).
Proof. unfold enf_transition_of_row. intros H. comp_step H. done. Qed.

Lemma audit_fields r e : audit_of_row r = Ok e ->
  um_agent_id r = ae_agent_id e /\ (um_occurred_at r, um_event_id r) = (ae_occurred_at e, ae_event_id e).
Proof. unfold audit_of_row. intros H. comp_step H. done. Qed.

Lemma epoch_entry a as_of r t : enf_transition_of_row r = Ok t ->
  bool_decide (ym_agent_id r = a) && bool_decide (ym_action r = enum_value REINSTATE) && (ym_occurred_at r <=? as_of)
  = bool_decide (et_agent_id t = a) && bool_decide (et_action t = REINSTATE) && (et_occurred_at t <=? as_of).
Proof.
  unfold enf_transition_of_row. destruct (enum_of (ym_action r)) as [act|] eqn:Ha; [|done].
  intros H. comp_step H. do 2 f_equal. unfold enum_of in Ha; simpl in Ha.
  repeat case_bool_decide; simplify_eq; congruence.
Qed.

(** Both sides of a call, down to the adapters' operations. *)
Ltac open_call f :=
  unfold settled, plane_mem_call; cbn [plane_body]; unfold answering, f, on_adm, on_enf, on_registration;
  cbv [mbind comp_bind mret comp_ret zoom]; cbv beta iota.

Section agreement.
Context (db : PlaneDb) (w : PlaneMem) (Hr : plane_refines db w).

Lemma list_agents_agree clock : plane_steps_agree (settled PListAgents clock db) (plane_mem_call PListAgents w).
Proof using Hr.
  pose proof (pr_agents _ _ Hr) as Ha. open_call agent_list_body.
  match goal with |- context [mapR agent_of_row ?l] => set (rows := l) end. assert (rows ≡ₚ dvalues (pd_agents db)) as Hp by apply sort_by_perm.
  assert (Forall2 (fun r ag => agent_of_row r = Ok ag) (dvalues (pd_agents db)) (dvalues (pm_agents w))) as Hv.
  { unfold dvalues. apply Forall2_fmap. eapply Forall2_impl; [done|]. by intros [] [] (_ & _ & ?). }
  symmetry in Hp. destruct (Permutation_Forall2 Hp Hv) as (k & Hkp & Hk).
  rewrite (proj2 (mapR_Ok agent_of_row rows k)) by done.
  cbn. split; [|done]. simpl. by rewrite Hkp.
Qed.

Lemma save_agent_agrees ag clock : plane_steps_agree (settled (PSaveAgent ag) clock db) (plane_mem_call (PSaveAgent ag) w).
Proof using Hr.
  destruct Hr as [Ha Hm Hf Hl He Hel Hu]. split; [done|]. simpl.
  constructor; simpl; try done; [by apply agents_saved|].
  intros a Hs. rewrite dget_dset. case_decide; [by eexists|auto].
Qed.

(** The administrative row of an agent beside its state. *)
Lemma adm_row_agrees a :
  match pd_adm db !! a, ar_states (pm_adm w) !! a with
  | Some r, Some s => enum_of (sm_state r) = Ok (as_state s) /\ sm_administrative_version r = as_version s
  | None, None => True
  | _, _ => False
  end.
Proof using Hr.
  pose proof (pr_adm _ _ Hr a) as H. destruct (pd_adm db !! a) as [r|], (ar_states (pm_adm w) !! a) as [s|];
    try done.
  apply (inj Some) in H. unfold adm_state_of_row in H. destruct (enum_of (sm_state r)) as [st|] eqn:Hst; [|done].
  cbn in H. injection H as <-. done.
Qed.

Lemma adm_version_agrees a :
  match pd_adm db !! a with Some r => sm_administrative_version r | None => 0 end
  = admin_version_of (ar_states (pm_adm w) !! a).
Proof using Hr.
  pose proof (adm_row_agrees a) as H. destruct (pd_adm db !! a), (ar_states (pm_adm w) !! a); try done. apply H.
Qed.

Lemma adm_previous_agrees a :
  enum_opt_of (sm_state <$> pd_adm db !! a) = Ok (admin_state_of (ar_states (pm_adm w) !! a)).
Proof using Hr.
  pose proof (adm_row_agrees a) as H. destruct (pd_adm db !! a) as [r|], (ar_states (pm_adm w) !! a); try done.
  unfold enum_opt_of. change (sm_state <$> Some r) with (Some (sm_state r)). cbv beta iota.
  by rewrite (proj1 H).
Qed.

Lemma get_adm_agrees a clock : plane_steps_agree (settled (PGetAdm a) clock db) (plane_mem_call (PGetAdm a) w).
Proof using Hr.
  pose proof (pr_adm _ _ Hr a) as H. open_call adm_get_body. unfold mem_adm_get_state.
  destruct (pd_adm db !! a) as [r|], (ar_states (pm_adm w) !! a) as [s|]; try done.
  apply (inj Some) in H. rewrite H. by apply plane_steps_same.
Qed.

Lemma registered_agrees a : is_Some (dget a (pm_agents w)) -> dhas a (pd_agents db) = true.
Proof using Hr. intros H. rewrite (agents_has _ _ a (pr_agents _ _ Hr)). by apply dhas_true. Qed.

Lemma adm_states_set a s :
  as_agent_id s = a -> forall b,
  adm_state_of_row <$> <[a := adm_state_row a s]> (pd_adm db) !! b
  = Ok <$> <[a := s]> (ar_states (pm_adm w)) !! b.
Proof using Hr.
  intros Ha b. rewrite !lookup_insert. case_decide; [|apply (pr_adm _ _ Hr)].
  simpl. by rewrite adm_state_row_reads.
Qed.

Lemma record_adm_agrees t s v clock :
  plane_call_ok (PRecordAdm t s v) w ->
  plane_steps_agree (settled (PRecordAdm t s v) clock db) (plane_mem_call (PRecordAdm t s v) w).
Proof using Hr.
  intros [Hs Hreg]. open_call adm_record_body.
  rewrite (registered_agrees _ Hreg), adm_version_agrees, adm_previous_agrees.
  cbn. unfold mem_adm_record_transition, validate_transition_invariants.
  destruct (negb (_ =? v)) eqn:H1; [by destruct w; apply plane_steps_same|].
  destruct (negb (_ =? v + 1)) eqn:H2; [by destruct w; apply plane_steps_same|].
  destruct (negb (is_legal_administrative_transition _ _)) eqn:H3; [by destruct w; apply plane_steps_same|].
  destruct (_ || _) eqn:H4; [by destruct w; apply plane_steps_same|].
  split; [done|]. destruct Hr as [Ha Hm Hf Hl He Hel Hu]. constructor; simpl; try done.
  - by apply adm_states_set.
  - intros b. rewrite lookup_insert. destruct (decide (at_agent_id t = b)) as [<-|]; [|apply Hf]. intros _.
    apply dhas_true, registered_agrees, Hreg.
  - apply Forall2_app; [done|]. repeat constructor. by apply adm_transition_row_reads.
Qed.

Lemma register_agrees ag t s clock :
  plane_mem_inv w -> plane_call_ok (PRegister ag t s) w ->
  plane_steps_agree (settled (PRegister ag t s) clock db) (plane_mem_call (PRegister ag t s) w).
Proof using Hr.
  intros [_ Hc] (Hs & Hid & Hp & Hn & Hb & Hv). open_call adm_register_body. rewrite (agents_has _ _ _ (pr_agents _ _ Hr)).
  unfold mem_adm_commit_registration. cbn. rewrite Hc. cbn. unfold agent_get, dhas.
  destruct (dget (agent_id ag) (pm_agents w)) as [old|] eqn:Hag; [by destruct w; apply plane_steps_same|].
  unfold validate_transition_invariants. change (0 + 1) with 1. rewrite Hp, Hn, Hb, Hv, !Z.eqb_refl, !bool_decide_true by done.
  rewrite orb_false_r.
  destruct (negb (as_version s =? 1)) eqn:H2, (negb (is_legal_administrative_transition _ _)) eqn:H3;
    cbn; rewrite ?H2, ?H3; try by destruct w; apply plane_steps_same.
  rewrite bool_decide_false by (intros Hx%(pr_registered _ _ Hr)%dhas_true;
    rewrite (agents_has _ _ _ (pr_agents _ _ Hr)) in Hx; apply dhas_true in Hx as [? ?]; congruence).
  split; [done|]. destruct Hr as [Ha Hm Hf Hl He Hel Hu]. constructor; simpl; try done.
  - by apply agents_saved.
  - by apply adm_states_set.
  - intros b. rewrite lookup_insert, dget_dset.
    destruct (decide (agent_id ag = b)), (decide (b = agent_id ag)); simplify_eq; eauto.
  - apply Forall2_app; [done|]. repeat constructor. by apply adm_transition_row_reads.
Qed.

Lemma enf_epoch_agrees a :
  match pd_enf db !! a with Some r => xm_epoch r | None => 0 end = epoch_of (er_states (pm_enf w) !! a).
Proof using Hr. rewrite (pr_enf _ _ Hr). by destruct (pd_enf db !! a). Qed.

Lemma enf_generation_agrees a :
  match pd_enf db !! a with Some r => xm_recovery_generation r | None => 0 end
  = generation_of (er_states (pm_enf w) !! a).
Proof using Hr. rewrite (pr_enf _ _ Hr). by destruct (pd_enf db !! a). Qed.

Lemma record_enf_agrees t s e clock :
  plane_mem_inv w -> plane_call_ok (PRecordEnf t s e) w ->
  plane_steps_agree (settled (PRecordEnf t s e) clock db) (plane_mem_call (PRecordEnf t s e) w).
Proof using Hr.
  intros [Hok _] (Hs & Hreg & Htr). open_call enf_record_body.
  rewrite (registered_agrees _ Hreg), enf_epoch_agrees, enf_generation_agrees.
  cbn. unfold mem_enf_record_transition. rewrite mem_enf_current_epoch by done.
  destruct (negb (_ =? e) || _) eqn:H1; [by destruct w; apply plane_steps_same|].
  destruct ((es_recovery_generation s =? _) || _) eqn:H2; [|by destruct w; apply plane_steps_same].
  split; [done|]. destruct Hr as [Ha Hm Hf Hl He Hel Hu]. constructor; simpl; try done.
  - intros b. rewrite !lookup_insert. destruct (decide (et_agent_id t = b)); [|apply He].
    simpl. by rewrite enf_state_row_reads.
  - apply Forall2_app; [done|]. repeat constructor. by apply enf_transition_row_reads.
Qed.

Lemma epoch_agrees a as_of clock : plane_steps_agree (settled (PEpoch a as_of) clock db) (plane_mem_call (PEpoch a as_of) w).
Proof using Hr.
  open_call enf_epoch_body. unfold mem_enf_get_epoch, count.
  rewrite (Forall2_length _ _ _ (Forall2_filter_agree _ _ (fun t => bool_decide (et_agent_id t = a)
    && bool_decide (et_action t = REINSTATE) && (et_occurred_at t <=? as_of)) _ _
    (pr_enf_ledger _ _ Hr) (fun r t H => epoch_entry a as_of r t H))).
  by apply plane_steps_same.
Qed.

Lemma list_adm_agrees a clock : plane_steps_agree (settled (PListAdm a) clock db) (plane_mem_call (PListAdm a) w).
Proof using Hr.
  open_call adm_list_body. unfold adm_row_leb.
  rewrite (ledger_reads adm_transition_of_row tm_agent_id at_agent_id
    (fun r => (tm_occurred_at r, tm_transition_id r)) (fun t => (at_occurred_at t, at_transition_id t))
    _ _ _ (pr_adm_ledger _ _ Hr) adm_transition_fields).
  by apply plane_steps_same.
Qed.

Lemma list_enf_agrees a clock : plane_steps_agree (settled (PListEnf a) clock db) (plane_mem_call (PListEnf a) w).
Proof using Hr.
  open_call enf_list_body. unfold enf_row_leb.
  rewrite (ledger_reads enf_transition_of_row ym_agent_id et_agent_id
    (fun r => (ym_occurred_at r, ym_transition_id r)) (fun t => (et_occurred_at t, et_transition_id t))
    _ _ _ (pr_enf_ledger _ _ Hr) enf_transition_fields).
  by apply plane_steps_same.
Qed.

Lemma list_audit_agrees a clock : plane_steps_agree (settled (PListAudit a) clock db) (plane_mem_call (PListAudit a) w).
Proof using Hr.
  open_call audit_list_body. unfold audit_row_leb.
  rewrite (ledger_reads audit_of_row um_agent_id ae_agent_id
    (fun r => (um_occurred_at r, um_event_id r)) (fun e => (ae_occurred_at e, ae_event_id e))
    _ _ _ (pr_audit _ _ Hr) audit_fields).
  by apply plane_steps_same.
Qed.

Lemma audit_agrees e clock : plane_steps_agree (settled (PAudit e) clock db) (plane_mem_call (PAudit e) w).
Proof using Hr.
  split; [done|]. destruct Hr as [Ha Hm Hf Hl He Hel Hu]. constructor; simpl; try done.
  apply Forall2_app; [done|]. repeat constructor. apply audit_row_reads.
Qed.

Lemma get_agent_agrees a clock : plane_steps_agree (settled (PGetAgent a) clock db) (plane_mem_call (PGetAgent a) w).
Proof using Hr.
  pose proof (agents_get _ _ a (pr_agents _ _ Hr)) as H. open_call agent_get_body. unfold agent_get.
  destruct (dget a (pd_agents db)) as [r|], (dget a (pm_agents w)) as [ag|]; try done.
  apply (inj Some) in H. rewrite H. by apply plane_steps_same.
Qed.

Lemma get_enf_agrees a clock : plane_steps_agree (settled (PGetEnf a) clock db) (plane_mem_call (PGetEnf a) w).
Proof using Hr.
  open_call enf_get_body. unfold mem_enf_get_state. rewrite (pr_enf _ _ Hr). by apply plane_steps_same.
Qed.

(** Every accepted call agrees with the in-memory adapters. *)
Lemma settled_agrees c clock :
  plane_mem_inv w -> plane_call_ok c w -> plane_steps_agree (settled c clock db) (plane_mem_call c w).
Proof using Hr.
  intros Hi Hc. destruct c.
  - apply get_agent_agrees.
  - apply save_agent_agrees.
  - apply list_agents_agree.
  - apply get_adm_agrees.
  - by apply record_adm_agrees.
  - by apply register_agrees.
  - apply list_adm_agrees.
  - apply get_enf_agrees.
  - by apply record_enf_agrees.
  - apply list_enf_agrees.
  - apply epoch_agrees.
  - apply audit_agrees.
  - apply list_audit_agrees.
Qed.
End agreement.

Lemma plane_mem_call_inv c w :
  plane_mem_inv w -> plane_call_ok c w -> plane_mem_inv (plane_mem_call c w).1.
Proof.
  intros [Hok Hc] Hcall. destruct c as [| | | |t s v|ag t s| | |t s e| | | |]; try done; simpl.
  - unfold answering. cbv [mbind comp_bind mret comp_ret on_adm zoom]. cbv beta iota.
    destruct (mem_adm_record_transition t s v (pm_adm w)) as [r [b|x]] eqn:Hm; split; simpl; try done;
      unfold mem_adm_record_transition in Hm; by repeat case_match; simplify_eq.
  - unfold answering. cbv [mbind comp_bind mret comp_ret on_registration zoom]. cbv beta iota.
    destruct (mem_adm_commit_registration ag t s (pm_agents w, pm_adm w)) as [[ags r] [b|x]] eqn:Hm;
      split; simpl; try done; unfold mem_adm_commit_registration in Hm; by repeat case_match; simplify_eq.
  - unfold answering. cbv [mbind comp_bind mret comp_ret on_enf zoom]. cbv beta iota.
    destruct (mem_enf_record_transition t s e (pm_enf w)) as [r x] eqn:Hm.
    assert (enf_repo_ok r) as Hr.
    { destruct (decide (x = Ok true)) as [->|Hx]; [by eapply mem_enf_committed|].
      by rewrite (mem_enf_refused t s e _ _ _ Hm Hx). }
    by destruct x.
Qed.

(** ** Histories *)

Definition plane_refusal (engine : PlaneDb -> PlaneDb -> option exn) (c : PlaneCall) (clock : Z)
  (db : PlaneDb) : option exn := engine_refusal engine (plane_body c clock) db.

Lemma plane_call_refused engine c clock db e :
  plane_refusal engine c clock db = Some e -> exists e', plane_call engine c clock db = (db, Err e').
Proof.
  intros H. unfold plane_call, try_except. rewrite (transaction_refused engine _ _ _ H). by eexists.
Qed.

Lemma plane_call_settled engine c clock db :
  plane_refusal engine c clock db = None -> plane_call engine c clock db = settled c clock db.
Proof.
  intros H. unfold plane_call, try_except, settled. rewrite (transaction_accepted engine _ _ H).
  by destruct (plane_body c clock db) as [db' [a|e]].
Qed.


(** ** Witness: an engine that loses its first enforcement commit *)

Definition demo_agent_row : Agent := mkAgent "a" "Agent" "ops" TIER_HIGH ["file.read"%string] STATUS_ACTIVE.
Definition demo_registration : AdministrativeTransition :=
  mkAdmTransition "t1" "a" REGISTER (mkActor SYSTEM "system") "Agent registered" None ADM_REGISTERED 0 1 "c1" 10.
Definition demo_activation : AdministrativeTransition :=
  mkAdmTransition "t2" "a" ACTIVATE (mkActor HUMAN "ops") "go" (Some ADM_REGISTERED) ADM_ACTIVE 1 2 "c2" 20.
Definition demo_suspension : EnforcementTransition :=
  mkEnfTransition "e1" "a" SUSPEND "runtime" "risk" STATUS_ACTIVE STATUS_SUSPENDED
    (Some (mkTrigger (Some "s"%string) (Some RISK_CRITICAL) (Some 97) ["f1"%string])) 30.
Definition demo_suspended : AgentEnforcementState :=
  mkEnfState "a" 1 (Some 30) (Some "risk"%string) None 0 0 0 (Some 30).
Definition demo_refusal : AdministrativeAuditEvent :=
  mkAdmAudit "r1" "a" DISABLE (mkActor HUMAN "eve") ARC_NOT_AUTHORIZED "no" (Some ADM_ACTIVE) "c3" 40.

Definition losing_engine (db db' : PlaneDb) : option exn :=
  if bool_decide (length (pd_enf_ledger db) = 0%nat /\ length (pd_enf_ledger db') = 1%nat
                  /\ length (pd_audit db) = 0%nat)
  then Some (OtherException "OperationalError") else None.

Definition plane_attempts : list (PlaneCall * Z) :=
  [(PRegister demo_agent_row demo_registration (mkAdmState "a" ADM_REGISTERED 1 (Some 10)), 10);
   (PRegister demo_agent_row demo_registration (mkAdmState "a" ADM_REGISTERED 1 (Some 10)), 11);
   (PRecordAdm demo_activation (mkAdmState "a" ADM_ACTIVE 2 (Some 20)) 1, 20);
   (PRecordAdm demo_activation (mkAdmState "a" ADM_ACTIVE 2 (Some 20)) 1, 21);
   (PRecordEnf demo_suspension demo_suspended 0, 30); (PAudit demo_refusal, 40);
   (PRecordEnf demo_suspension demo_suspended 0, 41); (PGetEnf "a", 42); (PListEnf None, 43);
   (PEpoch "a" 50, 44); (PGetAdm "a", 45); (PListAdm (Some "a"%string), 46); (PListAgents, 47);
   (PListAudit None, 48)].

Lemma empty_plane_refines : plane_refines empty_plane_db empty_plane_mem.
Proof. constructor; simpl; try done; try constructor. intros a [? H]. by rewrite lookup_empty in H. Qed.

Lemma empty_plane_inv : plane_mem_inv empty_plane_mem.
Proof. split; [|done]. by intros a. Qed.

