(* ===== verification/Approvals.v ===== *)
(** * Approval continuations (models/approval_continuation.py and its repositories)

    A continuation is human-approved authority that waits for a single claim: the data
    model with its deep immutability and the in-memory repository
    ([in_memory/approval_continuation_repository.py]) with its state machine.  The durable
    repository is in [SqlApprovals]. *)

From S2P Require Import Prelude PyDict Models Sessions SqlStore.
Local Open Scope Z_scope.

(** ** Parameters

    What [Mapping[str, Any]] holds: scalars, lists, tuples, sets and mappings with text
    keys.  A set is the list of its elements in iteration order; [VProxy] is a
    [MappingProxyType]. *)

Inductive PyVal :=
| VNone | VBool (b : bool) | VInt (n : Z) | VFloat (repr : string) | VText (s : string)
| VList (l : list PyVal) | VTuple (l : list PyVal) | VSet (l : list PyVal) | VFrozenSet (l : list PyVal)
| VDict (d : list (string * PyVal)) | VProxy (d : list (string * PyVal)).

Fixpoint deep_freeze (v : PyVal) : PyVal :=
  match v with
  | VDict d | VProxy d => VProxy (List.map (fun '(k, v) => (k, deep_freeze v)) d)
  | VList l | VTuple l => VTuple (List.map deep_freeze l)
  | VSet l | VFrozenSet l => VFrozenSet (List.map deep_freeze l)
  | v => v
  end.

Fixpoint deep_unfreeze (v : PyVal) : PyVal :=
  match v with
  | VDict d | VProxy d => VDict (List.map (fun '(k, v) => (k, deep_unfreeze v)) d)
  | VList l | VTuple l | VSet l | VFrozenSet l => VList (List.map deep_unfreeze l)
  | v => v
  end.

(** Nothing mutable below: no list, no set, no plain dict. *)
Fixpoint deeply_frozen (v : PyVal) : bool :=
  match v with
  | VDict _ | VList _ | VSet _ => false
  | VProxy d => forallb (fun '(_, v) => deeply_frozen v) d
  | VTuple l | VFrozenSet l => forallb deeply_frozen l
  | _ => true
  end.

(** No set anywhere: what a JSON column can represent. *)
Fixpoint set_free (v : PyVal) : bool :=
  match v with
  | VSet _ | VFrozenSet _ => false
  | VDict d | VProxy d => forallb (fun '(_, v) => set_free v) d
  | VTuple l | VList l => forallb set_free l
  | _ => true
  end.

(** ** Continuations *)

Inductive ContinuationState := PENDING | APPROVED | REJECTED | CS_EXPIRED | CS_CONSUMED.

#[global] Instance ContinuationState_eq_dec : EqDecision ContinuationState.
Proof. solve_decision. Defined.

Definition continuation_state_value (s : ContinuationState) : string :=
  match s with PENDING => "PENDING" | APPROVED => "APPROVED" | REJECTED => "REJECTED"
          | CS_EXPIRED => "EXPIRED" | CS_CONSUMED => "CONSUMED" end%string.

#[export] Program Instance stored_continuation_state : StoredEnum ContinuationState := {|
  enum_value := continuation_state_value;
  enum_of := find_member continuation_state_value [PENDING; APPROVED; REJECTED; CS_EXPIRED; CS_CONSUMED];
|}.
Next Obligation. by intros []. Qed.
Next Obligation. intros s e. apply find_member_error. Qed.

Definition ALLOWED_CONTINUATION_TRANSITIONS : list (ContinuationState * ContinuationState) :=
  [(PENDING, APPROVED); (PENDING, REJECTED); (PENDING, CS_EXPIRED); (APPROVED, CS_CONSUMED)].

Record ApprovalContinuation := mkContinuation {
  ct_grant_id : string;
  ct_session_id : string;
  ct_agent_id : string;
  ct_tool_id : string;
  ct_tool_version : string;
  ct_execution_parameters : PyVal;
  ct_originating_audit_event_id : string;
  ct_risk_score : Z;
  ct_required_response : string;
  ct_enforcement_epoch : Z;
  ct_state : ContinuationState;
  ct_created_at : Z;
  ct_expires_at : Z;
  ct_approved_by : option string;
  ct_consumed_at : option Z;
  ct_capability_profile_id : option string;
  ct_capability_digest : option string;
}.

(** The model's constructor: the field constraints, then [_freeze_parameters]. *)
Definition new_continuation (c : ApprovalContinuation) : result ApprovalContinuation :=
  if forallb str_nonempty
       [ct_grant_id c; ct_session_id c; ct_agent_id c; ct_tool_id c; ct_tool_version c;
        ct_originating_audit_event_id c; ct_required_response c]
     && (0 <=? ct_risk_score c) && (0 <=? ct_enforcement_epoch c)
     && match ct_execution_parameters c with VDict _ | VProxy _ => true | _ => false end
  then Ok (mkContinuation (ct_grant_id c) (ct_session_id c) (ct_agent_id c) (ct_tool_id c)
             (ct_tool_version c) (deep_freeze (ct_execution_parameters c))
             (ct_originating_audit_event_id c) (ct_risk_score c) (ct_required_response c)
             (ct_enforcement_epoch c) (ct_state c) (ct_created_at c) (ct_expires_at c)
             (ct_approved_by c) (ct_consumed_at c) (ct_capability_profile_id c)
             (ct_capability_digest c))
  else Err ValueError.

(** [model_copy(update=...)] of the three fields a transition may touch. *)
Definition with_outcome (s : ContinuationState) (approved_by : option string) (consumed_at : option Z)
  (c : ApprovalContinuation) : ApprovalContinuation :=
  mkContinuation (ct_grant_id c) (ct_session_id c) (ct_agent_id c) (ct_tool_id c)
    (ct_tool_version c) (ct_execution_parameters c) (ct_originating_audit_event_id c)
    (ct_risk_score c) (ct_required_response c) (ct_enforcement_epoch c) s (ct_created_at c)
    (ct_expires_at c) approved_by consumed_at (ct_capability_profile_id c) (ct_capability_digest c).

(** ** In-memory repository *)

Abbreviation ContinuationRepo := (pydict string ApprovalContinuation).

Definition InvalidContinuationTransitionError : exn := OtherException "InvalidContinuationTransitionError".

Definition create_continuation (c : ApprovalContinuation) (r : ContinuationRepo) : ContinuationRepo :=
  dset (ct_grant_id c) c r.

Definition get_continuation (gid : string) (r : ContinuationRepo) : option ApprovalContinuation :=
  dget gid r.

Definition named_operator (approved_by : option string) : bool :=
  match approved_by with Some a => str_nonempty (str_strip a) | None => false end.

(** The checks before any store is touched: the transition table, then the fields each
    target state requires. *)
Definition check_transition (from_state to_state : ContinuationState) (consumed_at : option Z)
  (approved_by : option string) : result unit :=
  if negb (bool_decide ((from_state, to_state) ∈ ALLOWED_CONTINUATION_TRANSITIONS))
  then Err InvalidContinuationTransitionError
  else
    let bad := match to_state with
               | APPROVED => negb (named_operator approved_by) || bool_decide (consumed_at <> None)
               | REJECTED => bool_decide (consumed_at <> None)
               | CS_EXPIRED => bool_decide (approved_by <> None) || bool_decide (consumed_at <> None)
               | CS_CONSUMED => bool_decide (consumed_at = None)
               | PENDING => false
               end in
    if bad then Err InvalidContinuationTransitionError else Ok tt.

(** The fields the transition writes. *)
Definition transitioned (to_state : ContinuationState) (consumed_at : option Z)
  (approved_by : option string) (c : ApprovalContinuation) : ApprovalContinuation :=
  match to_state with
  | APPROVED => with_outcome to_state approved_by (ct_consumed_at c) c
  | REJECTED => with_outcome to_state
                  (match approved_by with Some a => Some a | None => ct_approved_by c end) (ct_consumed_at c) c
  | CS_CONSUMED => with_outcome to_state (ct_approved_by c) consumed_at c
  | _ => with_outcome to_state (ct_approved_by c) (ct_consumed_at c) c
  end.

Definition transition_continuation (gid : string) (from_state to_state : ContinuationState)
  (consumed_at : option Z) (approved_by : option string) : Comp ContinuationRepo bool := fun r =>
  match check_transition from_state to_state consumed_at approved_by with
  | Err e => (r, Err e)
  | Ok _ =>
      match dget gid r with
      | None => (r, Ok false)
      | Some c =>
          if negb (bool_decide (ct_state c = from_state)) then (r, Ok false)
          else (dset gid (transitioned to_state consumed_at approved_by c) r, Ok true)
      end
  end.

Definition continuation_selected (agent_id : option string) (state : option ContinuationState)
  (c : ApprovalContinuation) : bool :=
  match agent_id with Some a => bool_decide (ct_agent_id c = a) | None => true end &&
  match state with Some s => bool_decide (ct_state c = s) | None => true end.

Definition list_continuations (agent_id : option string) (state : option ContinuationState)
  (r : ContinuationRepo) : list ApprovalContinuation :=
  List.filter (continuation_selected agent_id state) (dvalues r).

(** ** Calls *)

Inductive ApprovalCall :=
| ACreate (c : ApprovalContinuation)
| AGet (gid : string)
| ATransition (gid : string) (from_state to_state : ContinuationState) (consumed_at : option Z)
    (approved_by : option string)
| AList (agent_id : option string) (state : option ContinuationState).

Inductive ApprovalAnswer :=
| AaUnit | AaBool (b : bool) | AaGet (c : option ApprovalContinuation) | AaList (l : list ApprovalContinuation).

Definition approval_call (c : ApprovalCall) : Comp ContinuationRepo ApprovalAnswer := fun r =>
  match c with
  | ACreate x => (create_continuation x r, Ok AaUnit)
  | AGet gid => (r, Ok (AaGet (get_continuation gid r)))
  | ATransition gid f t consumed approved =>
      let '(r, x) := transition_continuation gid f t consumed approved r in
      (r, match x with Ok b => Ok (AaBool b) | Err e => Err e end)
  | AList a s => (r, Ok (AaList (list_continuations a s r)))
  end.

(** ** Deep immutability *)

Section PyVal_ind.
Context (P : PyVal -> Prop).
Context (Hnone : P VNone) (Hbool : forall b, P (VBool b)) (Hint : forall n, P (VInt n))
        (Hfloat : forall s, P (VFloat s)) (Htext : forall s, P (VText s)).
Context (Hlist : forall l, Forall P l -> P (VList l)) (Htuple : forall l, Forall P l -> P (VTuple l))
        (Hset : forall l, Forall P l -> P (VSet l)) (Hfrozen : forall l, Forall P l -> P (VFrozenSet l)).
Context (Hdict : forall d, Forall (fun p => P p.2) d -> P (VDict d))
        (Hproxy : forall d, Forall (fun p => P p.2) d -> P (VProxy d)).

Fixpoint PyVal_nested_ind (v : PyVal) : P v :=
  let fix items (l : list PyVal) : Forall P l :=
    match l with [] => List.Forall_nil _ | v :: l => @List.Forall_cons _ P v l (PyVal_nested_ind v) (items l) end in
  let fix members (d : list (string * PyVal)) : Forall (fun p => P p.2) d :=
    match d with [] => List.Forall_nil _ | p :: d => @List.Forall_cons _ (fun p => P p.2) p d (PyVal_nested_ind p.2) (members d) end in
  match v with
  | VNone => Hnone | VBool b => Hbool b | VInt n => Hint n | VFloat s => Hfloat s | VText s => Htext s
  | VList l => Hlist l (items l) | VTuple l => Htuple l (items l)
  | VSet l => Hset l (items l) | VFrozenSet l => Hfrozen l (items l)
  | VDict d => Hdict d (members d) | VProxy d => Hproxy d (members d)
  end.
End PyVal_ind.

Lemma forallb_map_Forall {A B} (p : B -> bool) (f : A -> B) l :
  Forall (fun x => p (f x) = true) l -> forallb p (List.map f l) = true.
Proof. induction 1 as [|x l Hx _ IH]; simpl; [done|]. by rewrite Hx. Qed.

Lemma map_Forall_id {A} (f : A -> A) l : Forall (fun x => f x = x) l -> List.map f l = l.
Proof. induction 1 as [|x l Hx _ IH]; simpl; congruence. Qed.

(** Freezing leaves nothing mutable. *)
Lemma deep_freeze_frozen v : deeply_frozen (deep_freeze v) = true.
Proof.
  induction v as [| | | | |l IH|l IH|l IH|l IH|d IH|d IH] using PyVal_nested_ind; simpl; try done;
    try by apply forallb_map_Forall.
  all: apply forallb_map_Forall; eapply Forall_impl; [exact IH|]; by intros [k v].
Qed.

(** Freezing again changes nothing, and neither does going through a column and back, for a
    value a column can represent. *)
Lemma thaw_freeze v : deeply_frozen v = true -> set_free v = true -> deep_freeze (deep_unfreeze v) = v.
Proof.
  induction v as [| | | | |l IH|l IH|l IH|l IH|d IH|d IH] using PyVal_nested_ind; simpl; try done;
    intros Hf Hs; f_equal; rewrite List.map_map; apply map_Forall_id.
  - rewrite forallb_forall in Hf, Hs. apply List.Forall_forall. intros x Hx.
    rewrite List.Forall_forall in IH. by apply IH; auto.
  - rewrite forallb_forall in Hf, Hs. apply List.Forall_forall. intros [k x] Hx.
    rewrite List.Forall_forall in IH. specialize (IH _ Hx). simpl in IH. rewrite IH; [done|..].
    + apply (Hf _ Hx).
    + apply (Hs _ Hx).
Qed.

(** ** The state machine over histories *)

(** A history from an empty repository, with every call's answer. *)
Definition approval_step (s : ContinuationRepo * list (ApprovalCall * result ApprovalAnswer)) (c : ApprovalCall) :=
  let '(r, log) := s in let '(r', x) := approval_call c r in (r', log ++ [(c, x)]).
Definition approval_run (cs : list ApprovalCall) : ContinuationRepo * list (ApprovalCall * result ApprovalAnswer) :=
  fold_left approval_step cs ([], []).

Definition created_id (c : ApprovalCall) : option string :=
  match c with ACreate x => Some (ct_grant_id x) | _ => None end.

(** A new continuation: built by the constructor, PENDING, decided by nobody yet. *)
Definition fresh_creation (c : ApprovalCall) : Prop :=
  match c with
  | ACreate x => (exists raw, new_continuation raw = Ok x) /\ ct_state x = PENDING /\
                 ct_approved_by x = None /\ ct_consumed_at x = None
  | _ => True
  end.

(** The transitions of [gid] that succeeded, in order. *)
Definition succeeded (gid : string) (e : ApprovalCall * result ApprovalAnswer)
  : option (ContinuationState * ContinuationState) :=
  match e with
  | (ATransition g f t _ _, Ok (AaBool true)) => if bool_decide (g = gid) then Some (f, t) else None
  | _ => None
  end.
Definition successes (gid : string) (log : list (ApprovalCall * result ApprovalAnswer)) :=
  omap (succeeded gid) log.

(** The only way into each state. *)
Definition path_to (s : ContinuationState) : list (ContinuationState * ContinuationState) :=
  match s with
  | PENDING => []
  | APPROVED => [(PENDING, APPROVED)]
  | REJECTED => [(PENDING, REJECTED)]
  | CS_EXPIRED => [(PENDING, CS_EXPIRED)]
  | CS_CONSUMED => [(PENDING, APPROVED); (APPROVED, CS_CONSUMED)]
  end.

(** A stored continuation against the one created. *)
Definition continues (c0 c : ApprovalContinuation) : Prop :=
  c = with_outcome (ct_state c) (ct_approved_by c) (ct_consumed_at c) c0 /\
  (ct_state c = APPROVED \/ ct_state c = CS_CONSUMED -> named_operator (ct_approved_by c) = true) /\
  (ct_consumed_at c <> None <-> ct_state c = CS_CONSUMED).

Lemma allowed_cases f t : (f, t) ∈ ALLOWED_CONTINUATION_TRANSITIONS ->
  (f, t) = (PENDING, APPROVED) \/ (f, t) = (PENDING, REJECTED) \/ (f, t) = (PENDING, CS_EXPIRED) \/
  (f, t) = (APPROVED, CS_CONSUMED).
Proof. unfold ALLOWED_CONTINUATION_TRANSITIONS. set_solver. Qed.

Lemma outcome_continues c0 c s a k :
  continues c0 c -> (s = APPROVED \/ s = CS_CONSUMED -> named_operator a = true) ->
  (k <> None <-> s = CS_CONSUMED) -> continues c0 (with_outcome s a k c).
Proof. intros (Hc & _ & _) Ha Hk. split; [by rewrite Hc at 1|done]. Qed.

Lemma transitioned_continues c0 c f t consumed approved :
  check_transition f t consumed approved = Ok tt -> ct_state c = f -> continues c0 c ->
  continues c0 (transitioned t consumed approved c) /\
  path_to t = path_to f ++ [(f, t)] /\ ct_state (transitioned t consumed approved c) = t.
Proof.
  unfold check_transition. destruct (negb _) eqn:Hal; [done|].
  apply negb_false_iff, bool_decide_eq_true in Hal. apply allowed_cases in Hal.
  intros Hbad Hst Hc. pose proof Hc as (_ & Hop & Hco). rewrite Hst in Hop, Hco.
  destruct Hal as [Hal|[Hal|[Hal|Hal]]]; injection Hal as -> ->;
    (split; [|done]); apply outcome_continues; auto; try by intros [].
  - intros _. by destruct (named_operator approved).
  - intuition congruence.
  - intuition congruence.
  - intuition congruence.
  - case_bool_decide; [done|]. intuition congruence.
Qed.

Lemma approval_run_snoc cs c :
  approval_run (cs ++ [c]) =
    (let '(r, log) := approval_run cs in let '(r', x) := approval_call c r in (r', log ++ [(c, x)])).
Proof. unfold approval_run. by rewrite fold_left_app. Qed.

(** What the repository holds about [gid] after the calls [cs]. *)
Definition continuation_story (cs : list ApprovalCall) (gid : string)
  (s : ContinuationRepo * list (ApprovalCall * result ApprovalAnswer)) : Prop :=
  match get_continuation gid s.1 with
  | None => successes gid s.2 = []
  | Some c =>
      successes gid s.2 = path_to (ct_state c) /\
      exists c0, ACreate c0 ∈ cs /\ ct_grant_id c0 = gid /\ continues c0 c
  end.

Lemma successes_snoc gid log e :
  successes gid (log ++ [e]) = successes gid log ++ (match succeeded gid e with Some p => [p] | None => [] end).
Proof. unfold successes. rewrite omap_app. simpl. by destruct (succeeded gid e). Qed.

(** A call that writes nothing about [gid] and is no successful transition of it. *)
Lemma story_unchanged cs gid r r' log c x :
  continuation_story cs gid (r, log) -> get_continuation gid r' = get_continuation gid r ->
  succeeded gid (c, x) = None -> continuation_story (cs ++ [c]) gid (r', log ++ [(c, x)]).
Proof.
  unfold continuation_story; simpl. intros H -> Hs. rewrite successes_snoc. simpl. rewrite Hs, app_nil_r.
  destruct (get_continuation gid r) as [c1|]; [|done].
  destruct H as (? & c0 & ? & ?). split; [done|]. exists c0. split; [|done]. apply elem_of_app. by left.
Qed.

Lemma fresh_continues c0 : fresh_creation (ACreate c0) -> continues c0 c0.
Proof.
  intros (_ & Hs & Ha & Hc). unfold continues. rewrite Hs, Ha, Hc. split_and!.
  - by destruct c0; simpl in *; simplify_eq.
  - by intros [|].
  - done.
Qed.

Lemma story_step cs c gid :
  NoDup (omap created_id (cs ++ [c])) -> fresh_creation c ->
  continuation_story cs gid (approval_run cs) ->
  continuation_story (cs ++ [c]) gid (approval_run (cs ++ [c])).
Proof.
  rewrite approval_run_snoc. destruct (approval_run cs) as [r log]. intros Hnd Hf H.
  destruct c as [c|g|g f t consumed approved|a s]; simpl; try by eapply story_unchanged.
  - destruct (decide (ct_grant_id c = gid)) as [<-|Hne].
    2:{ eapply story_unchanged; [done| |done]. unfold get_continuation, create_continuation.
        by rewrite dget_dset_ne. }
    unfold continuation_story in *; simpl in *. unfold create_continuation, get_continuation in *.
    rewrite dget_dset_eq. rewrite successes_snoc. simpl. rewrite app_nil_r.
    destruct (dget (ct_grant_id c) r) as [c1|] eqn:Hg.
    + destruct H as (_ & c0 & Hin & Hid & _). exfalso. rewrite omap_app in Hnd. simpl in Hnd.
      apply NoDup_app in Hnd as (_ & Hd & _). apply (Hd (ct_grant_id c)).
      * apply list_elem_of_omap. exists (ACreate c0). by rewrite <-Hid.
      * by apply list_elem_of_singleton.
    + destruct (Hf) as (_ & Hs & _). rewrite H, Hs. split; [done|]. exists c. split; [set_solver|].
      split; [done|]. by apply fresh_continues.
  - unfold transition_continuation. destruct (check_transition f t consumed approved) as [[]|e] eqn:Hct;
      [|by eapply story_unchanged].
    destruct (dget g r) as [c|] eqn:Hg; [|by eapply story_unchanged].
    destruct (negb _) eqn:Hst; [by eapply story_unchanged|].
    apply negb_false_iff, bool_decide_eq_true in Hst.
    destruct (decide (g = gid)) as [->|Hne].
    2:{ eapply story_unchanged; [done| |simpl; by rewrite bool_decide_eq_false_2].
        unfold get_continuation. by rewrite dget_dset_ne. }
    unfold continuation_story, get_continuation in *; simpl in *. rewrite Hg in H.
    rewrite dget_dset_eq, successes_snoc. simpl. rewrite bool_decide_eq_true_2; [|done].
    destruct H as (Hp & c0 & Hin & Hid & Hc).
    destruct (transitioned_continues c0 c f t consumed approved Hct Hst Hc) as (Hc' & Hpath & Hs').
    rewrite Hp, Hs', Hpath, Hst. split; [done|]. exists c0. split; [set_solver|done].
Qed.

Lemma story_holds cs gid :
  NoDup (omap created_id cs) -> Forall fresh_creation cs -> continuation_story cs gid (approval_run cs).
Proof.
  induction cs as [|c cs IH] using rev_ind; intros Hnd Hf; [done|].
  apply Forall_app in Hf as [Hf Hc]. apply story_step; [done|exact (List.Forall_inv Hc)|].
  apply IH; [|done]. rewrite omap_app in Hnd. by apply NoDup_app in Hnd as [? _].
Qed.


Definition demo_parameters : PyVal :=
  VDict [("path", VText "/ws/a.txt"); ("flags", VList [VInt 1; VDict [("deep", VBool true)]])]%string.
Definition demo_raw_continuation (gid : string) (created : Z) : ApprovalContinuation :=
  mkContinuation gid "s" "a" "file.write" "1.0" demo_parameters "ev1" 70 "REQUIRE_APPROVAL" 0
    PENDING created 100 None None None None.
Definition demo_continuation (gid : string) (created : Z) : ApprovalContinuation :=
  match new_continuation (demo_raw_continuation gid created) with
  | Ok c => c
  | Err _ => demo_raw_continuation gid created
  end.
Definition demo_calls : list ApprovalCall :=
  [ACreate (demo_continuation "g1" 5); ACreate (demo_continuation "g2" 3);
   ATransition "g1" PENDING APPROVED None (Some "  "); ATransition "g1" PENDING APPROVED None (Some "ops");
   ATransition "g1" PENDING REJECTED None None; ATransition "g1" APPROVED CS_CONSUMED (Some 9) None;
   ATransition "g1" APPROVED CS_CONSUMED (Some 10) None; ATransition "g2" CS_CONSUMED PENDING None None;
   ATransition "g2" PENDING CS_EXPIRED None None; AList None None; AGet "g1"]%string.

Lemma demo_creations : NoDup (omap created_id demo_calls) /\ Forall fresh_creation demo_calls.
Proof.
  split; [by vm_compute; repeat constructor; set_solver|].
  unfold demo_calls. repeat constructor.
  - by exists (demo_raw_continuation "g1" 5).
  - by exists (demo_raw_continuation "g2" 3).
Qed.

