(* ===== verification/SqlApprovals.v ===== *)
(** * Durable approval continuations (repositories/sql/approval_continuation_repository.py)

    Rows of the table [approval_continuations] and the adapter's operations as transactions
    over them.  On continuations without sets in their parameters and without a capability
    binding (the table has no column for either) it refines the in-memory repository. *)

From S2P Require Import Prelude PyDict Models Sessions SqlStore Approvals.
Local Open Scope Z_scope.

(** ** Rows

    The JSON column holds an object. *)

Record ApprovalContinuationModel := mkContinuationModel {
  cr_grant_id : string;
  cr_session_id : string;
  cr_agent_id : string;
  cr_tool_id : string;
  cr_tool_version : string;
  cr_execution_parameters : list (string * PyVal);
  cr_originating_audit_event_id : string;
  cr_risk_score : Z;
  cr_required_response : string;
  cr_enforcement_epoch : Z;
  cr_state : string;
  cr_created_at : Z;
  cr_expires_at : Z;
  cr_approved_by : option string;
  cr_consumed_at : option Z;
}.

(** The table by primary key, in insertion order. *)
Abbreviation ContinuationDb := (pydict string ApprovalContinuationModel).

Definition json_members (v : PyVal) : list (string * PyVal) :=
  match deep_unfreeze v with VDict d => d | _ => [] end.

Definition continuation_row (c : ApprovalContinuation) : ApprovalContinuationModel :=
  mkContinuationModel (ct_grant_id c) (ct_session_id c) (ct_agent_id c) (ct_tool_id c)
    (ct_tool_version c) (json_members (ct_execution_parameters c)) (ct_originating_audit_event_id c)
    (ct_risk_score c) (ct_required_response c) (ct_enforcement_epoch c)
    (enum_value (ct_state c)) (ct_created_at c) (ct_expires_at c) (ct_approved_by c) (ct_consumed_at c).

(** [_to_domain]: the constructor runs again on what the row holds. *)
Definition continuation_of_row (r : ApprovalContinuationModel) : result ApprovalContinuation :=
  s ← enum_of (cr_state r);
  new_continuation
    (mkContinuation (cr_grant_id r) (cr_session_id r) (cr_agent_id r) (cr_tool_id r) (cr_tool_version r)
       (VDict (cr_execution_parameters r)) (cr_originating_audit_event_id r) (cr_risk_score r)
       (cr_required_response r) (cr_enforcement_epoch r) s (cr_created_at r) (cr_expires_at r)
       (cr_approved_by r) (cr_consumed_at r) None None).

(** ** Operations *)

Definition continuation_create_body (c : ApprovalContinuation) : Comp ContinuationDb unit := fun db =>
  if dhas (ct_grant_id c) db then (db, Err IntegrityError)
  else (dset (ct_grant_id c) (continuation_row c) db, Ok tt).

Definition continuation_get_body (gid : string) : Comp ContinuationDb (option ApprovalContinuation) := fun db =>
  match dget gid db with
  | None => (db, Ok None)
  | Some r => (db, c ← continuation_of_row r; Ok (Some c))
  end.

Definition row_outcome (s : string) (approved_by : option string) (consumed_at : option Z)
  (r : ApprovalContinuationModel) : ApprovalContinuationModel :=
  mkContinuationModel (cr_grant_id r) (cr_session_id r) (cr_agent_id r) (cr_tool_id r)
    (cr_tool_version r) (cr_execution_parameters r) (cr_originating_audit_event_id r)
    (cr_risk_score r) (cr_required_response r) (cr_enforcement_epoch r) s (cr_created_at r)
    (cr_expires_at r) approved_by consumed_at.

(** What the transition assigns to the locked row. *)
Definition transitioned_row (to_state : ContinuationState) (consumed_at : option Z)
  (approved_by : option string) (r : ApprovalContinuationModel) : ApprovalContinuationModel :=
  let s := enum_value to_state in
  match to_state with
  | APPROVED => row_outcome s approved_by (cr_consumed_at r) r
  | REJECTED => row_outcome s (match approved_by with Some a => Some a | None => cr_approved_by r end)
                  (cr_consumed_at r) r
  | CS_CONSUMED => row_outcome s (cr_approved_by r) consumed_at r
  | _ => row_outcome s (cr_approved_by r) (cr_consumed_at r) r
  end.

Definition continuation_transition_body (gid : string) (from_state to_state : ContinuationState)
  (consumed_at : option Z) (approved_by : option string) : Comp ContinuationDb bool := fun db =>
  match dget gid db with
  | None => (db, Ok false)
  | Some r =>
      if negb (bool_decide (cr_state r = enum_value from_state)) then (db, Ok false)
      else (dset gid (transitioned_row to_state consumed_at approved_by r) db, Ok true)
  end.

Definition row_selected (agent_id : option string) (state : option ContinuationState)
  (r : ApprovalContinuationModel) : bool :=
  match agent_id with Some a => bool_decide (cr_agent_id r = a) | None => true end &&
  match state with Some s => bool_decide (cr_state r = enum_value s) | None => true end.

(** [order_by(created_at.asc(), grant_id.asc())] *)
Definition created_leb (at1 : Z) (id1 : string) (at2 : Z) (id2 : string) : bool :=
  (at1 <? at2) || (at1 =? at2) && str_leb id1 id2.
Definition row_created_leb (r q : ApprovalContinuationModel) : bool :=
  created_leb (cr_created_at r) (cr_grant_id r) (cr_created_at q) (cr_grant_id q).

Definition continuation_list_body (agent_id : option string) (state : option ContinuationState)
  : Comp ContinuationDb (list ApprovalContinuation) := fun db =>
  (db, mapR continuation_of_row
         (sort_by row_created_leb (List.filter (row_selected agent_id state) (dvalues db)))).

Section adapter.
Context (engine : ContinuationDb -> ContinuationDb -> option exn).

Definition sql_create_continuation (c : ApprovalContinuation) : Comp ContinuationDb unit :=
  transactional_session engine (continuation_create_body c).
Definition sql_get_continuation (gid : string) : Comp ContinuationDb (option ApprovalContinuation) :=
  transactional_session engine (continuation_get_body gid).
(** The checks run before the transaction opens. *)
Definition sql_transition_continuation (gid : string) (from_state to_state : ContinuationState)
  (consumed_at : option Z) (approved_by : option string) : Comp ContinuationDb bool := fun db =>
  match check_transition from_state to_state consumed_at approved_by with
  | Err e => (db, Err e)
  | Ok _ =>
      transactional_session engine
        (continuation_transition_body gid from_state to_state consumed_at approved_by) db
  end.
Definition sql_list_continuations (agent_id : option string) (state : option ContinuationState)
  : Comp ContinuationDb (list ApprovalContinuation) :=
  transactional_session engine (continuation_list_body agent_id state).
End adapter.

(** ** Calls *)

Definition sql_approval_call (engine : ContinuationDb -> ContinuationDb -> option exn)
  (c : ApprovalCall) (_ : unit) : Comp ContinuationDb ApprovalAnswer :=
  match c with
  | ACreate x => answered (fun _ => AaUnit) (sql_create_continuation engine x)
  | AGet gid => answered AaGet (sql_get_continuation engine gid)
  | ATransition gid f t consumed approved =>
      answered AaBool (sql_transition_continuation engine gid f t consumed approved)
  | AList a s => answered AaList (sql_list_continuations engine a s)
  end.

(** The call as one transaction; a failing check opens none. *)
Definition approval_body (c : ApprovalCall) : Comp ContinuationDb ApprovalAnswer :=
  match c with
  | ACreate x => answered (fun _ => AaUnit) (continuation_create_body x)
  | AGet gid => answered AaGet (continuation_get_body gid)
  | ATransition gid f t consumed approved => fun db =>
      match check_transition f t consumed approved with
      | Err e => (db, Err e)
      | Ok _ => answered AaBool (continuation_transition_body gid f t consumed approved) db
      end
  | AList a s => answered AaList (continuation_list_body a s)
  end.

Definition approval_refusal (engine : ContinuationDb -> ContinuationDb -> option exn)
  (c : ApprovalCall) (_ : unit) (db : ContinuationDb) : option exn :=
  engine_refusal engine (approval_body c) db.

Lemma sql_approval_transaction engine c u db :
  sql_approval_call engine c u db = transactional_session engine (approval_body c) db.
Proof.
  destruct c as [x|gid|gid f t consumed approved|a s]; cbn [sql_approval_call approval_body];
    [apply transaction_answered..| |apply transaction_answered].
  unfold answered, sql_transition_continuation, transactional_session, mbind, comp_bind, mret, comp_ret.
  destruct (check_transition f t consumed approved); [|done].
  destruct (continuation_transition_body gid f t consumed approved db) as [db' [b|e]]; simpl; [|done].
  by destruct (engine db db').
Qed.

(** ** Refinement *)

(** What the table can hold: a constructed continuation whose parameters hold no set and
    which names no capability. *)
Definition durable (c : ApprovalContinuation) : Prop :=
  (exists raw, new_continuation raw = Ok c) /\ set_free (ct_execution_parameters c) = true /\
  ct_capability_profile_id c = None /\ ct_capability_digest c = None.

Definition row_represents (p : string * ApprovalContinuationModel) (q : string * ApprovalContinuation) : Prop :=
  p = (q.1, continuation_row q.2) /\ durable q.2.

Definition continuations_refine (db : ContinuationDb) (r : ContinuationRepo) : Prop :=
  Forall2 row_represents db r.

Definition approval_call_ok (c : ApprovalCall) (r : ContinuationRepo) : Prop :=
  match c with
  | ACreate x => durable x /\ get_continuation (ct_grant_id x) r = None
  | _ => True
  end.

(** The oldest first, ties by id. *)
Definition continuation_created_leb (c d : ApprovalContinuation) : bool :=
  created_leb (ct_created_at c) (ct_grant_id c) (ct_created_at d) (ct_grant_id d).

(** Equal answers, a list in creation order. *)
Definition approval_answers_agree (x y : result ApprovalAnswer) : Prop :=
  match y with
  | Ok (AaList l) => x = Ok (AaList (sort_by continuation_created_leb l))
  | _ => x = y
  end.

Lemma members_read v :
  match v with VDict _ | VProxy _ => true | _ => false end = true ->
  set_free (deep_freeze v) = true ->
  deep_freeze (VDict (json_members (deep_freeze v))) = deep_freeze v.
Proof.
  intros Hv Hs. rewrite <-(thaw_freeze (deep_freeze v)) at 2; [|apply deep_freeze_frozen|done].
  by destruct v.
Qed.

Lemma row_reads c : durable c -> continuation_of_row (continuation_row c) = Ok c.
Proof.
  intros ([raw Hraw] & Hs & Hp & Hd). unfold continuation_of_row, continuation_row. cbn [cr_state].
  rewrite enum_of_value. unfold new_continuation in *. destruct (_ && _) eqn:Hg; [|done].
  injection Hraw as <-. apply andb_true_iff in Hg as [Hg Hv]. cbn -[deep_freeze json_members] in *.
  rewrite andb_true_r, Hg, members_read by done. by rewrite Hp, Hd.
Qed.

Lemma durable_transitioned t consumed approved c :
  durable c -> durable (transitioned t consumed approved c).
Proof.
  intros ([raw Hraw] & Hs & Hp & Hd).
  assert (forall s a k, durable (with_outcome s a k c)) as H.
  { intros s a k. split; [|done]. exists (with_outcome s a k raw). unfold new_continuation in *. simpl.
    destruct (_ && _); [|done]. by injection Hraw as <-. }
  destruct t; apply H.
Qed.

Lemma transitioned_row_agrees t consumed approved c :
  transitioned_row t consumed approved (continuation_row c) = continuation_row (transitioned t consumed approved c).
Proof. by destruct t. Qed.

Lemma refine_get gid db r : continuations_refine db r ->
  dget gid db = continuation_row <$> dget gid r /\
  (forall c, dget gid r = Some c -> durable c).
Proof.
  induction 1 as [|[k row] [k' c] db r [He Hd] _ IH]; simpl; [done|].
  injection He as -> ->. case_decide; [|done]. split; [done|]. by intros ? [= <-].
Qed.

Lemma refine_set gid c db r :
  continuations_refine db r -> durable c ->
  continuations_refine (dset gid (continuation_row c) db) (dset gid c r).
Proof.
  intros H Hc. induction H as [|[k row] [k' c'] db r [He Hd] H IH]; simpl.
  - constructor; [done|constructor].
  - injection He as -> ->. simpl. case_decide; by constructor.
Qed.

Lemma enum_value_inj (s t : ContinuationState) : enum_value s = enum_value t -> s = t.
Proof. intros H. pose proof (enum_of_value s) as Hs. rewrite H, enum_of_value in Hs. by injection Hs. Qed.

Lemma state_agrees (s t : ContinuationState) :
  bool_decide (enum_value s = enum_value t) = bool_decide (s = t).
Proof. apply bool_decide_ext. split; [apply enum_value_inj|by intros ->]. Qed.

Lemma list_body_agrees a s db r :
  continuations_refine db r ->
  continuation_list_body a s db = (db, Ok (sort_by continuation_created_leb (list_continuations a s r))).
Proof.
  intros H. unfold continuation_list_body. f_equal. apply mapR_Ok.
  eapply (Forall2_impl (fun row c => row = continuation_row c /\ durable c)).
  2:{ intros row c [-> Hc]. by apply row_reads. }
  apply Forall2_sort_agree; [|by intros ? ? ? ? [-> _] [-> _]].
  apply Forall2_filter_agree.
  - unfold dvalues. induction H as [|[k row] [k' c] db r [He Hd] _ IH]; csimpl; [constructor|].
    injection He as -> ->. by constructor.
  - intros row c [-> _]. unfold row_selected, continuation_selected. simpl. destruct s; [|done].
    by rewrite <-state_agrees.
Qed.

Lemma approval_body_agrees c db r :
  continuations_refine db r -> approval_call_ok c r ->
  approval_answers_agree (approval_body c db).2 (approval_call c r).2 /\
  continuations_refine (approval_body c db).1 (approval_call c r).1.
Proof.
  intros H Hok. destruct c as [x|gid|gid f t consumed approved|a s]; simpl;
    unfold answered, mbind, comp_bind, mret, comp_ret.
  - destruct Hok as [Hx Hn]. unfold get_continuation in Hn. unfold continuation_create_body.
    destruct (refine_get (ct_grant_id x) db r H) as [Hg _]. unfold dhas. rewrite Hg, Hn. simpl.
    split; [done|]. by apply refine_set.
  - unfold continuation_get_body, get_continuation.
    destruct (refine_get gid db r H) as [-> Hd]. destruct (dget gid r) as [c|]; simpl; [|done].
    by rewrite row_reads by auto.
  - unfold transition_continuation, continuation_transition_body.
    destruct (check_transition f t consumed approved) as [|e]; [|done].
    destruct (refine_get gid db r H) as [-> Hd]. destruct (dget gid r) as [c|] eqn:Hc; simpl; [|done].
    rewrite state_agrees. destruct (negb _); [done|]. simpl. split; [done|].
    rewrite transitioned_row_agrees. apply refine_set; [done|]. by apply durable_transitioned, Hd.
  - by rewrite (list_body_agrees a s db r H).
Qed.

Lemma approval_body_raises c db db' e : approval_body c db = (db', Err e) -> db' = db.
Proof.
  destruct c as [x|gid|gid f t consumed approved|a s]; simpl;
    unfold answered, mbind, comp_bind, mret, comp_ret, continuation_create_body,
      continuation_get_body, continuation_transition_body, continuation_list_body;
    repeat case_match; intros; by simplify_eq.
Qed.


(** ** Witness: an engine that refuses the first claim *)

Definition claim_losing_engine (db db' : ContinuationDb) : option exn :=
  if bool_decide (List.map (fun p => cr_state p.2) db = ["APPROVED"; "PENDING"]%string /\
                  List.map (fun p => cr_consumed_at p.2) db' = [Some 9; None])
  then Some (OtherException "OperationalError") else None.

Lemma empty_continuations_refine : continuations_refine [] [].
Proof. constructor. Qed.

