(* ===== verification/Management.v ===== *)
(** * The management API

    The read views and the one write of [api/management.py], over the stores of the pipeline,
    with the response models of [models/api/].  A view is a function of the stores it reads;
    an enumeration member is shown by its value. *)

From S2P Require Import Prelude PyDict Models Lifecycle Planes Agents ToolPlane Policy Findings Risk Sessions.
From S2P Require Import Detection AuditTrail Coordinator SqlStore SqlPlanes Auth.
Local Open Scope Z_scope.

(** ** Detection metadata (detection/metadata.py, detection/security_standard.py) *)

Inductive SecurityFramework := OWASP_LLM | MITRE_ATLAS | MITRE_ATTACK.

Definition framework_value (f : SecurityFramework) : string :=
  match f with
  | OWASP_LLM => "OWASP_LLM" | MITRE_ATLAS => "MITRE_ATLAS" | MITRE_ATTACK => "MITRE_ATTACK"
  end.

Record SecurityControlReference := mkControl {
  cr_framework : SecurityFramework;
  cr_control_id : string;
  cr_title : string;
  cr_version : string;
}.

Record RuleMetadata := mkRuleMetadata {
  rm_name : string;
  rm_category : DetectionCategory;
  rm_description : string;
  rm_controls : list SecurityControlReference;
}.

Definition latest (f : SecurityFramework) (id title : string) : SecurityControlReference :=
  mkControl f id title "latest".

Definition prompt_injection_metadata : RuleMetadata :=
  mkRuleMetadata "PROMPT_INJECTION" PROMPT_SECURITY
    "Detects common deterministic prompt injection indicators."
    [latest OWASP_LLM "LLM01" "Prompt Injection";
     latest MITRE_ATLAS "AML.T0043" "User Prompt Injection"]%string.

Definition data_exfiltration_metadata : RuleMetadata :=
  mkRuleMetadata "DATA_EXFILTRATION" DATA_SECURITY
    "Detects data exfiltration attempts based on presence of action and sensitive indicator."
    [latest MITRE_ATTACK "T1048" "Exfiltration Over Alternative Protocol"]%string.

Definition sensitive_file_metadata : RuleMetadata :=
  mkRuleMetadata "SENSITIVE_FILE_ACCESS" DATA_SECURITY
    "Detects access to sensitive files based on metadata resource path and user prompt."
    [latest MITRE_ATTACK "T1083" "File and Directory Discovery"]%string.

(** [detection_registry.metadata()] of the default registry. *)
Definition default_rule_metadata : list RuleMetadata :=
  [prompt_injection_metadata; sensitive_file_metadata; data_exfiltration_metadata].

Definition detection_category_value (c : DetectionCategory) : string :=
  match c with
  | PROMPT_SECURITY => "PROMPT_SECURITY" | DATA_SECURITY => "DATA_SECURITY"
  | TOOL_SECURITY => "TOOL_SECURITY" | IDENTITY_SECURITY => "IDENTITY_SECURITY"
  | BEHAVIORAL_SECURITY => "BEHAVIORAL_SECURITY" | POLICY_SECURITY => "POLICY_SECURITY"
  end.

(** ** Response models *)

Record AgentResponse := mkAgentResponse {
  ars_agent_id : string;
  ars_name : string;
  ars_owner : string;
  ars_risk_tier : string;
  ars_status : string;
  ars_approved_tools : list string;
}.

Record EnforcementTransitionResponse := mkTransitionResponse {
  etr_transition_id : string;
  etr_agent_id : string;
  etr_action : string;
  etr_actor : string;
  etr_reason : string;
  etr_previous_status : string;
  etr_new_status : string;
  etr_occurred_at : Z;
  etr_trigger_session_id : option string;
  etr_trigger_risk_level : option string;
  etr_trigger_risk_score : option Z;
  etr_trigger_finding_ids : list string;
}.

Record EnforcementStateResponse := mkEnforcementResponse {
  esr_agent_id : string;
  esr_status : string;
  esr_suspended_at : option Z;
  esr_suspension_reason : option string;
  esr_enforcement_baseline_at : option Z;
  esr_last_transition_at : option Z;
  esr_transitions : list EnforcementTransitionResponse;
}.

Record ToolResponse := mkToolResponse {
  tsr_tool_id : string;
  tsr_name : string;
  tsr_description : string;
  tsr_version : string;
}.

Record SecurityControlReferenceResponse := mkControlResponse {
  crr_framework : string;
  crr_control_id : string;
  crr_title : string;
  crr_version : string;
}.

Record DetectionRuleResponse := mkRuleResponse {
  drr_name : string;
  drr_category : string;
  drr_description : string;
  drr_controls : list SecurityControlReferenceResponse;
}.

Record AuditEventResponse := mkAuditResponse {
  aer_event_id : string;
  aer_session_id : string;
  aer_agent_id : string;
  aer_requested_tool_id : string;
  aer_tool_id : option string;
  aer_tool_version : option string;
  aer_decision : string;
  aer_timestamp : Z;
}.

Record SessionResponse := mkSessionResponse {
  ssr_session_id : string;
  ssr_agent_id : string;
  ssr_started_at : Z;
}.

Record FindingResponse := mkFindingResponse {
  fr_id : string;
  fr_session_id : string;
  fr_agent_id : string;
  fr_rule_id : string;
  fr_rule_name : string;
  fr_severity : Severity;
  fr_category : FindingCategory;
  fr_status : FindingStatus;
  fr_description : string;
  fr_detected_at : Z;
  fr_mitre_techniques : list string;
}.

Record RiskAssessmentResponse := mkRiskResponse {
  rar_session_id : string;
  rar_agent_id : string;
  rar_risk_score : Z;
  rar_risk_level : RiskLevel;
  rar_finding_count : Z;
  rar_assessed_at : Z;
}.

Record PlatformInfo := mkPlatformInfo {
  pi_platform : string;
  pi_version : string;
  pi_api_version : string;
  pi_registered_agents : Z;
  pi_registered_tools : Z;
  pi_registered_detection_rules : Z;
  pi_audit_events : Z;
  pi_findings : Z;
}.

Definition NOT_FOUND : exn := HTTPException 404.
Definition CONFLICT : exn := HTTPException 409.
Definition BAD_REQUEST : exn := HTTPException 400.
Definition INTERNAL_SERVER_ERROR : exn := HTTPException 500.

(** ** Agents *)

Definition agent_to_response (ag : Agent) : AgentResponse :=
  mkAgentResponse (agent_id ag) (agent_name ag) (agent_owner ag) (enum_value (risk_tier ag))
    (enum_value (agent_status ag)) (approved_tools ag).

Section agents.
Context {RA RE : Type} `{AdministrativeStateRepository RA} `{EnforcementStateRepository RE}.
Local Abbreviation W := (AgentWorld RA RE).

(** [AgentService.list_agents] *)
Definition projected_agent (w : W) (ag : Agent) : result Agent :=
  match enf_get_state (agent_id ag) (aw_enf w) with
  | Err _ => Err EnforcementStateUnavailableError
  | Ok enf_state =>
      administrative ← adm_get_state (agent_id ag) (aw_adm w);
      mret (with_status (project_status administrative enf_state) ag)
  end.

Definition list_agents (w : W) : result (list Agent) :=
  mapR (projected_agent w) (agent_list (aw_agents w)).

Definition list_agents_view (w : W) : result (list AgentResponse) :=
  agents ← list_agents w; Ok (List.map agent_to_response agents).

Definition transition_to_response (t : EnforcementTransition) : EnforcementTransitionResponse :=
  mkTransitionResponse (et_transition_id t) (et_agent_id t) (enum_value (et_action t)) (et_actor t)
    (et_reason t) (enum_value (et_previous_status t)) (enum_value (et_new_status t))
    (et_occurred_at t) (et_trigger t ≫= tr_session_id)
    (enum_value <$> (et_trigger t ≫= tr_risk_level)) (et_trigger t ≫= tr_risk_score)
    (match et_trigger t with Some tr => tr_finding_ids tr | None => [] end).

Definition get_agent_enforcement (a : string) : Comp W EnforcementStateResponse :=
  ag ← try_except (get_agent a)
         (fun e => match e with AgentNotFoundError => raise NOT_FOUND | e => raise e end);
  state ← get_enforcement_state a;
  transitions ← list_transitions (Some a);
  mret (mkEnforcementResponse a (enum_value (agent_status ag)) (es_suspended_at state)
          (es_suspension_reason state) (es_baseline_at state) (es_last_transition_at state)
          (transition_to_response <$> transitions)).
End agents.

(** [ReinstateRequest]: pydantic refuses an empty or blank reason before the handler runs. *)
Definition UNPROCESSABLE : exn := OtherException "RequestValidationError".

Definition new_reinstate_request (reason : string) : result string :=
  if negb (str_nonempty reason) || negb (str_nonempty (str_strip reason)) then Err UNPROCESSABLE
  else Ok reason.

Definition reinstate_refusal (e : exn) : exn :=
  match e with
  | AgentNotFoundError => NOT_FOUND
  | AgentNotSuspendedError => CONFLICT
  | ReinstatementIncompleteError => INTERNAL_SERVER_ERROR
  | e => e
  end.

(** [reinstate_agent], once its dependencies and body are accepted. *)
Definition reinstate_agent_route (a reason : string) (principal : JWTClaims) (baseline_at : Z)
    (env : CallEnv) : Comp CoordWorld AgentResponse :=
  ag ← try_except (reinstate a (jc_sub principal) reason baseline_at env)
         (fun e => raise (reinstate_refusal e));
  mret (agent_to_response ag).

(** ** Tools, rules, audit events, sessions *)

Definition list_tools_view (reg : ToolRegistry) : list ToolResponse :=
  (fun md => mkToolResponse (ti_tool_id (tm_identity md)) (ti_name (tm_identity md))
               (ti_description (tm_identity md)) (ti_version (tm_identity md)))
    <$> discover_tools reg.

Definition control_to_response (c : SecurityControlReference) : SecurityControlReferenceResponse :=
  mkControlResponse (framework_value (cr_framework c)) (cr_control_id c) (cr_title c) (cr_version c).

Definition list_detection_rules_view (rules : list RuleMetadata) : list DetectionRuleResponse :=
  (fun m => mkRuleResponse (rm_name m) (detection_category_value (rm_category m)) (rm_description m)
              (control_to_response <$> rm_controls m)) <$> rules.

(** [audit_service.list_events()], with its default page. *)
Definition default_audit_page (l : AuditLog) : list AuditEvent := list_audit_events None None 100 0 l.

Definition list_audit_events_view (l : AuditLog) : list AuditEventResponse :=
  (fun e => mkAuditResponse (au_event_id e) (au_session_id e) (au_agent_id e)
              (au_requested_tool_id e) (au_tool_id e) (au_tool_version e)
              (decision_value (au_decision e)) (au_timestamp e)) <$> default_audit_page l.

Definition list_sessions_view (r : SessionRepo) : list SessionResponse :=
  (fun s => mkSessionResponse (s_session_id s) (s_agent_id s) (s_started_at s))
    <$> repo_list_sessions r.

(** ** Findings *)

Definition is_mitre (f : SecurityFramework) : bool :=
  match f with MITRE_ATTACK | MITRE_ATLAS => true | OWASP_LLM => false end.

(** The first rule the finding names decides its techniques. *)
Definition mitre_techniques (rules : list RuleMetadata) (f : Finding) : list string :=
  match List.find (fun m => bool_decide (rm_name m = f_rule_name f)
                            || bool_decide (rm_name m = f_rule_id f)) rules with
  | None => []
  | Some m => cr_control_id <$> List.filter (fun c => is_mitre (cr_framework c)) (rm_controls m)
  end.

Definition map_finding_to_response (rules : list RuleMetadata) (f : Finding) : FindingResponse :=
  mkFindingResponse (finding_id f) (f_session_id f) (f_agent_id f) (f_rule_id f) (f_rule_name f)
    (f_severity f) (f_category f) (f_status f) (f_description f) (f_created_at f)
    (mitre_techniques rules f).

Definition list_findings_view (rules : list RuleMetadata) (session agent : option string)
    (severity : option Severity) (category : option FindingCategory)
    (status : option FindingStatus) (rule_id : option string) (s : FindingsService)
  : list FindingResponse :=
  map_finding_to_response rules
    <$> Findings.list_findings session agent severity category status rule_id None s.

Definition get_finding_view (rules : list RuleMetadata) (id : string) (s : FindingsService)
  : result FindingResponse :=
  match get_finding id s with
  | None => Err NOT_FOUND
  | Some f => Ok (map_finding_to_response rules f)
  end.

(** ** Risk assessments *)

Definition map_risk_assessment_to_response (a : RiskAssessment) : RiskAssessmentResponse :=
  mkRiskResponse (ra_session_id a) (ra_agent_id a) (ra_risk_score a) (ra_risk_level a)
    (ra_finding_count a) (ra_assessed_at a).

Definition list_risk_assessments_view (now : Z) (session agent : option string)
    (level : option RiskLevel) (s : FindingsService) : list RiskAssessmentResponse :=
  let assessments :=
    reconstruct now (Findings.list_findings session agent None None None None None s) in
  let assessments :=
    match level with
    | None => assessments
    | Some l => List.filter (fun a => bool_decide (ra_risk_level a = l)) assessments
    end in
  map_risk_assessment_to_response <$> assessments.

Definition get_risk_assessment_view (now : Z) (session : string) (agent : option string)
    (s : FindingsService) : result RiskAssessmentResponse :=
  match reconstruct_for_session now
          (Findings.list_findings (Some session) None None None None None None s) session agent with
  | Err AmbiguousAssessmentScopeError => Err BAD_REQUEST
  | Err e => Err e
  | Ok None => Err NOT_FOUND
  | Ok (Some a) => Ok (map_risk_assessment_to_response a)
  end.

(** ** Platform info *)

Section info.
Context {RA RE : Type} `{AdministrativeStateRepository RA} `{EnforcementStateRepository RE}.

Definition PLATFORM_NAME : string := "Enterprise Agent Security Platform".

Definition platform_info (version : result string) (agents : AgentWorld RA RE) (reg : ToolRegistry)
    (rules : list RuleMetadata) (audit : AuditLog) (findings : FindingsService)
  : result PlatformInfo :=
  v ← version;
  listed ← list_agents agents;
  mret (mkPlatformInfo PLATFORM_NAME v "v1" (Z.of_nat (length listed))
          (Z.of_nat (length (discover_tools reg))) (Z.of_nat (length rules))
          (Z.of_nat (length (default_audit_page audit)))
          (Z.of_nat (length (Findings.list_findings None None None None None None None findings)))).
End info.

(** ** What the views show *)

(** A status against the L.10 refusal of the same two plane states. *)
Definition status_agrees (st : AgentStatus) (refusal : option LifecycleRefusalCode) : Prop :=
  (st = STATUS_ACTIVE <-> refusal = None) /\
  (st = STATUS_DISABLED <-> refusal = Some AGENT_DISABLED) /\
  (refusal = Some AGENT_SUSPENDED -> st = STATUS_SUSPENDED) /\
  (refusal = Some ADMINISTRATIVE_STATE_UNAVAILABLE -> st <> STATUS_ACTIVE).

Lemma project_status_agrees adm enf :
  status_agrees (project_status adm enf) (evaluate_lifecycle_authorization adm true enf true).
Proof.
  unfold project_status. destruct adm as [[a st v t]|], (is_suspended enf) eqn:Hs;
    unfold evaluate_lifecycle_authorization, failing_lifecycle_conditions; rewrite Hs; simpl;
    try destruct st; vm_compute; naive_solver.
Qed.

(** [list_agents] fails as a whole or shows every registered agent, in order, with the
    status its planes project. *)
Lemma list_agents_projected {RA RE} `{AdministrativeStateRepository RA} `{EnforcementStateRepository RE}
    (w : AgentWorld RA RE) l :
  list_agents w = Ok l ->
  Forall2 (fun ag0 ag => exists adm enf, adm_get_state (agent_id ag0) (aw_adm w) = Ok adm /\
    enf_get_state (agent_id ag0) (aw_enf w) = Ok enf /\
    ag = with_status (project_status adm enf) ag0) (agent_list (aw_agents w)) l.
Proof.
  unfold list_agents. intros Hl%mapR_Ok. eapply Forall2_impl; [exact Hl|].
  intros ag0 ag Hp. unfold projected_agent in Hp.
  destruct (enf_get_state _ _) as [enf|]; [|done].
  destruct (adm_get_state _ _) as [adm|]; [|done]. simpl in Hp. injection Hp as <-. eauto.
Qed.

Lemma first_page {A} (l : list A) : py_slice 0 (0 + 100) l = take 100 l.
Proof.
  unfold py_slice, slice_bound. change (0 + 100) with 100.
  change (0 <? 0) with false. change (100 <? 0) with false. cbv iota zeta.
  replace (Z.to_nat (Z.min 0 (Z.of_nat (length l)))) with 0%nat by lia. rewrite drop_0.
  destruct (decide (length l <= 100)%nat); [rewrite !take_ge by lia; done|]. f_equal. lia.
Qed.


(** A REGISTERED agent that is suspended is shown SUSPENDED and refused as not active. *)
Lemma suspended_before_activation :
  let adm := mkAdmState "a" ADM_REGISTERED 1 None in
  let enf := mkEnfState "a" 1 (Some 5) (Some "risk"%string) None 0 0 0 (Some 5) in
  project_status (Some adm) (Some enf) = STATUS_SUSPENDED /\
  evaluate_lifecycle_authorization (Some adm) true (Some enf) true = Some AGENT_NOT_ACTIVE.
Proof. split; vm_compute; reflexivity. Qed.

