(* ===== verification/Containment.v ===== *)
(** * What a request may do to the lifecycle planes

    [Runtime] proves what a request that completes has done.  Here a request may end in any
    way, an exception included: whatever happens, all it has done to the agents is a sequence
    of suspensions.  Containment is therefore never undone by the pipeline. *)
From S2P Require Import Prelude PyDict Models Lifecycle Planes Agents ToolPlane Policy Binding Authority.
From S2P Require Import Capabilities Findings Risk Sessions Detection Paths ResourceIdentity AuditTrail Runtime RuntimeSafety.
Local Open Scope Z_scope.

(** A computation moves its state along [R], however it ends. *)
Definition along {S A} (R : S -> S -> Prop) (m : Comp S A) : Prop := forall w, R w (m w).1.

Section along.
Context {S : Type} (R : S -> S -> Prop) `{!PreOrder R}.

Lemma along_same {A} (m : Comp S A) : (forall w, (m w).1 = w) -> along R m.
Proof. intros Hm w. by rewrite Hm. Qed.

Lemma along_ret {A} (a : A) : along R (mret a).
Proof. by apply along_same. Qed.

Lemma along_raise {A} e : along R (raise (A := A) e).
Proof. by apply along_same. Qed.

Lemma along_liftR {A} (r : result A) : along R (liftR r).
Proof. by apply along_same. Qed.

Lemma along_read {A} (f : S -> result A) : along R (fun w => (w, f w)).
Proof. by apply along_same. Qed.

Lemma along_bind {A B} (m : Comp S A) (k : A -> Comp S B) :
  along R m -> (forall a, along R (k a)) -> along R (m ≫= k).
Proof.
  intros Hm Hk w. unfold mbind, comp_bind. specialize (Hm w).
  destruct (m w) as [w1 [a|e]]; simpl in *; [|done]. etrans; [done|]. apply Hk.
Qed.

Lemma along_try {A} (m : Comp S A) h :
  along R m -> (forall e, along R (h e)) -> along R (try_except m h).
Proof.
  intros Hm Hh w. unfold try_except. specialize (Hm w).
  destruct (m w) as [w1 [a|e]]; simpl in *; [done|]. etrans; [done|]. apply Hh.
Qed.

Lemma along_if {A} (b : bool) (m1 m2 : Comp S A) :
  along R m1 -> along R m2 -> along R (if b then m1 else m2).
Proof. by destruct b. Qed.

(** [match m w with (w, Ok a) => k a w | (w, Err e) => h e w end] *)
Lemma along_cases {A B} (m : Comp S A) (k : A -> Comp S B) (h : exn -> Comp S B) :
  along R m -> (forall a, along R (k a)) -> (forall e, along R (h e)) ->
  along R (fun w => match m w with (w, Ok a) => k a w | (w, Err e) => h e w end).
Proof.
  intros Hm Hk Hh w. specialize (Hm w).
  destruct (m w) as [w1 [a|e]]; simpl in *; (etrans; [done|]); [apply Hk|apply Hh].
Qed.
End along.

Create HintDb along.

(** Follow the sequence of calls a computation is made of. *)
Ltac follow := repeat (intros; first
  [ solve [auto with along]
  | apply along_ret; exact _ | apply along_raise; exact _ | apply along_liftR; exact _
  | apply along_read; exact _ | apply along_bind; [exact _|..] | apply along_try; [exact _|..]
  | apply along_if ]).

Section requests.
Context (hmac : string -> string -> string) (float_repr : Z -> string)
        (sha256 : string -> string) (uuid5 : string -> string -> string).
Context {RA RE : Type} `{AdministrativeContract RA} `{EnforcementContract RE}.
Context {Tel : Type} (emit : RuntimeTelemetry -> Tel -> Tel * result unit).
Context (path_exists path_is_symlink path_is_dir : Path -> bool)
        (realpath : Path -> result Path)
        (samefile : Path -> Path -> option bool)
        (scandir : Path -> option (list string)).
Context (cfg : RuntimeConfig).
Local Abbreviation World := (RuntimeWorld (RA:=RA) (RE:=RE) (Tel:=Tel)).

Definition suspends (c : AgentCall) : Prop :=
  match c with CSuspend _ _ _ _ => True | _ => False end.

(** The agents were only touched by suspensions. *)
Definition only_suspends (w w' : World) : Prop :=
  exists cs, Forall suspends cs /\ rw_agents w' = run_calls cs (rw_agents w).

#[local] Instance only_suspends_preorder : PreOrder only_suspends.
Proof.
  split; [by intros w; exists []|]. intros w1 w2 w3 (c1 & H1' & E1) (c2 & H2' & E2).
  exists (c1 ++ c2). split; [by apply Forall_app|]. rewrite E2, E1. unfold run_calls.
  by rewrite fold_left_app.
Qed.

Lemma agents_kept_suspends {A} (m : Comp World A) :
  (forall w, rw_agents (m w).1 = rw_agents w) -> along only_suspends m.
Proof. intros Hm w. exists []. by rewrite Hm. Qed.

Ltac keeps := apply agents_kept_suspends; intros w.

Lemma on_sessions_along {A} (m : Comp SessionRepo A) : along only_suspends (on_sessions m).
Proof. keeps. unfold on_sessions, zoom. by destruct (m _). Qed.

Lemma on_risk_along {A} (m : Comp RiskAggregator A) : along only_suspends (on_risk m).
Proof. keeps. unfold on_risk, zoom. by destruct (m _). Qed.

Lemma on_agents_read_along {A} (m : Comp (AgentWorld RA RE) A) :
  (forall x, (m x).1 = x) -> along only_suspends (on_agents m).
Proof. intros Hm. keeps. rewrite on_agents_read by done. done. Qed.

Lemma emit_along rq hash t resource d level ms code :
  along only_suspends (emit_stage emit cfg rq hash t resource d level ms code).
Proof.
  keeps. destruct (emit_run emit cfg rq hash t resource d level ms code w) as (w' & -> & Hu).
  by destruct Hu.
Qed.

Lemma audit_along env rq tool version d : along only_suspends (audit_decision env rq tool version d).
Proof. keeps. unfold audit_decision. by destruct (new_audit_event _). Qed.

Lemma conclude_along r : along only_suspends (conclude r).
Proof. by keeps. Qed.

Hint Resolve on_sessions_along on_risk_along emit_along audit_along conclude_along : along.

Lemma refuse_recorded_along code fs rq env hash recorded tool resource :
  along only_suspends (refuse_recorded emit cfg code fs rq env hash recorded tool resource).
Proof. unfold refuse_recorded, finalize_refused_event. follow. Qed.

Lemma refuse_binding_along rq env hash resource :
  along only_suspends (refuse_session_binding emit cfg rq env hash resource).
Proof. unfold refuse_session_binding. follow. Qed.

Lemma gate_along rq env binding final epoch :
  along only_suspends (gate_and_issue hmac float_repr sha256 rq env binding final epoch).
Proof.
  keeps. unfold gate_and_issue. destruct (rw_authority w), binding; try done.
  destruct (negb _); [done|]. destruct (resolve_profile _ _); [|done].
  destruct (issue _ _ _ _ _ _ _ _ _ _ _ _ _) as [? [[]|]]; done.
Qed.

Lemma suspend_along a reason trig env :
  along only_suspends (on_agents (suspend_agent a reason trig env)).
Proof.
  intros w. exists [CSuspend a reason trig env]. split; [by repeat constructor|].
  unfold run_calls; simpl. rewrite forget_state. unfold on_agents, zoom.
  by destruct (suspend_agent _ _ _ _ _).
Qed.

Lemma suspend_posture_along rq env p fs : along only_suspends (suspend_for_posture rq env p fs).
Proof.
  pose proof suspend_along. unfold suspend_for_posture. follow.
  - keeps. unfold close_issuance. by destruct (rw_authority w).
  - destruct e; follow.
Qed.

Hint Resolve refuse_recorded_along refuse_binding_along gate_along suspend_posture_along : along.

Lemma decide_along rq env hash op az epoch recorded fs assessment p :
  along only_suspends
    (decide_and_record hmac float_repr sha256 emit cfg rq env hash op az epoch recorded fs assessment p).
Proof.
  unfold decide_and_record. apply along_bind; [exact _|auto with along|]. intros [final auth].
  follow.
Qed.

Lemma reconcile_along now a : along only_suspends (reconcile_posture now a).
Proof.
  unfold reconcile_posture, reconciliation_watermark. follow; [|by destruct e; follow].
  apply on_agents_read_along. intros x. unfold get_current_baseline, mbind, comp_bind.
  pose proof (get_enforcement_state_read a x). by destruct (get_enforcement_state a x) as [? []].
Qed.

Lemma current_posture_along now a : along only_suspends (current_posture now a).
Proof. keeps. unfold current_posture. by destruct (get_posture _ _ _) as [|[]]. Qed.

Lemma assess_posture_along now a : along only_suspends (assess_agent_posture now a).
Proof.
  pose proof (current_posture_along now a). pose proof (reconcile_along now a).
  unfold assess_agent_posture. follow.
Qed.

Lemma ingest_along now a fs : along only_suspends (ingest_findings now a fs).
Proof.
  induction fs as [|f fs IH]; simpl; follow.
Qed.

Hint Resolve decide_along assess_posture_along ingest_along : along.

Lemma assess_and_decide_along rq env hash op az epoch recorded fs :
  along only_suspends
    (assess_and_decide hmac float_repr sha256 emit cfg rq env hash op az epoch recorded fs).
Proof.
  intros w. unfold assess_and_decide. destruct (assess_session _ _ _ _) as [assessment|e]; [|done].
  pose proof (assess_posture_along (re_risk_now env) (rq_agent_id rq) w) as Ha.
  destruct (assess_agent_posture _ _ w) as [w1 [p|e]]; simpl in Ha; (etrans; [exact Ha|]).
  - apply decide_along.
  - destruct e; try done. apply refuse_recorded_along.
Qed.

Lemma record_and_assess_along rq env hash op az epoch recorded detected :
  along only_suspends
    (record_and_assess hmac float_repr sha256 emit cfg rq env hash op az epoch recorded detected).
Proof.
  intros w. unfold record_and_assess.
  assert (rw_agents (record_evidence detected env w).1 = rw_agents w) as Ha.
  { unfold record_evidence. destruct (re_evidence_error env); [done|].
    by destruct (record_new_findings _ _ _). }
  destruct (record_evidence detected env w) as [w1 [fs|e]]; simpl in Ha.
  - trans w1; [by exists []; rewrite Ha|]. revert w1 Ha.
    enough (along only_suspends (_ ← ingest_findings (re_record_now env) (rq_agent_id rq) fs;
      assess_and_decide hmac float_repr sha256 emit cfg rq env hash op az epoch recorded fs)) by eauto.
    pose proof assess_and_decide_along. follow.
  - trans w1; [by exists []; rewrite Ha|]. apply refuse_recorded_along.
Qed.

Lemma query_and_record_along rq env hash op az st recorded content q :
  along only_suspends
    (query_and_record hmac float_repr sha256 uuid5 emit cfg rq env hash op az st recorded content q).
Proof.
  intros w. unfold query_and_record, eligible_events.
  destruct (re_horizon_error env) as [e|]; [|apply record_and_assess_along].
  destruct (is_session_repository_error e); [apply refuse_recorded_along|done].
Qed.

Lemma snapshot_along a : along only_suspends (enforcement_snapshot a).
Proof.
  unfold enforcement_snapshot. follow; [|by destruct e; follow].
  apply on_agents_read_along. intros x. apply get_enforcement_state_read.
Qed.

Lemma authorize_along rq env hash op :
  along only_suspends
    (authorize_and_detect hmac float_repr sha256 uuid5 emit cfg rq env hash op).
Proof.
  pose proof snapshot_along. pose proof query_and_record_along.
  unfold authorize_and_detect, detect_and_record. follow.
Qed.

(** However a request ends, all it did to the agents is a sequence of suspensions. *)
Lemma execute_only_suspends rq env (w : World) :
  only_suspends w
    (execute hmac float_repr sha256 uuid5 emit path_exists path_is_symlink path_is_dir realpath
       samefile scandir cfg rq env w).1.
Proof.
  revert w. change (along only_suspends (execute hmac float_repr sha256 uuid5 emit path_exists
    path_is_symlink path_is_dir realpath samefile scandir cfg rq env)).
  unfold execute. follow. intros _ w. unfold bind_and_run.
  pose proof (on_sessions_along (bind_or_validate (rq_session_id rq) (rq_agent_id rq)
    (re_bind_now env)) w) as Hb.
  destruct (on_sessions _ w) as [w1 [b|e]]; simpl in Hb; (etrans; [exact Hb|]).
  - apply authorize_along.
  - destruct (is_session_binding_error e); [apply refuse_binding_along|done].
Qed.

(** A contained agent's request that returns is refused, whatever it asks for. *)
Lemma contained_refused rq env (w w' : World) r :
  aw_inv (rw_agents w) -> contained (rq_agent_id rq) (rw_agents w) ->
  execute hmac float_repr sha256 uuid5 emit path_exists path_is_symlink path_is_dir realpath
    samefile scandir cfg rq env w = (w', Ok r) ->
  exists d, e_final_decision (rr_event r) = Some d /\ d <> ALLOW.
Proof.
  intros Hinv Hcon Hx.
  eapply execute_Ok in Hx as (hash & op & _ & _ & [(e & w1 & _ & _ & _ & Hrf)|
    (az & st & recorded & w1 & w2 & Hrec & Hev & Hs)]).
  { apply refuse_binding_Ok in Hrf as ((_ & _ & Hd) & _). by exists DENY. }
  destruct Hs as [(code & fs & _ & Hrf)|(_ & _ & fs & ass & p & final & _ & Hc)].
  { apply refuse_recorded_Ok in Hrf as ((_ & _ & Hd) & _). by exists DENY. }
  pose proof (stored_decision _ _ _ _ _ _ _ _ _ _ _ _ _ _ _ Hrec) as (_ & _ & _ & Hd).
  destruct Hrec as [_ Haz _ _ _]. destruct Hc as [_ (_ & _ & Hfin) Hdec _ _ _ _].
  exists final. split; [done|]. intros ->.
  assert (override_decision (e_decision recorded) (RESPONSE_TYPES (p_risk_level p)) = ALLOW) as Hal
    by (destruct (rr_authorization r); [tauto|destruct Hdec as [_ [Hov|Hov]]; done]).
  apply override_ALLOW in Hal as [Hal _]. rewrite Hd in Hal.
  eapply contained_unauthorized; [exact Hinv|exact Hcon|]. by eapply decided_ALLOW.
Qed.
End requests.

(** ** Histories of the agents *)

Section histories.
Context {RA RE : Type} `{AdministrativeContract RA} `{EnforcementContract RE}.
Local Abbreviation W := (AgentWorld RA RE).

Definition suspended (a : string) (w : W) : Prop := is_suspended (enf_view (aw_enf w) a) = true.

Definition reinstates (a : string) (c : AgentCall) : Prop :=
  match c with CReinstate b _ _ _ _ => b = a | _ => False end.

(** Only a reinstatement of the agent ends its suspension. *)
Lemma suspension_step a c w :
  aw_inv w -> suspended a w -> ~ reinstates a c -> suspended a (run_call c w).1.
Proof.
  intros Hinv Hs Hc. unfold suspended in *.
  destruct c as [ag actor c env|b actor r c env|b actor r c env|b r t env|b actor r wm env];
    unfold run_call; rewrite forget_state;
    match goal with |- context [(?m w).1] => destruct (m w) as [w' x] eqn:Hr; simpl end.
  - apply register_agent_cases in Hr as [[[] _]|(_ & _ & He & _)]; congruence.
  - apply activate_agent_cases in Hr as [[[] _]|(s & tr & _ & _ & _ & _ & _ & Hst)]; [congruence|].
    destruct Hst as (He & _). congruence.
  - apply disable_agent_cases in Hr as [[[] _]|(s & tr & _ & _ & _ & _ & _ & Hst)]; [congruence|].
    destruct Hst as (He & _). congruence.
  - apply suspend_agent_cases in Hr as [[]|(Hns & _ & tr & _ & Hst)]; [congruence| |done].
    destruct Hst as (_ & _ & _ & Hv & _). rewrite Hv. case_decide; [congruence|done].
  - apply reinstate_agent_cases in Hr as [[]|(Hns & _ & tr & _ & Hst)]; [congruence| |done].
    destruct Hst as (_ & _ & _ & Hv & _). rewrite Hv. simpl in Hc.
    case_decide; [congruence|done].
Qed.

Lemma suspension_persists a cs w :
  aw_inv w -> suspended a w -> Forall (fun c => ~ reinstates a c) cs -> suspended a (run_calls cs w).
Proof.
  revert w. induction cs as [|c cs IH]; intros w Hinv Hs Hcs; [done|].
  apply Forall_cons in Hcs as [Hc Hcs]. simpl. apply IH; [|by apply suspension_step|done].
  eapply call_effect_inv, run_call_cases; done.
Qed.
End histories.
