(* ===== verification/Platform.v ===== *)
(** * The assembled application

    [main.py], [api/dependencies.py], [api/runtime.py], [api/health.py], [api/version.py] and
    the routing of [api/management.py] and [api/scenarios.py]: one shared state behind every
    route, the authorization each mount and route composes, and the handlers.  A request is
    what the framework hands over: the route with its validated arguments, and the
    credentials it found.  The order is FastAPI's: the mount's dependency, the route's own,
    then the body and the handler. *)
From S2P Require Import Prelude PyDict Json Models Lifecycle Planes Agents ToolPlane Policy Binding Authority.
From S2P Require Import Capabilities Evidence Findings Risk Sessions Detection Paths ResourceIdentity AuditTrail.
From S2P Require Import Coordinator Runtime RuntimeSafety Auth Scenarios ScenarioRunner SqlStore SqlPlanes Management Containment.
Local Open Scope Z_scope.

(** ** The shared singletons (api/dependencies.py) *)

Record Platform (Tel : Type) := mkPlatform {
  pl_agents : Agents_;
  pl_tools : ToolRepo;
  pl_registry : ToolRegistry;
  pl_capabilities : CapabilityRegistry;
  pl_sessions : SessionRepo;
  pl_findings : FindingsService;
  pl_risk : RiskAggregator;
  pl_authority : ExecutionAuthority;
  pl_audit : AuditLog;
  pl_telemetry : Tel;
  pl_last_result : option RuntimeResult;
  pl_receipts : ExecutionEvidenceService;
}.
Arguments mkPlatform {Tel}.
Arguments pl_agents {Tel}.
Arguments pl_tools {Tel}.
Arguments pl_registry {Tel}.
Arguments pl_capabilities {Tel}.
Arguments pl_sessions {Tel}.
Arguments pl_findings {Tel}.
Arguments pl_risk {Tel}.
Arguments pl_authority {Tel}.
Arguments pl_audit {Tel}.
Arguments pl_telemetry {Tel}.
Arguments pl_last_result {Tel}.
Arguments pl_receipts {Tel}.

(** ** Requests and responses *)

(** [ExecuteRequest] *)
Record ExecuteRequest := mkExecuteRequest {
  er_session_id : string;
  er_tool_id : string;
  er_resource : option string;
  er_parameters : list (string * string);
  er_user_prompt : string;
  er_model_output : string;
  er_tool_output : string;
}.

Inductive Route :=
| GetHealth
| GetVersion
| PostExecute (agent : string) (body : ExecuteRequest)
| GetScenarios (category severity tag : option string) (enabled : option bool)
| GetScenario (sid : string)
| PostScenario (sid : string)
| GetAgents
| GetEnforcement (agent : string)
| PostReinstate (agent reason : string)
| GetTools
| GetRules
| GetAuditEvents
| GetSessions
| GetFindings (session agent : option string) (severity : option Severity)
    (category : option FindingCategory) (status : option FindingStatus) (rule_id : option string)
| GetFinding (id : string)
| GetRiskAssessments (session agent : option string) (level : option RiskLevel)
| GetRiskAssessment (session : string) (agent : option string)
| GetInfo.

(** The dictionary [execute] answers with. *)
Record ExecuteResponse := mkExecuteResponse {
  eo_session_id : string;
  eo_agent_id : string;
  eo_tool_id : string;
  eo_decision : Decision;
  eo_findings : list Finding;
  eo_risk_score : option Z;
  eo_risk_level : option RiskLevel;
  eo_enforcement_risk_score : option Z;
  eo_enforcement_risk_level : option RiskLevel;
  eo_response_type : option ResponseType;
  eo_response_reason : option string;
  eo_refusal_reason : option string;
}.

Inductive ApiResponse :=
| RespHealth (status : string)
| RespVersion (name version : string)
| RespExecute (r : ExecuteResponse)
| RespScenarios (l : list ScenarioResponse)
| RespScenario (s : ScenarioResponse)
| RespScenarioRun (x : ScenarioExecutionResponse)
| RespAgents (l : list AgentResponse)
| RespEnforcement (e : EnforcementStateResponse)
| RespAgent (a : AgentResponse)
| RespTools (l : list ToolResponse)
| RespRules (l : list DetectionRuleResponse)
| RespAudit (l : list AuditEventResponse)
| RespSessions (l : list SessionResponse)
| RespFindings (l : list FindingResponse)
| RespFinding (f : FindingResponse)
| RespRiskAssessments (l : list RiskAssessmentResponse)
| RespRiskAssessment (a : RiskAssessmentResponse)
| RespInfo (i : PlatformInfo).

(** What one request reads from outside: the clock at authentication, the readings of the
    pipeline, of the coordinator and of the risk views. *)
Record ApiEnv := mkApiEnv {
  ap_auth_now : Z;
  ap_runtime : RuntimeEnv;
  ap_baseline_at : Z;
  ap_call : CallEnv;
  ap_read_now : Z;
}.

Record ApiRequest := mkApiRequest {
  aq_route : Route;
  aq_credentials : option Credentials;
  aq_env : ApiEnv;
}.

(** ** Authorization (main.py and the route decorators) *)

(** The role set of the plane a route is mounted on; [None] is a public route. *)
Definition mount_roles (r : Route) : option (list Role) :=
  match r with
  | GetHealth | GetVersion => None
  | PostExecute _ _ => Some [AGENT]
  | _ => Some [ANALYST; ADMIN]
  end.

(** The dependencies of the route itself. *)
Definition route_dependency (r : Route) (principal : JWTClaims) : result JWTClaims :=
  match r with
  | PostExecute agent _ => require_execution_identity agent principal
  | PostReinstate _ _ => require_roles [ADMIN] principal
  | _ => Ok principal
  end.

(** [request.parameters or None] and the rest of the call [execute] makes. *)
Definition runtime_request (agent : string) (b : ExecuteRequest) : RuntimeRequest :=
  mkRuntimeRequest (er_session_id b) agent (er_tool_id b) (er_resource b) (er_user_prompt b)
    (er_model_output b) (er_tool_output b)
    (match er_parameters b with [] => PNone | d => str_params d end) None None None.

(** The posture's value, or the session assessment's. *)
Definition execute_response (r : RuntimeResult) : ExecuteResponse :=
  let assessment := rr_risk_assessment r in
  let posture := rr_enforcement_posture r in
  mkExecuteResponse (e_session_id (rr_event r)) (e_agent_id (rr_event r)) (e_tool_id (rr_event r))
    (default (e_decision (rr_event r)) (e_final_decision (rr_event r)))
    (rr_findings r) (ra_risk_score <$> assessment) (ra_risk_level <$> assessment)
    (match posture with Some p => Some (p_risk_score p) | None => ra_risk_score <$> assessment end)
    (match posture with Some p => Some (p_risk_level p) | None => ra_risk_level <$> assessment end)
    (rs_response_type <$> rr_response_action r) (rs_reason <$> rr_response_action r)
    (rr_refusal_reason r).

Section application.
Context (hmac : string -> string -> string) (float_repr : Z -> string)
        (sha256 : string -> string) (uuid5 : string -> string -> string).
Context {Tel : Type} (emit : RuntimeTelemetry -> Tel -> Tel * result unit).
Context (path_exists path_is_symlink path_is_dir : Path -> bool)
        (realpath : Path -> result Path)
        (samefile : Path -> Path -> option bool)
        (scandir : Path -> option (list string)).
Context (jwt_decode : string -> string -> list string -> Z -> Z -> JwtOutcome)
        (int_field : json -> option Z).

(** What the composition root fixed: the pipeline's configuration, the rules' metadata, the
    token service, the release version, the scenarios, and how one is run in its sandbox. *)
Record AppConfig := mkAppConfig {
  ac_runtime : RuntimeConfig;
  ac_rules : list RuleMetadata;
  ac_jwt : JWTService;
  ac_version : result string;
  ac_scenarios : ScenarioRegistry;
  ac_run_scenario : AttackScenario -> result ScenarioExecution;
}.

Context (app : AppConfig).
Local Abbreviation PF := (Platform Tel).
Local Abbreviation World := (RuntimeWorld (RA:=InMemoryAdministrativeStateRepository)
                               (RE:=InMemoryEnforcementStateRepository) (Tel:=Tel)).

(** The services share the singletons: the pipeline and the coordinator are views of one
    state. *)
Definition runtime_view (p : PF) : World :=
  mkRuntimeWorld (pl_agents p) (pl_tools p) (Some (pl_registry p)) (pl_capabilities p)
    (pl_sessions p) (pl_findings p) (pl_risk p) (Some (pl_authority p)) (pl_audit p)
    (pl_telemetry p) (pl_last_result p).

Definition with_runtime (w : World) (p : PF) : PF :=
  mkPlatform (rw_agents w) (rw_tools w) (default (pl_registry p) (rw_registry w))
    (rw_capabilities w) (rw_sessions w) (rw_findings w) (rw_risk w)
    (default (pl_authority p) (rw_authority w)) (rw_audit w) (rw_telemetry w) (rw_last_result w)
    (pl_receipts p).

Definition coordinator_view (p : PF) : CoordWorld :=
  mkCoordWorld (pl_agents p) (pl_authority p) (Some (pl_findings p)) (Some (pl_risk p))
    (Some (pl_sessions p)).

Definition with_coordinator (c : CoordWorld) (p : PF) : PF :=
  mkPlatform (cw_agents c) (pl_tools p) (pl_registry p) (pl_capabilities p)
    (default (pl_sessions p) (cw_sessions c)) (default (pl_findings p) (cw_findings c))
    (default (pl_risk p) (cw_risk c)) (cw_authority c) (pl_audit p) (pl_telemetry p)
    (pl_last_result p) (pl_receipts p).

Definition on_runtime {A} (m : Comp World A) : Comp PF A := zoom runtime_view with_runtime m.
Definition on_coordinator {A} (m : Comp CoordWorld A) : Comp PF A :=
  zoom coordinator_view with_coordinator m.

(** A view: what a read handler computes from the stores. *)
Definition view (f : PF -> result ApiResponse) : Comp PF ApiResponse := fun p => (p, f p).

(** ** Handlers *)

Definition execute_pipeline (agent : string) (b : ExecuteRequest) (env : ApiEnv)
  : Comp PF RuntimeResult :=
  on_runtime (execute hmac float_repr sha256 uuid5 emit path_exists path_is_symlink path_is_dir
    realpath samefile scandir (ac_runtime app) (runtime_request agent b) (ap_runtime env)).

Definition execute_route (agent : string) (b : ExecuteRequest) (env : ApiEnv)
  : Comp PF ApiResponse :=
  r ← execute_pipeline agent b env; mret (RespExecute (execute_response r)).

(** [principal] is the handler's own dependency on [get_current_principal]. *)
Definition reinstate_route (agent reason : string) (principal : result JWTClaims) (env : ApiEnv)
  : Comp PF ApiResponse :=
  p ← liftR principal;
  body ← liftR (new_reinstate_request reason);
  a ← on_coordinator (reinstate_agent_route agent body p (ap_baseline_at env) (ap_call env));
  mret (RespAgent a).

(** The answer of a read-only route. *)
Definition read_route (r : Route) (env : ApiEnv) (p : PF) : result ApiResponse :=
  match r with
  | GetHealth => Ok (RespHealth "ok")
  | GetVersion => v ← ac_version app; mret (RespVersion PLATFORM_NAME v)
  | GetScenarios category severity tag enabled =>
      Ok (RespScenarios (list_scenarios_route category severity tag enabled (ac_scenarios app)))
  | GetScenario sid => s ← get_scenario_route sid (ac_scenarios app); mret (RespScenario s)
  | PostScenario sid =>
      x ← execute_scenario_route (ac_run_scenario app) sid (ac_scenarios app);
      mret (RespScenarioRun x)
  | GetAgents => l ← list_agents_view (pl_agents p); mret (RespAgents l)
  | GetEnforcement a => e ← (get_agent_enforcement a (pl_agents p)).2; mret (RespEnforcement e)
  | GetTools => Ok (RespTools (list_tools_view (pl_registry p)))
  | GetRules => Ok (RespRules (list_detection_rules_view (ac_rules app)))
  | GetAuditEvents => Ok (RespAudit (list_audit_events_view (pl_audit p)))
  | GetSessions => Ok (RespSessions (list_sessions_view (pl_sessions p)))
  | GetFindings session agent severity category status rule_id =>
      Ok (RespFindings (list_findings_view (ac_rules app) session agent severity category status
                          rule_id (pl_findings p)))
  | GetFinding id => f ← get_finding_view (ac_rules app) id (pl_findings p); mret (RespFinding f)
  | GetRiskAssessments session agent level =>
      Ok (RespRiskAssessments
            (list_risk_assessments_view (ap_read_now env) session agent level (pl_findings p)))
  | GetRiskAssessment session agent =>
      a ← get_risk_assessment_view (ap_read_now env) session agent (pl_findings p);
      mret (RespRiskAssessment a)
  | GetInfo =>
      i ← platform_info (ac_version app) (pl_agents p) (pl_registry p) (ac_rules app) (pl_audit p)
            (pl_findings p);
      mret (RespInfo i)
  | PostExecute _ _ | PostReinstate _ _ => Err NOT_FOUND
  end.

Definition handler (r : Route) (principal : result JWTClaims) (env : ApiEnv)
  : Comp PF ApiResponse :=
  match r with
  | PostExecute agent body => execute_route agent body env
  | PostReinstate agent reason => reinstate_route agent reason principal env
  | r => view (read_route r env)
  end.

(** The dependencies of a route, then its handler. *)
Definition serve (rq : ApiRequest) : Comp PF ApiResponse :=
  let principal :=
    get_current_principal jwt_decode int_field (ac_jwt app) (aq_credentials rq)
      (ap_auth_now (aq_env rq)) in
  match mount_roles (aq_route rq) with
  | None => handler (aq_route rq) principal (aq_env rq)
  | Some roles =>
      claims ← liftR principal;
      _ ← liftR (require_roles roles claims);
      _ ← liftR (route_dependency (aq_route rq) claims);
      handler (aq_route rq) principal (aq_env rq)
  end.

(** ** The life of the process *)

(** The startup phase of [lifespan]: the application is ready only once it returns. *)
Definition startup (now : Z) : Comp PF unit := fun p =>
  let '(receipts, _) := reconcile_on_startup now (pl_receipts p) in
  (mkPlatform (pl_agents p) (pl_tools p) (pl_registry p) (pl_capabilities p) (pl_sessions p)
     (pl_findings p) (pl_risk p) (pl_authority p) (pl_audit p) (pl_telemetry p)
     (pl_last_result p) receipts, Ok tt).

Definition serve_all (rqs : list ApiRequest) (p : PF) : PF :=
  fold_left (fun p rq => (serve rq p).1) rqs p.
End application.

(** ** What the boundary guarantees *)

Section boundary.
Context (hmac : string -> string -> string) (float_repr : Z -> string)
        (sha256 : string -> string) (uuid5 : string -> string -> string).
Context {Tel : Type} (emit : RuntimeTelemetry -> Tel -> Tel * result unit).
Context (path_exists path_is_symlink path_is_dir : Path -> bool)
        (realpath : Path -> result Path)
        (samefile : Path -> Path -> option bool)
        (scandir : Path -> option (list string)).
Context (jwt_decode : string -> string -> list string -> Z -> Z -> JwtOutcome)
        (int_field : json -> option Z) (jws_verifies : string -> string -> string -> bool).
Context (app : AppConfig).
Local Abbreviation PF := (Platform Tel).
Local Abbreviation serve_ :=
  (serve hmac float_repr sha256 uuid5 emit path_exists path_is_symlink path_is_dir realpath samefile
     scandir jwt_decode int_field app).
Local Abbreviation execute_route_ :=
  (execute_route hmac float_repr sha256 uuid5 emit path_exists path_is_symlink path_is_dir realpath
     samefile scandir app).

(** The request presented a bearer token that verifies under the configured key and is not
    past its expiry, and these are its claims. *)
Definition authenticates (rq : ApiRequest) (claims : JWTClaims) : Prop :=
  get_current_principal jwt_decode int_field (ac_jwt app) (aq_credentials rq)
    (ap_auth_now (aq_env rq)) = Ok claims /\
  exists h, aq_credentials rq = Some h /\
    jws_verifies (str_strip (hc_credentials h)) (jw_secret_key (ac_jwt app))
      (jw_algorithm (ac_jwt app)) = true /\
    ap_auth_now (aq_env rq) < (jc_exp claims + TOKEN_LEEWAY) * SECOND.

(** The request is an administrator's reinstatement of the agent. *)
Definition admin_reinstates (a : string) (rq : ApiRequest) : Prop :=
  exists reason claims, aq_route rq = PostReinstate a reason /\ authenticates rq claims /\
    jc_role claims = ADMIN.

Lemma require_roles_Ok allowed c c' :
  require_roles allowed c = Ok c' -> c' = c /\ jc_role c ∈ allowed.
Proof.
  unfold require_roles. case_bool_decide as Hr; [|done]. simpl. by intros [= ->].
Qed.

Lemma require_roles_refuses allowed c e : require_roles allowed c = Err e -> e = FORBIDDEN.
Proof. unfold require_roles. destruct (negb _); congruence. Qed.

Lemma identity_refuses a c e : require_execution_identity a c = Err e -> e = FORBIDDEN.
Proof. unfold require_execution_identity. repeat (case_bool_decide; try congruence). Qed.

Lemma identity_Ok a c c' :
  require_execution_identity a c = Ok c' -> jc_role c = AGENT /\ jc_agent_id c = a.
Proof.
  unfold require_execution_identity. case_bool_decide as H1'; [done|].
  case_bool_decide as H2'; [done|]. intros _.
  split; [by destruct (decide (jc_role c = AGENT))|by destruct (decide (jc_agent_id c = a))].
Qed.

(** Getting past the dependencies of a protected route. *)
Lemma serve_cases rq (p : PF) roles :
  decode_verifies jwt_decode int_field jws_verifies -> mount_roles (aq_route rq) = Some roles ->
  (serve_ rq p = (p, Err UNAUTHORIZED) \/ serve_ rq p = (p, Err FORBIDDEN)) \/
  exists claims, authenticates rq claims /\ jc_role claims ∈ roles /\
    is_ok (route_dependency (aq_route rq) claims) = true /\
    serve_ rq p = handler hmac float_repr sha256 uuid5 emit path_exists path_is_symlink path_is_dir
      realpath samefile scandir app (aq_route rq) (Ok claims) (aq_env rq) p.
Proof.
  intros Hlaw Hm. unfold serve. rewrite Hm.
  destruct (get_current_principal _ _ _ _ _) as [claims|e] eqn:Hp.
  2: { apply authentication_refuses in Hp as ->. by left; left. }
  cbv [mbind comp_bind liftR].
  destruct (require_roles roles claims) as [c|e] eqn:Hr;
    [apply require_roles_Ok in Hr as [-> Hr]|apply require_roles_refuses in Hr as ->; by left; right].
  destruct (route_dependency (aq_route rq) claims) as [c|e] eqn:Hd.
  - right. exists claims. split_and!; [|done|by rewrite Hd|done]. split; [done|].
    destruct (principal_verified _ _ _ _ _ _ _ Hlaw Hp) as (h & ? & _ & ? & ?). by exists h.
  - left; right. destruct (aq_route rq); try done; simpl in Hd.
    + by apply identity_refuses in Hd as ->.
    + by apply require_roles_refuses in Hd as ->.
Qed.

(** ** Agents under a history of requests *)

Lemma reinstate_agents a actor reason at_ env (w : CoordWorld) :
  exists wm, cw_agents (reinstate a actor reason at_ env w).1 =
             run_calls [CReinstate a actor reason wm env] (cw_agents w).
Proof.
  exists (Some (compose_watermark a at_ w)). unfold run_calls; simpl. rewrite forget_state.
  unfold reinstate, mbind, comp_bind, Coordinator.on_agents, zoom.
  destruct (reinstate_agent _ _ _ _ _ _) as [x [ag|e]]; [|done]. simpl.
  assert (forall A (m : Comp RiskAggregator A) w1, cw_agents (Coordinator.on_risk m w1).1 = cw_agents w1) as Hrisk.
  { intros A m w1. unfold Coordinator.on_risk. destruct (cw_risk w1); [|done]. by destruct (m _). }
  match goal with |- context [Coordinator.on_risk ?m ?w1] =>
    pose proof (Hrisk _ m w1) as Hk; destruct (Coordinator.on_risk m w1) as [w2 [[]|e]] end; [|done].
  simpl in Hk. unfold on_authority, zoom. destruct (resume_issuance _ _ _) as [au [[]|e]]; [|done].
  unfold still_contained. simpl.
  pose proof (get_enforcement_state_read a (cw_agents w2)) as Hg.
  destruct (get_enforcement_state a (cw_agents w2)) as [y [s|e]]; simpl in *; [|done].
  unfold reinstate_finish. by destruct (_ || _).
Qed.

(** Whatever a request does to the agents is a history of the agent service, in which only
    an administrator's reinstatement reinstates. *)
Lemma serve_agents rq (p : PF) :
  decode_verifies jwt_decode int_field jws_verifies ->
  exists cs, pl_agents (serve_ rq p).1 = run_calls cs (pl_agents p) /\
    forall a, ~ admin_reinstates a rq -> Forall (fun c => ~ reinstates a c) cs.
Proof.
  intros Hlaw. destruct (mount_roles (aq_route rq)) as [roles|] eqn:Hm.
  2: { exists []. unfold serve. rewrite Hm. split; [|constructor]. by destruct (aq_route rq). }
  destruct (serve_cases rq p roles Hlaw Hm) as [[->| ->]|(claims & Hau & _ & Hdep & ->)];
    [by exists []|by exists []|].
  destruct (aq_route rq) as [| |agent body| | | | | |agent reason| | | | | | | | |] eqn:Hroute;
    try (by exists []).
  - simpl. unfold execute_route, execute_pipeline, on_runtime, zoom, mbind, comp_bind.
    destruct (execute_only_suspends hmac float_repr sha256 uuid5 emit path_exists path_is_symlink
      path_is_dir realpath samefile scandir (ac_runtime app) (runtime_request agent body)
      (ap_runtime (aq_env rq)) (runtime_view p)) as (cs & Hcs & Heq).
    destruct (execute _ _ _ _ _ _ _ _ _ _ _ _ _ _ _) as [w r]; simpl in *.
    exists cs. split; [by destruct r|]. intros a _. eapply Forall_impl; [exact Hcs|].
    intros [] Hx; simpl in *; tauto.
  - simpl. unfold reinstate_route, on_coordinator, zoom, mbind, comp_bind, liftR.
    destruct (new_reinstate_request reason) as [body|e]; [|by exists []].
    unfold reinstate_agent_route, try_except, mbind, comp_bind.
    destruct (reinstate_agents agent (jc_sub claims) body (ap_baseline_at (aq_env rq))
      (ap_call (aq_env rq)) (coordinator_view p)) as [wm Hw].
    exists [CReinstate agent (jc_sub claims) body wm (ap_call (aq_env rq))].
    split.
    + etrans; [|exact Hw]. by destruct (reinstate _ _ _ _ _ _) as [w [ag|e]].
    + intros a Ha. repeat constructor. simpl. intros ->. apply Ha. exists reason, claims.
      split_and!; [done|done|]. simpl in Hdep.
      destruct (require_roles [ADMIN] claims) as [c|] eqn:Hr; [|done].
      apply require_roles_Ok in Hr as [_ Hr]. by apply list_elem_of_singleton in Hr.
Qed.

Local Abbreviation serve_all_ :=
  (serve_all hmac float_repr sha256 uuid5 emit path_exists path_is_symlink path_is_dir realpath
     samefile scandir jwt_decode int_field app).

Lemma serve_all_agents rqs (p : PF) a :
  decode_verifies jwt_decode int_field jws_verifies ->
  Forall (fun rq => ~ admin_reinstates a rq) rqs ->
  exists cs, pl_agents (serve_all_ rqs p) = run_calls cs (pl_agents p) /\
    Forall (fun c => ~ reinstates a c) cs.
Proof.
  intros Hlaw. revert p. induction rqs as [|rq rqs IH]; intros p Hall; [by exists []|].
  apply Forall_cons in Hall as [Hrq Hall]. simpl.
  destruct (serve_agents rq p Hlaw) as (cs1 & E1 & H1').
  destruct (IH (serve_ rq p).1 Hall) as (cs2 & E2 & H2').
  exists (cs1 ++ cs2). split; [|by apply Forall_app; auto].
  rewrite E2, E1. unfold run_calls. by rewrite fold_left_app.
Qed.
End boundary.


(** C3. Containment holds until an administrator lifts it: over any history of requests in
    which no verified ADMIN reinstates the agent, a suspended agent stays suspended, and
    whatever it then asks the pipeline for, an answer is never ALLOW. *)
Theorem containment_lifted_only_by_admin hmac float_repr sha256 uuid5 {Tel}
    (emit : RuntimeTelemetry -> Tel -> Tel * result unit) path_exists path_is_symlink path_is_dir
    realpath samefile scandir jwt_decode int_field jws_verifies app rqs a (p : Platform Tel) :
  decode_verifies jwt_decode int_field jws_verifies ->
  aw_inv (pl_agents p) -> suspended a (pl_agents p) ->
  Forall (fun rq => ~ admin_reinstates jwt_decode int_field jws_verifies app a rq) rqs ->
  let after := serve_all hmac float_repr sha256 uuid5 emit path_exists path_is_symlink path_is_dir
    realpath samefile scandir jwt_decode int_field app rqs p in
  suspended a (pl_agents after) /\
  forall rq body p' answer, aq_route rq = PostExecute a body ->
    serve hmac float_repr sha256 uuid5 emit path_exists path_is_symlink path_is_dir realpath
      samefile scandir jwt_decode int_field app rq after = (p', Ok (RespExecute answer)) ->
    eo_decision answer <> ALLOW.
Proof.
  intros Hlaw Hinv Hs Hall after.
  destruct (serve_all_agents hmac float_repr sha256 uuid5 emit path_exists path_is_symlink
    path_is_dir realpath samefile scandir jwt_decode int_field jws_verifies app rqs p a Hlaw Hall)
    as (cs & Heq & Hcs).
  assert (suspended a (pl_agents after)) as Hsus
    by (unfold after; rewrite Heq; by apply suspension_persists).
  split; [done|]. intros rq body p' answer Hroute Hserve.
  destruct (serve_cases hmac float_repr sha256 uuid5 emit path_exists path_is_symlink path_is_dir
    realpath samefile scandir jwt_decode int_field jws_verifies app rq after [AGENT] Hlaw)
    as [[Hr|Hr]|(claims & _ & _ & _ & Hr)]; [by rewrite Hroute|congruence..|].
  rewrite Hr, Hroute in Hserve. simpl in Hserve.
  unfold execute_route, execute_pipeline, on_runtime, zoom, mbind, comp_bind in Hserve.
  destruct (execute _ _ _ _ _ _ _ _ _ _ _ _ _ _ _) as [w [r|e]] eqn:Hx; [|done].
  injection Hserve as _ <-. unfold execute_response; simpl.
  eapply contained_refused in Hx as (d & -> & Hd); [done| |left; exact Hsus].
  simpl. unfold after. rewrite Heq. by apply run_calls_inv.
Qed.

(** ** A concrete application: one suspended agent, its token, and an administrator's *)

Definition agent_claims : JWTClaims := mkClaims "svc-a" "a" AGENT 1000 4600.
Definition admin_claims : JWTClaims := mkClaims "ops" "ops" ADMIN 1000 4600.

(** Two tokens are in circulation. *)
Definition two_tokens_decode (token key : string) (algorithms : list string) (leeway now : Z)
  : JwtOutcome :=
  match algorithms with
  | [] => JwtInvalid
  | _ =>
      let answer c :=
        if now - leeway * SECOND <? 4600 * SECOND then JwtPayload (claims_dump c) else JwtExpired in
      if bool_decide (token = "agent-token"%string) then answer agent_claims
      else if bool_decide (token = "admin-token"%string) then answer admin_claims
      else JwtInvalid
  end.

Definition two_tokens_verify (token key algorithm : string) : bool :=
  bool_decide (token ∈ ["agent-token"; "admin-token"]%string).

Lemma two_tokens_law : decode_verifies two_tokens_decode demo_int_field two_tokens_verify.
Proof.
  intros token key algorithms leeway now p. unfold two_tokens_decode, two_tokens_verify.
  destruct algorithms as [|alg algs]; [done|].
  assert (forall c, jc_exp c = 4600 ->
    (if now - leeway * SECOND <? 4600 * SECOND then JwtPayload (claims_dump c) else JwtExpired)
      = JwtPayload p ->
    forall e, int_member demo_int_field "exp" p = Some e -> now - leeway * SECOND < e * SECOND) as Hc.
  { intros c Hc. destruct (Z.ltb_spec (now - leeway * SECOND) (4600 * SECOND)); [|done].
    intros [= <-] e He. unfold int_member in He; simpl in He. rewrite Hc in He.
    assert (e = 4600) as -> by (vm_compute in He; congruence). done. }
  case_bool_decide as Ha; [|case_bool_decide as Hb; [|done]]; intros Hp;
    (split; [exists alg; split; [by left|apply bool_decide_true; set_solver]|by eapply Hc; [|exact Hp]]).
Qed.

Definition demo_app : AppConfig :=
  mkAppConfig demo_config default_rule_metadata (default_jwt_service demo_key) (Ok "0.18.0"%string) []
    (fun _ => Err ValueError).

Definition suspended_agents : Agents_ :=
  run_calls [CSuspend "a" "risk" None (env_at 5 "u5")] active_world.

Definition demo_platform : Platform (list RuntimeTelemetry) :=
  let w := demo_world [] in
  mkPlatform suspended_agents (rw_tools w) (default [] (rw_registry w)) (rw_capabilities w)
    (rw_sessions w) (rw_findings w) (rw_risk w) sample_authority [] [] None empty_store.

Definition demo_api_env : ApiEnv := mkApiEnv 2000000000 demo_env 20 (env_at 21 "u21") 22.

Definition as_agent (r : Route) : ApiRequest :=
  mkApiRequest r (Some (mkCredentials "Bearer" "agent-token")) demo_api_env.
Definition as_admin (r : Route) : ApiRequest :=
  mkApiRequest r (Some (mkCredentials "bearer" " admin-token ")) demo_api_env.

Definition agent_asks : ApiRequest :=
  as_agent (PostExecute "a" (mkExecuteRequest "s" "fs" (Some "a.txt"%string) [] "read" "" "")).

Definition demo_serve :=
  serve sample_hmac sample_repr demo_sha demo_uuid5 demo_emit no_path no_path no_path no_realpath
    no_samefile no_scandir two_tokens_decode demo_int_field demo_app.

(** The agent asks, tries to reinstate itself, and the administrator looks around. *)
Definition demo_requests : list ApiRequest :=
  [agent_asks; as_agent (PostReinstate "a" "please"); as_admin GetAgents; as_admin GetInfo].

(** What the agent is told. *)
Definition demo_answer : option (Decision * string) :=
  match (demo_serve agent_asks demo_platform).2 with
  | Ok (RespExecute x) => Some (eo_decision x, eo_agent_id x)
  | _ => None
  end.

Lemma demo_answer_value : demo_answer = Some (DENY, "a"%string).
Proof. vm_compute. reflexivity. Qed.

Lemma suspended_agents_suspended : suspended "a" (pl_agents demo_platform).
Proof. vm_compute. reflexivity. Qed.

Lemma suspended_agents_inv : aw_inv (pl_agents demo_platform).
Proof. apply run_calls_inv, active_world_inv. Qed.

Lemma demo_requests_lift_nothing :
  Forall (fun rq => ~ admin_reinstates two_tokens_decode demo_int_field two_tokens_verify demo_app
                        "a" rq) demo_requests.
Proof.
  repeat constructor; intros (reason & claims & Hr & [Hc _] & Hrole); try done.
  vm_compute in Hc. injection Hc as <-. done.
Qed.

Lemma containment_lifted_only_by_admin_witness :
  suspended "a" (pl_agents (serve_all sample_hmac sample_repr demo_sha demo_uuid5 demo_emit no_path
    no_path no_path no_realpath no_samefile no_scandir two_tokens_decode demo_int_field demo_app
    demo_requests demo_platform)).
Proof.
  exact (proj1 (containment_lifted_only_by_admin sample_hmac sample_repr demo_sha demo_uuid5 demo_emit
    no_path no_path no_path no_realpath no_samefile no_scandir two_tokens_decode demo_int_field
    two_tokens_verify demo_app demo_requests "a" demo_platform two_tokens_law suspended_agents_inv
    suspended_agents_suspended demo_requests_lift_nothing)).
Defined.

