(* ===== verification/Composition.v ===== *)
(** * Configuration and composition of the process

    [config/settings.py], [repositories/factory.py], [repositories/composition_validation.py]
    and the order in which [api/dependencies.py] resolves them.  The environment is a function
    from variable names; an adapter is known by its class, and by the adapter it consults
    where it consults one. *)
From S2P Require Import Prelude PyInt.
Local Open Scope Z_scope.

(** ** Settings *)

Definition ConfigurationError : exn := OtherException "ConfigurationError".

Definition JWT_SECRET_KEY_ENV_VAR : string := "JWT_SECRET_KEY".
Definition MINIMUM_JWT_SECRET_LENGTH : Z := 32.
Definition RETIRED_DEVELOPMENT_SECRET : string :=
  "development-secret-key-change-in-production-32bytes".
Definition MAX_TERMINAL_EXECUTION_RECEIPTS_ENV_VAR : string :=
  "EXECUTION_EVIDENCE_MAX_TERMINAL_RECEIPTS".
Definition DEFAULT_MAX_TERMINAL_EXECUTION_RECEIPTS : Z := 10000.
Definition REPOSITORY_BACKEND_ENV_VAR : string := "REPOSITORY_BACKEND".
Definition DATABASE_URL_ENV_VAR : string := "DATABASE_URL".
Definition SUPPORTED_BACKENDS : list string := ["memory"; "sql"]%string.

Section settings.
Context (getenv : string -> option string).

Definition get_default_provider : string := default "ollama"%string (getenv "DEFAULT_PROVIDER").

Definition is_blank (s : string) : bool := negb (str_nonempty (str_strip s)).

Definition get_max_terminal_execution_receipts : result Z :=
  match getenv MAX_TERMINAL_EXECUTION_RECEIPTS_ENV_VAR with
  | None => Ok DEFAULT_MAX_TERMINAL_EXECUTION_RECEIPTS
  | Some raw =>
      if is_blank raw then Ok DEFAULT_MAX_TERMINAL_EXECUTION_RECEIPTS
      else match py_int (str_strip raw) with
           | None => Err ConfigurationError
           | Some value => if value <? 1 then Err ConfigurationError else Ok value
           end
  end.

(** [len(s.encode("utf-8"))]: a code point above 127 takes two bytes. *)
Fixpoint utf8_length (s : string) : Z :=
  match s with
  | EmptyString => 0
  | String c s' => (if (N_of_ascii c <? 128)%N then 1 else 2) + utf8_length s'
  end.

Definition get_jwt_secret_key : result string :=
  match getenv JWT_SECRET_KEY_ENV_VAR with
  | None => Err ConfigurationError
  | Some secret =>
      if is_blank secret then Err ConfigurationError
      else if bool_decide (secret = RETIRED_DEVELOPMENT_SECRET) then Err ConfigurationError
      else if utf8_length secret <? MINIMUM_JWT_SECRET_LENGTH then Err ConfigurationError
      else Ok secret
  end.

Definition get_repository_backend : result string :=
  let raw := str_lower (str_strip (default "memory"%string (getenv REPOSITORY_BACKEND_ENV_VAR))) in
  if negb (bool_decide (raw ∈ SUPPORTED_BACKENDS)) then Err ConfigurationError else Ok raw.

Definition get_database_url : result string :=
  let url := str_strip (default EmptyString (getenv DATABASE_URL_ENV_VAR)) in
  if negb (str_nonempty url) then Err ConfigurationError else Ok url.
End settings.

(** ** Repositories *)

(** An adapter instance: its class, and the agent repository it consults, if any. *)
Inductive Adapter := mkAdapter (class_name : string) (consults : option Adapter).

Definition class_name (a : Adapter) : string := let 'mkAdapter c _ := a in c.

Definition plain (c : string) : Adapter := mkAdapter c None.

Record RepositoryContainer := mkContainer {
  rp_agent_repository : Adapter;
  rp_administrative_repository : Adapter;
  rp_administrative_audit_repository : Adapter;
  rp_tool_repository : Adapter;
  rp_session_repository : Adapter;
  rp_enforcement_repository : Adapter;
  rp_approval_grant_repository : Adapter;
  rp_audit_repository : Adapter;
}.

Definition RepositoryCompositionError : exn := OtherException "RepositoryCompositionError".
Definition DurableCompositionError : exn := OtherException "DurableCompositionError".

(** [create_repositories(backend, engine=, session_factory=, agent_repository=,
    tool_repository=, audit_repository=)]; an engine and a session factory are only asked
    whether they were given. *)
Definition create_repositories (backend : string) (engine session_factory : bool)
    (agent tool audit : option Adapter) : result RepositoryContainer :=
  if bool_decide (backend = "memory"%string)
  then
    if engine || session_factory then Err ValueError
    else
      let memory_agents := default (plain "InMemoryAgentRepository") agent in
      Ok (mkContainer memory_agents
            (mkAdapter "InMemoryAdministrativeStateRepository" (Some memory_agents))
            (plain "InMemoryAdministrativeAuditRepository")
            (default (plain "InMemoryToolRepository") tool)
            (plain "InMemorySessionRepository") (plain "InMemoryEnforcementStateRepository")
            (plain "InMemoryApprovalContinuationRepository")
            (default (plain "InMemoryAuditEvidenceRepository") audit))
  else if bool_decide (backend = "sql"%string)
  then
    if negb engine && negb session_factory then Err ValueError
    else if engine && session_factory then Err ValueError
    else
      Ok (mkContainer (default (plain "SqlAgentRepository") agent)
            (plain "SqlAdministrativeStateRepository") (plain "SqlAdministrativeAuditRepository")
            (default (plain "SqlToolRepository") tool)
            (plain "SqlSessionRepository") (plain "SqlEnforcementStateRepository")
            (plain "SqlApprovalContinuationRepository")
            (default (plain "SqlAuditEvidenceRepository") audit))
  else Err ValueError.

(** ** Durable composition (ADR-030 L.6) *)

(** [type(repository).__name__.startswith("Sql")] *)
Definition is_durable (a : Adapter) : bool := String.prefix "Sql" (class_name a).

(** [getattr(container, name, None)] *)
Definition container_attribute (name : string) (c : RepositoryContainer) : option Adapter :=
  List.find (fun _ => true)
    (omap (fun '(n, a) => if bool_decide (n = name) then Some a else None)
       [("agent_repository", rp_agent_repository c);
        ("administrative_repository", rp_administrative_repository c);
        ("administrative_audit_repository", rp_administrative_audit_repository c);
        ("tool_repository", rp_tool_repository c);
        ("session_repository", rp_session_repository c);
        ("enforcement_repository", rp_enforcement_repository c);
        ("approval_grant_repository", rp_approval_grant_repository c);
        ("audit_repository", rp_audit_repository c)]%string).

Record NamespaceReference := mkReference {
  nr_referencing_attribute : string;
  nr_referencing_record : string;
  nr_referenced_namespace : string;
  nr_referenced_attribute : option string;
  nr_allocator_description : string;
}.

Definition L6_REFERENCES : list NamespaceReference :=
  [mkReference "enforcement_repository" "agent_enforcement_state.baseline_evidence_sequence"
     "Finding.evidence_sequence" None
     "FindingsService, in process memory; there is no findings repository";
   mkReference "enforcement_repository" "agent_enforcement_state.baseline_agent_sequence"
     "SessionEvent.agent_sequence" (Some "session_repository")
     "agent_sequence_counters, owned by the session repository";
   mkReference "approval_grant_repository" "approval_continuations.enforcement_epoch"
     "AgentEnforcementState.epoch" (Some "enforcement_repository")
     "the enforcement state repository"]%string.

(** One pass of the loop: does the reference add a violation? *)
Definition violates (c : RepositoryContainer) (ref : NamespaceReference) : bool :=
  match container_attribute (nr_referencing_attribute ref) c with
  | None => false
  | Some referencing =>
      if negb (is_durable referencing) then false
      else match nr_referenced_attribute ref with
           | None => true
           | Some name =>
               match container_attribute name c with
               | Some referenced => negb (is_durable referenced)
               | None => true
               end
           end
  end.

Definition violation_text (ref : NamespaceReference) : string :=
  "  - " +:+ nr_referencing_record ref +:+ " is durable but references "
  +:+ nr_referenced_namespace ref +:+ ", whose allocator is volatile ("
  +:+ nr_allocator_description ref +:+ ").".

Definition durable_violations (c : RepositoryContainer) : list string :=
  violation_text <$> List.filter (violates c) L6_REFERENCES.

Definition validate_durable_composition (c : RepositoryContainer) : result unit :=
  match durable_violations c with [] => Ok tt | _ => Err DurableCompositionError end.

(** ** Start-up (api/dependencies.py) *)

Section startup.
Context (getenv : string -> option string).
(** [create_sql_engine(url)] is SQLAlchemy's; it may refuse the URL. *)
Context (create_sql_engine : string -> result unit).

Definition build_repositories : result RepositoryContainer :=
  backend ← get_repository_backend getenv;
  container ←
    (if bool_decide (backend = "sql"%string)
     then url ← get_database_url getenv;
          _ ← create_sql_engine url;
          create_repositories "sql" true false None None None
     else create_repositories "memory" false false None None None);
  _ ← validate_durable_composition container;
  mret container.

(** What the singletons depend on, in the order the module resolves it. *)
Record StartupConfiguration := mkStartup {
  su_repositories : RepositoryContainer;
  su_max_terminal_receipts : Z;
  su_jwt_secret : string;
}.

Definition resolve_configuration : result StartupConfiguration :=
  repositories ← build_repositories;
  capacity ← get_max_terminal_execution_receipts getenv;
  secret ← get_jwt_secret_key getenv;
  mret (mkStartup repositories capacity secret).
End startup.

(** ** What is refused *)

Definition memory_container : RepositoryContainer :=
  mkContainer (plain "InMemoryAgentRepository")
    (mkAdapter "InMemoryAdministrativeStateRepository" (Some (plain "InMemoryAgentRepository")))
    (plain "InMemoryAdministrativeAuditRepository") (plain "InMemoryToolRepository")
    (plain "InMemorySessionRepository") (plain "InMemoryEnforcementStateRepository")
    (plain "InMemoryApprovalContinuationRepository") (plain "InMemoryAuditEvidenceRepository").

(** A composition is accepted exactly when every durable store refers to durable stores only:
    since findings have no repository, an accepted one has volatile enforcement, and then
    volatile approvals. *)
Lemma validate_iff c :
  validate_durable_composition c = Ok tt <->
  is_durable (rp_enforcement_repository c) = false /\
  is_durable (rp_approval_grant_repository c) = false.
Proof.
  unfold validate_durable_composition, durable_violations, violates, container_attribute; simpl.
  destruct (is_durable (rp_enforcement_repository c)) eqn:He; simpl.
  - destruct (is_durable (rp_session_repository c)), (is_durable (rp_approval_grant_repository c));
      simpl; rewrite ?He; naive_solver.
  - destruct (is_durable (rp_approval_grant_repository c)); simpl; rewrite ?He; naive_solver.
Qed.

Lemma build_Ok getenv engine c :
  build_repositories getenv engine = Ok c ->
  get_repository_backend getenv = Ok "memory"%string /\ c = memory_container.
Proof.
  unfold build_repositories. destruct (get_repository_backend getenv) as [b|] eqn:Hb; [|done].
  cbn [mbind result_bind]. case_bool_decide as Hs.
  - destruct (get_database_url getenv) as [url|]; [|done]. simpl.
    destruct (engine url); [|done]. by vm_compute.
  - simpl. intros [= <-]. split; [|done]. unfold get_repository_backend in Hb.
    case_bool_decide as Hin; [|done]. simpl in Hb. injection Hb as Hb. rewrite Hb in Hin.
    unfold SUPPORTED_BACKENDS in Hin. rewrite elem_of_cons, list_elem_of_singleton in Hin.
    by destruct Hin as [->| ->].
Qed.

(** The secrets the process may start with. *)
Definition acceptable_secret (s : string) : Prop :=
  is_blank s = false /\ s <> RETIRED_DEVELOPMENT_SECRET /\ 32 <= utf8_length s.

Lemma secret_iff getenv s :
  get_jwt_secret_key getenv = Ok s <->
  getenv JWT_SECRET_KEY_ENV_VAR = Some s /\ acceptable_secret s.
Proof.
  unfold get_jwt_secret_key, acceptable_secret, MINIMUM_JWT_SECRET_LENGTH.
  destruct (getenv JWT_SECRET_KEY_ENV_VAR) as [t|]; [|by split; [|intros []]].
  destruct (is_blank t) eqn:Hb; [split; [done|]; intros ([= ->] & ? & _); congruence|].
  case_bool_decide as Hr; [split; [done|]; by intros ([= ->] & _ & ? & _)|].
  destruct (Z.ltb_spec (utf8_length t) 32); [split; [done|]; intros ([= ->] & _ & _ & ?); lia|].
  split; [by intros [= <-]|by intros ([= ->] & _)].
Qed.

(** C23. The process starts only in a sound configuration.  Resolving it succeeds exactly when
    the backend is the in-memory one, the receipt capacity is unset, blank or an integer of
    at least one, and the signing key is set, not blank, not the retired default and at least
    32 bytes long; the repositories are then the in-memory ones throughout.  With the durable
    backend start-up is refused whatever the database answers, since its enforcement baseline
    would refer to findings that are only in memory. *)
Theorem startup_fails_closed getenv engine cfg :
  resolve_configuration getenv engine = Ok cfg <->
  get_repository_backend getenv = Ok "memory"%string /\
  su_repositories cfg = memory_container /\
  match getenv MAX_TERMINAL_EXECUTION_RECEIPTS_ENV_VAR with
  | None => su_max_terminal_receipts cfg = 10000
  | Some raw => if is_blank raw then su_max_terminal_receipts cfg = 10000
                else py_int (str_strip raw) = Some (su_max_terminal_receipts cfg) /\
                     1 <= su_max_terminal_receipts cfg
  end /\
  getenv JWT_SECRET_KEY_ENV_VAR = Some (su_jwt_secret cfg) /\ acceptable_secret (su_jwt_secret cfg).
Proof.
  unfold resolve_configuration. split.
  - destruct (build_repositories getenv engine) as [c|] eqn:Hb; [|done].
    apply build_Ok in Hb as [Hmem ->]. cbn [mbind result_bind].
    destruct (get_max_terminal_execution_receipts getenv) as [n|] eqn:Hn; [|done]. cbn [mbind result_bind].
    destruct (get_jwt_secret_key getenv) as [s|] eqn:Hs; [|done]. intros [= <-]. simpl.
    apply secret_iff in Hs. split_and!; [done|done| |apply Hs..].
    unfold get_max_terminal_execution_receipts, DEFAULT_MAX_TERMINAL_EXECUTION_RECEIPTS in Hn.
    destruct (getenv _) as [raw|]; [|congruence].
    destruct (is_blank raw); [congruence|]. destruct (py_int _) as [v|]; [|done].
    destruct (Z.ltb_spec v 1); [done|]. injection Hn as ->. split; [done|lia].
  - intros (Hmem & Hc & Hcap & Hs). destruct cfg as [c n s]; simpl in *. subst c.
    apply secret_iff in Hs. unfold build_repositories. rewrite Hmem. simpl.
    assert (get_max_terminal_execution_receipts getenv = Ok n) as ->; [|by rewrite Hs].
    unfold get_max_terminal_execution_receipts. destruct (getenv _) as [raw|]; [|by subst].
    destruct (is_blank raw); [by subst|]. destruct Hcap as [-> ?]. by destruct (Z.ltb_spec n 1); [lia|].
Qed.

(** A deployment that asks for the durable backend. *)
Definition durable_env (name : string) : option string :=
  if bool_decide (name = REPOSITORY_BACKEND_ENV_VAR) then Some " SQL "%string
  else if bool_decide (name = DATABASE_URL_ENV_VAR) then Some "postgresql://db"%string
  else if bool_decide (name = JWT_SECRET_KEY_ENV_VAR) then Some "0123456789abcdef0123456789abcdef"%string
  else None.

Example durable_backend_refused :
  resolve_configuration durable_env (fun _ => Ok tt) = Err DurableCompositionError.
Proof. vm_compute. reflexivity. Qed.

Definition memory_env (name : string) : option string :=
  if bool_decide (name = JWT_SECRET_KEY_ENV_VAR) then Some "0123456789abcdef0123456789abcdef"%string
  else if bool_decide (name = MAX_TERMINAL_EXECUTION_RECEIPTS_ENV_VAR) then Some " 1_000 "%string
  else None.

Example memory_backend_starts :
  su_max_terminal_receipts <$>
    (match resolve_configuration memory_env (fun _ => Ok tt) with Ok c => Some c | Err _ => None end)
  = Some 1000.
Proof. vm_compute. reflexivity. Qed.
