(* ===== verification/Version.v ===== *)
(** * The platform version

    [version.py]: the [VERSION] file is read and must match [SEMVER_REGEX].  The pattern is
    written as a regular expression and matched by derivatives; its language is defined
    separately and the matcher decides it. *)
From S2P Require Import Prelude.
From Stdlib Require Import Ascii.
Local Open Scope bool_scope.

(** ** Regular expressions over characters *)

Inductive regex :=
| RNone
| REps
| RChar (p : ascii -> bool)
| RSeq (r s : regex)
| RAlt (r s : regex)
| RStar (r : regex).

(** The texts an expression matches in full. *)
Inductive lang : regex -> string -> Prop :=
| lang_eps : lang REps ""
| lang_char p c : p c = true -> lang (RChar p) (String c "")
| lang_seq r s t u : lang r t -> lang s u -> lang (RSeq r s) (t +:+ u)
| lang_alt_l r s t : lang r t -> lang (RAlt r s) t
| lang_alt_r r s t : lang s t -> lang (RAlt r s) t
| lang_star_nil r : lang (RStar r) ""
| lang_star_cons r t u : lang r t -> lang (RStar r) u -> lang (RStar r) (t +:+ u).

Fixpoint nullable (r : regex) : bool :=
  match r with
  | RNone | RChar _ => false
  | REps | RStar _ => true
  | RSeq r s => nullable r && nullable s
  | RAlt r s => nullable r || nullable s
  end.

(** What is left to match after the character. *)
Fixpoint deriv (c : ascii) (r : regex) : regex :=
  match r with
  | RNone | REps => RNone
  | RChar p => if p c then REps else RNone
  | RSeq r s =>
      if nullable r then RAlt (RSeq (deriv c r) s) (deriv c s) else RSeq (deriv c r) s
  | RAlt r s => RAlt (deriv c r) (deriv c s)
  | RStar r => RSeq (deriv c r) (RStar r)
  end.

Fixpoint regex_match (r : regex) (s : string) : bool :=
  match s with
  | EmptyString => nullable r
  | String c s' => regex_match (deriv c r) s'
  end.

Lemma app_nil_inv (t u : string) : t +:+ u = "" -> t = "" /\ u = "".
Proof. by destruct t. Qed.

Lemma nullable_iff r : nullable r = true <-> lang r "".
Proof.
  induction r as [| |p|r IHr s IHs|r IHr s IHs|r IH]; simpl.
  - split; [done|intros Hl; inversion Hl].
  - split; [constructor|done].
  - split; [done|intros Hl; inversion Hl].
  - rewrite andb_true_iff, IHr, IHs. split.
    + intros [Hr Hs]. exact (lang_seq _ _ "" "" Hr Hs).
    + intros Hl. inversion Hl as [| |? ? t u Ht Hu E1 E2| | | |]; subst.
      by apply app_nil_inv in E2 as [-> ->].
  - rewrite orb_true_iff, IHr, IHs. split.
    + intros [?|?]; [by apply lang_alt_l|by apply lang_alt_r].
    + intros Hl; inversion Hl; subst; auto.
  - split; [constructor|done].
Qed.

Lemma app_cons_inv (t u : string) c s :
  t +:+ u = String c s -> t = "" /\ u = String c s \/ exists t', t = String c t' /\ t' +:+ u = s.
Proof. destruct t as [|c' t]; [by left|]. intros [= -> <-]. right. by exists t. Qed.

(** A non-empty text of a star starts with a non-empty text of its body. *)
Lemma star_cons r t :
  lang (RStar r) t -> forall c s, t = String c s ->
  exists t1 u, s = t1 +:+ u /\ lang r (String c t1) /\ lang (RStar r) u.
Proof.
  remember (RStar r) as r' eqn:Hr'. intros Hl. revert Hr'.
  induction Hl as [| | | | |r0|r0 t u Ht _ Hu IH]; intros Heq k w E; try discriminate.
  injection Heq as ->.
  apply app_cons_inv in E as [[-> ->]|(t1 & -> & <-)]; [by apply IH|].
  by exists t1, u.
Qed.

Lemma deriv_sound c r s : lang (deriv c r) s -> lang r (String c s).
Proof.
  revert s. induction r as [| |p|r IHr q IHq|r IHr q IHq|r IH]; intros s; simpl.
  - intros Hl; inversion Hl.
  - intros Hl; inversion Hl.
  - destruct (p c) eqn:Hp; intros Hl; inversion Hl; subst. by constructor.
  - assert (forall s, lang (RSeq (deriv c r) q) s -> lang (RSeq r q) (String c s)) as Hseq.
    { intros s' Hl. inversion Hl as [| |? ? t u Ht Hu E1 E2| | | |]; subst.
      change (String c (t +:+ u)) with (String c t +:+ u). constructor; auto. }
    destruct (nullable r) eqn:Hn; [|apply Hseq].
    intros Hl; inversion Hl; subst; [by apply Hseq|].
    change (String c s) with ("" +:+ String c s). constructor; [by apply nullable_iff|auto].
  - intros Hl; inversion Hl; subst; [apply lang_alt_l|apply lang_alt_r]; auto.
  - intros Hl. inversion Hl as [| |? ? t u Ht Hu E1 E2| | | |]; subst.
    change (String c (t +:+ u)) with (String c t +:+ u). constructor; auto.
Qed.

Lemma deriv_complete c r s : lang r (String c s) -> lang (deriv c r) s.
Proof.
  revert s. induction r as [| |p|r IHr q IHq|r IHr q IHq|r IH]; intros s Hl; simpl.
  - inversion Hl.
  - inversion Hl.
  - inversion Hl as [|? ? Hp| | | | |]; subst. rewrite Hp. constructor.
  - inversion Hl as [| |? ? t u Ht Hu E1 E2| | | |]; subst.
    apply app_cons_inv in E2 as [[-> ->]|(t1 & -> & <-)].
    + apply nullable_iff in Ht as ->. apply lang_alt_r. auto.
    + destruct (nullable r); [apply lang_alt_l|]; constructor; auto.
  - inversion Hl; subst; [apply lang_alt_l|apply lang_alt_r]; auto.
  - destruct (star_cons r _ Hl c s eq_refl) as (t1 & u & -> & Ht & Hu). constructor; auto.
Qed.

(** The matcher decides the language. *)
Lemma regex_match_iff r s : regex_match r s = true <-> lang r s.
Proof.
  revert r. induction s as [|c s IH]; intros r; simpl; [apply nullable_iff|].
  rewrite IH. split; [apply deriv_sound|apply deriv_complete].
Qed.

(** ** The pattern *)

Definition between (lo hi c : ascii) : bool :=
  (N_of_ascii lo <=? N_of_ascii c)%N && (N_of_ascii c <=? N_of_ascii hi)%N.
Definition is_digit (c : ascii) : bool := between "0" "9" c.
Definition is_letter_or_dash (c : ascii) : bool :=
  between "a" "z" c || between "A" "Z" c || Ascii.eqb c "-".
Definition is_identifier_char (c : ascii) : bool := is_digit c || is_letter_or_dash c.

Definition RLit (c : ascii) : regex := RChar (Ascii.eqb c).
Definition RPlus (r : regex) : regex := RSeq r (RStar r).
Definition ROpt (r : regex) : regex := RAlt REps r.
Definition digits : regex := RStar (RChar is_digit).

(** [0|[1-9]\d*] *)
Definition numeric_identifier : regex :=
  RAlt (RLit "0") (RSeq (RChar (between "1" "9")) digits).

(** [0|[1-9]\d*|\d*[a-zA-Z-][0-9a-zA-Z-]*] *)
Definition prerelease_identifier : regex :=
  RAlt numeric_identifier
    (RSeq digits (RSeq (RChar is_letter_or_dash) (RStar (RChar is_identifier_char)))).

Definition dotted (r : regex) : regex := RSeq r (RStar (RSeq (RLit ".") r)).

Definition SEMVER_REGEX : regex :=
  RSeq numeric_identifier (RSeq (RLit ".") (RSeq numeric_identifier (RSeq (RLit ".")
    (RSeq numeric_identifier
      (RSeq (ROpt (RSeq (RLit "-") (dotted prerelease_identifier)))
            (ROpt (RSeq (RLit "+") (dotted (RPlus (RChar is_identifier_char)))))))))).

(** ** Reading it *)

Definition VersionError : exn := OtherException "VersionError".

(** [read_text] fails with any exception the file or its decoding raises. *)
Definition get_platform_version (is_file : bool) (read_text : result string) : result string :=
  if negb is_file then Err VersionError
  else match read_text with
       | Err _ => Err VersionError
       | Ok text =>
           let content := str_strip text in
           if negb (str_nonempty content) then Err VersionError
           else if negb (regex_match SEMVER_REGEX content) then Err VersionError
           else Ok content
       end.

(** A version is only ever established from a file whose stripped text is a semantic
    version; every other condition is a [VersionError]. *)
Theorem platform_version_is_semver is_file read_text :
  match get_platform_version is_file read_text with
  | Ok v => is_file = true /\ (exists text, read_text = Ok text /\ v = str_strip text) /\
            lang SEMVER_REGEX v
  | Err e => e = VersionError /\
      (is_file = false \/ (exists x, read_text = Err x) \/
       exists text, read_text = Ok text /\ ~ lang SEMVER_REGEX (str_strip text))
  end.
Proof.
  unfold get_platform_version. destruct is_file; simpl; [|by auto].
  destruct read_text as [text|x]; [|by eauto].
  destruct (str_nonempty (str_strip text)) eqn:Hn; simpl.
  - destruct (regex_match SEMVER_REGEX (str_strip text)) eqn:Hm; simpl.
    + apply regex_match_iff in Hm. eauto.
    + split; [done|]. right; right. exists text. split; [done|].
      rewrite <- regex_match_iff. congruence.
  - split; [done|]. right; right. exists text. split; [done|]. rewrite <- regex_match_iff.
    destruct (str_strip text); [by vm_compute|done].
Qed.

Example released_version : get_platform_version true (Ok ("0.18.0" +:+ String "010" "")) = Ok "0.18.0"%string.
Proof. vm_compute. reflexivity. Qed.

Example prerelease_version :
  is_ok (get_platform_version true (Ok "1.0.0-rc.1+build.7"%string)) = true /\
  is_ok (get_platform_version true (Ok "01.0.0"%string)) = false /\
  is_ok (get_platform_version true (Ok "1.0"%string)) = false.
Proof. split_and!; vm_compute; reflexivity. Qed.
