(* ===== verification/SqlEvidence.v ===== *)
(** * Durable audit evidence

    [repositories/sql/audit_evidence_repository.py] with the rows of
    [repositories/sql/models/audit_event.py]: the adapter as transactions over its table,
    and that it answers as its in-memory counterpart. *)
From S2P Require Import Prelude PyDict Models AuditTrail SqlStore.
Local Open Scope Z_scope.

(** ** Audit events *)

Record AuditEventModel := mkAuditModel {
  aem_event_id : string;
  aem_session_id : string;
  aem_agent_id : string;
  aem_requested_tool_id : string;
  aem_tool_id : option string;
  aem_tool_version : option string;
  aem_decision : string;
  aem_timestamp : Z;
}.

(** The table by primary key, in insertion order. *)
Abbreviation AuditDb := (pydict string AuditEventModel).

Definition evidence_row (e : AuditEvent) : AuditEventModel :=
  mkAuditModel (au_event_id e) (au_session_id e) (au_agent_id e) (au_requested_tool_id e)
    (au_tool_id e) (au_tool_version e) (decision_value (au_decision e)) (au_timestamp e).

(** [_to_domain]: the model's validator runs again. *)
Definition evidence_of_row (r : AuditEventModel) : result AuditEvent :=
  d ← decision_of (aem_decision r);
  new_audit_event
    (mkAudit (aem_event_id r) (aem_session_id r) (aem_agent_id r) (aem_requested_tool_id r)
       (aem_tool_id r) (aem_tool_version r) d (aem_timestamp r)).

(** The primary key, and [chk_audit_events_version_requires_family]. *)
Definition audit_append_body (e : AuditEvent) : Comp AuditDb unit := fun db =>
  let row := evidence_row e in
  if dhas (aem_event_id row) db
     || match aem_tool_version row, aem_tool_id row with Some _, None => true | _, _ => false end
  then (db, Err IntegrityError)
  else (dset (aem_event_id row) row db, Ok tt).

Definition audit_get_body (id : string) : Comp AuditDb (option AuditEvent) := fun db =>
  match dget id db with
  | None => (db, Ok None)
  | Some r => (db, e ← evidence_of_row r; Ok (Some e))
  end.

Definition evidence_row_leb (r q : AuditEventModel) : bool :=
  pair_leb (aem_timestamp r, aem_event_id r) (aem_timestamp q, aem_event_id q).

Definition keep_rows (session agent : option string) (l : list AuditEventModel)
  : list AuditEventModel :=
  let l := match session with
           | Some s => List.filter (fun r => bool_decide (aem_session_id r = s)) l
           | None => l end in
  match agent with
  | Some a => List.filter (fun r => bool_decide (aem_agent_id r = a)) l
  | None => l
  end.

(** [LIMIT limit OFFSET offset]; what a negative bound means is the engine's. *)
Definition sql_window {A} (negative : Z -> Z -> list A -> result (list A)) (limit offset : Z)
    (l : list A) : result (list A) :=
  if (limit <? 0) || (offset <? 0) then negative limit offset l
  else Ok (take (Z.to_nat limit) (drop (Z.to_nat offset) l)).

Definition audit_query_body (negative : Z -> Z -> list AuditEventModel -> result (list AuditEventModel))
    (session agent : option string) (limit offset : Z) : Comp AuditDb (list AuditEvent) := fun db =>
  (db, rows ← sql_window negative limit offset
                (sort_by evidence_row_leb (keep_rows session agent (dvalues db)));
       mapR evidence_of_row rows).

Inductive AuditCall :=
| UAppend (e : AuditEvent)
| UGet (id : string)
| UQuery (session agent : option string) (limit offset : Z).

Inductive AuditAnswer := UaUnit | UaEvent (e : option AuditEvent) | UaEvents (l : list AuditEvent).

Definition audit_mem_call (c : AuditCall) : Comp AuditLog AuditAnswer := fun l =>
  match c with
  | UAppend e => (audit_append e l, Ok UaUnit)
  | UGet id => (l, Ok (UaEvent (audit_get id l)))
  | UQuery s a limit offset => (l, Ok (UaEvents (audit_query s a limit offset l)))
  end.

Definition audit_call_body negative (c : AuditCall) : Comp AuditDb AuditAnswer :=
  match c with
  | UAppend e => answered (fun _ => UaUnit) (audit_append_body e)
  | UGet id => answered UaEvent (audit_get_body id)
  | UQuery s a limit offset => answered UaEvents (audit_query_body negative s a limit offset)
  end.

Section audit_adapter.
Context (engine : AuditDb -> AuditDb -> option exn)
        (negative : Z -> Z -> list AuditEventModel -> result (list AuditEventModel)).

Definition sql_audit_append (e : AuditEvent) : Comp AuditDb unit :=
  transactional_session engine (audit_append_body e).
Definition sql_audit_get (id : string) : Comp AuditDb (option AuditEvent) :=
  transactional_session engine (audit_get_body id).
Definition sql_audit_query (session agent : option string) (limit offset : Z)
  : Comp AuditDb (list AuditEvent) :=
  transactional_session engine (audit_query_body negative session agent limit offset).

Definition sql_audit_call (c : AuditCall) (_ : unit) : Comp AuditDb AuditAnswer :=
  match c with
  | UAppend e => answered (fun _ => UaUnit) (sql_audit_append e)
  | UGet id => answered UaEvent (sql_audit_get id)
  | UQuery s a limit offset => answered UaEvents (sql_audit_query s a limit offset)
  end.

Definition audit_refusal (c : AuditCall) (_ : unit) (db : AuditDb) : option exn :=
  engine_refusal engine (audit_call_body negative c) db.

End audit_adapter.

(** ** Refinement *)

Definition evidence_represents (p : string * AuditEventModel) (e : AuditEvent) : Prop :=
  p = (au_event_id e, evidence_row e) /\ new_audit_event e = Ok e.

Definition evidence_refines (db : AuditDb) (l : AuditLog) : Prop := Forall2 evidence_represents db l.

(** Events the model can build under ids not yet in the log, and pages at or after its start. *)
Definition audit_call_ok (c : AuditCall) (l : AuditLog) : Prop :=
  match c with
  | UAppend e => new_audit_event e = Ok e /\ audit_get (au_event_id e) l = None
  | UGet _ => True
  | UQuery _ _ limit offset => 0 <= limit /\ 0 <= offset
  end.

Lemma evidence_row_reads e : new_audit_event e = Ok e -> evidence_of_row (evidence_row e) = Ok e.
Proof. unfold evidence_of_row. cbn [evidence_row aem_decision]. rewrite decision_of_value. by destruct e. Qed.

Lemma evidence_get id db l : evidence_refines db l ->
  dget id db = evidence_row <$> audit_get id l /\
  (forall e, audit_get id l = Some e -> new_audit_event e = Ok e).
Proof.
  unfold audit_get. induction 1 as [|p e db l [-> He] _ IH]; simpl; [done|].
  case_decide as Hd; case_bool_decide; subst; try done. split; [done|]. by intros ? [= <-].
Qed.

Lemma evidence_append e db l :
  evidence_refines db l -> new_audit_event e = Ok e -> dget (au_event_id e) db = None ->
  evidence_refines (dset (au_event_id e) (evidence_row e) db) (audit_append e l).
Proof. intros H He Hf. rewrite dset_fresh by done. apply Forall2_app; [done|]. by repeat constructor. Qed.

Lemma keep_rows_agree session agent db l : evidence_refines db l ->
  Forall2 (fun r e => r = evidence_row e /\ new_audit_event e = Ok e)
    (keep_rows session agent (dvalues db)) (keep_audit session agent l).
Proof.
  intros H. unfold keep_rows, keep_audit.
  assert (Forall2 (fun r e => r = evidence_row e /\ new_audit_event e = Ok e) (dvalues db) l) as Hv.
  { unfold dvalues. induction H as [|p e db l [-> He] _ IH]; csimpl; by constructor. }
  destruct session, agent; repeat apply Forall2_filter_agree; try exact Hv; by intros ? ? [-> _].
Qed.

Lemma sql_window_page {A} negative limit offset (l : list A) :
  0 <= limit -> 0 <= offset -> sql_window negative limit offset l = Ok (py_slice offset (offset + limit) l).
Proof.
  intros Hl Ho. unfold sql_window. rewrite py_slice_nonneg by lia.
  destruct (Z.ltb_spec limit 0), (Z.ltb_spec offset 0); try lia. simpl. do 3 f_equal. lia.
Qed.

Lemma query_body_agrees negative session agent limit offset db l :
  evidence_refines db l -> 0 <= limit -> 0 <= offset ->
  audit_query_body negative session agent limit offset db =
  (db, Ok (audit_query session agent limit offset l)).
Proof.
  intros H Hl Ho. unfold audit_query_body. rewrite sql_window_page by done. simpl. f_equal.
  apply mapR_Ok. unfold audit_query. rewrite !py_slice_nonneg by lia.
  eapply (Forall2_impl (fun r e => r = evidence_row e /\ new_audit_event e = Ok e)).
  2:{ intros r e [-> He]. by apply evidence_row_reads. }
  apply Forall2_take, Forall2_drop, Forall2_sort_agree; [by apply keep_rows_agree|].
  by intros ? ? ? ? [-> _] [-> _].
Qed.

Lemma audit_body_agrees negative c db l :
  evidence_refines db l -> audit_call_ok c l ->
  (audit_call_body negative c db).2 = (audit_mem_call c l).2 /\
  evidence_refines (audit_call_body negative c db).1 (audit_mem_call c l).1.
Proof.
  intros H Hok. destruct c as [e|id|s a limit offset]; simpl;
    unfold answered, mbind, comp_bind, mret, comp_ret.
  - destruct Hok as [He Hn]. destruct (evidence_get (au_event_id e) db l H) as [Hg _].
    rewrite Hn in Hg. unfold audit_append_body. cbn. unfold dhas. rewrite Hg.
    simpl. pose proof He as Hv. unfold new_audit_event in Hv.
    destruct (au_tool_version e), (au_tool_id e); simpl; try done;
      (split; [done|]; by apply evidence_append).
  - unfold audit_get_body. destruct (evidence_get id db l H) as [-> He].
    destruct (audit_get id l) as [e|]; simpl; [|done]. by rewrite evidence_row_reads by auto.
  - destruct Hok. by rewrite (query_body_agrees negative s a limit offset db l).
Qed.

Lemma audit_body_raises negative c db db' e : audit_call_body negative c db = (db', Err e) -> db' = db.
Proof.
  destruct c as [x|id|s a limit offset]; simpl;
    unfold answered, mbind, comp_bind, mret, comp_ret, audit_append_body, audit_get_body, audit_query_body;
    repeat case_match; intros; by simplify_eq.
Qed.

Lemma sql_audit_transaction engine negative c u db :
  sql_audit_call engine negative c u db = transactional_session engine (audit_call_body negative c) db.
Proof. destruct c; apply transaction_answered. Qed.

(** C22. The durable audit repository refines the in-memory log: over any history of appended
    events with fresh ids, lookups and pages, with any refusals by the database engine, a
    refused append raises and records nothing, every other call answers exactly as the
    in-memory log does, pages included, and the table holds the log's events in order and
    nothing else. *)
Theorem sql_audit_refines_memory (engine : AuditDb -> AuditDb -> option exn)
    (negative : Z -> Z -> list AuditEventModel -> result (list AuditEventModel))
    (l : list (AuditCall * unit)) (db : AuditDb) (log : AuditLog) :
  evidence_refines db log ->
  let '(db', xs) := sql_trace (sql_audit_call engine negative) (audit_refusal engine negative) l db in
  calls_ok audit_mem_call audit_call_ok (annotated l xs) log ->
  let '(log', ys) := mem_trace audit_mem_call (annotated l xs) log in
  evidence_refines db' log' /\ Forall2 (outcomes_agree eq) xs ys.
Proof.
  intros H.
  pose proof (transactional_history_refines engine audit_mem_call (sql_audit_call engine negative)
    (fun c _ => audit_call_body negative c) audit_call_ok eq evidence_refines (fun _ => True)
    (sql_audit_transaction engine negative) (fun c _ => audit_body_raises negative c)
    (fun c _ db0 l0 Hr _ => audit_body_agrees negative c db0 l0 Hr) (fun _ _ _ _ => I) l db log H I) as Hh.
  change (fun c (_ : unit) => engine_refusal engine (audit_call_body negative c))
    with (audit_refusal engine negative) in Hh.
  destruct (sql_trace _ _ l db) as [db' xs]. intros Hok. specialize (Hh Hok).
  destruct (mem_trace _ _ log) as [log' ys]. naive_solver.
Qed.

(** ** Witness: an engine that is full at two rows *)

Definition demo_event (id : string) (at_ : Z) (tool version : option string) : AuditEvent :=
  mkAudit id "s1" "agent-1" "file_read" tool version DENY at_.

Definition demo_audit_calls : list (AuditCall * unit) :=
  (fun c => (c, tt)) <$>
  [UAppend (demo_event "e2" 5 None None); UAppend (demo_event "e1" 5 (Some "file_read") (Some "1.0"));
   UAppend (demo_event "e3" 1 None None); UGet "e3"; UQuery (Some "s1") None 10 0; UQuery None None 1 1]%string.

Definition two_row_engine (db db' : AuditDb) : option exn :=
  if (2 <? length db')%nat then Some (OtherException "OperationalError") else None.

Lemma empty_evidence_refines : evidence_refines [] [].
Proof. constructor. Qed.

Lemma sql_audit_refines_memory_witness :
  let '(db', xs) := sql_trace (sql_audit_call two_row_engine (fun _ _ => Ok))
                      (audit_refusal two_row_engine (fun _ _ => Ok)) demo_audit_calls [] in
  length (List.filter (fun x => bool_decide (is_Some x.1)) xs) = 1%nat /\
  let '(log', ys) := mem_trace audit_mem_call (annotated demo_audit_calls xs) [] in
  evidence_refines db' log' /\ Forall2 (outcomes_agree eq) xs ys.
Proof.
  pose proof (sql_audit_refines_memory two_row_engine (fun _ _ => Ok) demo_audit_calls [] []
    empty_evidence_refines) as H.
  destruct (sql_trace (sql_audit_call two_row_engine (fun _ _ => Ok))
    (audit_refusal two_row_engine (fun _ _ => Ok)) demo_audit_calls []) as [db' xs] eqn:Htr.
  assert (xs = (sql_trace (sql_audit_call two_row_engine (fun _ _ => Ok))
    (audit_refusal two_row_engine (fun _ _ => Ok)) demo_audit_calls []).2) as Hxs by (by rewrite Htr).
  split; [subst xs; vm_compute; reflexivity|]. apply H. subst xs. clear.
  vm_compute. repeat split; intros [=].
Defined.
