(* ===== verification/SqlTools.v ===== *)
(** * Durable tool configuration

    [repositories/sql/tool_repository.py] with the rows of [repositories/sql/models/tool.py]:
    the metadata payload a tool version is stored as and read back from, the adapter as
    transactions over the two tables, and that it answers as the in-memory repository. *)
From stdpp Require Import pretty.
From S2P Require Import Prelude PyDict Json Models ToolPlane SqlStore Auth.
Local Open Scope Z_scope.

(** ** The metadata payload *)

Definition tool_risk_value (l : ToolRiskLevel) : string :=
  match l with
  | TOOL_LOW => "LOW" | TOOL_MEDIUM => "MEDIUM" | TOOL_HIGH => "HIGH" | TOOL_CRITICAL => "CRITICAL"
  end.

#[export] Program Instance stored_tool_risk : StoredEnum ToolRiskLevel := {|
  enum_value := tool_risk_value;
  enum_of := find_member tool_risk_value [TOOL_LOW; TOOL_MEDIUM; TOOL_HIGH; TOOL_CRITICAL];
|}.
Next Obligation. by intros []. Qed.
Next Obligation. intros s e. apply find_member_error. Qed.

(** [tool.metadata.model_dump(mode="json")] *)
Definition identity_dump (i : ToolIdentity) : json :=
  JObj [("tool_id", JStr (ti_tool_id i)); ("name", JStr (ti_name i));
        ("version", JStr (ti_version i)); ("description", JStr (ti_description i))]%string.
Definition governance_dump (g : ToolGovernance) : json :=
  JObj [("risk_level", JStr (enum_value (tg_risk_level g)));
        ("required_permissions", JArr (JStr <$> tg_required_permissions g));
        ("owner", from_option JStr JNull (tg_owner g));
        ("approval_required", JBool (tg_approval_required g))]%string.
Definition capability_dump (c : ToolCapability) : json :=
  JObj [("category", JStr (tc_category c)); ("reads_files", JBool (tc_reads_files c));
        ("writes_files", JBool (tc_writes_files c)); ("network_access", JBool (tc_network_access c));
        ("internet_access", JBool (tc_internet_access c));
        ("database_access", JBool (tc_database_access c));
        ("shell_access", JBool (tc_shell_access c))]%string.
Definition operational_dump (o : ToolOperational) : json :=
  JObj [("enabled", JBool (to_enabled o)); ("timeout_seconds", JNum (pretty (to_timeout_seconds o)));
        ("supports_streaming", JBool (to_supports_streaming o))]%string.
Definition metadata_dump (m : ToolMetadata) : json :=
  JObj [("identity", identity_dump (tm_identity m)); ("governance", governance_dump (tm_governance m));
        ("capability", capability_dump (tm_capability m));
        ("operational", operational_dump (tm_operational m))]%string.

Section payload.
(** pydantic's conversion of a field annotated [int], and of one annotated [bool]. *)
Context (int_field : json -> option Z) (bool_field : json -> option bool).

Definition str_field (v : json) : option string := match v with JStr s => Some s | _ => None end.
Definition optional_str_field (v : json) : option (option string) :=
  match v with JNull => Some None | JStr s => Some (Some s) | _ => None end.
Definition str_list_field (v : json) : option (list string) :=
  match v with JArr l => mapM str_field l | _ => None end.
Definition risk_field (v : json) : option ToolRiskLevel :=
  s ← str_field v; match enum_of s with Ok r => Some r | Err _ => None end.

(** A field of a nested model: [missing] is what an absent member gives. *)
Definition member {A} (k : string) (read : json -> option A) (missing : option A)
    (d : pydict string json) : option A :=
  match dget k d with Some v => read v | None => missing end.

Definition members_field (v : json) : option (pydict string json) :=
  match v with JObj d => Some d | _ => None end.

Definition identity_field (v : json) : option ToolIdentity :=
  d ← members_field v;
  tool ← member "tool_id" str_field None d;
  name ← member "name" str_field None d;
  version ← member "version" str_field (Some "1.0.0"%string) d;
  description ← member "description" str_field None d;
  Some (mkToolIdentity tool name version description).

Definition governance_field (v : json) : option ToolGovernance :=
  d ← members_field v;
  risk ← member "risk_level" risk_field None d;
  permissions ← member "required_permissions" str_list_field (Some []) d;
  owner ← member "owner" optional_str_field (Some None) d;
  approval ← member "approval_required" bool_field (Some false) d;
  Some (mkToolGovernance risk permissions owner approval).

Definition capability_field (v : json) : option ToolCapability :=
  d ← members_field v;
  category ← member "category" str_field None d;
  reads ← member "reads_files" bool_field (Some false) d;
  writes ← member "writes_files" bool_field (Some false) d;
  network ← member "network_access" bool_field (Some false) d;
  internet ← member "internet_access" bool_field (Some false) d;
  database ← member "database_access" bool_field (Some false) d;
  shell ← member "shell_access" bool_field (Some false) d;
  Some (mkToolCapability category reads writes network internet database shell).

(** [timeout_seconds] is [ge=1]. *)
Definition timeout_field (v : json) : option Z :=
  n ← int_field v; if 1 <=? n then Some n else None.

Definition operational_field (v : json) : option ToolOperational :=
  d ← members_field v;
  enabled ← member "enabled" bool_field (Some true) d;
  timeout ← member "timeout_seconds" timeout_field (Some 30) d;
  streaming ← member "supports_streaming" bool_field (Some false) d;
  Some (mkToolOperational enabled timeout streaming).

(** [ToolMetadata.model_validate]; [None] is a [ValidationError]. *)
Definition metadata_validate (v : json) : option ToolMetadata :=
  d ← members_field v;
  identity ← member "identity" identity_field None d;
  governance ← member "governance" governance_field None d;
  capability ← member "capability" capability_field None d;
  operational ← member "operational" operational_field None d;
  Some (mkToolMetadata identity governance capability operational).

(** pydantic keeps what [model_dump] writes for an integer and for a boolean. *)
Definition fields_read : Prop :=
  (forall n, int_field (JNum (pretty n)) = Some n) /\ (forall b, bool_field (JBool b) = Some b).

(** What [ToolOperational]'s constructor admits. *)
Definition tool_valid (t : Tool) : Prop := 1 <= to_timeout_seconds (tm_operational (tool_metadata t)).

Lemma str_list_reads l : str_list_field (JArr (JStr <$> l)) = Some l.
Proof. simpl. apply mapM_Some. induction l; csimpl; by constructor. Qed.

Lemma bind_member {A B} k (read : json -> option A) missing d v x (f : A -> option B) :
  dget k d = Some v -> read v = Some x -> (y ← member k read missing d; f y) = f x.
Proof. unfold member. by intros -> ->. Qed.

Ltac read_members := repeat (erewrite bind_member; [|reflexivity|by eauto]).

Context (Hread : fields_read).

Lemma bool_reads b : bool_field (JBool b) = Some b.
Proof. apply Hread. Qed.
Hint Resolve bool_reads str_list_reads : core.

Lemma identity_reads i : identity_field (identity_dump i) = Some i.
Proof. unfold identity_field. cbn. read_members. by destruct i. Qed.

Lemma governance_reads g : governance_field (governance_dump g) = Some g.
Proof.
  assert (risk_field (JStr (enum_value (tg_risk_level g))) = Some (tg_risk_level g)).
  { unfold risk_field. cbn -[enum_of enum_value]. by rewrite enum_of_value. }
  assert (optional_str_field (from_option JStr JNull (tg_owner g)) = Some (tg_owner g)).
  { by destruct (tg_owner g). }
  unfold governance_field, governance_dump. cbn -[enum_value from_option]. read_members. by destruct g.
Qed.

Lemma capability_reads c : capability_field (capability_dump c) = Some c.
Proof. unfold capability_field. cbn. read_members. by destruct c. Qed.

Lemma operational_reads o : 1 <= to_timeout_seconds o -> operational_field (operational_dump o) = Some o.
Proof.
  intros Ho. assert (timeout_field (JNum (pretty (to_timeout_seconds o))) = Some (to_timeout_seconds o)).
  { unfold timeout_field. destruct Hread as [-> _]. cbn. by destruct (Z.leb_spec 1 (to_timeout_seconds o)); [|lia]. }
  unfold operational_field. cbn. read_members. by destruct o.
Qed.
Hint Resolve identity_reads governance_reads capability_reads operational_reads : core.

Lemma metadata_reads t : tool_valid t ->
  metadata_validate (metadata_dump (tool_metadata t)) = Some (tool_metadata t).
Proof.
  unfold tool_valid. intros Hv. unfold metadata_validate. cbn. read_members. by destruct (tool_metadata t).
Qed.
End payload.

(** ** Rows and operations *)

Record ToolModel := mkToolModel {
  tr_tool_id : string;
  tr_version : string;
  tr_governance_enabled : bool;
  tr_risk_level : string;
  tr_metadata_payload : json;
  tr_created_at : Z;
}.

(** [tool_families] maps a family to when its anchor was written; [tools] is keyed by
    [(tool_id, version)]. *)
Record ToolDb := mkToolDb {
  tdb_families : pydict string Z;
  tdb_tools : pydict (string * string) ToolModel;
}.

Definition risk_projection (t : Tool) : string := enum_value (tool_risk_level t).

Definition tool_row (t : Tool) (created_at : Z) : ToolModel :=
  mkToolModel (tool_id t) (tool_version t) (tool_enabled t) (risk_projection t)
    (metadata_dump (tool_metadata t)) created_at.

(** The row's payload and its projections, rewritten in place. *)
Definition replaced_row (t : Tool) (r : ToolModel) : ToolModel :=
  mkToolModel (tr_tool_id r) (tr_version r) (tool_enabled t) (risk_projection t)
    (metadata_dump (tool_metadata t)) (tr_created_at r).

(** [tools.tool_id] references [tool_families.tool_id]. *)
Definition insert_tool_row (r : ToolModel) (db : ToolDb) : result ToolDb :=
  if dhas (tr_tool_id r) (tdb_families db)
  then Ok (mkToolDb (tdb_families db) (dset (tr_tool_id r, tr_version r) r (tdb_tools db)))
  else Err IntegrityError.

Definition tool_save_body (t : Tool) (now : Z) : Comp ToolDb unit := fun db0 =>
  let db := if dhas (tool_id t) (tdb_families db0) then db0
            else mkToolDb (dset (tool_id t) now (tdb_families db0)) (tdb_tools db0) in
  match dget (tool_identity t) (tdb_tools db) with
  | None =>
      match insert_tool_row (tool_row t now) db with
      | Ok db' => (db', Ok tt)
      | Err e => (db0, Err e)
      end
  | Some existing =>
      (mkToolDb (tdb_families db) (dset (tool_identity t) (replaced_row t existing) (tdb_tools db)), Ok tt)
  end.

Definition tool_row_leb (r q : ToolModel) : bool :=
  str_pair_leb (tr_tool_id r, tr_version r) (tr_tool_id q, tr_version q).
Definition tool_version_leb (r q : ToolModel) : bool := str_leb (tr_version r) (tr_version q).

Inductive ToolCall :=
| TGet (tid version : string)
| TSave (t : Tool)
| TList
| TListVersions (tid : string).

Inductive ToolAnswer :=
| TaUnit | TaTool (t : option Tool) | TaTools (l : list Tool) | TaVersions (l : list Tool).

Definition tool_mem_call (c : ToolCall) : Comp ToolRepo ToolAnswer := fun r =>
  match c with
  | TGet tid version => (r, Ok (TaTool (toolrepo_get tid version r)))
  | TSave t => (toolrepo_save t r, Ok TaUnit)
  | TList => (r, Ok (TaTools (toolrepo_list r)))
  | TListVersions tid => (r, Ok (TaVersions (toolrepo_list_versions tid r)))
  end.

Section tool_adapter.
Context (int_field : json -> option Z) (bool_field : json -> option bool).
Context (engine : ToolDb -> ToolDb -> option exn).

(** [_to_domain] reads the payload and no other column. *)
Definition tool_of_row (r : ToolModel) : result Tool :=
  m ← of_option ValueError (metadata_validate int_field bool_field (tr_metadata_payload r));
  Ok (mkTool m).

Definition tool_get_body (tid version : string) : Comp ToolDb (option Tool) := fun db =>
  match dget (tid, version) (tdb_tools db) with
  | None => (db, Ok None)
  | Some r => (db, t ← tool_of_row r; Ok (Some t))
  end.

Definition tool_list_body : Comp ToolDb (list Tool) := fun db =>
  (db, mapR tool_of_row (sort_by tool_row_leb (dvalues (tdb_tools db)))).

Definition tool_list_versions_body (tid : string) : Comp ToolDb (list Tool) := fun db =>
  (db, mapR tool_of_row
         (sort_by tool_version_leb
            (List.filter (fun r => bool_decide (tr_tool_id r = tid)) (dvalues (tdb_tools db))))).

Definition sql_tool_get (tid version : string) : Comp ToolDb (option Tool) :=
  transactional_session engine (tool_get_body tid version).
Definition sql_tool_save (t : Tool) (now : Z) : Comp ToolDb unit :=
  transactional_session engine (tool_save_body t now).
Definition sql_tool_list : Comp ToolDb (list Tool) := transactional_session engine tool_list_body.
Definition sql_tool_list_versions (tid : string) : Comp ToolDb (list Tool) :=
  transactional_session engine (tool_list_versions_body tid).

Definition sql_tool_call (c : ToolCall) (now : Z) : Comp ToolDb ToolAnswer :=
  match c with
  | TGet tid version => answered TaTool (sql_tool_get tid version)
  | TSave t => answered (fun _ => TaUnit) (sql_tool_save t now)
  | TList => answered TaTools sql_tool_list
  | TListVersions tid => answered TaVersions (sql_tool_list_versions tid)
  end.

Definition tool_call_body (c : ToolCall) (now : Z) : Comp ToolDb ToolAnswer :=
  match c with
  | TGet tid version => answered TaTool (tool_get_body tid version)
  | TSave t => answered (fun _ => TaUnit) (tool_save_body t now)
  | TList => answered TaTools tool_list_body
  | TListVersions tid => answered TaVersions (tool_list_versions_body tid)
  end.

Definition tool_refusal (c : ToolCall) (now : Z) (db : ToolDb) : option exn :=
  engine_refusal engine (tool_call_body c now) db.

(** ** Refinement *)

(** A row under the identity of the tool it is: its projections repeat the payload's. *)
Definition tool_represents (p : string * string * ToolModel) (q : string * string * Tool) : Prop :=
  p.1 = q.1 /\ (exists created_at, p.2 = tool_row q.2 created_at) /\
  tool_identity q.2 = q.1 /\ tool_valid q.2.

(** A family's anchor exists exactly when one of its versions does. *)
Definition tools_refine (db : ToolDb) (r : ToolRepo) : Prop :=
  Forall2 tool_represents (tdb_tools db) r /\
  forall family, dhas family (tdb_families db) = family_exists family r.

Definition tool_call_ok (c : ToolCall) (r : ToolRepo) : Prop :=
  match c with TSave t => tool_valid t | _ => True end.

Definition tool_leb (t u : Tool) : bool := str_pair_leb (tool_identity t) (tool_identity u).
Definition version_leb (t u : Tool) : bool := str_leb (tool_version t) (tool_version u).

(** Equal answers, a listing in the order of the key. *)
Definition tool_answers_agree (x y : result ToolAnswer) : Prop :=
  match y with
  | Ok (TaTools l) => x = Ok (TaTools (sort_by tool_leb l))
  | Ok (TaVersions l) => x = Ok (TaVersions (sort_by version_leb l))
  | _ => x = y
  end.

Lemma tool_row_reads t now : fields_read int_field bool_field -> tool_valid t ->
  tool_of_row (tool_row t now) = Ok t.
Proof. intros H Hv. unfold tool_of_row. cbn -[metadata_dump metadata_validate]. rewrite metadata_reads by done. by destruct t. Qed.

Lemma tools_get k l r : Forall2 tool_represents l r ->
  match dget k r with
  | Some t => exists now, dget k l = Some (tool_row t now) /\ tool_identity t = k /\ tool_valid t
  | None => dget k l = None
  end.
Proof.
  induction 1 as [|[k1 row] [k2 t] l r (Hk & [now Hrow] & Hid & Hv) _ IH]; simpl in *; [done|].
  subst. case_decide; [|done]. subst. by exists now.
Qed.

Lemma tools_set t now l r : Forall2 tool_represents l r -> tool_valid t ->
  Forall2 tool_represents (dset (tool_identity t) (tool_row t now) l) (toolrepo_save t r).
Proof.
  intros H Hv. unfold toolrepo_save.
  assert (tool_represents (tool_identity t, tool_row t now) (tool_identity t, t)).
  { split_and!; [done|by eexists|done|done]. }
  induction H as [|[k1 row] [k2 u] l r (Hk & Hrow) H IH]; simpl in *; [constructor; [done|constructor]|].
  subst. case_decide; by constructor.
Qed.

Lemma tools_values l r : Forall2 tool_represents l r ->
  Forall2 (fun row t => (exists now, row = tool_row t now) /\ tool_valid t) (dvalues l) (dvalues r).
Proof.
  unfold dvalues. induction 1 as [|p q l r (Hk & Hrow & Hid & Hv) _ IH]; csimpl; by constructor.
Qed.

Lemma tools_versions tid l r : Forall2 tool_represents l r ->
  Forall2 (fun row t => (exists now, row = tool_row t now) /\ tool_valid t)
    (List.filter (fun row => bool_decide (tr_tool_id row = tid)) (dvalues l)) (toolrepo_list_versions tid r).
Proof.
  unfold dvalues, toolrepo_list_versions.
  induction 1 as [|[k row] [[f v] t] l r (Hk & [now Hrow] & Hid & Hv) _ IH]; csimpl in *; [constructor|].
  subst row. injection Hid as <- <-. cbn [tr_tool_id tool_row]. case_bool_decide; [|done].
  csimpl. constructor; [|done]. split; [by eexists|done].
Qed.

Lemma rows_read (Hf : fields_read int_field bool_field) f g rows l :
  (forall t u a b, f (tool_row t a) (tool_row u b) = g t u) ->
  Forall2 (fun row t => (exists now, row = tool_row t now) /\ tool_valid t) rows l ->
  mapR tool_of_row (sort_by f rows) = Ok (sort_by g l).
Proof.
  intros Hfg H. apply mapR_Ok.
  eapply (Forall2_impl (fun row t => (exists now, row = tool_row t now) /\ tool_valid t)).
  2:{ intros row t [[now ->] Hv]. by apply tool_row_reads. }
  apply Forall2_sort_agree; [done|]. intros ? ? ? ? [[? ->] _] [[? ->] _]. apply Hfg.
Qed.

Lemma save_body_agrees t now db r :
  tools_refine db r -> tool_valid t ->
  (tool_save_body t now db).2 = Ok tt /\ tools_refine (tool_save_body t now db).1 (toolrepo_save t r).
Proof.
  intros [Ht Hf] Hv. unfold tool_save_body.
  set (db1 := if dhas (tool_id t) (tdb_families db) then db else _).
  assert (tdb_tools db1 = tdb_tools db) as Hd1 by (unfold db1; by destruct (dhas _ _)).
  assert (forall f, dhas f (tdb_families db1) = family_exists f (toolrepo_save t r)) as Hf1.
  { intros f. rewrite family_exists_saved, <-Hf. unfold db1. destruct (dhas (tool_id t) _) eqn:Hh.
    - case_bool_decide; [subst; by rewrite Hh|done].
    - unfold dhas. cbn [tdb_families]. rewrite dget_dset. by repeat case_decide; case_bool_decide. }
  clearbody db1. rewrite Hd1. pose proof (tools_get (tool_identity t) (tdb_tools db) r Ht) as Hg.
  assert (forall at_, tools_refine (mkToolDb (tdb_families db1)
    (dset (tool_identity t) (tool_row t at_) (tdb_tools db))) (toolrepo_save t r)) as Hset.
  { intros at_. split; [by apply tools_set|done]. }
  destruct (dget (tool_identity t) r) as [u|].
  - destruct Hg as (created & -> & Hid & _). split; [done|].
    replace (replaced_row t (tool_row u created)) with (tool_row t created); [apply Hset|].
    unfold replaced_row, tool_row. cbn. injection Hid as -> ->. done.
  - rewrite Hg. unfold insert_tool_row. cbn [tr_tool_id tr_version tool_row].
    rewrite Hf1, family_exists_saved, bool_decide_true by done. simpl. rewrite Hd1. split; [done|apply Hset].
Qed.

Lemma tool_body_agrees (Hf : fields_read int_field bool_field) c now db r :
  tools_refine db r -> tool_call_ok c r ->
  tool_answers_agree (tool_call_body c now db).2 (tool_mem_call c r).2 /\
  tools_refine (tool_call_body c now db).1 (tool_mem_call c r).1.
Proof.
  intros H Hok. destruct c as [tid version|t| |tid]; simpl; unfold answered, mbind, comp_bind, mret, comp_ret.
  - unfold tool_get_body, toolrepo_get. destruct H as [Ht Hfam].
    pose proof (tools_get (tid, version) _ _ Ht) as Hg. destruct (dget (tid, version) r) as [t|].
    + destruct Hg as (now' & -> & _ & Hv). by rewrite tool_row_reads.
    + by rewrite Hg.
  - destruct (save_body_agrees t now db r H Hok) as [Ha Hr].
    destruct (tool_save_body t now db) as [db' x]. simpl in *. by subst x.
  - unfold tool_list_body. rewrite (rows_read Hf _ tool_leb _ (dvalues r)); [done|done|].
    apply tools_values, H.
  - unfold tool_list_versions_body.
    rewrite (rows_read Hf _ version_leb _ (toolrepo_list_versions tid r)); [done|done|].
    apply tools_versions, H.
Qed.

Lemma tool_body_raises c now db db' e : tool_call_body c now db = (db', Err e) -> db' = db.
Proof.
  destruct c as [tid version|t| |tid]; simpl;
    unfold answered, mbind, comp_bind, mret, comp_ret, tool_get_body, tool_save_body, tool_list_body,
      tool_list_versions_body;
    repeat case_match; intros; by simplify_eq.
Qed.

Lemma sql_tool_transaction c now db :
  sql_tool_call c now db = transactional_session engine (tool_call_body c now) db.
Proof. destruct c; apply transaction_answered. Qed.

(** C21. The durable tool repository refines the in-memory one: over any history of saves of
    valid tools, lookups and listings, with any refusals by the database engine, a refused
    call raises and changes nothing, every other call answers as the in-memory repository
    does (a listing in key order), the row of every version decodes to the tool last saved
    under its identity with projections that repeat its payload, and a family's anchor
    exists exactly when one of its versions does. *)
Theorem sql_tools_refine_memory (Hf : fields_read int_field bool_field)
    (l : list (ToolCall * Z)) (db : ToolDb) (r : ToolRepo) :
  tools_refine db r ->
  let '(db', xs) := sql_trace sql_tool_call tool_refusal l db in
  calls_ok tool_mem_call tool_call_ok (annotated l xs) r ->
  let '(r', ys) := mem_trace tool_mem_call (annotated l xs) r in
  tools_refine db' r' /\ Forall2 (outcomes_agree tool_answers_agree) xs ys.
Proof.
  intros H.
  pose proof (transactional_history_refines engine tool_mem_call sql_tool_call tool_call_body
    tool_call_ok tool_answers_agree tools_refine (fun _ => True) sql_tool_transaction tool_body_raises
    (fun c now db0 r0 Hr _ => tool_body_agrees Hf c now db0 r0 Hr) (fun _ _ _ _ => I) l db r H I) as Hh.
  change (fun c now => engine_refusal engine (tool_call_body c now)) with tool_refusal in Hh.
  destruct (sql_trace _ _ l db) as [db' xs]. intros Hok. specialize (Hh Hok).
  destruct (mem_trace _ _ r) as [r' ys]. naive_solver.
Qed.
End tool_adapter.

(** ** Witness: an engine that refuses to replace an enabled version by a disabled one *)

Definition demo_stored_tool (version : string) (enabled : bool) : Tool :=
  mkTool (mkToolMetadata (mkToolIdentity "file_read" "File read" version "Reads a file")
            (mkToolGovernance TOOL_LOW ["fs.read"%string] None false)
            (mkToolCapability "filesystem" true false false false false false)
            (mkToolOperational enabled 30 false)).

Definition demo_tool_calls : list (ToolCall * Z) :=
  [(TSave (demo_stored_tool "2.0.0" true), 7); (TSave (demo_stored_tool "1.0.0" true), 8);
   (TSave (demo_stored_tool "1.0.0" false), 9); (TGet "file_read" "1.0.0", 10); (TList, 11);
   (TListVersions "file_read", 12)]%string.

Definition disable_refusing_engine (_ db' : ToolDb) : option exn :=
  if forallb tr_governance_enabled (dvalues (tdb_tools db')) then None
  else Some (OtherException "OperationalError").

Definition demo_bool_field (v : json) : option bool := match v with JBool b => Some b | _ => None end.

Lemma demo_fields_read : fields_read demo_int_field demo_bool_field.
Proof. split; [exact demo_int_field_reads|done]. Qed.

Lemma empty_tools_refine : tools_refine (mkToolDb [] []) [].
Proof. by split; [constructor|]. Qed.

Lemma sql_tools_refine_memory_witness :
  let '(db', xs) := sql_trace (sql_tool_call demo_int_field demo_bool_field disable_refusing_engine)
    (tool_refusal demo_int_field demo_bool_field disable_refusing_engine) demo_tool_calls (mkToolDb [] []) in
  length (List.filter (fun x => bool_decide (is_Some x.1)) xs) = 1%nat /\
  let '(r', ys) := mem_trace tool_mem_call (annotated demo_tool_calls xs) [] in
  tools_refine db' r' /\ Forall2 (outcomes_agree tool_answers_agree) xs ys.
Proof.
  pose proof (sql_tools_refine_memory demo_int_field demo_bool_field disable_refusing_engine
    demo_fields_read demo_tool_calls (mkToolDb [] []) [] empty_tools_refine) as H.
  destruct (sql_trace (sql_tool_call demo_int_field demo_bool_field disable_refusing_engine)
    (tool_refusal demo_int_field demo_bool_field disable_refusing_engine) demo_tool_calls
    (mkToolDb [] [])) as [db' xs] eqn:Htr.
  assert (xs = (sql_trace (sql_tool_call demo_int_field demo_bool_field disable_refusing_engine)
    (tool_refusal demo_int_field demo_bool_field disable_refusing_engine) demo_tool_calls
    (mkToolDb [] [])).2) as Hxs by (by rewrite Htr).
  split; [subst xs; vm_compute; reflexivity|]. apply H. subst xs. clear.
  vm_compute. repeat split; intros [=].
Defined.
