(* ===== verification/Inventory.v ===== *)
(** * Registries and discovery around the pipeline

    [services/agent_lock_manager.py], [services/model_service.py],
    [services/capability_service.py], [services/tool_inventory_service.py] and
    [providers/provider_factory.py]: the lock of an agent, the model registry, and what the
    platform advertises about itself. *)
From S2P Require Import Prelude PyDict Models ToolPlane Detection Composition.
Local Open Scope Z_scope.

(** ** AgentLockManager

    A lock is the object [RLock()] created: locks are numbered in the order of creation. *)

Record AgentLockManager := mkLockManager { lm_locks : pydict string nat; lm_created : nat }.

Definition new_lock_manager : AgentLockManager := mkLockManager [] 0.

Definition get_lock (agent_id : string) : Comp AgentLockManager nat := fun m =>
  match dget agent_id (lm_locks m) with
  | Some lock => (m, Ok lock)
  | None => (mkLockManager (dset agent_id (lm_created m) (lm_locks m)) (S (lm_created m)), Ok (lm_created m))
  end.

(** The locks a sequence of calls was handed. *)
Fixpoint locks_handed (agents : list string) : Comp AgentLockManager (list nat) :=
  match agents with
  | [] => mret []
  | a :: agents => x ← get_lock a; xs ← locks_handed agents; mret (x :: xs)
  end.

Definition locks_distinct (m : AgentLockManager) : Prop :=
  (forall a x, dget a (lm_locks m) = Some x -> (x < lm_created m)%nat) /\
  (forall a b x, dget a (lm_locks m) = Some x -> dget b (lm_locks m) = Some x -> a = b).

Lemma get_lock_spec a m : locks_distinct m ->
  exists m' x, get_lock a m = (m', Ok x) /\ locks_distinct m' /\ dget a (lm_locks m') = Some x /\
    forall b y, dget b (lm_locks m) = Some y -> dget b (lm_locks m') = Some y.
Proof.
  intros [Hlt Hinj]. unfold get_lock. destruct (dget a (lm_locks m)) as [x|] eqn:Ha; [by exists m, x|].
  eexists _, _. split; [done|]. split; [split|split]; simpl.
  - intros b x. rewrite dget_dset. case_decide; [intros [= <-]; lia|]. intros Hb%Hlt. lia.
  - intros b c x. rewrite !dget_dset. repeat case_decide; subst; [done|..|apply Hinj];
      intros Hb Hc; simplify_eq; exfalso; first [apply Hlt in Hb|apply Hlt in Hc]; lia.
  - apply dget_dset_eq.
  - intros b y Hb. rewrite dget_dset_ne; [done|]. intros ->. congruence.
Qed.

Lemma locks_handed_spec l m : locks_distinct m ->
  exists m' xs, locks_handed l m = (m', Ok xs) /\ locks_distinct m' /\
    Forall2 (fun a x => dget a (lm_locks m') = Some x) l xs /\
    forall b y, dget b (lm_locks m) = Some y -> dget b (lm_locks m') = Some y.
Proof.
  revert m. induction l as [|a l IH]; intros m Hm; [by exists m, []|].
  destruct (get_lock_spec a m Hm) as (m1 & x & Hg & H1 & Ha & Hk).
  destruct (IH m1 H1) as (m2 & xs & Hl & H2 & Hxs & Hk2).
  exists m2, (x :: xs). cbn [locks_handed]. unfold mbind, comp_bind. rewrite Hg, Hl.
  split_and!; [done|done|constructor; auto|auto].
Qed.

(** Two calls are handed the same lock exactly when they name the same agent, whatever was
    asked for in between. *)
Theorem one_lock_per_agent (agents : list string) :
  exists m xs, locks_handed agents new_lock_manager = (m, Ok xs) /\ length xs = length agents /\
    forall i j a b x y, agents !! i = Some a -> agents !! j = Some b -> xs !! i = Some x -> xs !! j = Some y ->
      (x = y <-> a = b).
Proof.
  destruct (locks_handed_spec agents new_lock_manager) as (m & xs & Hl & [_ Hinj] & Hxs & _); [by split|].
  exists m, xs. split; [done|]. split; [by symmetry; eapply Forall2_length|].
  intros i j a b x y Ha Hb Hx Hy.
  assert (dget a (lm_locks m) = Some x) by (by eapply Forall2_lookup_lr in Hxs).
  assert (dget b (lm_locks m) = Some y) by (by eapply Forall2_lookup_lr in Hxs).
  split; [intros ->; by eapply Hinj|congruence].
Qed.

(** ** ModelService *)

Inductive ModelStatus := MODEL_APPROVED | MODEL_PENDING | MODEL_DEPRECATED.

Record Model := mkModel {
  model_id : string;
  model_provider : string;
  model_version : string;
  model_owner : string;
  model_description : option string;
  model_status : ModelStatus;
  model_risk_tier : RiskTier;
}.

Definition ModelAlreadyExistsError : exn := OtherException "ModelAlreadyExistsError".
Definition ModelNotFoundError : exn := OtherException "ModelNotFoundError".

Definition register_model (m : Model) : Comp (pydict string Model) Model := fun d =>
  if dhas (model_id m) d then (d, Err ModelAlreadyExistsError) else (dset (model_id m) m d, Ok m).
Definition get_model (id : string) (d : pydict string Model) : result Model :=
  of_option ModelNotFoundError (dget id d).
Definition list_models (d : pydict string Model) : list Model := dvalues d.

(** The first model of each id. *)
Fixpoint first_models (seen : list string) (l : list Model) : list Model :=
  match l with
  | [] => []
  | m :: l => if bool_decide (model_id m ∈ seen) then first_models seen l
              else m :: first_models (model_id m :: seen) l
  end.

Definition register_models (l : list Model) (d : pydict string Model) : pydict string Model :=
  fold_left (fun d m => (register_model m d).1) l d.

(** Whatever is registered, in whatever order, the first model of each id is the one kept. *)
Theorem registered_models_are_the_first (l : list Model) :
  list_models (register_models l []) = first_models [] l /\
  forall m, m ∈ first_models [] l -> get_model (model_id m) (register_models l []) = Ok m.
Proof.
  assert (forall l d seen, (forall k, k ∈ seen <-> k ∈ dkeys d) -> dwf d ->
    (forall k m, dget k d = Some m -> model_id m = k) ->
    let d' := register_models l d in
    dvalues d' = dvalues d ++ first_models seen l /\ dwf d' /\
    (forall k m, dget k d' = Some m -> model_id m = k)) as H.
  { clear l. induction l as [|m l IH]; intros d seen Hs Hwf Hid; cbv zeta; [by rewrite app_nil_r|].
    change (register_models (m :: l) d) with (register_models l (register_model m d).1). cbn [first_models].
    unfold register_model. destruct (dhas (model_id m) d) eqn:Hh; cbn [fst].
    - rewrite bool_decide_true; [by apply IH|]. apply Hs, dec_stable. rewrite <- dget_None.
      apply dhas_true in Hh as [? ->]. done.
    - apply dhas_false in Hh. rewrite bool_decide_false by (rewrite Hs; by apply dget_None).
      destruct (IH (dset (model_id m) m d) (model_id m :: seen)) as (E & ? & ?).
      + intros k. rewrite elem_of_cons, Hs, dset_keys. unfold dhas. rewrite Hh, elem_of_app, list_elem_of_singleton. tauto.
      + by apply dset_wf.
      + intros k u. rewrite dget_dset. case_decide; [by intros [= <-]|apply Hid].
      + split_and!; [|done|done]. rewrite E, dvalues_dset_new by done. by rewrite <-app_assoc. }
  destruct (H l [] []) as (E & Hwf & Hid); [done|apply dwf_nil|done|]. simpl in E. split; [done|].
  intros m Hm. unfold get_model. rewrite <- E in Hm. apply values_dget in Hm as [k Hk]; [|done].
  by rewrite (Hid _ _ Hk), Hk.
Qed.

(** ** CapabilityService *)

Record PlatformCapabilities := mkPlatformCapabilities {
  pc_tools : gset string;
  pc_content_detection_rules : gset string;
  pc_behavioral_detection_rules : gset string;
}.

Definition all_detection_rules (c : PlatformCapabilities) : gset string :=
  pc_content_detection_rules c ∪ pc_behavioral_detection_rules c.

Definition list_rule_names (d : pydict string DetectionRule) : gset string :=
  list_to_set (rule_name <$> dvalues d).

(** [discover]: the detection service is never absent, the constructor makes one. *)
Definition discover (tool_registry : option ToolRegistry) (detection_registry : option (pydict string DetectionRule))
    (detection_engine : option (list DetectionRule)) : PlatformCapabilities :=
  mkPlatformCapabilities
    (match tool_registry with Some reg => list_tool_ids reg | None => ∅ end)
    (match detection_registry, detection_engine with
     | Some d, _ => list_rule_names d
     | None, Some rules => engine_rule_names rules
     | None, None => ∅
     end)
    registered_rule_names.

(** ** ToolInventoryService *)

Definition list_registered_tools (reg : ToolRegistry) : list ToolMetadata := discover_tools reg.

(** *** A family is never left empty *)

Definition families_inhabited (reg : ToolRegistry) : Prop := forall tid, dget tid reg <> Some [].

Inductive RegistryCall :=
| GRegister (t : BaseTool) (implementation_id : option string)
| GRegisterFactory (tid : string) (factory : unit -> result BaseTool) (metadata : option ToolMetadata)
| GUnregister (tid : string) (version : option string).

Definition registry_call (c : RegistryCall) (reg : ToolRegistry) : ToolRegistry :=
  match c with
  | GRegister t i => (register t i reg).1
  | GRegisterFactory tid f md => (register_factory tid f md reg).1
  | GUnregister tid v => (unregister tid v reg).1
  end.

Lemma dset_not_nil {K V} `{EqDecision K} (k : K) (v : V) d : dset k v d <> [].
Proof. destruct d as [|[]]; simpl; [done|]. by case_decide. Qed.

Lemma dsetdefault_present {K V} `{EqDecision K} (k : K) (v v' : V) d :
  dget k d = Some v' -> dsetdefault k v d = d.
Proof. unfold dsetdefault, dhas. by intros ->. Qed.

Lemma store_descriptor_inhabited tid d reg :
  families_inhabited reg -> families_inhabited (store_descriptor tid d reg).1.
Proof.
  intros Hi other. unfold store_descriptor. destruct (dhas (td_version d) _) eqn:Hh; simpl.
  - unfold family_versions in Hh. rewrite dget_dsetdefault in Hh. destruct (dget tid reg) as [vs|] eqn:Hd; [|done].
    intros Hx. apply (Hi other). rewrite <- Hx. f_equal. symmetry. exact (dsetdefault_present _ _ _ _ Hd).
  - rewrite dget_dset. case_decide; [intros [= Hn]; by apply dset_not_nil in Hn|].
    rewrite dget_dsetdefault_ne by done. apply Hi.
Qed.

Lemma dget_ddel_inhabited tid other reg :
  families_inhabited reg -> dget other (ddel tid reg) <> Some [].
Proof. intros Hi. rewrite dget_ddel. case_decide; [done|apply Hi]. Qed.

Lemma registry_call_inhabited c reg : families_inhabited reg -> families_inhabited (registry_call c reg).
Proof.
  intros Hi. destruct c as [t i|tid f md|tid v]; simpl.
  - unfold register, mbind, comp_bind, liftR. destruct (validate_tool_metadata t); [|done].
    match goal with |- context [store_descriptor ?a ?b reg] =>
      pose proof (store_descriptor_inhabited a b reg Hi) as Hs; destruct (store_descriptor a b reg) as [? [[]|]] end;
      done.
  - unfold register_factory. destruct (negb _); [done|]. unfold mbind, comp_bind, liftR, mret, comp_ret.
    destruct md as [md|]; [by apply store_descriptor_inhabited|].
    destruct (f tt) as [sample|]; [|done]. destruct (validate_tool_metadata sample); [|done].
    by apply store_descriptor_inhabited.
  - unfold unregister. destruct (family_versions tid reg) as [|p l]; [done|].
    destruct v as [v|]; [|intros other; by apply dget_ddel_inhabited].
    destruct (negb _); [done|]. destruct (ddel v _) as [|q rest]; intros other;
      [by apply dget_ddel_inhabited|]. simpl. rewrite dget_dset. case_decide; [by intros [=]|apply Hi].
Qed.

(** What the platform advertises is what it has.  Over any history of registrations and
    removals, from an empty registry, a tool family is advertised exactly when one of its
    versions is registered, the inventory lists exactly the enabled versions, and the content
    rules advertised are those of the registry, never of the engine beside it. *)
Theorem advertised_is_registered (calls : list RegistryCall) rules engine :
  let reg := fold_left (fun reg c => registry_call c reg) calls [] in
  let c := discover (Some reg) (Some rules) engine in
  (forall tid, tid ∈ pc_tools c <-> exists_tool tid reg = true) /\
  (forall md, md ∈ list_registered_tools reg <->
     exists d, d ∈ list_descriptors reg /\ td_enabled d = true /\ td_metadata d = md) /\
  (forall n, n ∈ all_detection_rules c <->
     (exists r, r ∈ dvalues rules /\ rule_name r = n) \/ n = EXCESSIVE_DENIALS_RULE_NAME).
Proof.
  cbv zeta.
  assert (forall reg, families_inhabited reg ->
    families_inhabited (fold_left (fun reg c => registry_call c reg) calls reg)) as H.
  { induction calls as [|c l IH]; intros reg Hi; simpl; [done|]. by apply IH, registry_call_inhabited. }
  specialize (H [] ltac:(by intros tid)). revert H.
  generalize (fold_left (fun reg c => registry_call c reg) calls []). intros reg Hi. split_and!.
  - intros tid. cbn [pc_tools discover]. unfold list_tool_ids, exists_tool. rewrite elem_of_list_to_set.
    destruct (dget tid reg) as [[|p l]|] eqn:Hd.
    + by apply Hi in Hd.
    + split; [done|]. intros _. by eapply elem_dkeys, dget_elem.
    + apply dget_None in Hd. by split.
  - intros md. unfold list_registered_tools, discover_tools. rewrite list_elem_of_fmap.
    setoid_rewrite filter_elem. naive_solver.
  - intros n. unfold all_detection_rules, discover, list_rule_names, registered_rule_names.
    cbn [pc_content_detection_rules pc_behavioral_detection_rules].
    rewrite elem_of_union, elem_of_list_to_set, elem_of_singleton, list_elem_of_fmap. naive_solver.
Qed.

(** ** ProviderFactory *)

Inductive Provider := OllamaProvider | GeminiProvider.

(** [create]: the Gemini service refuses to start without its key. *)
Definition create_provider (getenv : string -> option string) : result Provider :=
  let provider := get_default_provider getenv in
  if bool_decide (provider = "ollama"%string) then Ok OllamaProvider
  else if bool_decide (provider = "gemini"%string)
  then match getenv "GEMINI_API_KEY" with
       | Some key => if str_nonempty key then Ok GeminiProvider else Err (OtherException "RuntimeError")
       | None => Err (OtherException "RuntimeError")
       end
  else Err ValueError.
