(* ===== verification/DevCredentials.v ===== *)
(** * Local-development credentials (scripts/dev_credentials.py)

    The commands of the script: a signing secret, a token minted from the configured secret,
    and the check that the pair opens the console's plane and nothing without it.  The random
    source is a parameter; so is what a request is answered with. *)
From S2P Require Import Prelude PyDict Json Auth Composition Management Platform Agents Planes.
From S2P Require Import ToolPlane Policy Binding Authority Capabilities Evidence Findings Risk Sessions Detection Paths ResourceIdentity AuditTrail Coordinator Runtime RuntimeSafety Scenarios ScenarioRunner Containment.
Local Open Scope Z_scope.

Definition SECRET_BYTES : Z := 48.
Definition DEFAULT_LIFETIME_MINUTES : Z := 24 * 60.
Definition DEFAULT_SUBJECT : string := "local-dev-console".
Definition DEV_DEFAULT_AGENT_ID : string := "agent-1".

(** [generate_secret]; [token_urlsafe] answers with a text. *)
Definition generate_secret (token_urlsafe : Z -> string) : result string :=
  let secret := token_urlsafe SECRET_BYTES in
  if utf8_length secret <? MINIMUM_JWT_SECRET_LENGTH then Err (OtherException "RuntimeError") else Ok secret.

(** The [choices] of [--role]. *)
Definition console_roles : list Role := [ANALYST; ADMIN].

(** What a request is answered with, as a status. *)
Definition http_status (x : result ApiResponse) : Z :=
  match x with
  | Ok _ => 200
  | Err e =>
      match List.find (fun n => bool_decide (e = HTTPException n)) [401; 403; 404; 409; 422] with
      | Some n => n
      | None => 500
      end
  end.

(** [_command_smoke]: the exit code, given the token of the environment and what a request
    with or without it is answered. *)
Definition smoke (token : string) (status : option Credentials -> Z) : Z :=
  if negb (str_nonempty token) then 2
  else if negb (status (Some (mkCredentials "Bearer" token)) =? 200) then 1
  else if negb (status None =? 401) then 1
  else 0.

Section credentials.
Context (jwt_encode : pydict string json -> string -> string -> result string).

Definition mint_dev_token (secret_key : string) (role : Role) (lifetime_minutes : Z) (now : Z) : result string :=
  create_token jwt_encode (mkJwtService secret_key "HS256" lifetime_minutes) DEFAULT_SUBJECT
    DEV_DEFAULT_AGENT_ID role now.

(** [_command_token], once the arguments are parsed. *)
Definition command_token (getenv : string -> option string) (role : Role) (lifetime_minutes now : Z)
  : result string :=
  secret ← get_jwt_secret_key getenv; mint_dev_token secret role lifetime_minutes now.

(** A signed token in compact form is not blank and has no surrounding whitespace. *)
Definition encode_compact : Prop :=
  forall p key algorithm token, jwt_encode p key algorithm = Ok token ->
    str_strip token = token /\ str_nonempty token = true.
End credentials.

(** ** What a development token opens *)

Section console.
Context (hmac : string -> string -> string) (float_repr : Z -> string)
        (sha256 : string -> string) (uuid5 : string -> string -> string).
Context {Tel : Type} (emit : RuntimeTelemetry -> Tel -> Tel * result unit).
Context (path_exists path_is_symlink path_is_dir : Path -> bool)
        (realpath : Path -> result Path)
        (samefile : Path -> Path -> option bool)
        (scandir : Path -> option (list string)).
Context (jwt_encode : pydict string json -> string -> string -> result string)
        (jwt_decode : string -> string -> list string -> Z -> Z -> JwtOutcome)
        (int_field : json -> option Z).
Context (app : AppConfig).
Local Abbreviation serve_ :=
  (serve hmac float_repr sha256 uuid5 emit path_exists path_is_symlink path_is_dir realpath samefile
     scandir jwt_decode int_field app).

Definition requested (r : Route) (c : option Credentials) (env : ApiEnv) : ApiRequest := mkApiRequest r c env.

(** The principal a development token authenticates as until it expires. *)
Lemma dev_token_principal getenv secret role lifetime now token env :
  decode_inverts_encode jwt_encode jwt_decode int_field -> int_field_reads int_field ->
  encode_compact jwt_encode ->
  get_jwt_secret_key getenv = Ok secret -> ac_jwt app = default_jwt_service secret ->
  command_token jwt_encode getenv role lifetime now = Ok token ->
  let c := token_claims (mkJwtService secret "HS256" lifetime) DEFAULT_SUBJECT DEV_DEFAULT_AGENT_ID role now in
  0 <= now <= ap_auth_now env -> ap_auth_now env < (jc_exp c + TOKEN_LEEWAY) * SECOND ->
  get_current_principal jwt_decode int_field (ac_jwt app) (Some (mkCredentials "Bearer" token)) (ap_auth_now env) = Ok c.
Proof.
  intros Hinv Hint Hcompact Hs Happ Ht c Hnow Hexp. unfold command_token in Ht. rewrite Hs in Ht. simpl in Ht.
  unfold mint_dev_token in Ht. pose proof Ht as Hc. unfold create_token in Hc. apply Hcompact in Hc as [Hstrip Hne].
  unfold get_current_principal. cbn [hc_scheme hc_credentials].
  rewrite (bool_decide_false (str_lower "Bearer" <> "bearer"%string)) by (intros H; by apply H).
  rewrite Hstrip, Hne, Happ. cbn [negb].
  rewrite (issued_token_verifies jwt_encode jwt_decode int_field (mkJwtService secret "HS256" lifetime) (default_jwt_service secret) _ _ _ _ _ _
    Hinv Hint Hnow eq_refl eq_refl Ht).
  fold c. by destruct (Z.ltb_spec (ap_auth_now env) ((jc_exp c + TOKEN_LEEWAY) * SECOND)); [|lia].
Qed.

(** A development token opens the console and nothing more.  Minted by the script from
    the secret the backend runs with, it is accepted until its expiry: the agents listing is
    answered, the smoke check exits with 0 exactly when that listing can be produced, and
    without the token the listing is answered 401.  It never executes: every execute request
    with it is answered 403 and changes nothing; and unless the ADMIN role was asked for, so
    is every reinstatement. *)
Theorem dev_token_is_console_only getenv secret role lifetime now token env (p : Platform Tel) :
  decode_inverts_encode jwt_encode jwt_decode int_field -> int_field_reads int_field ->
  encode_compact jwt_encode ->
  get_jwt_secret_key getenv = Ok secret -> ac_jwt app = default_jwt_service secret ->
  role ∈ console_roles -> command_token jwt_encode getenv role lifetime now = Ok token ->
  0 <= now <= ap_auth_now env ->
  ap_auth_now env < (timestamp_seconds (now + lifetime * 60 * SECOND) + TOKEN_LEEWAY) * SECOND ->
  (smoke token (fun c => http_status (serve_ (requested GetAgents c env) p).2) = 0 <->
   is_ok (list_agents_view (pl_agents p)) = true) /\
  (serve_ (requested GetAgents None env) p) = (p, Err UNAUTHORIZED) /\
  (forall agent body, serve_ (requested (PostExecute agent body) (Some (mkCredentials "Bearer" token)) env) p =
     (p, Err FORBIDDEN)) /\
  (role = ANALYST -> forall agent reason,
     serve_ (requested (PostReinstate agent reason) (Some (mkCredentials "Bearer" token)) env) p = (p, Err FORBIDDEN)).
Proof.
  intros Hinv Hint Hcompact Hs Happ Hrole Ht Hnow Hexp.
  pose proof (dev_token_principal _ _ _ _ _ _ _ Hinv Hint Hcompact Hs Happ Ht Hnow Hexp) as Hp.
  assert (str_nonempty token = true) as Hne.
  { unfold command_token in Ht. rewrite Hs in Ht. by apply Hcompact in Ht as [_ ?]. }
  split_and!.
  - unfold smoke. rewrite Hne. simpl negb. cbv iota.
    unfold serve, requested. cbn [aq_route aq_credentials aq_env mount_roles]. rewrite Hp.
    cbv [mbind comp_bind liftR]. simpl. unfold require_roles. simpl jc_role.
    rewrite bool_decide_true by done. simpl.
    destruct (list_agents_view (pl_agents p)) as [l|e]; simpl; [done|].
    destruct (_ =? 200) eqn:He; [|done]. exfalso. revert He. unfold http_status.
    repeat case_match; simplify_eq; simpl in *; try done; repeat case_bool_decide; simplify_eq; try done.
  - done.
  - intros agent body. unfold serve, requested. cbn [aq_route aq_credentials aq_env mount_roles]. rewrite Hp.
    cbv [mbind comp_bind liftR]. simpl. unfold require_roles. simpl jc_role.
    unfold console_roles in Hrole. rewrite bool_decide_false; [done|]. intros ->%list_elem_of_singleton. set_solver.
  - intros -> agent reason. unfold serve, requested. cbn [aq_route aq_credentials aq_env mount_roles]. rewrite Hp.
    cbv [mbind comp_bind liftR]. done.
Qed.
End console.

(** ** Witness: the default role, half an hour after the token was minted *)

Definition dev_claims : JWTClaims := mkClaims "local-dev-console" "agent-1" ANALYST 1000 87400.

Definition compact_encode (p : pydict string json) (key algorithm : string) : result string :=
  if bool_decide (key = demo_key) then demo_encode dev_claims p key algorithm else Err ValueError.

Lemma compact_encode_inv p key algorithm token :
  compact_encode p key algorithm = Ok token -> key = demo_key /\ demo_encode dev_claims p key algorithm = Ok token.
Proof. unfold compact_encode. case_bool_decide; [by split|done]. Qed.

Lemma compact_encode_compact : encode_compact compact_encode.
Proof.
  intros p key algorithm token [-> [_ ->]%demo_encode_Ok]%compact_encode_inv. by split; vm_compute.
Qed.

Lemma compact_encode_inverts : decode_inverts_encode compact_encode (demo_decode dev_claims) demo_int_field.
Proof.
  intros p key algorithm token leeway now iat exp [_ H]%compact_encode_inv. by apply demo_decode_inverts.
Qed.

Definition dev_env (name : string) : option string :=
  if bool_decide (name = JWT_SECRET_KEY_ENV_VAR) then Some demo_key else None.

Lemma dev_token_is_console_only_witness :
  command_token compact_encode dev_env ANALYST DEFAULT_LIFETIME_MINUTES 1000000500 = Ok (demo_token demo_key) /\
  is_ok (list_agents_view (pl_agents demo_platform)) = true /\
  forall agent body,
    serve sample_hmac sample_repr demo_sha demo_uuid5 demo_emit no_path no_path no_path no_realpath no_samefile
      no_scandir (demo_decode dev_claims) demo_int_field demo_app
      (requested (PostExecute agent body) (Some (mkCredentials "Bearer" (demo_token demo_key))) demo_api_env)
      demo_platform = (demo_platform, Err FORBIDDEN).
Proof.
  assert (command_token compact_encode dev_env ANALYST DEFAULT_LIFETIME_MINUTES 1000000500
    = Ok (demo_token demo_key)) as Ht by (vm_compute; reflexivity).
  split; [exact Ht|]. split; [vm_compute; reflexivity|].
  apply (dev_token_is_console_only sample_hmac sample_repr demo_sha demo_uuid5 demo_emit no_path no_path no_path
    no_realpath no_samefile no_scandir compact_encode (demo_decode dev_claims) demo_int_field demo_app dev_env
    demo_key ANALYST DEFAULT_LIFETIME_MINUTES 1000000500 (demo_token demo_key) demo_api_env demo_platform
    compact_encode_inverts demo_int_field_reads compact_encode_compact ltac:(vm_compute; reflexivity)
    ltac:(reflexivity) ltac:(left) Ht ltac:(vm_compute; split; intros [=]) ltac:(vm_compute; reflexivity)).
Defined.
