(* ===== verification/Schema.v ===== *)
(** * The database schema as data

    Tables, columns and constraints as the migrations ([alembic/versions]) and the models
    ([repositories/sql/models]) declare them, and what the operations of [alembic.op] the
    migrations use ask of a database.  Which of them a database engine refuses is a parameter
    ([Engine]); one engine of that interface, SQLite with foreign keys enforced, is written
    out at the end.  Every foreign key of the repository is [ON DELETE RESTRICT]. *)
From S2P Require Import Prelude PyDict PyInt SqlStore.
Local Open Scope Z_scope.

(** ** Declarations *)

Inductive SqlType := SString (length : Z) | SText | SBigInteger | SInteger | SBoolean | SDateTime | SJSON.

Record Column := mkColumn {
  col_name : string;
  col_type : SqlType;
  col_nullable : bool;
  col_server_default : option string;
}.

Definition col (name : string) (t : SqlType) : Column := mkColumn name t false None.
Definition nullable_col (name : string) (t : SqlType) : Column := mkColumn name t true None.

Record ForeignKey := mkForeignKey { fk_columns : list string; fk_table : string; fk_references : list string }.

(** The conditions the CHECK constraints of the repository state. *)
Inductive CheckExpr :=
| CkAtLeast (column : string) (n : Z)
| CkAbove (column : string) (n : Z)
| CkOneOf (column : string) (values : list string)
| CkNullOrOneOf (column : string) (values : list string)
| CkSuccessor (column before : string)
| CkRequires (column required : string).

Record Check := mkCheck { ck_name : string; ck_expr : CheckExpr }.

Record TableDef := mkTableDef {
  tb_columns : list Column;
  tb_primary_key : list string;
  tb_foreign_keys : list ForeignKey;
  tb_uniques : list (string * list string);
  tb_checks : list Check;
  tb_indexes : list (string * list string);
}.

#[global] Instance SqlType_eq_dec : EqDecision SqlType.
Proof. solve_decision. Defined.
#[global] Instance Column_eq_dec : EqDecision Column.
Proof. solve_decision. Defined.
#[global] Instance ForeignKey_eq_dec : EqDecision ForeignKey.
Proof. solve_decision. Defined.
#[global] Instance CheckExpr_eq_dec : EqDecision CheckExpr.
Proof. solve_decision. Defined.
#[global] Instance Check_eq_dec : EqDecision Check.
Proof. solve_decision. Defined.
#[global] Instance TableDef_eq_dec : EqDecision TableDef.
Proof. solve_decision. Defined.

(** ** Contents *)

Inductive Cell := CNull | CText (s : string) | CNum (n : Z) | COpaque (repr : string).

#[global] Instance Cell_eq_dec : EqDecision Cell.
Proof. solve_decision. Defined.

Abbreviation Row := (pydict string Cell).

Record Table := mkTable { dt_def : TableDef; dt_rows : list Row }.

(** The tables by name, in the order they were created. *)
Abbreviation Database := (pydict string Table).

Definition cell (column : string) (r : Row) : Cell := default CNull (dget column r).

Definition rows_of (name : string) (db : Database) : list Row :=
  match dget name db with Some t => dt_rows t | None => [] end.

(** ** Operations *)

Inductive Dialect := SQLite | PostgreSQL.

Definition OperationalError : exn := OtherException "OperationalError".

Inductive BatchOp :=
| AddColumn (c : Column)
| RenameColumn (old_name new_name : string)
| DropColumn (name : string)
| AddCheck (c : Check)
| DropCheck (name : string).

(** One request to the engine; [Recreate] puts a rebuilt table in the place of the old one. *)
Inductive Operation :=
| CreateTable (name : string) (d : TableDef)
| DropTable (name : string)
| RenameTable (name new_name : string)
| CreateIndex (index name : string) (columns : list string)
| DropIndex (index name : string)
| CreateForeignKey (name : string) (k : ForeignKey)
| DropForeignKeys (name : string) (targets : list string)
| Alter (name : string) (op : BatchOp)
| Recreate (name : string) (after : Table).

(** What the migrations rely on: the dialect's name, whether the CHECK constraints of a table
    are reflected when it is rebuilt without a description, and the operations refused. *)
Class Engine := {
  dialect : Dialect;
  reflects_checks : bool;
  refusal : Database -> Operation -> option exn;
}.

(** *** Schema edits *)

Definition with_indexes (l : list (string * list string)) (d : TableDef) : TableDef :=
  mkTableDef (tb_columns d) (tb_primary_key d) (tb_foreign_keys d) (tb_uniques d) (tb_checks d) l.
Definition with_checks (l : list Check) (d : TableDef) : TableDef :=
  mkTableDef (tb_columns d) (tb_primary_key d) (tb_foreign_keys d) (tb_uniques d) l (tb_indexes d).
Definition with_foreign_keys (l : list ForeignKey) (d : TableDef) : TableDef :=
  mkTableDef (tb_columns d) (tb_primary_key d) l (tb_uniques d) (tb_checks d) (tb_indexes d).

Definition rename_to (name new_name n : string) : string := if bool_decide (n = name) then new_name else n.

Definition retarget (name new_name : string) (k : ForeignKey) : ForeignKey :=
  mkForeignKey (fk_columns k) (rename_to name new_name (fk_table k)) (fk_references k).

Definition rename_expr (f : string -> string) (e : CheckExpr) : CheckExpr :=
  match e with
  | CkAtLeast c n => CkAtLeast (f c) n
  | CkAbove c n => CkAbove (f c) n
  | CkOneOf c l => CkOneOf (f c) l
  | CkNullOrOneOf c l => CkNullOrOneOf (f c) l
  | CkSuccessor c b => CkSuccessor (f c) (f b)
  | CkRequires c q => CkRequires (f c) (f q)
  end.

Definition expr_columns (e : CheckExpr) : list string :=
  match e with
  | CkAtLeast c _ | CkAbove c _ | CkOneOf c _ | CkNullOrOneOf c _ => [c]
  | CkSuccessor c b | CkRequires c b => [c; b]
  end.

Definition rename_columns (f : string -> string) (d : TableDef) : TableDef :=
  mkTableDef
    (List.map (fun c => mkColumn (f (col_name c)) (col_type c) (col_nullable c) (col_server_default c)) (tb_columns d))
    (f <$> tb_primary_key d)
    (List.map (fun k => mkForeignKey (f <$> fk_columns k) (fk_table k) (fk_references k)) (tb_foreign_keys d))
    (List.map (fun '(n, l) => (n, f <$> l)) (tb_uniques d))
    (List.map (fun k => mkCheck (ck_name k) (rename_expr f (ck_expr k))) (tb_checks d))
    (List.map (fun '(n, l) => (n, f <$> l)) (tb_indexes d)).

Definition drop_column (name : string) (d : TableDef) : TableDef :=
  let without {A} (columns : A -> list string) := List.filter (fun x => negb (bool_decide (name ∈ columns x))) in
  mkTableDef (List.filter (fun c => negb (bool_decide (col_name c = name))) (tb_columns d))
    (tb_primary_key d) (without fk_columns (tb_foreign_keys d)) (without snd (tb_uniques d))
    (without (fun k => expr_columns (ck_expr k)) (tb_checks d)) (without snd (tb_indexes d)).

Definition has_column (name : string) (d : TableDef) : bool :=
  bool_decide (name ∈ col_name <$> tb_columns d).
Definition has_check (name : string) (d : TableDef) : bool :=
  bool_decide (name ∈ ck_name <$> tb_checks d).

(** The value existing rows get in an added column. *)
Definition server_value (c : Column) : option Cell :=
  match col_server_default c with
  | Some s => Some (match col_type c with
                    | SBigInteger | SInteger => CNum (default 0 (py_int s))
                    | _ => CText s
                    end)
  | None => if col_nullable c then Some CNull else None
  end.

(** A change to one table; [None] where the schema has no place for it. *)
Definition batch_op (t : Table) (op : BatchOp) : option Table :=
  let d := dt_def t in
  match op with
  | AddColumn c =>
      if has_column (col_name c) d then None
      else
        let d' := mkTableDef (tb_columns d ++ [c]) (tb_primary_key d) (tb_foreign_keys d) (tb_uniques d)
                    (tb_checks d) (tb_indexes d) in
        match server_value c, dt_rows t with
        | Some v, rows => Some (mkTable d' (dset (col_name c) v <$> rows))
        | None, [] => Some (mkTable d' [])
        | None, _ => None
        end
  | RenameColumn old new =>
      if negb (has_column old d) || has_column new d then None
      else
        let f := rename_to old new in
        Some (mkTable (rename_columns f d) (List.map (List.map (fun '(k, v) => (f k, v))) (dt_rows t)))
  | DropColumn name =>
      if negb (has_column name d) then None
      else Some (mkTable (drop_column name d) (ddel name <$> dt_rows t))
  | AddCheck c =>
      if has_check (ck_name c) d then None
      else Some (mkTable (with_checks (tb_checks d ++ [c]) d) (dt_rows t))
  | DropCheck name =>
      if negb (has_check name d) then None
      else Some (mkTable (with_checks (List.filter (fun k => negb (bool_decide (ck_name k = name))) (tb_checks d)) d)
                   (dt_rows t))
  end.

Fixpoint batch_ops (ops : list BatchOp) (t : Table) : option Table :=
  match ops with [] => Some t | op :: ops => t ← batch_op t op; batch_ops ops t end.

Definition on_table (f : Table -> option Table) (name : string) (db : Database) : option Database :=
  t ← dget name db; t ← f t; Some (dset name t db).

Definition on_def (f : TableDef -> option TableDef) : string -> Database -> option Database :=
  on_table (fun t => d ← f (dt_def t); Some (mkTable d (dt_rows t))).

(** The database an operation asks for; [None] where it names something that is not there, or
    gives a name that is taken. *)
Definition effect (o : Operation) (db : Database) : option Database :=
  match o with
  | CreateTable name d => if dhas name db then None else Some (dset name (mkTable d []) db)
  | DropTable name => if negb (dhas name db) then None else Some (ddel name db)
  | RenameTable name new_name =>
      if negb (dhas name db) || dhas new_name db then None
      else Some (List.map (fun '(n, t) =>
             (rename_to name new_name n,
              mkTable (with_foreign_keys (List.map (retarget name new_name) (tb_foreign_keys (dt_def t))) (dt_def t))
                (dt_rows t))) db)
  | CreateIndex index name columns =>
      on_def (fun d => if dhas index (tb_indexes d) then None
                       else Some (with_indexes (tb_indexes d ++ [(index, columns)]) d)) name db
  | DropIndex index name =>
      on_def (fun d => if negb (dhas index (tb_indexes d)) then None
                       else Some (with_indexes (ddel index (tb_indexes d)) d)) name db
  | CreateForeignKey name k =>
      on_def (fun d => Some (with_foreign_keys (tb_foreign_keys d ++ [k]) d)) name db
  | DropForeignKeys name targets =>
      on_def (fun d => Some (with_foreign_keys
        (List.filter (fun k => negb (bool_decide (fk_table k ∈ targets))) (tb_foreign_keys d)) d)) name db
  | Alter name op => on_table (fun t => batch_op t op) name db
  | Recreate name after => on_table (fun _ => Some after) name db
  end.

(** *** Requests *)

Section requests.
Context {E : Engine}.

Definition perform (o : Operation) (db : Database) : result Database :=
  match effect o db with
  | None => Err OperationalError
  | Some db' => match refusal db o with Some e => Err e | None => Ok db' end
  end.

Definition create_table (name : string) (d : TableDef) := perform (CreateTable name d).
Definition drop_table (name : string) := perform (DropTable name).
Definition rename_table (name new_name : string) := perform (RenameTable name new_name).
Definition create_index (index name : string) (columns : list string) := perform (CreateIndex index name columns).
Definition drop_index (index name : string) := perform (DropIndex index name).
Definition create_foreign_key (name : string) (k : ForeignKey) := perform (CreateForeignKey name k).
Definition drop_foreign_keys (targets : list string) (name : string) := perform (DropForeignKeys name targets).

Fixpoint alter_table (name : string) (ops : list BatchOp) (db : Database) : result Database :=
  match ops with [] => Ok db | op :: ops => db ← perform (Alter name op) db; alter_table name ops db end.

(** The table a rebuild starts from: as described, or as reflected. *)
Definition rebuilt_from (copy_from : option TableDef) (d : TableDef) : TableDef :=
  match copy_from with
  | Some described => described
  | None => if reflects_checks then d else with_checks [] d
  end.

(** [op.batch_alter_table]: one statement after the other on PostgreSQL; on SQLite a new
    table from the description given or reflected, into which the rows are copied. *)
Definition batch_alter_table (name : string) (copy_from : option TableDef) (ops : list BatchOp)
    (db : Database) : result Database :=
  match dialect with
  | PostgreSQL => alter_table name ops db
  | SQLite =>
      match dget name db with
      | None => Err OperationalError
      | Some t =>
          match batch_ops ops (mkTable (rebuilt_from copy_from (dt_def t)) (dt_rows t)) with
          | None => Err OperationalError
          | Some after => perform (Recreate name after) db
          end
      end
  end.
End requests.

(** ** Engines *)

(** An engine that refuses nothing the schema has a place for. *)
Definition permissive (d : Dialect) (reflects : bool) : Engine :=
  {| dialect := d; reflects_checks := reflects; refusal := fun _ _ => None |}.

Definition check_holds (e : CheckExpr) (r : Row) : bool :=
  match e with
  | CkAtLeast c n => match cell c r with CNum x => n <=? x | CNull => true | _ => false end
  | CkAbove c n => match cell c r with CNum x => n <? x | CNull => true | _ => false end
  | CkOneOf c l | CkNullOrOneOf c l =>
      match cell c r with CText s => bool_decide (s ∈ l) | CNull => true | _ => false end
  | CkSuccessor c b =>
      match cell c r, cell b r with
      | CNum x, CNum y => x =? y + 1
      | CNull, _ | _, CNull => true
      | _, _ => false
      end
  | CkRequires c q => bool_decide (cell c r = CNull) || negb (bool_decide (cell q r = CNull))
  end.

(** Rows that a foreign key admits: a NULL in it, or a referenced row. *)
Definition fk_holds (db : Database) (k : ForeignKey) (r : Row) : bool :=
  let key := (fun c => cell c r) <$> fk_columns k in
  bool_decide (CNull ∈ key)
  || existsb (fun q => bool_decide (((fun c => cell c q) <$> fk_references k) = key)) (rows_of (fk_table k) db).

Definition references_table (name : string) (d : TableDef) : bool :=
  existsb (fun k => bool_decide (fk_table k = name)) (tb_foreign_keys d).

(** Rows of another table may refer to rows of this one, which are deleted with it. *)
Definition still_referenced (name : string) (db : Database) : bool :=
  existsb (fun '(other, t) =>
    negb (bool_decide (other = name)) && references_table name (dt_def t) &&
    match dt_rows t, rows_of name db with _ :: _, _ :: _ => true | _, _ => false end) db.

(** SQLite as [env.py] connects to it, [PRAGMA foreign_keys=ON]. *)
Definition sqlite : Engine :=
  {| dialect := SQLite;
     reflects_checks := true;
     refusal := fun db o =>
       match o with
       | DropTable name => if still_referenced name db then Some IntegrityError else None
       | Recreate name after =>
           if still_referenced name db
              || negb (forallb (fun r =>
                   forallb (fun k => check_holds (ck_expr k) r) (tb_checks (dt_def after)) &&
                   forallb (fun k => fk_holds db k r) (tb_foreign_keys (dt_def after))) (dt_rows after))
           then Some IntegrityError else None
       | _ => None
       end |}.
