(* ===== verification/Migrations.v ===== *)
(** * Schema migrations

    The ten revisions of [alembic/versions], each with both directions, over the schema and
    the rows of a database; the schema the models of [repositories/sql/models] declare; and
    what a chain of revisions keeps of what was stored. *)
From S2P Require Import Prelude PyDict SqlStore Schema.
Local Open Scope Z_scope.
Local Open Scope string_scope.

(** ** Tables the revisions create *)

Definition to_agents : ForeignKey := mkForeignKey ["agent_id"] "agents" ["agent_id"].
Definition to_sessions : ForeignKey := mkForeignKey ["session_id"] "sessions" ["session_id"].

(** A table without indexes: [create_table] makes none. *)
Definition table (columns : list Column) (primary_key : list string) (fks : list ForeignKey)
    (uniques : list (string * list string)) (checks : list Check) : TableDef :=
  mkTableDef columns primary_key fks uniques checks [].

(** *** 0001 *)

Definition agents_0001 : TableDef :=
  table [col "agent_id" (SString 128); col "name" (SString 255); col "owner" (SString 255);
         col "risk_tier" (SString 32); col "status" (SString 32); col "approved_tools" SJSON;
         col "created_at" SDateTime; col "updated_at" SDateTime] ["agent_id"] [] [] [].

Definition audit_events_0001 : TableDef :=
  table [col "event_id" (SString 64); col "session_id" (SString 128); col "agent_id" (SString 128);
         col "tool_id" (SString 128); col "decision" (SString 32); nullable_col "principal" (SString 255);
         col "timestamp" SDateTime; col "created_at" SDateTime] ["event_id"] [] [] [].

Definition tools_0001 : TableDef :=
  table [col "tool_id" (SString 128); col "name" (SString 255); col "description" SText;
         col "risk_level" (SString 32); col "required_permissions" SJSON; col "metadata_payload" SJSON;
         col "is_active" SBoolean; col "created_at" SDateTime] ["tool_id"] [] [] [].

Definition EPOCH_CHECK : Check := mkCheck "chk_agent_enforcement_epoch_non_negative" (CkAtLeast "epoch" 0).
Definition EVIDENCE_CHECK (column : string) : Check :=
  mkCheck "chk_agent_enforcement_baseline_seq_non_negative" (CkAtLeast column 0).
Definition AGENT_CHECK : Check :=
  mkCheck "chk_agent_enforcement_baseline_agent_seq_non_negative" (CkAtLeast "baseline_agent_sequence" 0).

Definition agent_enforcement_state_0001 : TableDef :=
  table [col "agent_id" (SString 128); col "epoch" SBigInteger; col "current_status" (SString 32);
         nullable_col "suspended_at" SDateTime; nullable_col "suspension_reason" SText;
         nullable_col "enforcement_baseline_at" SDateTime; col "enforcement_baseline_sequence" SBigInteger;
         nullable_col "last_transition_at" SDateTime; col "updated_at" SDateTime]
    ["agent_id"] [to_agents] [] [EVIDENCE_CHECK "enforcement_baseline_sequence"; EPOCH_CHECK].

Definition agent_enforcement_transitions_0001 : TableDef :=
  table [col "transition_id" (SString 64); col "agent_id" (SString 128); col "epoch" SBigInteger;
         col "action" (SString 32); col "actor" (SString 255); col "reason" SText;
         col "previous_status" (SString 32); col "new_status" (SString 32);
         nullable_col "trigger_session_id" (SString 128); nullable_col "trigger_risk_level" (SString 32);
         nullable_col "trigger_risk_score" SInteger; nullable_col "trigger_finding_ids" SJSON;
         col "occurred_at" SDateTime] ["transition_id"] [to_agents] [] [].

Definition agent_sequence_counters_0001 : TableDef :=
  table [col "agent_id" (SString 128); col "current_sequence" SBigInteger; col "updated_at" SDateTime]
    ["agent_id"] [to_agents] [] [mkCheck "chk_agent_seq_counter_non_negative" (CkAtLeast "current_sequence" 0)].

Definition sessions_0001 : TableDef :=
  table [col "session_id" (SString 128); col "agent_id" (SString 128); col "status" (SString 32);
         col "next_session_sequence" SBigInteger; col "created_at" SDateTime;
         nullable_col "last_activity_at" SDateTime; col "updated_at" SDateTime;
         nullable_col "ended_at" SDateTime; nullable_col "ended_reason" (SString 255)]
    ["session_id"] [to_agents] [] [mkCheck "chk_sessions_next_seq_positive" (CkAbove "next_session_sequence" 0)].

(** The grant and event tables of 0001, 0003 and 0004 differ in the tool columns and
    references only. *)
Definition execution_grants_columns (tool : list Column) : list Column :=
  [col "grant_id" (SString 64); col "session_id" (SString 128); col "agent_id" (SString 128)] ++ tool ++
  [col "execution_parameters" SJSON; col "originating_audit_event_id" (SString 64); col "risk_score" SInteger;
   col "required_response" (SString 64); col "enforcement_epoch" SBigInteger; col "state" (SString 32);
   col "created_at" SDateTime; col "expires_at" SDateTime; nullable_col "approved_by" (SString 255);
   nullable_col "consumed_at" SDateTime].

Definition session_events_columns (tool : list Column) : list Column :=
  [col "event_id" (SString 64); col "session_id" (SString 128); col "agent_id" (SString 128)] ++ tool ++
  [col "sequence_number" SBigInteger; col "agent_sequence" SBigInteger; col "decision" (SString 32);
   nullable_col "final_decision" (SString 32); col "timestamp" SDateTime; col "created_at" SDateTime].

Definition session_events_checks : list Check :=
  [mkCheck "chk_session_events_agent_seq_positive" (CkAbove "agent_sequence" 0);
   mkCheck "chk_session_events_seq_positive" (CkAbove "sequence_number" 0)].
Definition session_events_uniques : list (string * list string) :=
  [("uq_session_events_agent_sequence", ["agent_id"; "agent_sequence"]);
   ("uq_session_events_session_sequence", ["session_id"; "sequence_number"])].
Definition session_events_indexes : list (string * list string) :=
  [("idx_session_events_agent_horizon", ["agent_id"; "timestamp"; "agent_sequence"]);
   ("idx_session_events_session_horizon", ["session_id"; "timestamp"; "sequence_number"]);
   ("idx_session_events_timestamp_prune", ["timestamp"])].

Definition family_column : list Column := [col "tool_id" (SString 128)].
Definition to_tool (target : string) : ForeignKey := mkForeignKey ["tool_id"] target ["tool_id"].
Definition to_version : ForeignKey := mkForeignKey ["tool_id"; "tool_version"] "tools" ["tool_id"; "version"].

Section revisions.
Context {E : Engine}.

Local Abbreviation Step := (Database -> result Database).

Definition create_indexes (table_name : string) (l : list (string * list string)) : Step := fun db =>
  fold_left (fun r i => db ← r; create_index i.1 table_name i.2 db) l (Ok db).
Definition drop_indexes (table_name : string) (l : list string) : Step := fun db =>
  fold_left (fun r i => db ← r; drop_index i table_name db) l (Ok db).

Definition create_grants (tool : list Column) (tool_fk : ForeignKey) : Step := fun db =>
  db ← create_table "execution_grants"
         (table (execution_grants_columns tool) ["grant_id"] [to_agents; to_sessions; tool_fk] [] []) db;
  create_indexes "execution_grants"
    [("idx_execution_grants_agent_state", ["agent_id"; "state"]);
     ("idx_execution_grants_expiry", ["expires_at"; "state"])] db.

Definition create_events (tool : list Column) (tool_fks : list ForeignKey) : Step := fun db =>
  db ← create_table "session_events"
         (table (session_events_columns tool) ["event_id"] ([to_agents; to_sessions] ++ tool_fks)
            session_events_uniques session_events_checks) db;
  create_indexes "session_events" session_events_indexes db.

Definition audit_indexes : list (string * list string) :=
  [("idx_audit_events_agent", ["agent_id"; "timestamp"]); ("idx_audit_events_session", ["session_id"; "timestamp"])].

Definition upgrade_0001 : Step := fun db =>
  db ← create_table "agents" agents_0001 db;
  db ← create_table "audit_events" audit_events_0001 db;
  db ← create_indexes "audit_events" audit_indexes db;
  db ← create_table "tools" tools_0001 db;
  db ← create_table "agent_enforcement_state" agent_enforcement_state_0001 db;
  db ← create_table "agent_enforcement_transitions" agent_enforcement_transitions_0001 db;
  db ← create_indexes "agent_enforcement_transitions"
         [("idx_enforcement_transitions_agent_time", ["agent_id"; "occurred_at"])] db;
  db ← create_table "agent_sequence_counters" agent_sequence_counters_0001 db;
  db ← create_table "sessions" sessions_0001 db;
  db ← create_indexes "sessions" [("idx_sessions_agent_status", ["agent_id"; "status"])] db;
  db ← create_grants family_column (to_tool "tools") db;
  create_events family_column [to_tool "tools"] db.

Definition downgrade_0001 : Step := fun db =>
  db ← drop_indexes "session_events" ["idx_session_events_timestamp_prune"; "idx_session_events_session_horizon";
                                      "idx_session_events_agent_horizon"] db;
  db ← drop_table "session_events" db;
  db ← drop_indexes "execution_grants" ["idx_execution_grants_expiry"; "idx_execution_grants_agent_state"] db;
  db ← drop_table "execution_grants" db;
  db ← drop_indexes "sessions" ["idx_sessions_agent_status"] db;
  db ← drop_table "sessions" db;
  db ← drop_table "agent_sequence_counters" db;
  db ← drop_indexes "agent_enforcement_transitions" ["idx_enforcement_transitions_agent_time"] db;
  db ← drop_table "agent_enforcement_transitions" db;
  db ← drop_table "agent_enforcement_state" db;
  db ← drop_table "tools" db;
  db ← drop_indexes "audit_events" ["idx_audit_events_session"; "idx_audit_events_agent"] db;
  db ← drop_table "audit_events" db;
  drop_table "agents" db.

(** *** 0002 *)

(** [_table]: the enforcement table as it was, without the baseline check. *)
Definition enforcement_table (baseline : list Column) : TableDef :=
  table ([col "agent_id" (SString 128); col "epoch" SBigInteger; col "current_status" (SString 32);
          nullable_col "suspended_at" SDateTime; nullable_col "suspension_reason" SText;
          nullable_col "enforcement_baseline_at" SDateTime] ++ baseline ++
         [nullable_col "last_transition_at" SDateTime; col "updated_at" SDateTime])
    ["agent_id"] [to_agents] [] [EPOCH_CHECK].

Definition agent_sequence_column : Column := mkColumn "baseline_agent_sequence" SBigInteger false (Some "0").

Definition upgrade_0002 : Step :=
  batch_alter_table "agent_enforcement_state"
    (Some (enforcement_table [col "enforcement_baseline_sequence" SBigInteger]))
    [RenameColumn "enforcement_baseline_sequence" "baseline_evidence_sequence";
     AddColumn agent_sequence_column;
     AddCheck (EVIDENCE_CHECK "baseline_evidence_sequence"); AddCheck AGENT_CHECK].

Definition downgrade_0002 : Step :=
  batch_alter_table "agent_enforcement_state"
    (Some (enforcement_table [col "baseline_evidence_sequence" SBigInteger; agent_sequence_column]))
    [DropColumn "baseline_agent_sequence";
     RenameColumn "baseline_evidence_sequence" "enforcement_baseline_sequence";
     AddCheck (EVIDENCE_CHECK "enforcement_baseline_sequence")].

(** *** 0003 to 0005 *)

(** [_refuse_if_populated] over the tables it guards. *)
Definition refuse_if_populated (tables : list string) : Step := fun db =>
  if existsb (fun n => match rows_of n db with [] => false | _ => true end) tables
  then Err (OtherException "RuntimeError") else Ok db.

Definition tool_families_0003 : TableDef :=
  table [col "tool_id" (SString 128); col "created_at" SDateTime] ["tool_id"] [] [] [].
Definition tools_0003 : TableDef :=
  table [col "tool_id" (SString 128); col "version" (SString 64); col "governance_enabled" SBoolean;
         col "risk_level" (SString 32); col "metadata_payload" SJSON; col "created_at" SDateTime]
    ["tool_id"; "version"] [to_tool "tool_families"] [] [].

Definition GUARDED_0003 : list string := ["tools"; "session_events"; "execution_grants"].
Definition GUARDED_0004 : list string := ["session_events"; "execution_grants"].

Definition upgrade_0003 : Step := fun db =>
  db ← refuse_if_populated GUARDED_0003 db;
  db ← drop_table "session_events" db;
  db ← drop_table "execution_grants" db;
  db ← drop_table "tools" db;
  db ← create_table "tool_families" tool_families_0003 db;
  db ← create_table "tools" tools_0003 db;
  db ← create_grants family_column (to_tool "tool_families") db;
  create_events family_column [to_tool "tool_families"] db.

Definition downgrade_0003 : Step := fun db =>
  db ← refuse_if_populated GUARDED_0003 db;
  db ← drop_table "session_events" db;
  db ← drop_table "execution_grants" db;
  db ← drop_table "tools" db;
  db ← drop_table "tool_families" db;
  db ← create_table "tools" tools_0001 db;
  db ← create_grants family_column (to_tool "tools") db;
  create_events family_column [to_tool "tools"] db.

Definition create_grants_0004 (with_version : bool) : Step :=
  if with_version
  then create_grants (family_column ++ [col "tool_version" (SString 64)]) to_version
  else create_grants family_column (to_tool "tool_families").
Definition create_events_0004 (with_version : bool) : Step :=
  if with_version
  then create_events (family_column ++ [nullable_col "tool_version" (SString 64)]) [to_tool "tool_families"; to_version]
  else create_events family_column [to_tool "tool_families"].

Definition migrate_0004 (with_version : bool) : Step := fun db =>
  db ← refuse_if_populated GUARDED_0004 db;
  db ← drop_table "session_events" db;
  db ← drop_table "execution_grants" db;
  db ← create_grants_0004 with_version db;
  create_events_0004 with_version db.

Definition upgrade_0004 : Step := migrate_0004 true.
Definition downgrade_0004 : Step := migrate_0004 false.

Definition VERSION_CHECK : Check :=
  mkCheck "chk_audit_events_version_requires_family" (CkRequires "tool_version" "tool_id").

Definition audit_events_0005 : TableDef :=
  table [col "event_id" (SString 64); col "session_id" (SString 128); col "agent_id" (SString 128);
         col "requested_tool_id" (SString 128); nullable_col "tool_id" (SString 128);
         nullable_col "tool_version" (SString 64); col "decision" (SString 32);
         col "timestamp" SDateTime; col "created_at" SDateTime] ["event_id"] [] [] [VERSION_CHECK].

Definition migrate_0005 (d : TableDef) : Step := fun db =>
  db ← refuse_if_populated ["audit_events"] db;
  db ← drop_table "audit_events" db;
  db ← create_table "audit_events" d db;
  create_indexes "audit_events" audit_indexes db.

Definition upgrade_0005 : Step := migrate_0005 audit_events_0005.
Definition downgrade_0005 : Step := migrate_0005 audit_events_0001.

(** *** 0006 *)

Definition OLD_INDEXES : list string := ["idx_execution_grants_agent_state"; "idx_execution_grants_expiry"].
Definition NEW_INDEXES : list string :=
  ["idx_approval_continuations_agent_state"; "idx_approval_continuations_expiry"].

Definition upgrade_0006 : Step := fun db =>
  db ← rename_table "execution_grants" "approval_continuations" db;
  db ← drop_indexes "approval_continuations" OLD_INDEXES db;
  create_indexes "approval_continuations"
    [("idx_approval_continuations_agent_state", ["agent_id"; "state"]);
     ("idx_approval_continuations_expiry", ["expires_at"; "state"])] db.

Definition downgrade_0006 : Step := fun db =>
  db ← drop_indexes "approval_continuations" NEW_INDEXES db;
  db ← rename_table "approval_continuations" "execution_grants" db;
  create_indexes "execution_grants"
    [("idx_execution_grants_agent_state", ["agent_id"; "state"]);
     ("idx_execution_grants_expiry", ["expires_at"; "state"])] db.

(** *** 0007 *)

Definition session_events_table (with_tool_references : bool) : TableDef :=
  mkTableDef (session_events_columns (family_column ++ [nullable_col "tool_version" (SString 64)])) ["event_id"]
    ([to_agents; to_sessions] ++ if with_tool_references then [to_tool "tool_families"; to_version] else [])
    session_events_uniques session_events_checks session_events_indexes.

Definition rebuild_sqlite (with_tool_references : bool) : Step :=
  batch_alter_table "session_events" (Some (session_events_table with_tool_references)) [].

(** An event that names a family or a version that is not registered. *)
Definition unregistered_identity (db : Database) (e : Row) : bool :=
  negb (existsb (fun f => bool_decide (cell "tool_id" f = cell "tool_id" e)) (rows_of "tool_families" db))
  || negb (bool_decide (cell "tool_version" e = CNull))
     && negb (existsb (fun t => bool_decide (cell "tool_id" t = cell "tool_id" e /\
                                             cell "version" t = cell "tool_version" e)) (rows_of "tools" db)).

Definition refuse_unregistered_identities : Step := fun db =>
  if existsb (unregistered_identity db) (rows_of "session_events" db)
  then Err (OtherException "RuntimeError") else Ok db.

Definition upgrade_0007 : Step :=
  match dialect with
  | SQLite => rebuild_sqlite false
  | PostgreSQL => drop_foreign_keys ["tool_families"; "tools"] "session_events"
  end.

Definition downgrade_0007 : Step := fun db =>
  db ← refuse_unregistered_identities db;
  match dialect with
  | SQLite => rebuild_sqlite true db
  | PostgreSQL =>
      db ← create_foreign_key "session_events" (to_tool "tool_families") db;
      create_foreign_key "session_events" to_version db
  end.

(** *** 0008 *)

Definition GENERATION_CHECK : Check :=
  mkCheck "chk_agent_enforcement_recovery_generation_non_negative" (CkAtLeast "recovery_generation" 0).
Definition generation_column : Column := mkColumn "recovery_generation" SBigInteger false (Some "0").

(** The reinstatements the ledger records for an agent. *)
Definition recorded_reinstatements (agent : Cell) (transitions : list Row) : Z :=
  count (fun t => bool_decide (cell "agent_id" t = agent) && bool_decide (cell "action" t = CText "REINSTATE"))
    transitions.

Definition initialize_generation (db : Database) : result Database :=
  match dget "agent_enforcement_state" db with
  | None => Err OperationalError
  | Some t =>
      Ok (dset "agent_enforcement_state"
            (mkTable (dt_def t)
               (List.map (fun r => dset "recovery_generation"
                  (CNum (recorded_reinstatements (cell "agent_id" r) (rows_of "agent_enforcement_transitions" db))) r)
                  (dt_rows t))) db)
  end.

Definition generation_exceeds_epoch (r : Row) : bool :=
  match cell "recovery_generation" r, cell "epoch" r with CNum g, CNum e => (e <? g)%Z | _, _ => false end.

Definition upgrade_0008 : Step := fun db =>
  db ← batch_alter_table "agent_enforcement_state" None
         [AddColumn generation_column; AddCheck GENERATION_CHECK] db;
  db ← initialize_generation db;
  if existsb generation_exceeds_epoch (rows_of "agent_enforcement_state" db)
  then Err (OtherException "RuntimeError") else Ok db.

Definition downgrade_0008 : Step :=
  batch_alter_table "agent_enforcement_state" None
    [DropCheck (ck_name GENERATION_CHECK); DropColumn "recovery_generation"].

(** *** 0009 and 0010 *)

Definition upgrade_0009 : Step :=
  batch_alter_table "agents" None [DropColumn "status"].
Definition downgrade_0009 : Step :=
  batch_alter_table "agents" None
    [AddColumn (mkColumn "status" (SString 32) false (Some "REGISTERED"))].

Definition STATES : list string := ["REGISTERED"; "ACTIVE"; "DISABLED"].
Definition ACTORS : list string := ["human"; "system"; "runtime"].

Definition administrative_state_0010 : TableDef :=
  table [col "agent_id" (SString 128); col "state" (SString 32); col "administrative_version" SBigInteger;
         nullable_col "last_transition_at" SDateTime; col "updated_at" SDateTime] ["agent_id"] [to_agents] []
    [mkCheck "chk_agent_administrative_state_value" (CkOneOf "state" STATES);
     mkCheck "chk_agent_administrative_version_positive" (CkAtLeast "administrative_version" 1)].

Definition administrative_transitions_0010 : TableDef :=
  table [col "transition_id" (SString 64); col "agent_id" (SString 128); col "action" (SString 32);
         col "actor_type" (SString 32); col "actor_id" (SString 255); col "reason" SText;
         nullable_col "previous_state" (SString 32); col "new_state" (SString 32);
         col "administrative_version_before" SBigInteger; col "administrative_version_after" SBigInteger;
         col "correlation_id" (SString 128); col "occurred_at" SDateTime] ["transition_id"] [to_agents]
    [("uq_agent_administrative_version_after", ["agent_id"; "administrative_version_after"])]
    [mkCheck "chk_administrative_transition_new_state" (CkOneOf "new_state" STATES);
     mkCheck "chk_administrative_transition_previous_state" (CkNullOrOneOf "previous_state" STATES);
     mkCheck "chk_administrative_transition_actor_type" (CkOneOf "actor_type" ACTORS);
     mkCheck "chk_administrative_transition_version_advance"
       (CkSuccessor "administrative_version_after" "administrative_version_before")].

Definition administrative_audit_0010 : TableDef :=
  table [col "event_id" (SString 64); col "agent_id" (SString 128); col "attempted_action" (SString 32);
         col "actor_type" (SString 32); col "actor_id" (SString 255); col "refusal_code" (SString 64);
         col "reason" SText; nullable_col "observed_state" (SString 32); col "correlation_id" (SString 128);
         col "occurred_at" SDateTime] ["event_id"] [] []
    [mkCheck "chk_administrative_audit_actor_type" (CkOneOf "actor_type" ACTORS);
     mkCheck "chk_administrative_audit_observed_state" (CkNullOrOneOf "observed_state" STATES)].

Definition upgrade_0010 : Step := fun db =>
  db ← create_table "agent_administrative_state" administrative_state_0010 db;
  db ← create_table "agent_administrative_transitions" administrative_transitions_0010 db;
  db ← create_indexes "agent_administrative_transitions"
         [("idx_administrative_transitions_agent_time", ["agent_id"; "occurred_at"])] db;
  db ← create_table "administrative_audit_events" administrative_audit_0010 db;
  create_indexes "administrative_audit_events"
    [("idx_administrative_audit_agent_time", ["agent_id"; "occurred_at"])] db.

Definition downgrade_0010 : Step := fun db =>
  db ← drop_indexes "administrative_audit_events" ["idx_administrative_audit_agent_time"] db;
  db ← drop_table "administrative_audit_events" db;
  db ← drop_indexes "agent_administrative_transitions" ["idx_administrative_transitions_agent_time"] db;
  db ← drop_table "agent_administrative_transitions" db;
  drop_table "agent_administrative_state" db.

(** ** The chain: each revision with its way back, [down_revision] first *)

Definition REVISIONS : list (Step * Step) :=
  [(upgrade_0001, downgrade_0001); (upgrade_0002, downgrade_0002); (upgrade_0003, downgrade_0003);
   (upgrade_0004, downgrade_0004); (upgrade_0005, downgrade_0005); (upgrade_0006, downgrade_0006);
   (upgrade_0007, downgrade_0007); (upgrade_0008, downgrade_0008); (upgrade_0009, downgrade_0009);
   (upgrade_0010, downgrade_0010)].

Fixpoint run_steps (l : list Step) (db : Database) : result Database :=
  match l with [] => Ok db | f :: l => db ← f db; run_steps l db end.

(** [alembic upgrade] from one revision to another, by position. *)
Definition upgrade (first last : nat) : Step := run_steps (take (last - first) (drop first (fst <$> REVISIONS))).
End revisions.

(** ** The models' schema (repositories/sql/models) *)

Definition agents_table : TableDef :=
  table [col "agent_id" (SString 128); col "name" (SString 255); col "owner" (SString 255);
         col "risk_tier" (SString 32); col "approved_tools" SJSON; col "created_at" SDateTime;
         col "updated_at" SDateTime] ["agent_id"] [] [] [].

Definition audit_events_table : TableDef :=
  with_indexes audit_indexes
    (table [col "event_id" (SString 64); col "session_id" (SString 128); col "agent_id" (SString 128);
            col "requested_tool_id" (SString 128); nullable_col "tool_id" (SString 128);
            nullable_col "tool_version" (SString 64); col "decision" (SString 32);
            col "timestamp" SDateTime; col "created_at" SDateTime] ["event_id"] [] [] [VERSION_CHECK]).

Definition agent_enforcement_state_table : TableDef :=
  table [col "agent_id" (SString 128); col "epoch" SBigInteger; col "current_status" (SString 32);
         nullable_col "suspended_at" SDateTime; nullable_col "suspension_reason" SText;
         nullable_col "enforcement_baseline_at" SDateTime; col "baseline_evidence_sequence" SBigInteger;
         mkColumn "baseline_agent_sequence" SBigInteger false (Some "0");
         mkColumn "recovery_generation" SBigInteger false (Some "0");
         nullable_col "last_transition_at" SDateTime; col "updated_at" SDateTime] ["agent_id"] [to_agents] []
    [EPOCH_CHECK; EVIDENCE_CHECK "baseline_evidence_sequence"; AGENT_CHECK; GENERATION_CHECK].

Definition agent_enforcement_transitions_table : TableDef :=
  with_indexes [("idx_enforcement_transitions_agent_time", ["agent_id"; "occurred_at"])]
    (table [col "transition_id" (SString 64); col "agent_id" (SString 128); col "epoch" SBigInteger;
            col "action" (SString 32); col "actor" (SString 255); col "reason" SText;
            col "previous_status" (SString 32); col "new_status" (SString 32);
            nullable_col "trigger_session_id" (SString 128); nullable_col "trigger_risk_level" (SString 32);
            nullable_col "trigger_risk_score" SInteger; nullable_col "trigger_finding_ids" SJSON;
            col "occurred_at" SDateTime] ["transition_id"] [to_agents] [] []).

Definition agent_sequence_counters_table : TableDef :=
  table [col "agent_id" (SString 128); col "current_sequence" SBigInteger; col "updated_at" SDateTime]
    ["agent_id"] [to_agents] [] [mkCheck "chk_agent_seq_counter_non_negative" (CkAtLeast "current_sequence" 0)].

Definition sessions_table : TableDef :=
  with_indexes [("idx_sessions_agent_status", ["agent_id"; "status"])]
    (table [col "session_id" (SString 128); col "agent_id" (SString 128); col "status" (SString 32);
            col "next_session_sequence" SBigInteger; col "created_at" SDateTime;
            nullable_col "last_activity_at" SDateTime; col "updated_at" SDateTime;
            nullable_col "ended_at" SDateTime; nullable_col "ended_reason" (SString 255)]
       ["session_id"] [to_agents] [] [mkCheck "chk_sessions_next_seq_positive" (CkAbove "next_session_sequence" 0)]).

Definition tool_families_table : TableDef :=
  table [col "tool_id" (SString 128); col "created_at" SDateTime] ["tool_id"] [] [] [].

Definition tools_table : TableDef :=
  table [col "tool_id" (SString 128); col "version" (SString 64); col "governance_enabled" SBoolean;
         col "risk_level" (SString 32); col "metadata_payload" SJSON; col "created_at" SDateTime]
    ["tool_id"; "version"] [to_tool "tool_families"] [] [].

Definition approval_continuations_table : TableDef :=
  with_indexes [("idx_approval_continuations_agent_state", ["agent_id"; "state"]);
                ("idx_approval_continuations_expiry", ["expires_at"; "state"])]
    (table [col "grant_id" (SString 64); col "session_id" (SString 128); col "agent_id" (SString 128);
            col "tool_id" (SString 128); col "tool_version" (SString 64); col "execution_parameters" SJSON;
            col "originating_audit_event_id" (SString 64); col "risk_score" SInteger;
            col "required_response" (SString 64); col "enforcement_epoch" SBigInteger; col "state" (SString 32);
            col "created_at" SDateTime; col "expires_at" SDateTime; nullable_col "approved_by" (SString 255);
            nullable_col "consumed_at" SDateTime]
       ["grant_id"] [to_agents; to_sessions; to_version] [] []).

Definition session_events_model : TableDef :=
  mkTableDef
    [col "event_id" (SString 64); col "session_id" (SString 128); col "agent_id" (SString 128);
     col "tool_id" (SString 128); nullable_col "tool_version" (SString 64); col "sequence_number" SBigInteger;
     col "agent_sequence" SBigInteger; col "decision" (SString 32); nullable_col "final_decision" (SString 32);
     col "timestamp" SDateTime; col "created_at" SDateTime] ["event_id"] [to_agents; to_sessions]
    [("uq_session_events_session_sequence", ["session_id"; "sequence_number"]);
     ("uq_session_events_agent_sequence", ["agent_id"; "agent_sequence"])]
    [mkCheck "chk_session_events_seq_positive" (CkAbove "sequence_number" 0);
     mkCheck "chk_session_events_agent_seq_positive" (CkAbove "agent_sequence" 0)]
    [("idx_session_events_agent_horizon", ["agent_id"; "timestamp"; "agent_sequence"]);
     ("idx_session_events_session_horizon", ["session_id"; "timestamp"; "sequence_number"]);
     ("idx_session_events_timestamp_prune", ["timestamp"])].

Definition agent_administrative_state_table : TableDef :=
  table [col "agent_id" (SString 128); col "state" (SString 32); col "administrative_version" SBigInteger;
         nullable_col "last_transition_at" SDateTime; col "updated_at" SDateTime] ["agent_id"] [to_agents] []
    [mkCheck "chk_agent_administrative_state_value" (CkOneOf "state" STATES);
     mkCheck "chk_agent_administrative_version_positive" (CkAtLeast "administrative_version" 1)].

Definition agent_administrative_transitions_table : TableDef :=
  with_indexes [("idx_administrative_transitions_agent_time", ["agent_id"; "occurred_at"])]
    (table [col "transition_id" (SString 64); col "agent_id" (SString 128); col "action" (SString 32);
            col "actor_type" (SString 32); col "actor_id" (SString 255); col "reason" SText;
            nullable_col "previous_state" (SString 32); col "new_state" (SString 32);
            col "administrative_version_before" SBigInteger; col "administrative_version_after" SBigInteger;
            col "correlation_id" (SString 128); col "occurred_at" SDateTime] ["transition_id"] [to_agents]
       [("uq_agent_administrative_version_after", ["agent_id"; "administrative_version_after"])]
       [mkCheck "chk_administrative_transition_new_state" (CkOneOf "new_state" STATES);
        mkCheck "chk_administrative_transition_previous_state" (CkNullOrOneOf "previous_state" STATES);
        mkCheck "chk_administrative_transition_actor_type" (CkOneOf "actor_type" ACTORS);
        mkCheck "chk_administrative_transition_version_advance"
          (CkSuccessor "administrative_version_after" "administrative_version_before")]).

Definition administrative_audit_events_table : TableDef :=
  with_indexes [("idx_administrative_audit_agent_time", ["agent_id"; "occurred_at"])]
    (table [col "event_id" (SString 64); col "agent_id" (SString 128); col "attempted_action" (SString 32);
            col "actor_type" (SString 32); col "actor_id" (SString 255); col "refusal_code" (SString 64);
            col "reason" SText; nullable_col "observed_state" (SString 32); col "correlation_id" (SString 128);
            col "occurred_at" SDateTime] ["event_id"] [] []
       [mkCheck "chk_administrative_audit_actor_type" (CkOneOf "actor_type" ACTORS);
        mkCheck "chk_administrative_audit_observed_state" (CkNullOrOneOf "observed_state" STATES)]).

Definition model_schema : list (string * TableDef) :=
  [("agents", agents_table);
   ("audit_events", audit_events_table);
   ("agent_enforcement_state", agent_enforcement_state_table);
   ("agent_enforcement_transitions", agent_enforcement_transitions_table);
   ("agent_sequence_counters", agent_sequence_counters_table);
   ("sessions", sessions_table);
   ("tool_families", tool_families_table);
   ("tools", tools_table);
   ("approval_continuations", approval_continuations_table);
   ("session_events", session_events_model);
   ("agent_administrative_state", agent_administrative_state_table);
   ("agent_administrative_transitions", agent_administrative_transitions_table);
   ("administrative_audit_events", administrative_audit_events_table)].

(** ** What upgrades keep *)

(** The columns an upgrade rewrites, renames, adds or drops; every other cell is copied. *)
Definition TOUCHED : list string :=
  ["status"; "enforcement_baseline_sequence"; "baseline_evidence_sequence"; "baseline_agent_sequence";
   "recovery_generation"].

Definition row_kept (r r' : Row) : Prop := forall c, c ∉ TOUCHED -> cell c r' = cell c r.
Definition rows_kept : list Row -> list Row -> Prop := Forall2 row_kept.

(** The table of that name, or what 0006 renamed it to. *)
Definition known_as (name name' : string) : Prop :=
  name' = name \/ name = "execution_grants" /\ name' = "approval_continuations".

(** Every populated table is still there with every row. *)
Definition kept (db db' : Database) : Prop :=
  forall name t, dget name db = Some t -> dt_rows t <> [] ->
    exists name' t', known_as name name' /\ dget name' db' = Some t' /\ rows_kept (dt_rows t) (dt_rows t').

Lemma rows_kept_refl l : rows_kept l l.
Proof. induction l; by constructor. Qed.

Lemma rows_kept_trans l1 l2 l3 : rows_kept l1 l2 -> rows_kept l2 l3 -> rows_kept l1 l3.
Proof.
  intros H. revert l3. induction H as [|r1 r2 l1 l2 Hr _ IH]; intros l3 H3; inversion H3 as [|? r3 ? l3' Hr' Hl]; subst.
  - constructor.
  - constructor; [|by apply IH]. intros c Hc. by rewrite Hr', Hr.
Qed.

Lemma kept_refl db : kept db db.
Proof. intros name t Ht _. exists name, t. split; [by left|]. split; [done|apply rows_kept_refl]. Qed.

Lemma kept_trans db1 db2 db3 : kept db1 db2 -> kept db2 db3 -> kept db1 db3.
Proof.
  intros H12 H23 name t Ht Hne. destruct (H12 name t Ht Hne) as (n2 & t2 & K2 & Ht2 & R2).
  assert (dt_rows t2 <> []) as Hne2 by (intros E; rewrite E in R2; by inversion R2).
  destruct (H23 n2 t2 Ht2 Hne2) as (n3 & t3 & K3 & Ht3 & R3). exists n3, t3. split.
  - unfold known_as in *. destruct K2 as [->|[-> ->]], K3 as [->|[? ->]]; auto.
  - split; [done|]. by eapply rows_kept_trans.
Qed.

(** An operation that replaces one table's contents by rows it keeps. *)
Lemma kept_dset name t t' db :
  dget name db = Some t -> rows_kept (dt_rows t) (dt_rows t') -> kept db (dset name t' db).
Proof.
  intros Hn Hr other u Hu Hne. exists other. destruct (decide (other = name)) as [->|Hd].
  - exists t'. rewrite dget_dset_eq. simplify_eq. split; [by left|by split].
  - exists u. rewrite dget_dset_ne by done. split; [by left|]. split; [done|apply rows_kept_refl].
Qed.

Lemma kept_ddel name db : rows_of name db = [] -> kept db (ddel name db).
Proof.
  intros Hr other u Hu Hne. exists other, u. split; [by left|]. split; [|apply rows_kept_refl].
  rewrite dget_ddel. case_decide; [|done]. subst. unfold rows_of in Hr. by rewrite Hu in Hr.
Qed.

Section keeping.
Context {E : Engine}.

Lemma performed o db db' : perform o db = Ok db' -> effect o db = Some db'.
Proof. unfold perform. destruct (effect o db); [|done]. destruct (refusal _ _); [done|]. by intros [= <-]. Qed.

Lemma create_table_kept name d db db' : create_table name d db = Ok db' -> kept db db'.
Proof.
  intros Hp%performed. simpl in Hp. destruct (dhas name db) eqn:Hh; [done|]. injection Hp as <-.
  intros other u Hu Hne. exists other, u. split; [by left|]. split; [|apply rows_kept_refl].
  rewrite dget_dset_ne; [done|]. intros ->. apply dhas_false in Hh. congruence.
Qed.

Lemma on_table_kept f name db db' :
  (forall t t', f t = Some t' -> rows_kept (dt_rows t) (dt_rows t')) ->
  on_table f name db = Some db' -> kept db db'.
Proof.
  intros Hf. unfold on_table. destruct (dget name db) as [t|] eqn:Ht; [|done]. simpl.
  destruct (f t) as [t'|] eqn:Hft; [|done]. simpl. intros [= <-]. apply (kept_dset _ t); auto.
Qed.

Lemma on_def_kept f name db db' : on_def f name db = Some db' -> kept db db'.
Proof.
  apply on_table_kept. intros t t'. destruct (f (dt_def t)); [|done]. intros [= <-]. apply rows_kept_refl.
Qed.

Lemma drop_table_Ok name db db' : drop_table name db = Ok db' -> db' = ddel name db.
Proof. intros Hp%performed. simpl in Hp. destruct (negb _); [done|]. by injection Hp as <-. Qed.

Lemma rows_of_ddel name other db : rows_of other db = [] -> rows_of other (ddel name db) = [].
Proof. unfold rows_of. rewrite dget_ddel. by case_decide. Qed.

Lemma fold_steps_kept {A} (step : A -> Database -> result Database) l db db' :
  (forall a db db', step a db = Ok db' -> kept db db') ->
  fold_left (fun r a => db ← r; step a db) l (Ok db) = Ok db' -> kept db db'.
Proof.
  intros Hs. revert db. induction l as [|a l IH]; intros db; simpl; [intros [= <-]; apply kept_refl|].
  destruct (step a db) as [db1|e] eqn:H1.
  - intros Hl. eapply kept_trans; [by eapply Hs|]. by apply IH.
  - intros Hl. exfalso. revert Hl. clear. by induction l.
Qed.

Lemma create_indexes_kept name l db db' : create_indexes name l db = Ok db' -> kept db db'.
Proof. apply fold_steps_kept. intros i ? ? Hp%performed. by apply on_def_kept in Hp. Qed.

Lemma drop_indexes_kept name l db db' : drop_indexes name l db = Ok db' -> kept db db'.
Proof. apply fold_steps_kept. intros i ? ? Hp%performed. by apply on_def_kept in Hp. Qed.

Lemma renamed_lookup name new_name (db : Database) n t :
  dget n db = Some t -> dget new_name db = None ->
  exists t', dget (rename_to name new_name n)
      (List.map (fun '(m, u) =>
         (rename_to name new_name m,
          mkTable (with_foreign_keys (List.map (retarget name new_name) (tb_foreign_keys (dt_def u))) (dt_def u))
            (dt_rows u))) db) = Some t' /\
    dt_rows t' = dt_rows t.
Proof.
  induction db as [|[m u] db IH]; simpl; [done|]. intros Hn Hnew.
  assert (new_name <> m) as Hm by (intros ->; by rewrite decide_True in Hnew).
  rewrite decide_False in Hnew by done.
  destruct (decide (n = m)) as [->|Hnm].
  - simplify_eq. rewrite decide_True by done. by eexists.
  - rewrite decide_False; [by apply IH|]. unfold rename_to. repeat case_bool_decide; congruence.
Qed.

Lemma rename_grants_kept db db' : rename_table "execution_grants" "approval_continuations" db = Ok db' -> kept db db'.
Proof.
  intros Hp%performed. simpl in Hp. destruct (negb _ || _) eqn:Hh; [done|].
  apply orb_false_iff in Hh as [_ Hh%dhas_false]. injection Hp as <-. intros n t Hn _. destruct (renamed_lookup "execution_grants" _ db n t Hn Hh) as (t' & Ht' & Hr).
  eexists _, t'. split; [|split; [exact Ht'|rewrite Hr; apply rows_kept_refl]].
  unfold known_as, rename_to. case_bool_decide; auto.
Qed.

Definition op_columns (op : BatchOp) : list string :=
  match op with
  | AddColumn c => [col_name c]
  | RenameColumn o n => [o; n]
  | DropColumn n => [n]
  | AddCheck _ | DropCheck _ => []
  end.

Lemma cell_renamed o n c (r : Row) :
  c <> o -> c <> n -> cell c (List.map (fun '(k, v) => (rename_to o n k, v)) r) = cell c r.
Proof.
  intros Ho Hn. unfold cell. f_equal. induction r as [|[k v] r IH]; simpl; [done|].
  destruct (decide (k = o)) as [->|Hk].
  - replace (rename_to o n o) with n by (unfold rename_to; by rewrite bool_decide_true).
    rewrite !decide_False by done. exact IH.
  - replace (rename_to o n k) with k by (unfold rename_to; by rewrite bool_decide_false).
    case_decide; [done|exact IH].
Qed.

Lemma fmap_kept (f : Row -> Row) rows :
  (forall r, row_kept r (f r)) -> rows_kept rows (f <$> rows).
Proof. intros Hf. induction rows; constructor; auto. Qed.

Lemma batch_op_kept op t t' :
  Forall (fun c => c ∈ TOUCHED) (op_columns op) -> batch_op t op = Some t' -> rows_kept (dt_rows t) (dt_rows t').
Proof.
  intros Ht. unfold batch_op. destruct op as [c|o n|n|c|n]; simpl in Ht;
    rewrite ?Forall_cons in Ht; intros Hb; repeat (case_match; simplify_eq/=); try apply rows_kept_refl.
  - apply fmap_kept. intros r k Hk. unfold cell. rewrite dget_dset_ne; [done|]. intros ->. tauto.
  - apply (fmap_kept (List.map (fun '(k, v) => (rename_to o n k, v)))). intros r k Hk.
    apply cell_renamed; intros ->; tauto.
  - apply fmap_kept. intros r k Hk. unfold cell. rewrite dget_ddel. case_decide; [|done]. subst. tauto.
Qed.

Definition touches_only (ops : list BatchOp) : Prop :=
  Forall (fun op => Forall (fun c => c ∈ TOUCHED) (op_columns op)) ops.

Lemma batch_ops_kept ops t t' :
  touches_only ops -> batch_ops ops t = Some t' -> rows_kept (dt_rows t) (dt_rows t').
Proof.
  intros Ho. revert t. induction Ho as [|op ops Hop _ IH]; intros t; simpl; [intros [= <-]; apply rows_kept_refl|].
  destruct (batch_op t op) as [t1|] eqn:H1; [|done]. simpl. intros H2.
  eapply rows_kept_trans; [by eapply batch_op_kept|by apply IH].
Qed.

Lemma alter_table_kept name ops db db' : touches_only ops -> alter_table name ops db = Ok db' -> kept db db'.
Proof.
  intros Ho. revert db. induction Ho as [|op ops Hop _ IH]; intros db; simpl; [intros [= <-]; apply kept_refl|].
  destruct (perform _ db) as [db1|] eqn:H1; [|done]. simpl. intros H2.
  eapply kept_trans; [|by apply IH]. apply performed in H1. eapply on_table_kept, H1.
  intros t t'. by apply batch_op_kept.
Qed.

Lemma batch_kept name copy_from ops db db' :
  touches_only ops -> batch_alter_table name copy_from ops db = Ok db' -> kept db db'.
Proof.
  intros Ht. unfold batch_alter_table. destruct dialect; [|by apply alter_table_kept].
  destruct (dget name db) as [t|] eqn:Hn; [|done]. destruct (batch_ops _ _) as [t'|] eqn:Hb; [|done].
  intros Hp%performed. cbn [effect] in Hp. unfold on_table in Hp. rewrite Hn in Hp. simplify_eq/=.
  apply (kept_dset _ t); [done|]. by apply batch_ops_kept in Hb.
Qed.

Lemma initialize_generation_kept db db' : initialize_generation db = Ok db' -> kept db db'.
Proof.
  unfold initialize_generation. destruct (dget _ db) as [t|] eqn:Hn; [|done]. intros [= <-].
  apply (kept_dset _ t); [done|]. simpl. apply (fmap_kept (fun r => dset _ _ r)). intros r k Hk. unfold cell.
  rewrite dget_dset_ne; [done|]. intros ->. apply Hk. unfold TOUCHED. set_solver.
Qed.

Lemma guard_Ok l db db' :
  refuse_if_populated l db = Ok db' -> db' = db /\ Forall (fun n => rows_of n db = []) l.
Proof.
  unfold refuse_if_populated. destruct (existsb _ l) eqn:He; [done|]. intros [= <-]. split; [done|].
  apply Forall_forall. intros n Hn. destruct (rows_of n db) as [|r rs] eqn:Hr; [done|].
  apply not_true_iff_false in He. exfalso. apply He. apply existsb_exists. exists n.
  split; [by apply list_elem_of_In|]. by rewrite Hr.
Qed.
End keeping.

Create HintDb kept.
#[export] Hint Extern 1 (kept _ _) => eapply create_table_kept; eassumption : kept.
#[export] Hint Extern 1 (kept _ _) => eapply create_indexes_kept; eassumption : kept.
#[export] Hint Extern 1 (kept _ _) => eapply drop_indexes_kept; eassumption : kept.
#[export] Hint Extern 1 (kept _ _) => eapply rename_grants_kept; eassumption : kept.
#[export] Hint Extern 1 (kept _ _) => eapply initialize_generation_kept; eassumption : kept.

(** Split a revision into its operations. *)
Ltac steps_of H :=
  repeat match type of H with
         | (_ ← ?m; _) = Ok _ =>
             let E := fresh "Hstep" in destruct m as [?db|] eqn:E; [cbn [mbind result_bind] in H|discriminate H]
         end.

(** Run a sequence of operations whose results are known. *)
Ltac replay :=
  cbn [run_steps fmap list_fmap GUARDED_0004];
  repeat match goal with H : ?m = Ok _ |- context [mbind _ ?m] => rewrite H; cbn [mbind result_bind] end.

Ltac chain := repeat (eapply kept_trans; [solve [eauto with kept]|]); first [apply kept_refl|eauto with kept].

Section upgrades.
Context {E : Engine}.

Lemma create_grants_kept tool fk db db' : create_grants tool fk db = Ok db' -> kept db db'.
Proof. unfold create_grants. intros H. steps_of H. chain. Qed.

Lemma create_events_kept tool fks db db' : create_events tool fks db = Ok db' -> kept db db'.
Proof. unfold create_events. intros H. steps_of H. chain. Qed.
Hint Extern 1 (kept _ _) => eapply create_grants_kept; eassumption : kept.
Hint Extern 1 (kept _ _) => eapply create_events_kept; eassumption : kept.

(** Tables the guard found empty are dropped one after the other. *)
Lemma drops_kept l db db' :
  Forall (fun n => rows_of n db = []) l -> run_steps (drop_table <$> l) db = Ok db' -> kept db db'.
Proof.
  revert db. induction l as [|n l IH]; intros db Hr; csimpl; [intros [= <-]; apply kept_refl|].
  apply Forall_cons in Hr as [Hn Hl]. destruct (drop_table n db) as [db1|] eqn:Hd; [|done].
  apply drop_table_Ok in Hd as ->. cbn [mbind result_bind]. intros H.
  eapply kept_trans; [by apply kept_ddel|]. apply IH; [|done].
  eapply Forall_impl; [exact Hl|]. intros m. apply rows_of_ddel.
Qed.

Lemma upgrade_0001_kept db db' : upgrade_0001 db = Ok db' -> kept db db'.
Proof. unfold upgrade_0001. intros H. steps_of H. chain. Qed.

Lemma upgrade_0003_kept db db' : upgrade_0003 db = Ok db' -> kept db db'.
Proof.
  unfold upgrade_0003. intros H. steps_of H. apply guard_Ok in Hstep as [-> Hg].
  apply kept_trans with (db2 := db3); [|chain].
  apply (drops_kept ["session_events"; "execution_grants"; "tools"]).
  - unfold GUARDED_0003 in Hg. rewrite !Forall_cons in *. tauto.
  - by replay.
Qed.

Lemma migrate_0004_kept v db db' : migrate_0004 v db = Ok db' -> kept db db'.
Proof.
  unfold migrate_0004. intros H. steps_of H. apply guard_Ok in Hstep as [-> Hg].
  apply kept_trans with (db2 := db2); [|unfold create_grants_0004, create_events_0004 in *; destruct v; chain].
  apply (drops_kept GUARDED_0004); [done|]. by replay.
Qed.

Lemma migrate_0005_kept d db db' : migrate_0005 d db = Ok db' -> kept db db'.
Proof.
  unfold migrate_0005. intros H. steps_of H. apply guard_Ok in Hstep as [-> Hg].
  apply kept_trans with (db2 := db1); [|chain].
  apply (drops_kept ["audit_events"]); [done|]. by replay.
Qed.

Lemma upgrade_0006_kept db db' : upgrade_0006 db = Ok db' -> kept db db'.
Proof. unfold upgrade_0006. intros H. steps_of H. chain. Qed.

Lemma upgrade_0007_kept db db' : upgrade_0007 db = Ok db' -> kept db db'.
Proof.
  unfold upgrade_0007, rebuild_sqlite. destruct dialect; [apply batch_kept; constructor|].
  intros Hp%performed. by apply on_def_kept in Hp.
Qed.

Lemma upgrade_0008_kept db db' : upgrade_0008 db = Ok db' -> kept db db'.
Proof.
  unfold upgrade_0008. intros H. steps_of H. destruct (existsb _ _); [done|]. simplify_eq.
  eapply kept_trans; [|eauto with kept]. eapply batch_kept; [|done]. repeat constructor.
Qed.

Lemma upgrade_0010_kept db db' : upgrade_0010 db = Ok db' -> kept db db'.
Proof. unfold upgrade_0010. intros H. steps_of H. chain. Qed.

Lemma revision_kept up down db db' :
  (up, down) ∈ REVISIONS -> up db = Ok db' -> kept db db'.
Proof.
  unfold REVISIONS. rewrite !elem_of_cons, elem_of_nil. intros H.
  repeat (destruct H as [[= -> ->]|H]); [apply upgrade_0001_kept| |apply upgrade_0003_kept|
    apply migrate_0004_kept|apply migrate_0005_kept|apply upgrade_0006_kept|apply upgrade_0007_kept|
    apply upgrade_0008_kept| |apply upgrade_0010_kept|done];
    (apply batch_kept; by repeat constructor).
Qed.

End upgrades.

(** ** The schema the chain reaches *)

Definition same_members {A} `{EqDecision A} (l k : list A) : bool :=
  forallb (fun x => bool_decide (x ∈ k)) l && forallb (fun x => bool_decide (x ∈ l)) k.

(** Equal declarations, in whatever order: [f] is what is compared of a column. *)
Definition same_table (f : Column -> Column) (d e : TableDef) : bool :=
  same_members (f <$> tb_columns d) (f <$> tb_columns e) && bool_decide (tb_primary_key d = tb_primary_key e) &&
  same_members (tb_foreign_keys d) (tb_foreign_keys e) && same_members (tb_uniques d) (tb_uniques e) &&
  same_members (tb_checks d) (tb_checks e) && same_members (tb_indexes d) (tb_indexes e).

Definition same_schema (f : Column -> Column) (s s' : list (string * TableDef)) : bool :=
  bool_decide (length s = length s') &&
  forallb (fun '(n, d) => match dget n s' with Some e => same_table f d e | None => false end) s.

Definition schema_of (db : Database) : list (string * TableDef) := List.map (fun '(n, t) => (n, dt_def t)) db.

Definition without_default (c : Column) : Column := mkColumn (col_name c) (col_type c) (col_nullable c) None.

Definition unpopulated (db : Database) : Prop := Forall (fun '(_, t) => dt_rows t = []) db.

Definition recreates_empty (o : Operation) : Prop :=
  match o with Recreate _ after => dt_rows after = [] | _ => True end.

(** An engine that refuses nothing the schema has a place for while no table has a row. *)
Definition accepts_unpopulated (E : Engine) : Prop :=
  forall db o, unpopulated db -> recreates_empty o -> refusal db o = None.

(** From revision [k] up and down again. *)
Definition there_and_back {E : Engine} (k : nat) : option bool :=
  match upgrade 0 k [], (REVISIONS !! k : option (_ * _)) with
  | Ok db, Some (up, down) =>
      match (db1 ← up db; down db1) with
      | Ok db2 => Some (same_schema without_default (schema_of db) (schema_of db2))
      | Err _ => None
      end
  | _, _ => None
  end.

(** *** An engine and the one that never refuses *)

Lemma rows_of_unpopulated db name t : unpopulated db -> dget name db = Some t -> dt_rows t = [].
Proof.
  unfold unpopulated. induction db as [|[n u] db IH]; simpl; [done|]. rewrite Forall_cons. intros [Hu Hdb].
  case_decide; [by intros [= <-]|by apply IH].
Qed.

Lemma unpopulated_dset name t db : unpopulated db -> dt_rows t = [] -> unpopulated (dset name t db).
Proof.
  unfold unpopulated. induction db as [|[n u] db IH]; simpl; [by repeat constructor|].
  rewrite Forall_cons. intros [Hu Hdb] Ht. case_decide; constructor; auto.
Qed.

Lemma unpopulated_ddel name db : unpopulated db -> unpopulated (ddel name db).
Proof.
  unfold unpopulated. induction db as [|[n u] db IH]; simpl; [done|]. rewrite Forall_cons. intros [Hu Hdb].
  case_decide; [auto|]. constructor; auto.
Qed.

Lemma batch_op_unpopulated op t t' : batch_op t op = Some t' -> dt_rows t = [] -> dt_rows t' = [].
Proof.
  destruct t as [d rows]. unfold batch_op. simpl. intros Hb ->.
  destruct op; repeat (case_match; simplify_eq/=); done.
Qed.

Lemma batch_ops_unpopulated ops t t' : batch_ops ops t = Some t' -> dt_rows t = [] -> dt_rows t' = [].
Proof.
  revert t. induction ops as [|op ops IH]; intros t; simpl; [by intros [= <-]|].
  destruct (batch_op t op) as [t1|] eqn:H1; [|done]. simpl. intros H2 Ht.
  apply (IH t1); [done|]. by eapply batch_op_unpopulated.
Qed.

Lemma on_table_unpopulated f name db db' :
  (forall t t', f t = Some t' -> dt_rows t = [] -> dt_rows t' = []) ->
  on_table f name db = Some db' -> unpopulated db -> unpopulated db'.
Proof.
  intros Hf. unfold on_table. destruct (dget name db) as [t|] eqn:Ht; [|done]. simpl.
  destruct (f t) as [t'|] eqn:Hft; [|done]. simpl. intros [= <-] Hu.
  apply unpopulated_dset; [done|]. eapply Hf; [done|]. by eapply rows_of_unpopulated.
Qed.

Lemma on_def_unpopulated f name db db' : on_def f name db = Some db' -> unpopulated db -> unpopulated db'.
Proof.
  apply on_table_unpopulated. intros t t'. destruct (f (dt_def t)); [|done]. by intros [= <-].
Qed.

Lemma effect_unpopulated o db db' :
  recreates_empty o -> effect o db = Some db' -> unpopulated db -> unpopulated db'.
Proof.
  intros Ho. destruct o; simpl; try (by apply on_def_unpopulated).
  - destruct (dhas _ _); [done|]. intros [= <-] Hu. by apply unpopulated_dset.
  - destruct (negb _); [done|]. intros [= <-]. apply unpopulated_ddel.
  - destruct (_ || _); [done|]. intros [= <-]. unfold unpopulated. rewrite !Forall_forall.
    intros Hu [n t] Hin. apply list_elem_of_In, in_map_iff in Hin as ([n0 t0] & [= <- <-] & Hin).
    by apply (Hu (n0, t0)), list_elem_of_In.
  - apply on_table_unpopulated. intros t t'. apply batch_op_unpopulated.
  - apply on_table_unpopulated. by intros t t' [= <-].
Qed.

Section simulation.
Context (E : Engine).
Local Abbreviation P := (permissive dialect reflects_checks).

(** What the engine lets through the permissive one lets through, and with nothing stored the
    two answer alike. *)
Definition simulates (f g : Database -> result Database) : Prop :=
  (forall db db', f db = Ok db' -> g db = Ok db') /\
  (accepts_unpopulated E -> forall db, unpopulated db ->
     f db = g db /\ forall db', g db = Ok db' -> unpopulated db').

Lemma simulates_ok : simulates Ok Ok.
Proof. split; [done|]. intros _ db Hu. split; [done|]. by intros ? [= <-]. Qed.

Lemma simulates_same f :
  (forall db db', f db = Ok db' -> unpopulated db -> unpopulated db') -> simulates f f.
Proof. intros Hf. split; [done|]. intros _ db Hu. split; [done|]. intros db' Hd. by eapply Hf. Qed.

Lemma simulates_bind f g k l :
  simulates f g -> simulates k l -> simulates (fun db => db ← f db; k db) (fun db => db ← g db; l db).
Proof.
  intros [Hf1 Hf2] [Hk1 Hk2]. split.
  - intros db db'. destruct (f db) as [db1|] eqn:H1; [|done]. rewrite (Hf1 _ _ H1). apply Hk1.
  - intros Ha db Hu. destruct (Hf2 Ha db Hu) as [-> Hu1]. destruct (g db) as [db1|]; [|done].
    by apply Hk2, Hu1.
Qed.

Lemma simulates_perform d r o :
  recreates_empty o -> simulates (perform (E:=E) o) (perform (E:=permissive d r) o).
Proof.
  intros Ho. unfold perform. split.
  - intros db db'. destruct (effect o db); [|done]. by destruct (refusal (Engine:=E) _ _).
  - intros Ha db Hu. destruct (effect o db) as [db1|] eqn:He; [|done]. rewrite (Ha db o Hu Ho). simpl.
    split; [done|]. intros ? [= <-]. by eapply effect_unpopulated.
Qed.

Lemma simulates_alter d r name ops :
  simulates (alter_table (E:=E) name ops) (alter_table (E:=permissive d r) name ops).
Proof.
  induction ops as [|op ops IH]; [exact simulates_ok|].
  apply simulates_bind; [by apply simulates_perform|exact IH].
Qed.

Lemma simulates_batch d name copy_from ops :
  dialect (Engine:=E) = d ->
  simulates (batch_alter_table (E:=E) name copy_from ops)
    (batch_alter_table (E:=permissive d reflects_checks) name copy_from ops).
Proof.
  intros <-. unfold batch_alter_table. cbn [dialect permissive]. destruct (dialect (Engine:=E)).
  - split.
    + intros db db'. destruct (dget name db); [|done]. destruct (batch_ops _ _); [|done].
      unfold perform. destruct (effect _ db); [|done]. by destruct (refusal (Engine:=E) _ _).
    + intros Ha db Hu. destruct (dget name db) as [t|] eqn:Ht; [|done].
      destruct (batch_ops _ _) as [after|] eqn:Hb; [|done].
      apply simulates_perform; [|done|done]. apply batch_ops_unpopulated in Hb; [done|].
      exact (rows_of_unpopulated db name t Hu Ht).
  - apply simulates_alter.
Qed.

Lemma simulates_fold {A} (f g : A -> Database -> result Database) l :
  (forall a, simulates (f a) (g a)) ->
  forall f0 g0, simulates f0 g0 ->
  simulates (fun db => fold_left (fun r a => db ← r; f a db) l (f0 db))
            (fun db => fold_left (fun r a => db ← r; g a db) l (g0 db)).
Proof.
  intros Hs. induction l as [|a l IH]; intros f0 g0 H0; [exact H0|].
  apply (IH (fun db => db ← f0 db; f a db) (fun db => db ← g0 db; g a db)). by apply simulates_bind.
Qed.

Lemma simulates_indexes name l : simulates (create_indexes (E:=E) name l) (create_indexes (E:=P) name l).
Proof.
  apply (simulates_fold (fun i => create_index (E:=E) i.1 name i.2) (fun i => create_index (E:=P) i.1 name i.2) l).
  - intros i. by apply simulates_perform.
  - apply simulates_ok.
Qed.

Lemma simulates_drop_indexes name l : simulates (drop_indexes (E:=E) name l) (drop_indexes (E:=P) name l).
Proof.
  apply (simulates_fold (fun i => drop_index (E:=E) i name) (fun i => drop_index (E:=P) i name) l).
  - intros i. by apply simulates_perform.
  - apply simulates_ok.
Qed.

Lemma simulates_guard l : simulates (refuse_if_populated l) (refuse_if_populated l).
Proof. apply simulates_same. by intros db db' [-> _]%guard_Ok. Qed.

Lemma simulates_identities : simulates refuse_unregistered_identities refuse_unregistered_identities.
Proof.
  apply simulates_same. unfold refuse_unregistered_identities. intros db db'.
  destruct (existsb _ _); [done|]. by intros [= <-].
Qed.

Lemma simulates_generation : simulates initialize_generation initialize_generation.
Proof.
  apply simulates_same. unfold initialize_generation. intros db db'. destruct (dget _ db) as [t|] eqn:Ht; [|done].
  intros [= <-] Hu. apply unpopulated_dset; [done|]. simpl. by rewrite (rows_of_unpopulated _ _ _ Hu Ht).
Qed.

Lemma simulates_check :
  let f db := if existsb generation_exceeds_epoch (rows_of "agent_enforcement_state" db)
              then Err (OtherException "RuntimeError") else Ok db in simulates f f.
Proof.
  apply simulates_same. intros db db'. destruct (existsb _ _); [done|]. by intros [= <-].
Qed.

Ltac simulate :=
  repeat first
    [ apply simulates_indexes | apply simulates_drop_indexes | apply simulates_guard | apply simulates_identities
    | apply simulates_generation | apply simulates_check | apply simulates_batch; done
    | apply simulates_perform; exact I | apply simulates_bind ].

Lemma simulates_grants tool fk : simulates (create_grants (E:=E) tool fk) (create_grants (E:=P) tool fk).
Proof. unfold create_grants. simulate. Qed.

Lemma simulates_events tool fks : simulates (create_events (E:=E) tool fks) (create_events (E:=P) tool fks).
Proof. unfold create_events. simulate. Qed.

Lemma simulates_0004 v : simulates (migrate_0004 (E:=E) v) (migrate_0004 (E:=P) v).
Proof.
  unfold migrate_0004, create_grants_0004, create_events_0004.
  destruct v; simulate; first [apply simulates_grants|apply simulates_events].
Qed.

Lemma simulates_0007 :
  simulates (upgrade_0007 (E:=E)) (upgrade_0007 (E:=P)) /\ simulates (downgrade_0007 (E:=E)) (downgrade_0007 (E:=P)).
Proof.
  unfold upgrade_0007, downgrade_0007, rebuild_sqlite. cbn [dialect permissive].
  destruct (dialect (Engine:=E)) eqn:Hd; split; simulate.
Qed.

Definition simulates_both (r s : (Database -> result Database) * (Database -> result Database)) : Prop :=
  simulates r.1 s.1 /\ simulates r.2 s.2.

Lemma simulates_revisions : Forall2 simulates_both (REVISIONS (E:=E)) (REVISIONS (E:=P)).
Proof.
  unfold REVISIONS. repeat (apply Forall2_cons_2); [..|apply Forall2_nil_2]; split; cbn [fst snd];
    first [ apply simulates_0004 | apply simulates_0007
          | unfold upgrade_0001, downgrade_0001, upgrade_0002, downgrade_0002, upgrade_0003, downgrade_0003,
              upgrade_0005, downgrade_0005, migrate_0005, upgrade_0006, downgrade_0006, upgrade_0008, downgrade_0008,
              upgrade_0009, downgrade_0009, upgrade_0010, downgrade_0010;
            repeat first [progress simulate | apply simulates_grants | apply simulates_events] ].
Qed.

Lemma simulates_upgrade first last : simulates (upgrade (E:=E) first last) (upgrade (E:=P) first last).
Proof.
  unfold upgrade. assert (Forall2 simulates (fst <$> REVISIONS (E:=E)) (fst <$> REVISIONS (E:=P))) as Hl.
  { eapply Forall2_fmap_2, Forall2_impl; [apply simulates_revisions|]. by intros r s []. }
  apply (Forall2_drop _ _ _ first), (Forall2_take _ _ _ (last - first)) in Hl.
  induction Hl as [|f g l k Hf _ IH]; [apply simulates_ok|]. by apply simulates_bind.
Qed.

Lemma there_and_back_agrees k :
  accepts_unpopulated E -> there_and_back (E:=E) k = there_and_back (E:=P) k.
Proof.
  intros Ha. unfold there_and_back. destruct (simulates_upgrade 0 k) as [_ Hu].
  destruct (Hu Ha [] (Forall_nil_2 _)) as [-> Hemp]. destruct (upgrade (E:=P) 0 k []) as [db|]; [|done].
  pose proof (proj1 (Forall2_lookup _ _ _) simulates_revisions k) as Hk.
  inversion Hk as [[u1 d1] [u2 d2] [Hup Hdown]|]; [|done]. cbn [fst snd] in *.
  destruct (simulates_bind _ _ _ _ Hup Hdown) as [_ Hb]. by rewrite (proj1 (Hb Ha db (Hemp db eq_refl))).
Qed.
End simulation.

Lemma unpopulated_unreferenced name db : unpopulated db -> still_referenced name db = false.
Proof.
  intros Hu. apply not_true_iff_false. unfold still_referenced. rewrite existsb_exists.
  intros ([n t] & Hin & Ht). unfold unpopulated in Hu. rewrite Forall_forall in Hu.
  apply list_elem_of_In in Hin. specialize (Hu _ Hin). simpl in Hu. rewrite Hu in Ht.
  by rewrite andb_false_r in Ht.
Qed.

Lemma sqlite_accepts_unpopulated : accepts_unpopulated sqlite.
Proof.
  intros db o Hu Ho. destruct o; simpl; try done; rewrite unpopulated_unreferenced by done; [done|].
  simpl in Ho. by rewrite Ho.
Qed.



(** ** Witness: a populated database *)

Definition insert_rows (name : string) (rows : list Row) (db : Database) : Database :=
  match dget name db with
  | Some t => dset name (mkTable (dt_def t) (dt_rows t ++ rows)) db
  | None => db
  end.

Definition demo_agent_row : Row := [("agent_id", CText "agent-1"); ("name", CText "Local Agent"); ("status", CText "ACTIVE")].
Definition demo_state_row : Row :=
  [("agent_id", CText "agent-1"); ("epoch", CNum 2); ("enforcement_baseline_sequence", CNum 7)].
Definition demo_grant_row : Row :=
  [("grant_id", CText "g1"); ("agent_id", CText "agent-1"); ("session_id", CText "s1"); ("tool_id", CText "file_read");
   ("tool_version", CText "1.0.0"); ("state", CText "PENDING")].
Definition demo_ledger : list Row :=
  [[("transition_id", CText "t1"); ("agent_id", CText "agent-1"); ("action", CText "SUSPEND")];
   [("transition_id", CText "t2"); ("agent_id", CText "agent-1"); ("action", CText "REINSTATE")]].

(** The state of an enforced agent entered at 0001, the grant at 0005. *)
Definition demo_database : Database :=
  match (db ← upgrade (E:=sqlite) 0 1 [];
         db ← upgrade (E:=sqlite) 1 5
                (insert_rows "agent_enforcement_transitions" demo_ledger
                   (insert_rows "agent_enforcement_state" [demo_state_row] (insert_rows "agents" [demo_agent_row] db)));
         Ok (insert_rows "execution_grants" [demo_grant_row]
               (insert_rows "sessions" [[("session_id", CText "s1"); ("agent_id", CText "agent-1")]] db))) with
  | Ok db => db
  | Err _ => []
  end.

Definition demo_migrated : Database :=
  match upgrade (E:=sqlite) 5 8 demo_database with Ok db => db | Err _ => [] end.


(** The next revision rebuilds [agents] and SQLite, with foreign keys enforced, refuses: the
    enforcement state refers to the rows it would delete. *)
Lemma populated_agents_stop_0009 :
  upgrade (E:=sqlite) 8 9 demo_migrated = Err IntegrityError.
Proof. vm_compute. reflexivity. Qed.
