(* ===== verification/GenerationMigration.v ===== *)
(** * The recovery generation after revision 0008

    [0008_recovery_generation_allocator.py] gives the rows of [agent_enforcement_state] an
    allocator position counted from the ledger.  Over the tables of any history of the agent
    service it writes the generation the service itself would hold, and its integrity check
    has nothing to refuse. *)
From S2P Require Import Prelude PyDict Models Lifecycle Planes Agents SqlStore SqlPlanes Schema Migrations.
Local Open Scope Z_scope.

(** The two tables as revision 0007 holds them, for the repository [r]. *)
Record enforcement_tables (db : Database) (r : InMemoryEnforcementStateRepository) : Prop := {
  et_states : Forall (fun row => exists a s, cell "agent_id" row = CText a /\ er_states r !! a = Some s /\
                                   cell "epoch" row = CNum (es_epoch s))
                (rows_of "agent_enforcement_state" db);
  et_ledger : Forall2 (fun row t => cell "agent_id" row = CText (et_agent_id t) /\
                                    cell "action" row = CText (enum_value (et_action t)))
                (rows_of "agent_enforcement_transitions" db) (er_transitions r);
}.

(** What a replayable ledger counts. *)
Lemma replay_counts a l b e g :
  enf_replay a l = Some (b, e, g) ->
  g = count (fun t => bool_decide (et_agent_id t = a) && bool_decide (et_action t = REINSTATE)) l /\ 0 <= g <= e.
Proof.
  revert b e g. induction l as [|t l IH] using rev_ind; intros b e g; [by intros [= <- <- <-]|].
  rewrite enf_replay_snoc, count_app, count_cons, count_nil. case_decide as Ha.
  - rewrite bool_decide_true by done. destruct (enf_replay a l) as [[[b' e'] g']|]; [|done].
    destruct (IH _ _ _ eq_refl) as [-> ?]. simpl.
    destruct (et_action t), b'; try done; intros [= <- <- <-]; simpl; lia.
  - rewrite bool_decide_false by done. simpl. intros H. destruct (IH _ _ _ H). lia.
Qed.

Lemma recorded_counts a rows l :
  Forall2 (fun row t => cell "agent_id" row = CText (et_agent_id t) /\
                        cell "action" row = CText (enum_value (et_action t))) rows l ->
  recorded_reinstatements (CText a) rows =
  count (fun t => bool_decide (et_agent_id t = a) && bool_decide (et_action t = REINSTATE)) l.
Proof.
  unfold recorded_reinstatements. induction 1 as [|row t rows l [Ha Hact] _ IH]; [done|].
  rewrite !count_cons, IH, Ha, Hact. f_equal.
  replace (bool_decide (CText (et_agent_id t) = CText a)) with (bool_decide (et_agent_id t = a))
    by (apply bool_decide_ext; split; [by intros ->|by intros [= ->]]).
  by destruct (et_action t).
Qed.

Section revision_0008.
Context {E : Engine}.

Lemma column_added t t' :
  batch_ops [AddColumn generation_column; AddCheck GENERATION_CHECK] t = Some t' ->
  dt_rows t' = dset "recovery_generation" (CNum 0) <$> dt_rows t.
Proof.
  cbn [batch_ops batch_op]. destruct (has_column _ _); [done|].
  replace (server_value generation_column) with (Some (CNum 0)) by (vm_compute; reflexivity).
  cbn [mbind option_bind dt_def dt_rows]. destruct (has_check _ _); [done|]. by intros [= <-].
Qed.

Lemma alter_table_ops name ops db db' t :
  dget name db = Some t -> alter_table name ops db = Ok db' ->
  exists t', batch_ops ops t = Some t' /\ dget name db' = Some t' /\
    forall other, other <> name -> dget other db' = dget other db.
Proof.
  revert db t. induction ops as [|op ops IH]; intros db t Ht; simpl; [intros [= <-]; by exists t|].
  destruct (perform _ db) as [db1|] eqn:Hp; [|done]. apply performed in Hp. cbn [effect] in Hp.
  unfold on_table in Hp. rewrite Ht in Hp. cbn [mbind option_bind] in Hp.
  destruct (batch_op t op) as [t1|] eqn:Hop; [|done]. injection Hp as <-. cbn [mbind option_bind result_bind].
  intros (t' & Hb & Ht' & Hother)%(IH _ t1); [|by rewrite dget_dset_eq]. exists t'. split; [done|]. split; [done|].
  intros other Ho. rewrite Hother by done. by apply dget_dset_ne.
Qed.

(** The batch operation of the revision, where it succeeds. *)
Lemma generation_column_added db db1 :
  batch_alter_table "agent_enforcement_state" None [AddColumn generation_column; AddCheck GENERATION_CHECK] db = Ok db1 ->
  rows_of "agent_enforcement_state" db1 =
    dset "recovery_generation" (CNum 0) <$> rows_of "agent_enforcement_state" db /\
  rows_of "agent_enforcement_transitions" db1 = rows_of "agent_enforcement_transitions" db /\
  is_Some (dget "agent_enforcement_state" db1).
Proof.
  unfold batch_alter_table, rows_of. destruct (dget "agent_enforcement_state" db) as [t|] eqn:Ht.
  2: { destruct dialect; [done|]. cbn [alter_table]. unfold perform. cbn [effect]. unfold on_table. by rewrite Ht. }
  destruct dialect.
  - destruct (batch_ops _ _) as [t'|] eqn:Hb; [|done]. intros Hp%performed. cbn [effect] in Hp.
    unfold on_table in Hp. rewrite Ht in Hp. injection Hp as <-.
    rewrite dget_dset_eq, dget_dset_ne by done. apply column_added in Hb. split_and!; [exact Hb|done|by eexists].
  - intros (t' & Hb & -> & Hother)%(alter_table_ops _ _ _ _ t); [|done]. rewrite Hother by done.
    apply column_added in Hb. split_and!; [exact Hb|done|by eexists].
Qed.

Lemma cell_dset c v (r : Row) : cell c (dset c v r) = v.
Proof. unfold cell. by rewrite dget_dset_eq. Qed.

Lemma cell_dset_ne c c' v (r : Row) : c <> c' -> cell c (dset c' v r) = cell c r.
Proof. intros Hc. unfold cell. by rewrite dget_dset_ne. Qed.

(** What the state of an agent is the replay of. *)
Lemma enforced_replay cs a s :
  er_states (aw_enf (run_calls cs empty_world)) !! a = Some s -> exists b,
  enf_replay a (er_transitions (aw_enf (run_calls cs empty_world))) = Some (b, es_epoch s, es_recovery_generation s).
Proof.
  intros Ha. pose proof (inv_enf _ (run_calls_inv cs empty_world empty_world_inv) a) as Hi.
  unfold enf_view, enf_ledger in Hi. simpl in Hi. rewrite Ha in Hi. by eexists.
Qed.

(** The row a state has after the revision. *)
Lemma initialized_row a s e g row b :
  cell "agent_id" row = CText a -> cell "epoch" row = CNum (es_epoch s) ->
  enf_replay a e = Some (b, es_epoch s, es_recovery_generation s) ->
  g = count (fun t => bool_decide (et_agent_id t = a) && bool_decide (et_action t = REINSTATE)) e ->
  let row' := dset "recovery_generation" (CNum g) (dset "recovery_generation" (CNum 0) row) in
  cell "agent_id" row' = CText a /\ cell "recovery_generation" row' = CNum (es_recovery_generation s) /\
  generation_exceeds_epoch row' = false.
Proof.
  intros Ha He Hr ->. apply replay_counts in Hr as [-> Hle]. cbv zeta.
  unfold generation_exceeds_epoch. rewrite cell_dset, !cell_dset_ne, He by done. split_and!; [done|done|].
  apply Z.ltb_ge. lia.
Qed.

(** The generations the revision writes. *)
Lemma generations_written (r : InMemoryEnforcementStateRepository) db :
  enforcement_tables db r ->
  (forall a s, er_states r !! a = Some s -> exists b,
     enf_replay a (er_transitions r) = Some (b, es_epoch s, es_recovery_generation s)) ->
  Forall (fun row' => (exists a s, cell "agent_id" row' = CText a /\ er_states r !! a = Some s /\
            cell "recovery_generation" row' = CNum (es_recovery_generation s)) /\ generation_exceeds_epoch row' = false)
    (List.map (fun row => dset "recovery_generation" (CNum (recorded_reinstatements (cell "agent_id" row)
       (rows_of "agent_enforcement_transitions" db))) row)
      (dset "recovery_generation" (CNum 0) <$> rows_of "agent_enforcement_state" db)).
Proof.
  intros [Hs Hl] Hreplay. apply Forall_forall. intros row' Hin.
  apply list_elem_of_In, in_map_iff in Hin as (row0 & <- & Hin).
  apply list_elem_of_In, list_elem_of_fmap in Hin as (row & -> & Hin).
  rewrite Forall_forall in Hs. destruct (Hs row Hin) as (a & s & Ha & Hst & He).
  destruct (Hreplay a s Hst) as [b Hb]. rewrite (cell_dset_ne "agent_id" _ (CNum 0)), Ha by done.
  rewrite (recorded_counts a _ _ Hl).
  destruct (initialized_row a s _ _ row b Ha He Hb eq_refl) as (H1' & H2' & H3'). split; [by exists a, s|done].
Qed.

(** C26. Revision 0008 restores the recovery generation.  Take the enforcement tables of any
    history of the agent service, as revision 0007 holds them, and any database engine: the
    revision never refuses them as inconsistent (it fails only where the engine fails the
    batch operation), and when it runs, every agent's row holds exactly the generation the
    service's own state holds, so the allocator continues where the derivation it replaces
    stood. *)
Theorem generation_restored (cs : list AgentCall) (db : Database) :
  enforcement_tables db (aw_enf (run_calls cs empty_world)) ->
  match upgrade_0008 db with
  | Ok db' =>
      Forall (fun row => exists a s, cell "agent_id" row = CText a /\
                er_states (aw_enf (run_calls cs empty_world)) !! a = Some s /\
                cell "recovery_generation" row = CNum (es_recovery_generation s))
        (rows_of "agent_enforcement_state" db') /\
      length (rows_of "agent_enforcement_state" db') = length (rows_of "agent_enforcement_state" db)
  | Err e =>
      batch_alter_table "agent_enforcement_state" None
        [AddColumn generation_column; AddCheck GENERATION_CHECK] db = Err e
  end.
Proof.
  intros Ht. pose proof (generations_written _ db Ht (enforced_replay cs)) as Hall. clear Ht.
  unfold upgrade_0008. destruct (batch_alter_table _ _ _ _) as [db1|e] eqn:Hb; [|done].
  apply generation_column_added in Hb as (Hrows & Hledger & [t1 Ht1]).
  cbn [mbind result_bind]. unfold initialize_generation. rewrite Ht1. cbn [mbind result_bind].
  assert (dt_rows t1 = rows_of "agent_enforcement_state" db1) as Hr1 by (unfold rows_of; by rewrite Ht1).
  rewrite Hledger, Hr1, Hrows. unfold rows_of at 1. rewrite dget_dset_eq. cbn [dt_rows].
  destruct (existsb _ _) eqn:Hx.
  - exfalso. apply existsb_exists in Hx as (row & Hin & Hrow). apply list_elem_of_In in Hin.
    rewrite Forall_forall in Hall. by rewrite (proj2 (Hall row Hin)) in Hrow.
  - unfold rows_of at 1 3. rewrite dget_dset_eq. cbn [dt_rows]. split.
    + eapply Forall_impl; [exact Hall|]. by intros row [? _].
    + unfold rows_of at 1. rewrite dget_dset_eq. cbn [dt_rows]. by rewrite length_map, length_fmap.
Qed.
End revision_0008.

(** ** Witness: a suspension lifted once *)

Definition recovered_history : list AgentCall :=
  [CRegister (sample_agent "a") operator None (env_at 1 "u1");
   CActivate "a" operator "ready" None (env_at 2 "u2");
   CSuspend "a" "risk" None (env_at 3 "u3");
   CReinstate "a" "op-1" "reviewed" None (env_at 4 "u4")]%string.

Definition tables_0007 : Database :=
  match upgrade (E:=sqlite) 0 7 [] with
  | Ok db =>
      insert_rows "agents" [[("agent_id", CText "a")]]%string
        (insert_rows "agent_enforcement_transitions"
           [[("agent_id", CText "a"); ("action", CText "SUSPEND")];
            [("agent_id", CText "a"); ("action", CText "REINSTATE")]]%string
           (insert_rows "agent_enforcement_state" [[("agent_id", CText "a"); ("epoch", CNum 2)]]%string db))
  | Err _ => []
  end.

Lemma recovered_tables : enforcement_tables tables_0007 (aw_enf (run_calls recovered_history empty_world)).
Proof.
  split.
  - repeat constructor. exists "a"%string.
    destruct (er_states (aw_enf (run_calls recovered_history empty_world)) !! "a"%string) as [s|] eqn:Hs;
      [|vm_compute in Hs; discriminate Hs].
    exists s. split; [done|]. split; [done|]. vm_compute in Hs. injection Hs as <-. vm_compute. reflexivity.
  - vm_compute. repeat constructor.
Qed.

Lemma generation_restored_witness :
  is_ok (upgrade_0008 (E:=sqlite) tables_0007) = true /\
  match upgrade_0008 (E:=sqlite) tables_0007 with
  | Ok db' =>
      Forall (fun row => exists a s, cell "agent_id" row = CText a /\
                er_states (aw_enf (run_calls recovered_history empty_world)) !! a = Some s /\
                cell "recovery_generation" row = CNum (es_recovery_generation s))
        (rows_of "agent_enforcement_state" db') /\
      length (rows_of "agent_enforcement_state" db') = length (rows_of "agent_enforcement_state" tables_0007)
  | Err e =>
      batch_alter_table (E:=sqlite) "agent_enforcement_state" None
        [AddColumn generation_column; AddCheck GENERATION_CHECK] tables_0007 = Err e
  end.
Proof.
  split; [vm_compute; reflexivity|].
  exact (generation_restored (E:=sqlite) recovered_history tables_0007 recovered_tables).
Defined.
