(* ===== verification/Defaults.v ===== *)
(** * The runtime's own defaults

    [RuntimeService.create_default], which composes a runtime from the shared services of the
    process, and the registration helpers the class still carries beside the bootstrap
    ([_register_default_agent], [_register_default_tools], [_create_filesystem_tool] of
    [services/runtime_service.py]). *)
From S2P Require Import Prelude PyDict Models Lifecycle Planes Agents ToolPlane Binding Authority Paths.
From S2P Require Import Capabilities CapabilityModels Findings Risk Sessions Detection AuditTrail Runtime Bootstrap.
Local Open Scope Z_scope.

Definition create_filesystem_tool (tid name description required_permission : string) : Tool :=
  mkTool (filesystem_metadata tid name description required_permission).

Definition helper_register_tools : Comp ToolRepo unit :=
  _ ← register_tool (create_filesystem_tool "file_read" "File Read" "Read files from the workspace" "files:read");
  _ ← register_tool (create_filesystem_tool "directory_list" "Directory List" "List files in the workspace" "files:list");
  mret tt.

Section defaults.
Context (fs_resolve : Path -> result Path) (path_is_dir : Path -> bool) (realpath : Path -> result Path)
        (tool_workspace : BaseTool -> option string).
Context {RA RE : Type} `{AdministrativeStateRepository RA} `{EnforcementStateRepository RE}.
Context {Tel : Type}.
Local Abbreviation World := (RuntimeWorld (RA:=RA) (RE:=RE) (Tel:=Tel)).
Local Abbreviation Stores := (PlatformStores (RA:=RA) (RE:=RE)).

Definition helper_register_agent (a : string) (env1 env2 : CallEnv) : Comp (AgentWorld RA RE) unit :=
  _ ← register_and_activate_agent (default_agent a) BOOTSTRAP_ACTOR None env1 env2; mret tt.

(** The singletons of [api/dependencies.py] a default runtime shares with the process. *)
Record SharedServices := mkShared {
  sh_agents : AgentWorld RA RE;
  sh_registry : ToolRegistry;
  sh_sessions : SessionRepo;
  sh_retention : option DetectionRetentionPolicy;
  sh_audit : AuditLog;
  sh_detection : pydict string DetectionRule;
  sh_findings : FindingsService;
  sh_risk : RiskAggregator;
}.

(** [RuntimeService.create_default]: the shared stores, and tool configuration of its own. *)
Definition create_default (no_telemetry : Tel) (shared : SharedServices) (a : string) (telemetry : option Tel)
    (authority : option ExecutionAuthority) (new_authority : result ExecutionAuthority) (env1 env2 : CallEnv)
    : Stores * result (RuntimeConfig * World) :=
  bootstrap_runtime_service fs_resolve path_is_dir realpath tool_workspace no_telemetry
    (mkBootstrapArgs a (Some (sh_sessions shared)) (sh_audit shared) (sh_detection shared)
       (Some (sh_findings shared)) (Some (sh_risk shared)) authority new_authority telemetry
       DEFAULT_EXCESSIVE_DENIALS_WINDOW (sh_retention shared))
    env1 env2 (mkStores (sh_agents shared) [] (sh_registry shared)).
End defaults.

(** ** The helpers beside the bootstrap *)

(** The versions the helpers register. *)
Definition default_tools_absent (r : ToolRepo) : Prop :=
  toolrepo_get "file_read" "1.0.0" r = None /\ toolrepo_get "directory_list" "1.0.0" r = None.

Lemma helper_tools_absent r :
  default_tools_absent r ->
  helper_register_tools r =
    (toolrepo_save (mkTool directory_list_metadata) (toolrepo_save (mkTool file_read_metadata) r), Ok tt).
Proof.
  intros [H1 H2]. unfold helper_register_tools, mbind, comp_bind, register_tool.
  change (toolrepo_get (tool_id (create_filesystem_tool "file_read" "File Read" "Read files from the workspace"
    "files:read")) _ r) with (toolrepo_get "file_read" "1.0.0" r). rewrite H1.
  match goal with |- context [toolrepo_get _ _ (toolrepo_save ?t r)] =>
    replace (toolrepo_get _ _ (toolrepo_save t r)) with (toolrepo_get "directory_list" "1.0.0" r) end; [by rewrite H2|].
  unfold toolrepo_get, toolrepo_save. by rewrite dget_dset_ne.
Qed.

Lemma helper_tools_present r :
  ~ default_tools_absent r -> (helper_register_tools r).2 = Err ToolAlreadyExistsError.
Proof.
  intros Hn. unfold helper_register_tools, mbind, comp_bind, register_tool.
  change (toolrepo_get (tool_id (create_filesystem_tool "file_read" "File Read" "Read files from the workspace"
    "files:read")) _ r) with (toolrepo_get "file_read" "1.0.0" r).
  destruct (toolrepo_get "file_read" "1.0.0" r) eqn:H1; [done|].
  match goal with |- context [toolrepo_get _ _ (toolrepo_save ?t r)] =>
    replace (toolrepo_get _ _ (toolrepo_save t r)) with (toolrepo_get "directory_list" "1.0.0" r) end.
  - destruct (toolrepo_get "directory_list" "1.0.0" r) eqn:H2; [done|]. by destruct Hn.
  - unfold toolrepo_get, toolrepo_save. by rewrite dget_dset_ne.
Qed.

Lemma absent_family tid v r : family_exists tid r = false -> toolrepo_get tid v r = None.
Proof.
  intros Hf. destruct (toolrepo_get tid v r) as [t|] eqn:Hg; [|done].
  apply dget_elem in Hg. apply not_true_iff_false in Hf. exfalso. apply Hf, family_exists_elem. eauto.
Qed.

Lemma default_tool_registered md r :
  family_exists (tool_id (mkTool md)) r = false ->
  register_default_tool md r = (toolrepo_save (mkTool md) r, Ok tt).
Proof.
  intros Hf. unfold register_default_tool, mbind, comp_bind, register_tool. rewrite Hf. by rewrite absent_family.
Qed.

(** Running the helper leaves a default version, whatever it finds. *)
Lemma helper_tools_leave r : ~ default_tools_absent (helper_register_tools r).1.
Proof.
  destruct (toolrepo_get "file_read" "1.0.0" r) as [t|] eqn:H1.
  - intros [H2 _]. unfold helper_register_tools, mbind, comp_bind, register_tool in H2.
    change (toolrepo_get (tool_id (create_filesystem_tool "file_read" "File Read" "Read files from the workspace"
      "files:read")) _ r) with (toolrepo_get "file_read" "1.0.0" r) in H2. rewrite H1 in H2. simpl in H2. congruence.
  - destruct (toolrepo_get "directory_list" "1.0.0" r) as [t|] eqn:H2.
    + intros [_ H3]. unfold helper_register_tools, mbind, comp_bind, register_tool in H3.
      change (toolrepo_get (tool_id (create_filesystem_tool "file_read" "File Read" "Read files from the workspace"
        "files:read")) _ r) with (toolrepo_get "file_read" "1.0.0" r) in H3. rewrite H1 in H3.
      revert H3. match goal with |- context [toolrepo_get _ _ (toolrepo_save ?t r)] =>
        set (saved := toolrepo_save t r) end.
      assert (toolrepo_get "directory_list" "1.0.0" saved = Some t) as Hs.
      { unfold toolrepo_get, saved, toolrepo_save. by rewrite dget_dset_ne. }
      match goal with |- context [match toolrepo_get ?a ?b saved with _ => _ end] =>
        change (toolrepo_get a b saved) with (toolrepo_get "directory_list" "1.0.0" saved) end.
      rewrite Hs. simpl. congruence.
    + rewrite helper_tools_absent by done. intros [_ H3]. cbn [fst] in H3.
      unfold toolrepo_get, toolrepo_save at 1 in H3.
      change ("directory_list"%string, "1.0.0"%string) with (tool_identity (mkTool directory_list_metadata)) in H3.
      by rewrite dget_dset_eq in H3.
Qed.

(** The helpers and the bootstrap register the same tools where neither family exists; but
    the bootstrap leaves a default that exists, and the helpers cannot be run twice. *)
Theorem helpers_register_once r :
  (family_exists "file_read" r = false -> family_exists "directory_list" r = false ->
     helper_register_tools r =
     (_ ← register_default_tool file_read_metadata; register_default_tool directory_list_metadata) r) /\
  (helper_register_tools (helper_register_tools r).1).2 = Err ToolAlreadyExistsError.
Proof.
  split; [|apply helper_tools_present, helper_tools_leave]. intros H1 H2.
  rewrite helper_tools_absent by (split; by apply absent_family).
  unfold mbind, comp_bind. rewrite (default_tool_registered file_read_metadata) by done.
  by rewrite (default_tool_registered directory_list_metadata) 
    by (rewrite family_exists_saved; exact (f_equal (orb false) H2)).
Qed.

(** ** Default runtimes *)

Section sharing.
Context (fs_resolve : Path -> result Path) (path_is_dir : Path -> bool) (realpath : Path -> result Path)
        (tool_workspace : BaseTool -> option string).
Context {RA RE : Type} `{AdministrativeContract RA} `{EnforcementContract RE}.
Context {Tel : Type}.

(** A default runtime reads and writes the evidence, sessions, posture and audit trail of the
    process, has every default tool in its own configuration, and leaves the agents and the
    executables of the process as they were. *)
Theorem default_runtime_is_shared (no_tel : Tel) (shared : SharedServices (RA:=RA) (RE:=RE)) a tel auth new
    env1 env2 s' cfg w :
  create_default fs_resolve path_is_dir realpath tool_workspace no_tel shared a tel auth new env1 env2
    = (s', Ok (cfg, w)) ->
  rw_sessions w = sh_sessions shared /\ rw_findings w = sh_findings shared /\ rw_risk w = sh_risk shared /\
  rw_audit w = sh_audit shared /\ rc_rules cfg = registry_rules (sh_detection shared) /\
  rw_agents w = ps_agents s' /\ agents_kept (sh_agents shared) (ps_agents s') /\
  rw_registry w = Some (ps_registry s') /\ families_kept (sh_registry shared) (ps_registry s') /\
  family_exists "file_read" (rw_tools w) = true /\ family_exists "directory_list" (rw_tools w) = true.
Proof.
  unfold create_default. intros Hb. apply bootstrap_cases in Hb as (ags & y & Ha & Hcase). simpl in Ha.
  apply default_agent_cases in Ha.
  assert (agents_kept (sh_agents shared) ags) as Hk by (destruct Ha as [[Hs _]|(_ & Hk & _)]; [by apply aw_same_kept|done]).
  destruct Hcase as [(e & _ & ? & _)|(_ & r & g & z & Ht & -> & Hx)]; [done|].
  destruct (Hx cfg w eq_refl) as (-> & sessions & window & authority & Hss & _ & Hc).
  apply default_tools_cases in Ht as (_ & Kf & Hz). destruct (Hz eq_refl) as (F1 & F2 & _).
  unfold composed, new_runtime_service in Hc. simpl in Hc.
  destruct (derive_profiles _ _ g _ []) as [caps|]; [|done]. injection Hc as <- <-. injection Hss as <-. simpl. by split_and!.
Qed.
End sharing.
