(* ===== verification/Probes.v ===== *)
(** * The isolation probes

    [runtime/sandbox/testing_registry.py]: the handlers the isolation tests run inside the
    child, with both guards active, and their registration, which is off unless the
    environment asks for it.  What a probe asks of the operating system is a request; the
    interpreter raises the request's audit event first, so a guard that refuses keeps the
    request from being made.  The operating system, name resolution and Python's conversions
    of a JSON value to [str], [int] and [float] are parameters. *)
From stdpp Require Import pretty.
From S2P Require Import Prelude PyDict Json Paths PyInt Binding Authority Capabilities NetworkGuard.
From S2P Require Import FilesystemGuard Descriptor SandboxRunner.
Local Open Scope Z_scope.

(** ** Requests to the operating system *)

Inductive SysCall :=
| SysGetpid
| SysSleep (seconds : string)
| SysGetenv (name : string)
| SysStdout (chunk : string)
| SysSpawn   (** a process that starts another and sleeps *)
| SysOpen (target : AccessTarget) (mode : string)
| SysReadFile
| SysWriteFile (content : string)
| SysMkdir (path : string)
| SysRemove (path : string)
| SysRmdir (path : string)
| SysRename (src dst : string)
| SysReplace (src dst : string)
| SysSymlink (src dst : string)
| SysChmod (path : string) (mode : Z)
| SysListdir (path : string)
| SysScandir (path : string)
| SysConnect (address : string) (port : Z) (timeout : string)
| SysSendTo (host : string) (port : Z) (data : string)
| SysFetch (url : string)
| SysUnixConnect (path : string)
| SysBind (host : string) (port : Z).

Definition text_arg (s : string) : EventArg := ArgTarget (TargetText s).

(** The filesystem event of a request. *)
Definition fs_event (c : SysCall) : option (string * list EventArg) :=
  match c with
  | SysOpen t mode => Some ("open", [ArgTarget t; ArgMode mode; ArgFlags 0])
  | SysMkdir p => Some ("os.mkdir", [text_arg p; ArgOther; ArgOther])
  | SysRemove p => Some ("os.remove", [text_arg p; ArgOther])
  | SysRmdir p => Some ("os.rmdir", [text_arg p; ArgOther])
  | SysRename s d | SysReplace s d => Some ("os.rename", [text_arg s; text_arg d; ArgOther; ArgOther])
  | SysSymlink s d => Some ("os.symlink", [text_arg s; text_arg d; ArgOther])
  | SysChmod p _ => Some ("os.chmod", [text_arg p; ArgOther; ArgOther])
  | SysListdir p => Some ("os.listdir", [text_arg p])
  | SysScandir p => Some ("os.scandir", [text_arg p])
  | _ => None
  end%string.

(** The socket event of a request: its name, the socket's family and the address. *)
Definition net_event (c : SysCall) : option (string * option Z * SocketAddress) :=
  match c with
  | SysConnect a p _ => Some ("socket.connect"%string, None, TupleAddress 2 a (Ok p))
  | SysSendTo h p _ => Some ("socket.sendto"%string, None, TupleAddress 2 h (Ok p))
  | SysUnixConnect _ => Some ("socket.connect"%string, Some AF_UNIX, PathAddress)
  | SysBind h p => Some ("socket.bind"%string, None, TupleAddress 2 h (Ok p))
  | _ => None
  end.

Definition FileExistsError : exn := OtherException "FileExistsError".
Definition os_error (e : exn) : bool := is_os_error e || bool_decide (e = FileExistsError).

Section probes.
Context (fs : FileSystem).
Context (getaddrinfo : string -> Z -> result (list string)).
(** The operating system: what a request does and answers, and what [os.path] reads. *)
Context {OS : Type} (os_call : SysCall -> OS -> OS * result json).
Context (os_exists os_isdir : OS -> string -> bool) (missing_ancestors : OS -> string -> list string).
(** [str(v)], [int(v)], [float(v)]; the destinations [urlopen] connects to for a URL. *)
Context (py_str : json -> string) (py_int_of : json -> result Z) (py_float : json -> result string)
        (hops : string -> list (string * Z)).
(** The network guard that is active, if the descriptor has a network capability. *)
Context (net_guard : option NetworkSandboxGuard).

Record ProbeWorld := mkProbeWorld { pw_os : OS; pw_made : list SysCall }.

Abbreviation Probe :=
  (option FilesystemSandboxGuard -> list (string * json) -> ChildContext -> Comp ProbeWorld json).

Definition admitted (guard : option FilesystemSandboxGuard) (c : SysCall) : result unit :=
  _ ← match fs_event c with Some (event, args) => audited fs guard event args | None => Ok tt end;
  match net_event c, net_guard with
  | Some (event, family, address), Some g => audit_network getaddrinfo g event family address
  | _, _ => Ok tt
  end.

(** A request is made when no guard refuses it. *)
Definition request (guard : option FilesystemSandboxGuard) (c : SysCall) : Comp ProbeWorld json := fun w =>
  match admitted guard c with
  | Err e => (w, Err e)
  | Ok _ => let '(o, x) := os_call c (pw_os w) in (mkProbeWorld o (pw_made w ++ [c]), x)
  end.

(** [parameters.get(k, default)] *)
Definition param (k : string) (d : json) (parameters : list (string * json)) : json := default d (dget k parameters).

Definition as_str (v : json) : result string := match v with JStr s => Ok s | _ => Err TypeError end.

(** The first argument of [open]: a path, or a number, which is a descriptor. *)
Definition open_target (v : json) : result AccessTarget :=
  match v with
  | JStr s => Ok (TargetText s)
  | JNum _ | JBool _ => Ok TargetInt
  | _ => Err TypeError
  end.

(** [v == s] for a str [s] *)
Definition is_text (s : string) (v : json) : bool := match v with JStr t => bool_decide (t = s) | _ => false end.

Definition jint (n : Z) : json := JNum (pretty n).

(** ** Process probes *)

Definition run_test_getpid : Probe := fun guard _ _ =>
  pid ← request guard SysGetpid; mret (JObj [("pid"%string, pid)]).

Definition run_test_echo : Probe := fun _ parameters _ =>
  mret (param "message" (JStr "echo") parameters).

Definition run_test_sleep : Probe := fun guard parameters _ =>
  seconds ← liftR (py_float (param "seconds" (JNum "1.0") parameters));
  _ ← request guard (SysSleep seconds);
  mret (JStr ("slept " +:+ seconds +:+ "s")).

Fixpoint dump_keys (guard : option FilesystemSandboxGuard) (keys : list json) (acc : list (string * json))
    : Comp ProbeWorld (list (string * json)) :=
  match keys with
  | [] => mret acc
  | k :: keys =>
      name ← liftR (as_str k);
      v ← request guard (SysGetenv name);
      dump_keys guard keys (dset name v acc)
  end.

Definition run_test_env_dump : Probe := fun guard parameters _ =>
  keys ← liftR (json_iter (param "keys" (JArr []) parameters));
  members ← dump_keys guard keys [];
  mret (JObj members).

Fixpoint repeat_write (guard : option FilesystemSandboxGuard) (n : nat) (chunk : string) : Comp ProbeWorld unit :=
  match n with
  | O => mret tt
  | S n => _ ← request guard (SysStdout chunk); repeat_write guard n chunk
  end.

Definition DEFAULT_CHUNK : string := String.concat "" (repeat "A"%string 1024).

Definition run_test_output_flood : Probe := fun guard parameters _ =>
  count ← liftR (py_int_of (param "count" (JNum "1000") parameters));
  let chunk := py_str (param "chunk" (JStr DEFAULT_CHUNK) parameters) in
  _ ← repeat_write guard (Z.to_nat count) chunk;
  mret (JStr "done_flood").

Definition run_test_fork_and_persist : Probe := fun guard parameters _ =>
  pid ← request guard (SysSpawn);
  let pid_file := param "pid_file" JNull parameters in
  _ ← (if truthy pid_file
       then target ← liftR (open_target pid_file);
            _ ← request guard (SysOpen target "w");
            _ ← request guard (SysWriteFile (py_str pid)); mret tt
       else mret tt);
  mret (JObj [("child_pid"%string, pid)]).

Definition run_test_raise_error : Probe := fun _ parameters _ =>
  let err_type := param "error_type" (JStr "ValueError") parameters in
  if is_text "KeyError" err_type then raise KeyError
  else if is_text "PermissionError" err_type then raise PermissionError
  else raise ValueError.

(** ** Filesystem probes *)

(** [with open(target, mode) as f: f.write(content)]: the characters written. *)
Definition open_and_write (guard : option FilesystemSandboxGuard) (target mode : string) (content : json)
    : Comp ProbeWorld json :=
  _ ← request guard (SysOpen (TargetText target) mode);
  s ← liftR (as_str content);
  _ ← request guard (SysWriteFile s);
  mret (jint (Z.of_nat (String.length s))).

(** One level of [os.makedirs]. *)
Definition make_one (guard : option FilesystemSandboxGuard) (exist_ok : bool) (p : string) : Comp ProbeWorld unit :=
  try_except (_ ← request guard (SysMkdir p); mret tt)
    (fun e => w ← get_state;
       if os_error e && exist_ok && os_isdir (pw_os w) p then mret tt else raise e).

Fixpoint make_ancestors (guard : option FilesystemSandboxGuard) (exist_ok : bool) (l : list string)
    : Comp ProbeWorld unit :=
  match l with
  | [] => mret tt
  | p :: l =>
      _ ← try_except (make_one guard exist_ok p)
            (fun e => if decide (e = FileExistsError) then mret tt else raise e);
      make_ancestors guard exist_ok l
  end.

Definition makedirs (guard : option FilesystemSandboxGuard) (exist_ok : bool) (p : string) : Comp ProbeWorld unit :=
  w ← get_state;
  _ ← make_ancestors guard exist_ok (missing_ancestors (pw_os w) p);
  make_one guard exist_ok p.

(** [os.path.join] of a directory and a name. *)
Definition path_join (dir name : string) : string :=
  if String.prefix "/" name then name
  else if bool_decide (dir = EmptyString) || String.prefix "/" (str_rev dir) then dir +:+ name
  else dir +:+ "/" +:+ name.

Definition required (k : string) (parameters : list (string * json)) : result string :=
  v ← of_option KeyError (dget k parameters); Ok (py_str v).

Definition answering (guard : option FilesystemSandboxGuard) (c : SysCall) (answer : string) : Comp ProbeWorld json :=
  _ ← request guard c; mret (JStr answer).

(** [os.f(str(parameters["src"]), str(parameters["dst"]))] *)
Definition two_paths (guard : option FilesystemSandboxGuard) (parameters : list (string * json))
    (c : string -> string -> SysCall) (answer : string) : Comp ProbeWorld json :=
  src ← liftR (required "src" parameters);
  dst ← liftR (required "dst" parameters);
  answering guard (c src dst) answer.

Definition scratch_write : Probe := fun guard parameters context =>
  match cc_scratch_dir context with
  | Some dir =>
      if negb (str_nonempty dir) then raise ValueError
      else
        name ← liftR (as_str (param "filename" (JStr "scratch.txt") parameters));
        let target := path_join dir name in
        _ ← open_and_write guard target "w" (param "content" (JStr "test content") parameters);
        w ← get_state;
        mret (JObj [("target"%string, JStr target); ("exists"%string, JBool (os_exists (pw_os w) target))])
  | None => raise ValueError
  end.

Definition run_test_file_op : Probe := fun guard parameters context =>
  let op := param "op" (JStr "open_read") parameters in
  let path := py_str (param "path" JNull parameters) in
  let content := param "content" (JStr "test content") parameters in
  if is_text "open_read" op then
      mode ← liftR (as_str (param "mode" (JStr "r") parameters));
      _ ← request guard (SysOpen (TargetText path) mode);
      request guard SysReadFile
  else if is_text "open_write" op then
      write_mode ← liftR (as_str (param "mode" (JStr "w") parameters));
      open_and_write guard path write_mode content
  else if is_text "open_append" op then open_and_write guard path "a" content
  else if is_text "mkdir" op then answering guard (SysMkdir path) "created"
  else if is_text "makedirs" op then
      _ ← makedirs guard (truthy (param "exist_ok" (JBool false) parameters)) path;
      mret (JStr "created_dirs")
  else if is_text "remove" op then answering guard (SysRemove path) "removed"
  else if is_text "rmdir" op then answering guard (SysRmdir path) "removed_dir"
  else if is_text "rename" op then two_paths guard parameters SysRename "renamed"
  else if is_text "replace" op then two_paths guard parameters SysReplace "replaced"
  else if is_text "symlink" op then two_paths guard parameters SysSymlink "symlinked"
  else if is_text "chmod" op then
      mode ← liftR (py_int_of (param "mode_int" (JNum "420") parameters));
      answering guard (SysChmod path mode) "chmodded"
  else if is_text "listdir" op then request guard (SysListdir path)
  else if is_text "scandir" op then request guard (SysScandir path)
  else if is_text "scratch_write" op then scratch_write guard parameters context
  else raise ValueError.

(** ** Network probes *)

(** [socket.create_connection]: the addresses in turn, the last error when none accepts. *)
Fixpoint connect_any (guard : option FilesystemSandboxGuard) (addrs : list string) (port : Z) (timeout : string)
    (last : exn) : Comp ProbeWorld unit :=
  match addrs with
  | [] => raise last
  | a :: addrs =>
      try_except (_ ← request guard (SysConnect a port timeout); mret tt)
        (fun e => if os_error e then connect_any guard addrs port timeout e else raise e)
  end.

Definition create_connection (guard : option FilesystemSandboxGuard) (host : string) (port : Z) (timeout : string)
    : Comp ProbeWorld unit :=
  addrs ← liftR (getaddrinfo host port);
  connect_any guard addrs port timeout OSError.

Fixpoint connect_hops (guard : option FilesystemSandboxGuard) (l : list (string * Z)) (timeout : string)
    : Comp ProbeWorld unit :=
  match l with
  | [] => mret tt
  | (h, p) :: l => _ ← create_connection guard h p timeout; connect_hops guard l timeout
  end.

Definition run_test_network_op : Probe := fun guard parameters _ =>
  let op := param "op" (JStr "tcp_connect") parameters in
  let host := py_str (param "host" JNull parameters) in
  port ← liftR (py_int_of (param "port" (JNum "80") parameters));
  timeout ← liftR (py_float (param "timeout" (JNum "2.0") parameters));
  if is_text "tcp_connect" op then _ ← create_connection guard host port timeout; mret (JStr "connected")
  else if is_text "udp_send" op then
      data ← liftR (as_str (param "data" (JStr "hello") parameters));
      answering guard (SysSendTo host port data) "sent"
  else if is_text "http_get" op then
      let url := py_str (param "url" (JStr ("http://" +:+ host +:+ ":" +:+ pretty port +:+ "/")) parameters) in
      _ ← connect_hops guard (hops url) timeout;
      request guard (SysFetch url)
  else if is_text "unix_connect" op then answering guard (SysUnixConnect (py_str (param "path" (JStr "/var/run/test.sock") parameters))) "unix_connected"
  else if is_text "bind_listener" op then answering guard (SysBind host port) "bound"
  else raise ValueError.

(** ** Registration *)

Definition testing_probes : pydict string Probe :=
  [("test_getpid", run_test_getpid); ("test_echo", run_test_echo); ("test_sleep", run_test_sleep);
   ("test_env_dump", run_test_env_dump); ("test_output_flood", run_test_output_flood);
   ("test_fork_and_persist", run_test_fork_and_persist); ("test_raise_error", run_test_raise_error);
   ("test_file_op", run_test_file_op); ("test_network_op", run_test_network_op)]%string.

(** [register_testing_handlers]: the probes as routines of the child, whose operating system
    starts as [o]. *)
Definition register_testing_handlers (o : OS) : SandboxExecutionRegistry :=
  List.map (fun '(id, probe) =>
    (id, fun guard parameters context => (probe guard parameters context (mkProbeWorld o [])).2)) testing_probes.
End probes.

(** ** Containment *)

Section containment.
Context (fs : FileSystem) (getaddrinfo : string -> Z -> result (list string)).
Context {OS : Type} (os_call : SysCall -> OS -> OS * result json).
Context (os_exists os_isdir : OS -> string -> bool) (missing_ancestors : OS -> string -> list string).
Context (py_str : json -> string) (py_int_of : json -> result Z) (py_float : json -> result string)
        (hops : string -> list (string * Z)) (ng : option NetworkSandboxGuard).
Local Abbreviation W := (ProbeWorld (OS:=OS)).
Local Abbreviation Probe :=
  (option FilesystemSandboxGuard -> list (string * json) -> ChildContext -> Comp W json).
Local Abbreviation admits := (admitted fs getaddrinfo ng).

(** Running [m] only ever adds requests the guards admit. *)
Definition admits_only {A} (guard : option FilesystemSandboxGuard) (m : Comp W A) : Prop :=
  forall w w' x, m w = (w', x) ->
    exists made, pw_made w' = pw_made w ++ made /\ Forall (fun c => admits guard c = Ok tt) made.

Lemma admits_ret {A} guard (a : A) : admits_only guard (mret a : Comp W A).
Proof. intros w w' x [= <- _]. exists []. by rewrite app_nil_r. Qed.

Lemma admits_raise {A} guard e : admits_only guard (raise e : Comp W A).
Proof. intros w w' x [= <- _]. exists []. by rewrite app_nil_r. Qed.

Lemma admits_lift {A} guard (r : result A) : admits_only guard (liftR r : Comp W A).
Proof. intros w w' x [= <- _]. exists []. by rewrite app_nil_r. Qed.

Lemma admits_get guard : admits_only guard (get_state : Comp W W).
Proof. intros w w' x [= <- _]. exists []. by rewrite app_nil_r. Qed.

Lemma admits_bind {A B} guard (m : Comp W A) (f : A -> Comp W B) :
  admits_only guard m -> (forall a, admits_only guard (f a)) -> admits_only guard (m ≫= f).
Proof.
  intros Hm Hf w w' x. unfold mbind, comp_bind. destruct (m w) as [w1 [a|e]] eqn:H1.
  - intros H2. destruct (Hm _ _ _ H1) as (l1 & E1 & F1). destruct (Hf a _ _ _ H2) as (l2 & E2 & F2).
    exists (l1 ++ l2). rewrite E2, E1, app_assoc. split; [done|]. by apply Forall_app.
  - intros [= <- _]. by eapply Hm.
Qed.

Lemma admits_try {A} guard (m : Comp W A) h :
  admits_only guard m -> (forall e, admits_only guard (h e)) -> admits_only guard (try_except m h).
Proof.
  intros Hm Hh w w' x. unfold try_except. destruct (m w) as [w1 [a|e]] eqn:H1.
  - intros [= <- _]. by eapply Hm.
  - intros H2. destruct (Hm _ _ _ H1) as (l1 & E1 & F1). destruct (Hh e _ _ _ H2) as (l2 & E2 & F2).
    exists (l1 ++ l2). rewrite E2, E1, app_assoc. split; [done|]. by apply Forall_app.
Qed.

Lemma admits_request guard c : admits_only guard (request fs getaddrinfo os_call ng guard c).
Proof.
  intros w w' x. unfold request. destruct (admits guard c) as [[]|e] eqn:Ha.
  - destruct (os_call c (pw_os w)) as [o y]. intros [= <- _]. exists [c]. split; [done|]. by repeat constructor.
  - intros [= <- _]. exists []. by rewrite app_nil_r.
Qed.

#[local] Hint Resolve admits_ret admits_raise admits_lift admits_get admits_request : core.

(** Follow a probe's code. *)
Ltac follow := repeat first [done | apply admits_request | apply admits_ret | apply admits_raise | apply admits_lift
  | apply admits_get | apply admits_bind; [|intros ?] | apply admits_try; [|intros ?] | case_match].

Lemma admits_connect guard addrs port timeout last :
  admits_only guard (connect_any fs getaddrinfo os_call ng guard addrs port timeout last).
Proof. revert last. induction addrs as [|a addrs IH]; intros last; simpl; follow; apply IH. Qed.

Lemma admits_hops guard l timeout : admits_only guard (connect_hops fs getaddrinfo os_call ng guard l timeout).
Proof.
  induction l as [|[h p] l IH]; simpl; follow; first [apply admits_connect|apply IH].
Qed.

Lemma admits_keys guard keys acc : admits_only guard (dump_keys fs getaddrinfo os_call ng guard keys acc).
Proof. revert acc. induction keys as [|k keys IH]; intros acc; simpl; follow; apply IH. Qed.

Lemma admits_flood guard n chunk : admits_only guard (repeat_write fs getaddrinfo os_call ng guard n chunk).
Proof. induction n as [|n IH]; simpl; follow; apply IH. Qed.

Lemma admits_one guard ok p : admits_only guard (make_one fs getaddrinfo os_call os_isdir ng guard ok p).
Proof. unfold make_one. follow. Qed.

Lemma admits_ancestors guard ok l : admits_only guard (make_ancestors fs getaddrinfo os_call os_isdir ng guard ok l).
Proof. induction l as [|p l IH]; simpl; follow; first [apply admits_one|apply IH]. Qed.

Lemma admits_written guard t mode v : admits_only guard (open_and_write fs getaddrinfo os_call ng guard t mode v).
Proof. unfold open_and_write. follow. Qed.

Lemma admits_probe id (probe : Probe) guard parameters context :
  (id, probe) ∈ testing_probes fs getaddrinfo os_call os_exists os_isdir missing_ancestors py_str py_int_of py_float
                  hops ng ->
  admits_only guard (probe guard parameters context).
Proof.
  unfold testing_probes. rewrite !elem_of_cons, elem_of_nil. intros H.
  repeat (destruct H as [[= -> ->]|H]); [..|done].
  - unfold run_test_getpid. follow.
  - unfold run_test_echo. follow.
  - unfold run_test_sleep. follow.
  - unfold run_test_env_dump. follow; apply admits_keys.
  - unfold run_test_output_flood. follow; apply admits_flood.
  - unfold run_test_fork_and_persist. follow.
  - unfold run_test_raise_error. follow.
  - unfold run_test_file_op, two_paths, answering, scratch_write, makedirs.
    follow; first [apply admits_written|apply admits_ancestors|apply admits_one].
  - unfold run_test_network_op, create_connection, answering. follow; first [apply admits_connect|apply admits_hops].
Qed.

(** *** What a contained request is *)

Definition readable (g : FilesystemSandboxGuard) (s : string) : Prop :=
  exempt s = true \/ exists p, resolve_target (fs_resolve fs) g s = Ok p /\ access_permitted g p false.

(** Nothing is changed (texts that name no path and the null device apart), nothing is read
    but what the capability lets be read, no address is reached and no port is bound.  What
    goes through files and connections already open raises no event. *)
Definition contained (g : FilesystemSandboxGuard) (c : SysCall) : Prop :=
  match c with
  | SysOpen (TargetText s) mode => exempt s = true \/ mode_writes mode = false /\ readable g s
  | SysOpen _ _ => True   (** a descriptor *)
  | SysMkdir p | SysRemove p | SysRmdir p | SysChmod p _ => exempt p = true
  | SysRename s d | SysReplace s d => exempt s = true /\ exempt d = true
  | SysSymlink s d => readable g s /\ exempt d = true
  | SysListdir p | SysScandir p => readable g p
  | SysConnect _ _ _ | SysSendTo _ _ _ | SysUnixConnect _ | SysBind _ _ => False
  | SysGetpid | SysSleep _ | SysGetenv _ | SysStdout _ | SysSpawn | SysReadFile | SysWriteFile _ | SysFetch _ => True
  end.

Context (g : FilesystemSandboxGuard) (ds : list NetworkDestination).
Hypothesis Hactive : fg_active g = true.
Hypothesis Hread_only : fg_read_only g = true.
Hypothesis Hno_temp : fg_allow_temp_writes g = false.

Lemma write_exempt s : check_access (fs_resolve fs) g (TargetText s) true = Ok tt -> exempt s = true.
Proof.
  intros [?|(p & _ & _ & _ & Hw)]%check_access_text_Ok; [done| |done].
  unfold write_permitted in Hw. rewrite Hread_only, Hno_temp in Hw. by destruct Hw.
Qed.

Lemma read_readable s : check_access (fs_resolve fs) g (TargetText s) false = Ok tt -> readable g s.
Proof. by intros ?%check_access_text_Ok. Qed.

Lemma then_Ok {A} (m : result A) (r : result unit) : (_ ← m; r) = Ok tt -> (exists a, m = Ok a) /\ r = Ok tt.
Proof. destruct m as [a|]; simpl; [|done]. intros ->. by split; [exists a|]. Qed.

(** What the hook decides, event by event. *)
Lemma audit_open t mode :
  audit_filesystem (fs_resolve fs) g "open" [ArgTarget t; ArgMode mode; ArgFlags 0] =
  check_access (fs_resolve fs) g t (mode_writes mode).
Proof. unfold audit_filesystem. by rewrite Hactive. Qed.

Lemma audit_change event p rest :
  event ∈ ["os.mkdir"; "os.rmdir"; "os.remove"; "os.chmod"]%string ->
  audit_filesystem (fs_resolve fs) g event (text_arg p :: rest) = check_access (fs_resolve fs) g (TargetText p) true.
Proof.
  intros H. rewrite !elem_of_cons, elem_of_nil in H. unfold audit_filesystem. rewrite Hactive.
  repeat (destruct H as [->|H]); by try reflexivity.
Qed.

Lemma audit_list event p :
  event ∈ ["os.listdir"; "os.scandir"]%string ->
  audit_filesystem (fs_resolve fs) g event [text_arg p] = check_access (fs_resolve fs) g (TargetText p) false.
Proof.
  intros H. rewrite !elem_of_cons, elem_of_nil in H. unfold audit_filesystem. rewrite Hactive.
  repeat (destruct H as [->|H]); by try reflexivity.
Qed.

Lemma audit_rename s d rest :
  audit_filesystem (fs_resolve fs) g "os.rename" (text_arg s :: text_arg d :: rest) =
  (_ ← check_access (fs_resolve fs) g (TargetText s) true; check_access (fs_resolve fs) g (TargetText d) true).
Proof. unfold audit_filesystem. by rewrite Hactive. Qed.

Lemma audit_symlink s d rest :
  audit_filesystem (fs_resolve fs) g "os.symlink" (text_arg s :: text_arg d :: rest) =
  (_ ← check_access (fs_resolve fs) g (TargetText d) true; check_access (fs_resolve fs) g (TargetText s) false).
Proof. unfold audit_filesystem. by rewrite Hactive. Qed.

Local Abbreviation offline := (activate_network (network_guard (Some NET_DISABLED) ds false false)).

Lemma admitted_contained c : admitted fs getaddrinfo (Some offline) (Some g) c = Ok tt -> contained g c.
Proof.
  unfold admitted. intros [[[] Hf] Hn]%then_Ok. destruct c; simpl in Hf, Hn |- *; try done.
  - rewrite audit_open in Hf. destruct target as [| |s|]; try done.
    destruct (mode_writes mode); [left; by apply write_exempt|right; split; [done|by apply read_readable]].
  - rewrite audit_change in Hf by set_solver. by apply write_exempt.
  - rewrite audit_change in Hf by set_solver. by apply write_exempt.
  - rewrite audit_change in Hf by set_solver. by apply write_exempt.
  - rewrite audit_rename in Hf. apply then_Ok in Hf as [[[] H1] H2]. by split; apply write_exempt.
  - rewrite audit_rename in Hf. apply then_Ok in Hf as [[[] H1] H2]. by split; apply write_exempt.
  - rewrite audit_symlink in Hf. apply then_Ok in Hf as [[[] H1] H2]. split; [by apply read_readable|by apply write_exempt].
  - rewrite audit_change in Hf by set_solver. by apply write_exempt.
  - rewrite audit_list in Hf by set_solver. by apply read_readable.
  - rewrite audit_list in Hf by set_solver. by apply read_readable.
Qed.
End containment.


(** The probes are not in the child's registry unless the environment asks for them; then
    every one of them is, beside the packaged tools. *)
Theorem testing_is_opt_in (fs : FileSystem) getaddrinfo {OS : Type} (os_call : SysCall -> OS -> OS * result json)
    os_exists os_isdir missing_ancestors py_str py_int_of py_float hops ng (o : OS) id :
  let handlers := register_testing_handlers fs getaddrinfo os_call os_exists os_isdir missing_ancestors py_str
                    py_int_of py_float hops ng o in
  id ∈ dkeys handlers ->
  has_implementation id (child_registry fs false handlers) = false /\
  has_implementation id (child_registry fs true handlers) = true.
Proof.
  cbv zeta. unfold dkeys, register_testing_handlers, testing_probes. csimpl.
  rewrite !elem_of_cons, elem_of_nil. intros H.
  repeat (destruct H as [->|H]); [..|done]; by split.
Qed.

(** ** Witness: a probe that tries to write, one that tries to connect *)

Definition probe_fs : FileSystem :=
  mkFileSystem (fun _ => true) (fun _ => false) (fun _ => true) (fun _ => true) sample_resolve sample_resolve
    (fun _ _ => Some true) (fun _ => Some []) (fun _ => Ok "text"%string).
Definition locked_guard : FilesystemSandboxGuard :=
  mkFsGuard (parse_path "/ws") [] true false (Some (parse_path "/tmp/scratch")) None [] true true.
Definition silent_os (c : SysCall) (o : unit) : unit * result json := (o, Ok JNull).
Definition plain_str (v : json) : string := match v with JStr s => s | _ => "None" end%string.
Definition demo_probes :=
  testing_probes probe_fs sample_resolver silent_os (fun _ _ => true) (fun _ _ => true) (fun _ _ => []) plain_str
    (fun _ => Ok 80) (fun _ => Ok "2.0"%string) (fun _ => [])
    (Some (activate_network (network_guard (Some NET_DISABLED) [] false false))).
Definition demo_file_probe :=
  run_test_file_op probe_fs sample_resolver silent_os (fun _ _ => true) (fun _ _ => true) (fun _ _ => []) plain_str
    (fun _ => Ok 80) (Some (activate_network (network_guard (Some NET_DISABLED) [] false false))).
Definition demo_run (op path : string) :=
  demo_file_probe (Some locked_guard) [("op", JStr op); ("path", JStr path)]%string
    (mkChildContext None None None None JNull None) (mkProbeWorld tt []).

