(* ===== verification/Providers.v ===== *)
(** * Language model providers

    [services/ollama_service.py], [services/gemini_service.py] and the adapters over them
    ([providers]): what is sent to the model and what is made of its answer.  The HTTP client,
    the Gemini client and the JSON parser are parameters. *)
From S2P Require Import Prelude PyDict Json Policy Planes Agents Composition Inventory Runtime Executor AgentRuntime.
Local Open Scope Z_scope.
Local Open Scope string_scope.

Definition RuntimeError : exn := OtherException "RuntimeError".

(** What the service uses of a response: the error [raise_for_status] raises, and [json()]. *)
Record HttpResponse := mkHttpResponse { hr_status_error : option exn; hr_json : result json }.

(** [v[k]] *)
Definition subscript (k : string) (v : json) : result json :=
  match v with
  | JObj members => of_option KeyError (dget k members)
  | _ => Err TypeError
  end.

Definition OLLAMA_MODEL : string := "llama3.2:3b".
Definition OLLAMA_URL : string := "http://localhost:11434".
Definition GEMINI_MODEL : string := "gemini-2.5-pro".

Definition chat_message (role content : string) : json := JObj [("role", JStr role); ("content", JStr content)].

Definition ollama_request (model system_prompt user_prompt : string) : json :=
  JObj [("model", JStr model);
        ("messages", JArr [chat_message "system" system_prompt; chat_message "user" user_prompt]);
        ("stream", JBool false)].

Section providers.
Context (post : string -> json -> result HttpResponse).
(** [generate_content] of a client made with a key: the response's text. *)
Context (generate_content : string -> string -> string -> string -> result (option string)).
Context (loads : string -> option json) (getenv : string -> option string).

Definition json_loads (v : json) : result json :=
  match v with JStr s => of_option ValueError (loads s) | _ => Err TypeError end.

Definition ollama_chat (model base_url system_prompt user_prompt : string) : result json :=
  response ← post (base_url +:+ "/api/chat") (ollama_request model system_prompt user_prompt);
  match hr_status_error response with
  | Some e => Err e
  | None =>
      payload ← hr_json response;
      message ← subscript "message" payload;
      content ← subscript "content" message;
      json_loads content
  end.

(** [GeminiService()]: the key, or the refusal to start. *)
Definition gemini_key : result string :=
  match getenv "GEMINI_API_KEY" with
  | Some key => if str_nonempty key then Ok key else Err RuntimeError
  | None => Err RuntimeError
  end.

Definition gemini_chat (api_key system_prompt user_prompt : string) : result json :=
  text ← generate_content api_key GEMINI_MODEL system_prompt user_prompt;
  match text with
  | None => Err RuntimeError
  | Some text => json_loads (JStr text)
  end.

(** [ProviderAdapter.chat] of the adapter a provider is. *)
Definition provider_chat (p : Provider) (system_prompt user_prompt : string) : result json :=
  match p with
  | OllamaProvider => ollama_chat OLLAMA_MODEL OLLAMA_URL system_prompt user_prompt
  | GeminiProvider => key ← gemini_key; gemini_chat key system_prompt user_prompt
  end.

(** The agent over the configured provider. *)
Definition configured_agent (system_prompt agent_id : string) : result EnterpriseAgent :=
  p ← create_provider getenv; Ok (OllamaAgent (provider_chat p system_prompt) agent_id).

(** ** What an answer must be *)

(** The text the model itself produced. *)
Definition model_text (p : Provider) (system_prompt user_prompt text : string) : Prop :=
  match p with
  | OllamaProvider =>
      exists response payload message,
        post (OLLAMA_URL +:+ "/api/chat") (ollama_request OLLAMA_MODEL system_prompt user_prompt) = Ok response /\
        hr_status_error response = None /\ hr_json response = Ok payload /\
        subscript "message" payload = Ok message /\ subscript "content" message = Ok (JStr text)
  | GeminiProvider =>
      exists key, gemini_key = Ok key /\ generate_content key GEMINI_MODEL system_prompt user_prompt = Ok (Some text)
  end.

Lemma provider_chat_Ok p system user v :
  provider_chat p system user = Ok v -> exists text, model_text p system user text /\ loads text = Some v.
Proof.
  destruct p; simpl.
  - unfold ollama_chat. destruct (post _ _) as [response|] eqn:Hp; simpl; [|done].
    destruct (hr_status_error response) eqn:Hs; [done|]. destruct (hr_json response) as [payload|] eqn:Hj; simpl; [|done].
    destruct (subscript "message" payload) as [message|] eqn:Hm; simpl; [|done].
    destruct (subscript "content" message) as [content|] eqn:Hc; simpl; [|done].
    destruct content as [| |text| | |]; simpl; try done. destruct (loads text) eqn:Hl; [|done]. intros [= <-].
    exists text. split; [|done]. by exists response, payload, message.
  - destruct gemini_key as [key|] eqn:Hk; simpl; [|done]. unfold gemini_chat.
    destruct (generate_content _ _ _ _) as [[text|]|] eqn:Hg; simpl; [|done..].
    destruct (loads text) eqn:Hl; [|done]. intros [= <-]. exists text. split; [|done]. by exists key.
Qed.

Lemma text_members_Ok parameters ps :
  mapR text_member parameters = Ok ps -> parameters = (fun p => (p.1, JStr p.2)) <$> ps.
Proof.
  revert ps. induction parameters as [|[k v] parameters IH]; intros ps; simpl; [by intros [= <-]|].
  destruct v; simpl; try done. destruct (mapR text_member parameters) as [qs|]; simpl; [|done].
  intros [= <-]. simpl. by rewrite (IH qs).
Qed.

(** An invocation the configured agent makes is one the model wrote: its text is a JSON
    object naming the tool, with an object of texts as parameters, and nothing of it is
    lost or added. *)
Theorem invocation_is_the_models p system agent_id query iv :
  ea_invoke (OllamaAgent (provider_chat p system) agent_id) query = Ok iv ->
  exists text members,
    model_text p system query text /\ loads text = Some (JObj members) /\
    dget "tool_id" members = Some (JStr (iv_tool_id iv)) /\
    dget "parameters" members = Some (JObj ((fun q => (q.1, JStr q.2)) <$> iv_parameters iv)).
Proof.
  unfold OllamaAgent. simpl. destruct (provider_chat p system query) as [v|] eqn:Hc; simpl; [|done].
  apply provider_chat_Ok in Hc as (text & Ht & Hl). unfold validate_invocation.
  destruct v as [| | | | |members]; try done. destruct (dget "tool_id" members) as [[| |tid| | |]|] eqn:H1; try done.
  destruct (dget "parameters" members) as [[| | | | |parameters]|] eqn:H2; try done.
  destruct (mapR text_member parameters) as [ps|] eqn:Hp; simpl; [|done]. intros [= <-].
  exists text, members. split_and!; [done..|]. simpl. by rewrite <- (text_members_Ok _ _ Hp).
Qed.
End providers.

(** ** A model that fails *)

Section failing.
Context (hmac : string -> string -> string) (float_repr : Z -> string)
        (sha256 : string -> string) (uuid5 : string -> string -> string).
Context {RA RE : Type} `{AdministrativeStateRepository RA} `{EnforcementStateRepository RE}.
Context {Tel XTel Sbx : Type} (emit : RuntimeTelemetry -> Tel -> Tel * result unit)
        (xemit : BehavioralEvent -> XTel -> XTel * result unit)
        (sandbox_execute : SandboxRequest -> Sbx -> Sbx * result SandboxExecutionResult).
Context (path_exists path_is_symlink path_is_dir : Paths.Path -> bool)
        (realpath : Paths.Path -> result Paths.Path)
        (samefile : Paths.Path -> Paths.Path -> option bool)
        (scandir : Paths.Path -> option (list string)).
Context (cfg : RuntimeConfig) (model_dump_json : ToolInvocation -> string).

(** A query whose answer cannot be had or read leaves no trace in the platform, not even a
    session: the call raises. *)
Theorem failing_model_changes_nothing svc query agent_id session_uuid env xenv
    (w w' : PlatformWorld (RA:=RA) (RE:=RE) (Tel:=Tel) (XTel:=XTel) (Sbx:=Sbx)) x e :
  ea_invoke (ars_agent svc) query = Err e ->
  agent_execute hmac float_repr sha256 uuid5 emit xemit sandbox_execute path_exists path_is_symlink
    path_is_dir realpath samefile scandir cfg model_dump_json svc query agent_id session_uuid env xenv w = (w', x) ->
  w' = w /\ (x = Err e \/ x = Err AgentIdentityMismatchError).
Proof.
  intros He. unfold agent_execute. destruct (match agent_id with Some _ => _ | None => _ end).
  - intros [= <- <-]. auto.
  - unfold mbind, comp_bind, liftR. rewrite He. intros [= <- <-]. auto.
Qed.
End failing.
