(* ===== verification/SqlEngine.v ===== *)
(** * Database engine options

    [repositories/sql/engine.py]: the arguments a URL's engine is created with, and the
    connection hook that makes SQLite enforce foreign keys. *)
From S2P Require Import Prelude PyDict.
Local Open Scope string_scope.

(** A keyword argument of [create_engine], as far as the function looks at it. *)
Inductive EngineArg :=
| ArgBool (b : bool)
| ArgInt (n : Z)
| NullPool
| StaticPool
| ArgDict (d : pydict string EngineArg)
| ArgOpaque (repr : string).

Definition is_null_pool (v : option EngineArg) : bool := match v with Some NullPool => true | _ => false end.

(** [d.setdefault(k, v)] *)
Definition setdefault (k : string) (v : EngineArg) (d : pydict string EngineArg) : pydict string EngineArg :=
  match dget k d with Some _ => d | None => dset k v d end.

(** [dict(x)] of the caller's connection arguments. *)
Definition as_dict (v : option EngineArg) : result (pydict string EngineArg) :=
  match v with
  | None => Ok []
  | Some (ArgDict d) => Ok d
  | Some _ => Err TypeError
  end.

Definition is_sqlite (url : string) : bool := String.prefix "sqlite" url.

Definition is_memory_sqlite (url : string) : bool :=
  bool_decide (url = "sqlite://") || bool_decide (url = "sqlite:///:memory:") || str_contains "mode=memory" url.

(** The pool of a client-server database. *)
Record PoolOptions := mkPoolOptions {
  po_pool_size : Z;
  po_max_overflow : Z;
  po_pool_recycle : Z;
  po_pool_pre_ping : bool;
}.

Definition default_pool : PoolOptions := mkPoolOptions 5 10 3600 true.

Definition engine_kwargs (url : string) (echo : bool) (pool : PoolOptions) (kwargs : pydict string EngineArg)
    : result (pydict string EngineArg) :=
  let engine_kwargs := ("echo", ArgBool echo) :: kwargs in
  if is_sqlite url then
    connect_args ← as_dict (dget "connect_args" engine_kwargs);
    let engine_kwargs :=
      dset "connect_args" (ArgDict (setdefault "check_same_thread" (ArgBool false) connect_args)) engine_kwargs in
    Ok (if is_memory_sqlite url then setdefault "poolclass" StaticPool engine_kwargs else engine_kwargs)
  else
    let engine_kwargs :=
      if negb (is_null_pool (dget "poolclass" engine_kwargs))
      then setdefault "max_overflow" (ArgInt (po_max_overflow pool))
             (setdefault "pool_size" (ArgInt (po_pool_size pool)) engine_kwargs)
      else engine_kwargs in
    Ok (setdefault "pool_pre_ping" (ArgBool (po_pool_pre_ping pool))
          (setdefault "pool_recycle" (ArgInt (po_pool_recycle pool)) engine_kwargs)).

(** The engine: what it was created with, and what each connection executes first. *)
Record SqlEngine := mkSqlEngine {
  se_url : string;
  se_kwargs : pydict string EngineArg;
  se_on_connect : list string;
}.

Definition create_sql_engine (url : string) (echo : bool) (pool : PoolOptions) (kwargs : pydict string EngineArg)
    : result SqlEngine :=
  k ← engine_kwargs url echo pool kwargs;
  Ok (mkSqlEngine url k (if is_sqlite url then ["PRAGMA foreign_keys=ON;"] else [])).

Lemma setdefault_keeps k v d k' v' : dget k' d = Some v' -> dget k' (setdefault k v d) = Some v'.
Proof.
  unfold setdefault. destruct (dget k d) eqn:Hk; [done|]. intros H. rewrite dget_dset_ne; [done|]. congruence.
Qed.

Lemma setdefault_missing k v d : dget k d = None -> dget k (setdefault k v d) = Some v.
Proof. unfold setdefault. intros ->. by rewrite dget_dset_eq. Qed.

(** Every SQLite connection enforces foreign keys, an in-memory database is one database for
    the whole process, and what the caller asked for is never overridden. *)
Theorem engine_options url echo pool kwargs engine :
  create_sql_engine url echo pool kwargs = Ok engine ->
  (is_sqlite url = true <-> se_on_connect engine = ["PRAGMA foreign_keys=ON;"]) /\
  (is_sqlite url = true -> is_memory_sqlite url = true -> dget "poolclass" kwargs = None ->
     dget "poolclass" (se_kwargs engine) = Some StaticPool) /\
  (forall k v, k <> "echo" -> k <> "connect_args" -> dget k kwargs = Some v -> dget k (se_kwargs engine) = Some v).
Proof.
  unfold create_sql_engine, engine_kwargs.
  assert (forall k v, k <> "echo" -> dget k kwargs = Some v -> dget k (("echo", ArgBool echo) :: kwargs) = Some v) as He.
  { intros k v Hk Hv. simpl. by rewrite decide_False. }
  assert (forall k v, k <> "echo" -> k <> "connect_args" ->
    dget k (dset "connect_args" v (("echo", ArgBool echo) :: kwargs)) = dget k kwargs) as Hd.
  { intros k v Hk Hc. rewrite dget_dset_ne by done. simpl. by rewrite decide_False. }
  destruct (is_sqlite url) eqn:Hs.
  - destruct (as_dict _) as [d|]; cbn [mbind result_bind]; [|done]. intros [= <-]. split; [done|]. split.
    + intros _ -> Hn. apply setdefault_missing. rewrite <- Hn. by apply Hd.
    + intros k v Hk Hc Hv. cbn [se_kwargs]. rewrite <- Hv.
      destruct (is_memory_sqlite url); [|by apply Hd]. rewrite Hv. apply setdefault_keeps. rewrite <- Hv. by apply Hd.
  - intros [= <-]. split; [done|]. split; [done|]. intros k v Hk Hc Hv. cbn [se_kwargs].
    apply setdefault_keeps, setdefault_keeps. destruct (is_null_pool _); cbn [negb]; [by apply He|].
    by apply setdefault_keeps, setdefault_keeps, He.
Qed.
